(** * marketsAI: economic simulation environments

    A shallow embedding of the four reinforcement-learning environments of
    the repository,

    - [Capital_planner_ma] (capital_mkts/capital_planner_ma.py),
    - [Townsend]           (economies/townsend/townsend_nested.py),
    - [DiffDemandDiscrete] (markets/diff_demand.py),
    - [Durable_sgm]        (markets/durable_sgm.py),

    together with the properties of their [reset] and [step] methods.

    Modelling conventions.

    - Python floats are idealised as real numbers ([R]): [+], [-], [*] are
      exact, [np.log] is [ln], [np.sqrt] is [sqrt], [math.e ** x] is [exp x].
      Rounding, infinities and NaN are outside the model: an operation whose
      result is not a real number stops it ([NotReal]).
    - Python ints are [Z] or [nat] (indices, counters).
    - A [dict] is an association list in insertion order; a missing key
      raises [KeyError].  A list index out of range raises [IndexError].
    - A Python exception is the [Raise] branch of [result]; the state an
      object is left in when a method raises is not modelled.
    - The global random number generators ([random], [np.random]) are an
      [Oracle] handed to each call of a method: the call reads its draws
      from the oracle in program order. *)

From Stdlib Require Import String Ascii.
From Stdlib Require Import Reals Lra Lia List ZArith Bool.
From Stdlib Require Import DecimalString DecimalNat Zfloor.
Import ListNotations.

Open Scope R_scope.

(** ** Python values, exceptions and containers *)

Module Py.

Inductive exn : Type :=
| KeyError (key : string)
| IndexError
| AttributeError (attr : string)
| TypeError
| ValueError
| ZeroDivisionError
| NotReal.
(* [NotReal]: the result of the operation is not a real number (a negative
   base under a power, zero under a negative power, the square root of a
   negative number).  Python continues with a complex number, an infinity
   or NaN, or raises, depending on the types of the operands; the
   real-valued model stops there. *)

Inductive result (A : Type) : Type :=
| Ok (a : A)
| Raise (e : exn).

Arguments Ok {A} a.
Arguments Raise {A} e.

Definition bind {A B} (m : result A) (k : A -> result B) : result B :=
  match m with
  | Ok a => k a
  | Raise e => Raise e
  end.

Notation "x <- m ;; k" := (bind m (fun x => k))
  (at level 61, m at next level, right associativity).
Notation "' p <- m ;; k" := (bind m (fun x => match x with p => k end))
  (at level 61, p pattern, m at next level, right associativity).

(** [[f(x) for x in xs]] where [f] may raise. *)
Fixpoint mapM {A B} (f : A -> result B) (xs : list A) : result (list B) :=
  match xs with
  | [] => Ok []
  | x :: xs' => y <- f x ;; ys <- mapM f xs' ;; Ok (y :: ys)
  end.

(** [range(n)] and [range(a, b)]. *)
Definition range (n : nat) : list nat := seq 0 n.
Definition zrange (a b : Z) : list Z :=
  map (fun i => (a + Z.of_nat i)%Z) (seq 0 (Z.to_nat (b - a))).

(** [l[i]] *)
Definition index {A} (l : list A) (i : nat) : result A :=
  match nth_error l i with
  | Some x => Ok x
  | None => Raise IndexError
  end.

(** [l[a:b]]; slicing never raises. *)
Definition slice {A} (l : list A) (a b : nat) : list A :=
  firstn (b - a) (skipn a l).

(** [enumerate(l)] *)
Definition enumerate {A} (l : list A) : list (nat * A) :=
  combine (seq 0 (length l)) l.

(** [[x for z, x in enumerate(l) if z != i]] *)
Definition others {A} (i : nat) (l : list A) : list A :=
  map snd (filter (fun zx => negb (Nat.eqb (fst zx) i)) (enumerate l)).

(** [[l[i]] + [x for z, x in enumerate(l) if z != i]] *)
Definition self_first {A} (i : nat) (l : list A) : result (list A) :=
  x <- index l i ;; Ok (x :: others i l).

(** [[item for sublist in ll for item in sublist]] *)
Definition flatten {A} (ll : list (list A)) : list A := concat ll.

(** Dictionaries keep insertion order. *)
Definition dict (K V : Type) : Type := list (K * V).

Fixpoint get {K V} (eqb : K -> K -> bool) (k : K) (d : dict K V) : option V :=
  match d with
  | [] => None
  | (k', v) :: d' => if eqb k k' then Some v else get eqb k d'
  end.

(** [d[k] = v]: overwrite in place, or append. *)
Fixpoint set {K V} (eqb : K -> K -> bool) (k : K) (v : V) (d : dict K V)
  : dict K V :=
  match d with
  | [] => [(k, v)]
  | (k', v') :: d' =>
      if eqb k k' then (k', v) :: d' else (k', v') :: set eqb k v d'
  end.

(** [{**a, **b}] *)
Definition merge {K V} (eqb : K -> K -> bool) (a b : dict K V) : dict K V :=
  fold_left (fun acc kv => set eqb (fst kv) (snd kv) acc) b a.

(** [d[k]] for string keys *)
Definition sget {V} (k : string) (d : dict string V) : result V :=
  match get String.eqb k d with
  | Some v => Ok v
  | None => Raise (KeyError k)
  end.

(** [d[t]] for integer keys; the key is not recorded in the exception. *)
Definition zget {V} (t : Z) (d : dict Z V) : result V :=
  match get Z.eqb t d with
  | Some v => Ok v
  | None => Raise (KeyError "<int>")
  end.

(** [dict.values()] *)
Definition values {K V} (d : dict K V) : list V := map snd d.

(** [f"{prefix}{i}"] *)
Definition fstr (prefix : string) (i : nat) : string :=
  (prefix ++ NilEmpty.string_of_uint (Nat.to_uint i))%string.

(** ** Real-number primitives *)

(** [np.sum] *)
Definition np_sum (l : list R) : R := fold_right Rplus 0 l.

(** [np.mean] *)
Definition np_mean (l : list R) : R := np_sum l / INR (length l).

(** [a / b] on Python floats and ints *)
Definition py_div (a b : R) : result R :=
  if Req_dec_T b 0 then Raise ZeroDivisionError else Ok (a / b).

(** [x ** a] on floats, where the result is a real number: a positive
    base, or a zero base under a non-negative exponent ([0 ** 0 = 1],
    [0 ** a = 0] for [a > 0]). *)
Definition py_pow (x a : R) : result R :=
  if Rlt_dec 0 x then Ok (Rpower x a)
  else if Req_dec_T x 0 then
    if Req_dec_T a 0 then Ok 1
    else if Rlt_dec 0 a then Ok 0 else Raise NotReal
  else Raise NotReal.

(** [np.sqrt(x)], where the result is a real number. *)
Definition np_sqrt (x : R) : result R :=
  if Rlt_dec x 0 then Raise NotReal else Ok (sqrt x).

(** [max(a, b)] and [min(a, b)]: the first argument unless the second is
    strictly larger (smaller). *)
Definition py_max (a b : R) : R := if Rlt_dec a b then b else a.
Definition py_min (a b : R) : R := if Rlt_dec b a then b else a.

(** ** Sources of randomness *)

(** What one call of a method draws from the global generators: the [n]-th
    call of [random.choices] picks position [pick n] (reduced modulo the
    size of the population), the [n]-th call of [random.uniform(a, b)]
    returns [a + (b - a) * unit01 n], the [n]-th call of
    [np.random.normal(0, s)] returns [s * gauss n], and the [n]-th sampled
    action component is [act n]. *)
Record Oracle : Type := {
  pick : nat -> nat;
  unit01 : nat -> R;
  gauss : nat -> R;
  act : nat -> R
}.

(** [random.choices(population, weights=w)[0]] *)
Definition choices (population : list nat) (weights : option (list R))
           (u : nat) : result nat :=
  match population with
  | [] => Raise IndexError
  | _ =>
      match weights with
      | Some w =>
          if negb (Nat.eqb (length w) (length population)) then Raise ValueError
          else if Rle_dec (np_sum w) 0 then Raise ValueError
          else index population (u mod length population)
      | None => index population (u mod length population)
      end
  end.

(** Two oracles for the examples: every draw [0], and every draw [1]. *)
Definition zeros : Oracle :=
  {| pick := fun _ => O; unit01 := fun _ => 0; gauss := fun _ => 0;
     act := fun _ => 0 |}.
Definition ones : Oracle :=
  {| pick := fun _ => 1%nat; unit01 := fun _ => 1; gauss := fun _ => 1;
     act := fun _ => 1 |}.

(** [random.uniform(a, b)] *)
Definition uniform (a b u : R) : R := a + (b - a) * u.

(** [np.random.normal(0, scale)] and [rng.normal(0, scale)]: a negative
    scale is refused. *)
Definition normal (scale g : R) : result R :=
  if Rlt_dec scale 0 then Raise ValueError else Ok (scale * g).

End Py.

Import Py.

(** [for x in xs: acc = f(acc, x)] where [f] may raise. *)
Fixpoint foldM {A B} (f : B -> A -> result B) (xs : list A) (b : B)
  : result B :=
  match xs with
  | [] => Ok b
  | x :: xs' => b' <- f b x ;; foldM f xs' b'
  end.

(** [a // b] on floats: the floor of the quotient. *)
Definition floor_div (a b : R) : result Z :=
  if Req_dec_T b 0 then Raise ZeroDivisionError else Ok (Zfloor (a / b)).

(** [ll[i][j]] on a list of lists built by the method itself. *)
Definition nth2 (i j : nat) (ll : list (list R)) : R :=
  nth j (nth i ll []) 0.

(** Values stored in the [info] dictionaries. *)
Inductive value : Type :=
| VFloat (x : R)
| VInt (n : Z)
| VFloats (l : list R)
| VInts (l : list Z)
| VMatrix (ll : list (list R)).

(** ** capital_mkts/capital_planner_ma.py *)

Module Capital_planner_ma.

(** The options read from [env_config], with the [parameters] dictionary
    flattened. *)
Record Config : Type := {
  horizon : Z;
  n_hh : nat;
  n_capital : nat;
  eval_mode : bool;
  analysis_mode : bool;
  max_savings : R;
  bgt_penalty : R;
  shock_idtc_values : list R;
  shock_idtc_transition : list (list R);
  shock_agg_values : list R;
  shock_agg_transition : list (list R);
  delta : R;
  alpha : R;
  phi : R;
  beta : R
}.

(** [Capital_planner_ma()] with an empty [env_config]. *)
Definition default_config : Config := {|
  horizon := 1000;
  n_hh := 1;
  n_capital := 1;
  eval_mode := false;
  analysis_mode := false;
  max_savings := 0.6;
  bgt_penalty := 1;
  shock_idtc_values := [0.9; 1.1];
  shock_idtc_transition := [[0.9; 0.1]; [0.1; 0.9]];
  shock_agg_values := [0.8; 1.2];
  shock_agg_transition := [[0.95; 0.05]; [0.05; 0.95]];
  delta := 0.04;
  alpha := 0.3;
  phi := 0.5;
  beta := 0.98
|}.

(** One agent's observation: (stocks, idiosyncratic shock ids, aggregate
    shock id). *)
Definition observation : Type := (list R * list nat * nat)%type.

(** The attributes of an instance.  The four schedules exist only when the
    mode that builds them is on; [obs_] exists only after [reset]. *)
Record Env : Type := {
  cfg : Config;
  k_ss : R;
  max_s_ij : R;
  shocks_eval_agg : option (dict Z nat);
  shocks_eval_idtc : option (dict Z (list nat));
  shocks_analysis_agg : option (dict Z nat);
  shocks_analysis_idtc : option (dict Z (list nat));
  timestep : option Z;
  obs_ : option (dict string observation)
}.

(** Reading an attribute that may not have been set. *)
Definition attr {A} (name : string) (a : option A) : result A :=
  match a with
  | Some x => Ok x
  | None => Raise (AttributeError name)
  end.

(** [(t // (1 / transition[0][1]) + 1) % 2 == 0] *)
Definition flip (transition : list (list R)) (t : Z) : result bool :=
  row <- index transition 0 ;;
  p <- index row 1 ;;
  period <- py_div 1 p ;;
  q <- floor_div (IZR t) period ;;
  Ok (Z.even (q + 1)).

(** [{0: v0}] followed by [d[t] = f(t)] for [t in range(1, horizon + 1)]. *)
Definition schedule {V} (hor : Z) (v0 : V) (f : Z -> result V)
  : result (dict Z V) :=
  rest <- mapM (fun t => v <- f t ;; Ok (t, v)) (zrange 1 (hor + 1)) ;;
  Ok ((0%Z, v0) :: rest).

Definition init (c : Config) : result Env :=
  (* STEADY STATE *)
  a <- py_div (1 - beta c * (1 - delta c)) (alpha c * beta c) ;;
  b <- py_div (delta c * (INR (n_capital c) - 1)) (INR (n_capital c)) ;;
  e <- py_div 1 (alpha c - 2) ;;
  kss <- py_pow (phi c * delta c * INR (n_hh c) * INR (n_capital c) * (a + b)) e ;;
  (* MAX SAVING RATE PER CAPITAL GOOD *)
  m <- py_div (max_savings c) (INR (n_capital c)) ;;
  let max_s := m * 1.5 in
  ev <-
    (if eval_mode c then
       agg <- schedule (horizon c) 0%nat
                (fun t => f <- flip (shock_agg_transition c) t ;;
                          Ok (if f then 1%nat else 0%nat)) ;;
       idtc <- schedule (horizon c)
                 (map (fun i => 1 - i mod 2)%nat (range (n_hh c)))
                 (fun t => f <- flip (shock_idtc_transition c) t ;;
                           Ok (if f
                               then map (fun i => i mod 2)%nat (range (n_hh c))
                               else map (fun i => 1 - i mod 2)%nat
                                        (range (n_hh c)))) ;;
       Ok (Some agg, Some idtc)
     else Ok (None, None)) ;;
  an <-
    (if analysis_mode c then
       agg <- schedule (horizon c) 0%nat
                (fun t => f <- flip (shock_agg_transition c) t ;;
                          Ok (if f then 1%nat else 0%nat)) ;;
       idtc <- schedule (horizon c)
                 (map (fun _ => 0%nat) (range (n_hh c)))
                 (fun t => f <- flip (shock_idtc_transition c) t ;;
                           Ok (if f
                               then map (fun _ => 0%nat) (range (n_hh c))
                               else map (fun _ => 0%nat) (range (n_hh c)))) ;;
       Ok (Some agg, Some idtc)
     else Ok (None, None)) ;;
  Ok {| cfg := c;
        k_ss := kss;
        max_s_ij := max_s;
        shocks_eval_agg := fst ev;
        shocks_eval_idtc := snd ev;
        shocks_analysis_agg := fst an;
        shocks_analysis_idtc := snd an;
        timestep := None;
        obs_ := None |}.

(** "Reorganize the state so each firm observes his own state first":
    for every household, its own stocks then the others', flattened, and its
    own shock then the others'. *)
Definition reorganize (n : nat) (k_ij : list (list R)) (shocks : list nat)
           (agg : nat) : result (dict string observation) :=
  mapM (fun i =>
          k_perfirm <- self_first i k_ij ;;
          shocks_perfirm <- self_first i shocks ;;
          Ok (fstr "hh_" i, (flatten k_perfirm, shocks_perfirm, agg)))
       (range n).

(** [[list(k[i * n_capital : i * n_capital + n_capital]) for i in range(n_hh)]] *)
Definition per_household (c : Config) (k : list R) : list (list R) :=
  map (fun i => slice k (i * n_capital c) (i * n_capital c + n_capital c))
      (range (n_hh c)).

Definition set_state (self : Env) (t : Z) (o : dict string observation)
  : Env :=
  {| cfg := cfg self;
     k_ss := k_ss self;
     max_s_ij := max_s_ij self;
     shocks_eval_agg := shocks_eval_agg self;
     shocks_eval_idtc := shocks_eval_idtc self;
     shocks_analysis_agg := shocks_analysis_agg self;
     shocks_analysis_idtc := shocks_analysis_idtc self;
     timestep := Some t;
     obs_ := Some o |}.

Definition reset (self : Env) (w : Oracle)
  : result (Env * dict string observation) :=
  let c := cfg self in
  init_state <-
    (if eval_mode c then
       sched_idtc <- attr "shocks_eval_idtc" (shocks_eval_idtc self) ;;
       shocks_idtc_init <- zget 0 sched_idtc ;;
       sched_agg <- attr "shocks_eval_agg" (shocks_eval_agg self) ;;
       shock_agg_init <- zget 0 sched_agg ;;
       Ok (map (fun i => if Nat.even i then k_ss self * 0.9
                         else k_ss self * 0.8)
               (range (n_hh c * n_capital c)),
           shocks_idtc_init, shock_agg_init)
     else if analysis_mode c then
       sched_idtc <- attr "shocks_analysis_idtc" (shocks_analysis_idtc self) ;;
       shocks_idtc_init <- zget 0 sched_idtc ;;
       sched_agg <- attr "shocks_analysis_agg" (shocks_analysis_agg self) ;;
       shock_agg_init <- zget 0 sched_agg ;;
       Ok (map (fun i => if Nat.even i then k_ss self * 0.9
                         else k_ss self * 0.8)
               (range (n_hh c * n_capital c)),
           shocks_idtc_init, shock_agg_init)
     else
       let k_init :=
         map (fun i => uniform (k_ss self * 0.5) (k_ss self * 1.25)
                               (unit01 w i))
             (range (n_hh c * n_capital c)) in
       shocks_idtc_init <-
         mapM (fun i => choices (range (length (shock_idtc_values c))) None
                                (pick w i))
              (range (n_hh c)) ;;
       shock_agg_init <-
         choices (range (length (shock_idtc_values c))) None
                 (pick w (n_hh c)) ;;
       Ok (k_init, shocks_idtc_init, shock_agg_init)) ;;
  let '(k_init, shocks_idtc_init, shock_agg_init) := init_state in
  o <- reorganize (n_hh c) (per_household c k_init) shocks_idtc_init
                  shock_agg_init ;;
  Ok (set_state self 0 o, o).

(** The local variables of [step] that the reward, the next observation and
    the info dictionary are built from. *)
Record Locals : Type := {
  s_ij : list (list R);
  bgt_penalty_ind : list Z;
  k_ij : list (list R);
  y_i : list R;
  c_i : list R;
  utility_i : list R;
  inv_exp_ij : list (list R);
  inv_exp_j : list R;
  inv_j : list R;
  inv_ij : list (list R);
  k_ij_new : list (list R)
}.

(** "unsquash action" *)
Definition unsquash (self : Env) (action_dict : dict string (list R))
  : result (list (list R)) :=
  mapM (fun i =>
          mapM (fun j =>
                  a <- sget (fstr "hh_" i) action_dict ;;
                  a_j <- index a j ;;
                  Ok ((a_j + 1) / 2 * max_s_ij self))
               (range (n_capital (cfg self))))
       (range (n_hh (cfg self))).

(** "correct if bgt constraint is violated": one pass of the loop body on
    row [i], returning the row and its flag. *)
Definition correct_row (n_cap : nat) (row : list R) : list R * Z :=
  if Rlt_dec 1 (np_sum row)
  then (map (fun j => nth j row 0 / np_sum row) (range n_cap), 1%Z)
  else (row, 0%Z).

Definition correct_bgt (n_cap : nat) (s : list (list R))
  : list (list R) * list Z :=
  (map (fun row => fst (correct_row n_cap row)) s,
   map (fun row => snd (correct_row n_cap row)) s).

(** [[np.log(c_i[i]) if c_i[i] > 0 else -self.bgt_penalty
      for i in range(self.n_hh)]] *)
Definition utility (c : Config) (cons : list R) : list R :=
  map (fun i => if Rlt_dec 0 (nth i cons 0) then ln (nth i cons 0)
                else - bgt_penalty c)
      (range (n_hh c)).

Definition locals (self : Env) (k : list R) (shocks_idtc : list R)
           (shock_agg : R) (action_dict : dict string (list R))
  : result Locals :=
  let c := cfg self in
  let n := n_hh c in
  let m := n_capital c in
  s0 <- unsquash self action_dict ;;
  let '(s, flags) := correct_bgt m s0 in
  let kij := per_household c k in
  k_bundle_i <-
    mapM (fun i =>
            foldM (fun acc j =>
                     row <- index kij i ;;
                     k_j <- index row j ;;
                     e <- py_div 1 (INR m) ;;
                     p <- py_pow k_j e ;;
                     Ok (acc * p))
                  (range m) 1)
         (range n) ;;
  y <- mapM (fun i => p <- py_pow (nth i k_bundle_i 0) (alpha c) ;;
                      Ok (nth i shocks_idtc 0 * shock_agg * p))
            (range n) ;;
  let cons :=
    map (fun i => nth i y 0 * (1 - np_sum (nth i s []))) (range n) in
  let util := utility c cons in
  let iexp_ij :=
    map (fun i => map (fun j => nth2 i j s * nth i y 0) (range m))
        (range n) in
  let iexp_j :=
    map (fun j => np_sum (map (fun i => nth2 i j iexp_ij) (range n)))
        (range m) in
  ij <- mapM (fun j => q <- py_div 2 (phi c) ;;
                       np_sqrt (q * nth j iexp_j 0))
             (range m) ;;
  let iij :=
    map (fun i =>
           map (fun j => nth2 i j iexp_ij / py_max (nth j iexp_j 0) 0.0001
                         * nth j ij 0)
               (range m))
        (range n) in
  let knew :=
    map (fun i =>
           map (fun j => nth2 i j kij * (1 - delta c) + nth2 i j iij)
               (range m))
        (range n) in
  Ok {| s_ij := s;
        bgt_penalty_ind := flags;
        k_ij := kij;
        y_i := y;
        c_i := cons;
        utility_i := util;
        inv_exp_ij := iexp_ij;
        inv_exp_j := iexp_j;
        inv_j := ij;
        inv_ij := iij;
        k_ij_new := knew |}.

(** "update shock": the next shock ids, by mode. *)
Definition update_shock (self : Env) (w : Oracle) (t : Z)
           (shocks_idtc_id : list nat) (shock_agg_id : nat)
  : result (list nat * nat) :=
  let c := cfg self in
  if eval_mode c then
    sched_idtc <- attr "shocks_eval_idtc" (shocks_eval_idtc self) ;;
    idtc_new <- zget t sched_idtc ;;
    sched_agg <- attr "shocks_eval_agg" (shocks_eval_agg self) ;;
    agg_new <- zget t sched_agg ;;
    Ok (idtc_new, agg_new)
  else if analysis_mode c then
    sched_idtc <- attr "shocks_analysis_idtc" (shocks_analysis_idtc self) ;;
    idtc_new <- zget t sched_idtc ;;
    sched_agg <- attr "shocks_analysis_agg" (shocks_analysis_agg self) ;;
    agg_new <- zget t sched_agg ;;
    Ok (idtc_new, agg_new)
  else
    idtc_new <-
      mapM (fun i =>
              id <- index shocks_idtc_id i ;;
              weights <- index (shock_idtc_transition c) id ;;
              choices (range (length (shock_idtc_values c))) (Some weights)
                      (pick w i))
           (range (n_hh c)) ;;
    weights <- index (shock_agg_transition c) shock_agg_id ;;
    agg_new <- choices (range (length (shock_agg_values c))) (Some weights)
                       (pick w (n_hh c)) ;;
    Ok (idtc_new, agg_new).

(** "CREATE INFO" *)
Definition create_info (self : Env) (v : Locals)
  : dict string (dict string value) :=
  let c := cfg self in
  if negb (analysis_mode c) then []
  else
    let info_global :=
      [("hh_0"%string,
        [("savings"%string, VMatrix (s_ij v));
         ("reward"%string, VFloat (np_mean (utility_i v)));
         ("income"%string, VFloats (y_i v));
         ("consumption"%string, VFloats (c_i v));
         ("bgt_penalty"%string, VInts (bgt_penalty_ind v));
         ("capital"%string, VMatrix (k_ij v));
         ("capital_new"%string, VMatrix (k_ij_new v))])] in
    let info_ind :=
      map (fun i =>
             (fstr "hh_" i,
              [("savings"%string, VFloats (nth i (s_ij v) []));
               ("reward"%string, VFloat (np_mean (utility_i v)));
               ("income"%string, VFloat (nth i (y_i v) 0));
               ("consumption"%string, VFloat (nth i (c_i v) 0));
               ("bgt_penalty"%string, VInt (nth i (bgt_penalty_ind v) 0%Z));
               ("capital"%string, VFloats (nth i (k_ij v) []));
               ("capital_new"%string, VFloats (nth i (k_ij_new v) []))]))
          (seq 1 (n_hh c - 1)) in
    merge String.eqb info_global info_ind.

(** What [step] returns. *)
Record Return : Type := {
  obs : dict string observation;
  rew : dict string R;
  done : dict string bool;
  info : dict string (dict string value)
}.

Definition step (self : Env) (w : Oracle) (action_dict : dict string (list R))
  : result (Env * Return) :=
  let c := cfg self in
  (* 0. UPDATE recursive structure *)
  t0 <- match timestep self with
        | Some t => Ok t
        | None => Raise TypeError
        end ;;
  let t := (t0 + 1)%Z in
  o <- attr "obs_" (obs_ self) ;;
  ' (k, shocks_idtc_id, shock_agg_id) <- sget "hh_0" o ;;
  shocks_idtc <-
    mapM (fun i => id <- index shocks_idtc_id i ;;
                   index (shock_idtc_values c) id)
         (range (n_hh c)) ;;
  shock_agg <- index (shock_agg_values c) shock_agg_id ;;
  (* 1. PREPROCESS action and state *)
  v <- locals self k shocks_idtc shock_agg action_dict ;;
  (* 2. NEXT OBS *)
  ' (shocks_idtc_id_new, shock_agg_id_new) <-
    update_shock self w t shocks_idtc_id shock_agg_id ;;
  o' <- reorganize (n_hh c) (k_ij_new v) shocks_idtc_id_new
                   shock_agg_id_new ;;
  (* 3. CALCULATE REWARD *)
  let r := map (fun i => (fstr "hh_" i, np_mean (utility_i v)))
               (range (n_hh c)) in
  (* DONE FLAGS *)
  let d := if (t <? horizon c)%Z then [("__all__"%string, false)]
           else [("__all__"%string, true)] in
  Ok (set_state self t o',
      {| obs := o'; rew := r; done := d; info := create_info self v |}).

(** Two households with one capital good each, an episode of two steps in
    analysis mode, and a savings ceiling above the budget. *)
Definition example_config : Config := {|
  horizon := 2;
  n_hh := 2;
  n_capital := 1;
  eval_mode := false;
  analysis_mode := true;
  max_savings := 1;
  bgt_penalty := 1;
  shock_idtc_values := [0.9; 1.1];
  shock_idtc_transition := [[0.9; 0.1]; [0.1; 0.9]];
  shock_agg_values := [0.8; 1.2];
  shock_agg_transition := [[0.95; 0.05]; [0.05; 0.95]];
  delta := 0.04;
  alpha := 0.3;
  phi := 0.5;
  beta := 0.98
|}.

(** Household 0 saves as much as it can, household 1 half of that. *)
Definition example_actions : dict string (list R) :=
  [("hh_0"%string, [1]); ("hh_1"%string, [0])].

(** The steady state of [example_config]. *)
Definition example_k_ss : R :=
  Rpower (0.5 * 0.04 * INR 2 * INR 1
          * ((1 - 0.98 * (1 - 0.04)) / (0.3 * 0.98)
             + 0.04 * (INR 1 - 1) / INR 1))
         (1 / (0.3 - 2)).

(** The instance [Capital_planner_ma(example_config)]
    ([CapitalProps.example_init]). *)
Definition example : Env := {|
  cfg := example_config;
  k_ss := example_k_ss;
  max_s_ij := 1 / INR 1 * 1.5;
  shocks_eval_agg := None;
  shocks_eval_idtc := None;
  shocks_analysis_agg := Some [(0, 0%nat); (1, 0%nat); (2, 0%nat)]%Z;
  shocks_analysis_idtc :=
    Some [(0, [0; 0]%nat); (1, [0; 0]%nat); (2, [0; 0]%nat)]%Z;
  timestep := None;
  obs_ := None
|}.

(** The observations of the example when the households hold [k0] and
    [k1] and every shock is in its first state. *)
Definition example_obs_of (k0 k1 : R) : dict string observation :=
  [("hh_0"%string, ([k0; k1], [0; 0]%nat, 0%nat));
   ("hh_1"%string, ([k1; k0], [0; 0]%nat, 0%nat))].

(** What [example.reset()] returns ([CapitalProps.example_reset_Ok]). *)
Definition example_obs : dict string observation :=
  example_obs_of (example_k_ss * 0.9) (example_k_ss * 0.8).

(** [self.observation_space[f"hh_{i}"]]: the shape of the [Box] of stocks
    (whose lower bound is 0 and whose upper bound is infinite), the sizes of
    the [MultiDiscrete] of idiosyncratic shocks and the size of the
    [Discrete] of the aggregate shock. *)
Record Space : Type := {
  box_shape : nat;
  multi_discrete : list nat;
  discrete : nat
}.

Definition observation_space (c : Config) : dict string Space :=
  map (fun i =>
         (fstr "hh_" i,
          {| box_shape := n_hh c * n_capital c;
             multi_discrete :=
               map (fun _ => List.length (shock_idtc_values c))
                   (range (n_hh c));
             discrete := List.length (shock_agg_values c) |}))
      (range (n_hh c)).

(** Membership of an observation in such a space: the stocks have the
    shape of the box and are not negative, every idiosyncratic shock id is
    below its size, and so is the aggregate one. *)
Definition contains (sp : Space) (o : observation) : Prop :=
  let '(k, ids, aid) := o in
  List.length k = box_shape sp /\
  Forall (fun x => 0 <= x) k /\
  Forall2 (fun id n => (id < n)%nat) ids (multi_discrete sp) /\
  (aid < discrete sp)%nat.

(** An instance of the default configuration (learning mode, one
    household, one capital good) whose steady state is 1. *)
Definition example_default : Env := {|
  cfg := default_config;
  k_ss := 1;
  max_s_ij := 0.6 / INR 1 * 1.5;
  shocks_eval_agg := None;
  shocks_eval_idtc := None;
  shocks_analysis_agg := None;
  shocks_analysis_idtc := None;
  timestep := None;
  obs_ := None
|}.

(** The default configuration in evaluation mode, with an episode of 60
    steps. *)
Definition example_eval_config : Config := {|
  horizon := 60;
  n_hh := 2;
  n_capital := 1;
  eval_mode := true;
  analysis_mode := false;
  max_savings := 0.6;
  bgt_penalty := 1;
  shock_idtc_values := [0.9; 1.1];
  shock_idtc_transition := [[0.9; 0.1]; [0.1; 0.9]];
  shock_agg_values := [0.8; 1.2];
  shock_agg_transition := [[0.95; 0.05]; [0.05; 0.95]];
  delta := 0.04;
  alpha := 0.3;
  phi := 0.5;
  beta := 0.98
|}.

(** The default configuration without any capital good. *)
Definition no_capital_config : Config := {|
  horizon := 1000;
  n_hh := 1;
  n_capital := 0;
  eval_mode := false;
  analysis_mode := false;
  max_savings := 0.6;
  bgt_penalty := 1;
  shock_idtc_values := [0.9; 1.1];
  shock_idtc_transition := [[0.9; 0.1]; [0.1; 0.9]];
  shock_agg_values := [0.8; 1.2];
  shock_agg_transition := [[0.95; 0.05]; [0.05; 0.95]];
  delta := 0.04;
  alpha := 0.3;
  phi := 0.5;
  beta := 0.98
|}.

(** An instance in the default (learning) mode with three idiosyncratic
    shock states and two aggregate ones. *)
Definition example_learning_config : Config := {|
  horizon := 2;
  n_hh := 1;
  n_capital := 1;
  eval_mode := false;
  analysis_mode := false;
  max_savings := 0.6;
  bgt_penalty := 1;
  shock_idtc_values := [0.9; 1; 1.1];
  shock_idtc_transition := [[0.8; 0.1; 0.1]; [0.1; 0.8; 0.1]; [0.1; 0.1; 0.8]];
  shock_agg_values := [0.8; 1.2];
  shock_agg_transition := [[0.95; 0.05]; [0.05; 0.95]];
  delta := 0.04;
  alpha := 0.3;
  phi := 0.5;
  beta := 0.98
|}.

Definition example_learning : Env := {|
  cfg := example_learning_config;
  k_ss := 1;
  max_s_ij := 0.6 / INR 1 * 1.5;
  shocks_eval_agg := None;
  shocks_eval_idtc := None;
  shocks_analysis_agg := None;
  shocks_analysis_idtc := None;
  timestep := None;
  obs_ := None
|}.

End Capital_planner_ma.

(** ** economies/townsend/townsend_nested.py *)

Module Townsend.

Record Config : Type := {
  horizon : Z;
  n_industries : nat;
  rental_shock : bool;
  eval_mode : bool;
  analysis_mode : bool;
  seed_eval : Z;
  seed_analysis : Z;
  simul_mode : bool;
  max_savings : R;
  k_ss : R;
  max_price : R;
  max_cap : R;
  rew_mean : R;
  rew_std : R;
  normalize : bool;
  delta : R;
  alpha : R;
  beta : R;
  phi : R;
  A : R;
  tfp : R;
  rho : R;
  theta_0 : R;
  var_w : R;
  var_epsilon : R;
  var_theta : R
}.

(** [Townsend()] with an empty [env_config]. *)
Definition default_config : Config := {|
  horizon := 200;
  n_industries := 1;
  rental_shock := false;
  eval_mode := false;
  analysis_mode := false;
  seed_eval := 10;
  seed_analysis := 20;
  simul_mode := false;
  max_savings := 0.6;
  k_ss := 1;
  max_price := 60;
  max_cap := 100;
  rew_mean := 0;
  rew_std := 1;
  normalize := false;
  delta := 0;
  alpha := 1;
  beta := 0.99;
  phi := 1;
  A := 1;
  tfp := 1;
  rho := 0.8;
  theta_0 := 0;
  var_w := 1;
  var_epsilon := 1;
  var_theta := 1
|}.

(** [self.obs_global]: [[k, p, theta, shock_agg, shock_idtc, shock_rent]];
    the last entry is the integer [0] after [reset] and a list after
    [step]. *)
Record Global : Type := {
  g_k : list R;
  g_prices : list R;
  g_theta : R;
  g_shock_agg : R;
  g_shock_idtc : list R;
  g_shock_rent : value
}.

(** The attributes of an instance.  [max_cap_norm] and [max_price_norm] are
    set only by the normalisation at the end of [__init__]; [n_firms] is
    read by [reset] and set nowhere in the class; [obs_] and [obs_global]
    exist only after [reset]. *)
Record Env : Type := {
  cfg : Config;
  cur_simul_mode : bool;
  cur_rew_mean : R;
  cur_rew_std : R;
  shocks_agg_seeded : dict Z R;
  shocks_idtc_seeded : dict Z (list R);
  norm_ind : bool;
  max_cap_norm : option R;
  max_price_norm : option R;
  n_firms : option nat;
  timestep : option Z;
  obs_ : option (dict string (list R));
  obs_global : option Global
}.

Definition attr {A} (name : string) (a : option A) : result A :=
  match a with
  | Some x => Ok x
  | None => Raise (AttributeError name)
  end.

(** What [step] returns. *)
Record Return : Type := {
  obs : dict string (list R);
  rew : dict string R;
  done : dict string bool;
  info : dict string (dict string value)
}.

Section WithGenerator.

(** [np.random.default_rng(seed)]: [default_rng seed n] is the [n]-th
    standard normal variate the seeded generator produces, so that its
    [n]-th call [rng.normal(0, s)] returns [s * default_rng seed n]. *)
Variable default_rng : Z -> nat -> R.

(** "put your own state first" *)
Definition perindustry (n : nat) (p : list R) : result (list (list R)) :=
  mapM (fun i => self_first i p) (range n).

Definition set_state (self : Env) (t : Z) (o : dict string (list R))
           (g : Global) : Env :=
  {| cfg := cfg self;
     cur_simul_mode := cur_simul_mode self;
     cur_rew_mean := cur_rew_mean self;
     cur_rew_std := cur_rew_std self;
     shocks_agg_seeded := shocks_agg_seeded self;
     shocks_idtc_seeded := shocks_idtc_seeded self;
     norm_ind := norm_ind self;
     max_cap_norm := max_cap_norm self;
     max_price_norm := max_price_norm self;
     n_firms := n_firms self;
     timestep := Some t;
     obs_ := Some o;
     obs_global := Some g |}.

Definition reset (self : Env) (w : Oracle)
  : result (Env * dict string (list R)) :=
  let c := cfg self in
  let n := n_industries c in
  init_state <-
    (if eval_mode c then
       nf <- attr "n_firms" (n_firms self) ;;
       shock_idtc_init <- zget 0 (shocks_idtc_seeded self) ;;
       shock_agg_init <- zget 0 (shocks_agg_seeded self) ;;
       Ok (map (fun i => if Nat.even i then k_ss c * 0.9 else k_ss c * 0.8)
               (range (n * nf)),
           shock_idtc_init, shock_agg_init)
     else if analysis_mode c then
       nf <- attr "n_firms" (n_firms self) ;;
       shock_idtc_init <- zget 0 (shocks_idtc_seeded self) ;;
       shock_agg_init <- zget 0 (shocks_agg_seeded self) ;;
       Ok (map (fun i => if Nat.even i then k_ss c * 0.9 else k_ss c * 0.8)
               (range (n * nf)),
           shock_idtc_init, shock_agg_init)
     else
       nf <- attr "n_firms" (n_firms self) ;;
       shock_idtc_init <-
         mapM (fun i => normal (var_epsilon c) (gauss w i)) (range n) ;;
       shock_agg_init <- normal (var_theta c) (gauss w n) ;;
       Ok (map (fun i => uniform (k_ss c * 0.5) (k_ss c * 30) (unit01 w i))
               (range (n * nf)),
           shock_idtc_init, shock_agg_init)) ;;
  let '(k_init, shock_idtc_init, shock_agg_init) := init_state in
  (* Useful variables *)
  let theta_init := theta_0 c in
  u_init <- mapM (fun i => e <- index shock_idtc_init i ;; Ok (theta_init + e))
                 (range n) ;;
  y_init <- mapM (fun i => k <- index k_init i ;;
                           p <- py_pow k (alpha c) ;;
                           Ok (tfp c * p))
                 (range n) ;;
  p_init <-
    (if norm_ind self then
       mapM (fun i => m <- attr "max_price_norm" (max_price_norm self) ;;
                      Ok (py_max (m - A c * nth i y_init 0 + nth i u_init 0)
                                 0))
            (range n)
     else
       Ok (map (fun i => max_price c - A c * nth i y_init 0 + nth i u_init 0)
               (range n))) ;;
  p_init_perindustry <- perindustry n p_init ;;
  o <- mapM (fun i => k <- index k_init i ;;
                      Ok (fstr "firm_" i,
                          k :: nth i p_init_perindustry []))
            (range n) ;;
  let g := {| g_k := k_init;
              g_prices := p_init;
              g_theta := theta_init;
              g_shock_agg := shock_agg_init;
              g_shock_idtc := shock_idtc_init;
              g_shock_rent := VInt 0 |} in
  Ok (set_state self 0 o g, o).

(** The local variables of [step]. *)
Record Locals : Type := {
  shock_idtc : list R;
  shock_agg : R;
  shock_rent : list R;
  theta : R;
  s : list R;
  y : list R;
  prices : list R;
  k_new : list R;
  utility : list R
}.

(** "Shocks": seeded in evaluation and analysis mode, drawn otherwise; the
    rental shock is drawn whenever it is switched on. *)
Definition draw_shocks (self : Env) (w : Oracle) (t : Z)
  : result (list R * R * list R) :=
  let c := cfg self in
  let n := n_industries c in
  ' (idtc, agg, used) <-
    (if eval_mode c || analysis_mode c then
       idtc <- zget t (shocks_idtc_seeded self) ;;
       agg <- zget t (shocks_agg_seeded self) ;;
       Ok (idtc, agg, 0%nat)
     else
       idtc <- mapM (fun i => normal (var_epsilon c) (gauss w i))
                    (range n) ;;
       agg <- normal (var_theta c) (gauss w n) ;;
       Ok (idtc, agg, S n)) ;;
  rent <-
    (if rental_shock c
     then mapM (fun i => normal (var_w c) (gauss w (used + i))) (range n)
     else Ok (map (fun _ => 0) (range n))) ;;
  Ok (idtc, agg, rent).

Definition locals (self : Env) (w : Oracle) (t : Z) (g : Global)
           (action_dict : dict string (list R)) : result Locals :=
  let c := cfg self in
  let n := n_industries c in
  let k := g_k g in
  ' (idtc, agg, rent) <- draw_shocks self w t ;;
  let th := rho c * g_theta g + agg in
  u <- mapM (fun i => e <- index idtc i ;; Ok (th + e)) (range n) ;;
  (* unsquash action *)
  sv <- mapM (fun i => a <- sget (fstr "firm_" i) action_dict ;;
                       a0 <- index a 0 ;;
                       Ok ((a0 + 1) / 2 * max_savings c))
             (range n) ;;
  (* Useful variables *)
  yv <- mapM (fun i => k_i <- index k i ;;
                       p <- py_pow k_i (alpha c) ;;
                       Ok (tfp c * p))
             (range n) ;;
  (* 2. NEXT OBS *)
  ' (pr, kn) <-
    (if norm_ind self then
       pr <- mapM (fun i => m <- attr "max_price_norm" (max_price_norm self) ;;
                            Ok (py_max (m - A c * nth i yv 0 + nth i u 0) 0))
                  (range n) ;;
       kn <- mapM (fun i => m <- attr "max_cap_norm" (max_cap_norm self) ;;
                            Ok (py_min (nth i k 0 * (1 - delta c)
                                        + nth i sv 0 * nth i yv 0) m))
                  (range n) ;;
       Ok (pr, kn)
     else
       Ok (map (fun i => py_max (max_price c - A c * nth i yv 0 + nth i u 0)
                                0)
               (range n),
           map (fun i => py_min (nth i k 0 * (1 - delta c)
                                 + nth i sv 0 * nth i yv 0) (max_cap c))
               (range n))) ;;
  let ut :=
    map (fun i => nth i pr 0 * (1 - nth i sv 0) * nth i yv 0
                  - nth i rent 0 * nth i k 0
                  - phi c * (nth i kn 0 - nth i k 0) ^ 2)
        (range n) in
  Ok {| shock_idtc := idtc;
        shock_agg := agg;
        shock_rent := rent;
        theta := th;
        s := sv;
        y := yv;
        prices := pr;
        k_new := kn;
        utility := ut |}.

(** "CREATE INFO" *)
Definition create_info (self : Env) (k : list R) (v : Locals)
  : dict string (dict string value) :=
  let c := cfg self in
  if negb (analysis_mode c) && negb (cur_simul_mode self) then []
  else
    let info_global :=
      [("firm_0"%string,
        [("savings"%string, VFloats (s v));
         ("reward"%string, VFloats (utility v));
         ("income"%string, VFloats (y v));
         ("capital"%string, VFloats k);
         ("capital_new"%string, VFloats (k_new v));
         ("prices"%string, VFloats (prices v))])] in
    let info_ind :=
      map (fun i =>
             (fstr "firm_" i,
              [("savings"%string, VFloat (nth i (s v) 0));
               ("reward"%string, VFloat (nth i (utility v) 0));
               ("income"%string, VFloat (nth i (y v) 0));
               ("capital"%string, VFloat (nth i k 0));
               ("capital_new"%string, VFloat (nth i (k_new v) 0));
               ("prices"%string, VFloat (nth i (prices v) 0))]))
          (seq 1 (n_industries c - 1)) in
    merge String.eqb info_global info_ind.

Definition step (self : Env) (w : Oracle) (action_dict : dict string (list R))
  : result (Env * Return) :=
  let c := cfg self in
  let n := n_industries c in
  (* 0. UPDATE recursive structure *)
  t0 <- match timestep self with
        | Some t => Ok t
        | None => Raise TypeError
        end ;;
  let t := (t0 + 1)%Z in
  g <- attr "obs_global" (obs_global self) ;;
  v <- locals self w t g action_dict ;;
  (* reorganize state so each industry sees his state first *)
  price_perindustry <- perindustry n (prices v) ;;
  (* create obs dict *)
  let o := map (fun i => (fstr "firm_" i,
                          nth i (k_new v) 0 :: nth i price_perindustry []))
               (range n) in
  let g' := {| g_k := k_new v;
               g_prices := prices v;
               g_theta := theta v;
               g_shock_agg := shock_agg v;
               g_shock_idtc := shock_idtc v;
               g_shock_rent := VFloats (shock_rent v) |} in
  (* 3. CALCULATE REWARD *)
  r <- mapM (fun i => q <- py_div (nth i (utility v) 0 - cur_rew_mean self)
                                  (cur_rew_std self) ;;
                      Ok (fstr "firm_" i, q))
            (range n) ;;
  (* DONE FLAGS *)
  let d := if (t <? horizon c)%Z then [("__all__"%string, false)]
           else [("__all__"%string, true)] in
  Ok (set_state self t o g',
      {| obs := o; rew := r; done := d;
         info := create_info self (g_k g) v |}).

(** [[np.max(l), np.min(l), np.mean(l), np.std(l)]] of a list of lists;
    the extrema of an empty array raise [ValueError]. *)
Definition stats (ll : list (list R)) : result (R * R * R * R) :=
  match flatten ll with
  | [] => Raise ValueError
  | x :: xs =>
      let l := x :: xs in
      let mu := np_mean l in
      Ok (fold_left Rmax xs x, fold_left Rmin xs x, mu,
          sqrt (np_mean (map (fun z => (z - mu) ^ 2) l)))
  end.

(** [v[i]] on a value of an info dictionary. *)
Definition vindex (v : value) (i : nat) : result R :=
  match v with
  | VFloats l => index l i
  | _ => Raise TypeError
  end.

(** [ll[i].append(x)] *)
Fixpoint append_at (i : nat) (x : R) (ll : list (list R))
  : list (list R) :=
  match ll, i with
  | [], _ => []
  | l :: ll', O => (l ++ [x]) :: ll'
  | l :: ll', S i' => l :: append_at i' x ll'
  end.

Definition set_simul_mode (self : Env) (b : bool) : Env :=
  {| cfg := cfg self;
     cur_simul_mode := b;
     cur_rew_mean := cur_rew_mean self;
     cur_rew_std := cur_rew_std self;
     shocks_agg_seeded := shocks_agg_seeded self;
     shocks_idtc_seeded := shocks_idtc_seeded self;
     norm_ind := norm_ind self;
     max_cap_norm := max_cap_norm self;
     max_price_norm := max_price_norm self;
     n_firms := n_firms self;
     timestep := timestep self;
     obs_ := obs_ self;
     obs_global := obs_global self |}.

(** The body of [for t in range(NUM_PERIODS)] in [random_sample]; iteration
    [t] hands oracle [ws (2 * t)] to [reset] and [ws (2 * t + 1)] to the
    action sampler and to [step]. *)
Fixpoint sample_loop (ts : list nat) (ws : nat -> Oracle) (self : Env)
         (lists : list (list R) * list (list R) * list (list R))
  : result (Env * (list (list R) * list (list R) * list (list R))) :=
  match ts with
  | [] => Ok (self, lists)
  | t :: ts' =>
      let n := n_industries (cfg self) in
      self1 <- (if (t mod 1000 =? 0)%nat
                then ' (e, _) <- reset self (ws (2 * t)%nat) ;; Ok e
                else Ok self) ;;
      let w := ws (2 * t + 1)%nat in
      ' (self2, ret) <-
        step self1 w (map (fun i => (fstr "firm_" i, [act w i])) (range n)) ;;
      lists' <-
        foldM (fun acc i =>
                 let '(k_list, p_list, rew_list) := acc in
                 ind <- sget "industry_0" (info ret) ;;
                 cap <- sget "capital" ind ;;
                 cap_i <- vindex cap i ;;
                 firm <- sget "firm_0" (info ret) ;;
                 pr <- sget "prices" firm ;;
                 pr_i <- vindex pr i ;;
                 r <- sget "firm_0" (rew ret) ;;
                 Ok (append_at i cap_i k_list, append_at i pr_i p_list,
                     append_at i r rew_list))
              (range n) lists ;;
      sample_loop ts' ws self2 lists'
  end.

Definition random_sample (self : Env) (NUM_PERIODS : nat)
           (ws : nat -> Oracle)
  : result (Env * ((R * R * R * R) * (R * R * R * R) * (R * R * R * R))) :=
  let simul_mode_org := cur_simul_mode self in
  let n := n_industries (cfg self) in
  let empty := map (fun _ => @nil R) (range n) in
  ' (self', (k_list, p_list, rew_list)) <-
    sample_loop (range NUM_PERIODS) ws (set_simul_mode self true)
                (empty, empty, empty) ;;
  cap_stats <- stats k_list ;;
  price_stats <- stats p_list ;;
  rew_stats <- stats rew_list ;;
  Ok (set_simul_mode self' simul_mode_org,
      (cap_stats, price_stats, rew_stats)).

Definition init (c : Config) (ws : nat -> Oracle) : result Env :=
  let n := n_industries c in
  let seed := if eval_mode c then seed_eval c else seed_analysis c in
  let ts := zrange 0 (horizon c + 1) in
  agg <-
    mapM (fun t => x <- normal (var_theta c)
                          (default_rng seed (Z.to_nat t)) ;;
                   Ok (t, x))
         ts ;;
  idtc <-
    mapM (fun t =>
            l <- mapM (fun i => normal (var_epsilon c)
                                  (default_rng seed
                                     (List.length ts + Z.to_nat t * n + i)))
                      (range n) ;;
            Ok (t, l))
         ts ;;
  let self :=
    {| cfg := c;
       cur_simul_mode := simul_mode c;
       cur_rew_mean := rew_mean c;
       cur_rew_std := rew_std c;
       shocks_agg_seeded := agg;
       shocks_idtc_seeded := idtc;
       norm_ind := false;
       max_cap_norm := None;
       max_price_norm := None;
       n_firms := None;
       timestep := None;
       obs_ := None;
       obs_global := None |} in
  if normalize c then
    ' (self', (cap_stats, price_stats, rew_stats)) <-
      random_sample self (Z.to_nat 10000) ws ;;
    let '(cap_max, _, cap_mean, _) := cap_stats in
    let '(_, price_min, _, _) := price_stats in
    let '(_, _, _, rew_sd) := rew_stats in
    Ok {| cfg := c;
          cur_simul_mode := cur_simul_mode self';
          cur_rew_mean := cap_mean;
          cur_rew_std := rew_sd;
          shocks_agg_seeded := shocks_agg_seeded self';
          shocks_idtc_seeded := shocks_idtc_seeded self';
          norm_ind := true;
          max_cap_norm := Some cap_max;
          max_price_norm := Some (- price_min);
          n_firms := n_firms self';
          timestep := timestep self';
          obs_ := obs_ self';
          obs_global := obs_global self' |}
  else Ok self.

End WithGenerator.

(** The caller's assignment [env.n_firms = nf], which the class itself
    never makes. *)
Definition with_n_firms (self : Env) (nf : nat) : Env :=
  {| cfg := cfg self;
     cur_simul_mode := cur_simul_mode self;
     cur_rew_mean := cur_rew_mean self;
     cur_rew_std := cur_rew_std self;
     shocks_agg_seeded := shocks_agg_seeded self;
     shocks_idtc_seeded := shocks_idtc_seeded self;
     norm_ind := norm_ind self;
     max_cap_norm := max_cap_norm self;
     max_price_norm := max_price_norm self;
     n_firms := Some nf;
     timestep := timestep self;
     obs_ := obs_ self;
     obs_global := obs_global self |}.

(** Two industries, an episode of two steps in evaluation mode; the other
    options at their defaults.  [rental] switches the rental shock. *)
Definition example_config (rental : bool) : Config := {|
  horizon := 2;
  n_industries := 2;
  rental_shock := rental;
  eval_mode := true;
  analysis_mode := false;
  seed_eval := 10;
  seed_analysis := 20;
  simul_mode := false;
  max_savings := 0.6;
  k_ss := 1;
  max_price := 60;
  max_cap := 100;
  rew_mean := 0;
  rew_std := 1;
  normalize := false;
  delta := 0;
  alpha := 1;
  beta := 0.99;
  phi := 1;
  A := 1;
  tfp := 1;
  rho := 0.8;
  theta_0 := 0;
  var_w := 1;
  var_epsilon := 1;
  var_theta := 1
|}.

(** A stand-in for the seeded generator: every variate is [0]. *)
Definition example_rng : Z -> nat -> R := fun _ _ => 0.

(** The instance [Townsend(example_config rental)] under [example_rng]
    ([TownsendProps.townsend_example_init]). *)
Definition example (rental : bool) : Env := {|
  cfg := example_config rental;
  cur_simul_mode := false;
  cur_rew_mean := 0;
  cur_rew_std := 1;
  shocks_agg_seeded := [(0%Z, 1 * 0); (1%Z, 1 * 0); (2%Z, 1 * 0)];
  shocks_idtc_seeded :=
    [(0%Z, [1 * 0; 1 * 0]); (1%Z, [1 * 0; 1 * 0]); (2%Z, [1 * 0; 1 * 0])];
  norm_ind := false;
  max_cap_norm := None;
  max_price_norm := None;
  n_firms := None;
  timestep := None;
  obs_ := None;
  obs_global := None
|}.

(** The global state after [reset] of the example with [n_firms = 1]
    ([TownsendProps.townsend_example_reset]). *)
Definition example_global : Global := {|
  g_k := [1 * 0.9; 1 * 0.8];
  g_prices := [60 - 1 * (1 * Rpower (1 * 0.9) 1) + (0 + 1 * 0);
               60 - 1 * (1 * Rpower (1 * 0.8) 1) + (0 + 1 * 0)];
  g_theta := 0;
  g_shock_agg := 1 * 0;
  g_shock_idtc := [1 * 0; 1 * 0];
  g_shock_rent := VInt 0
|}.

Definition example_obs : dict string (list R) :=
  [("firm_0"%string,
    [1 * 0.9; 60 - 1 * (1 * Rpower (1 * 0.9) 1) + (0 + 1 * 0);
     60 - 1 * (1 * Rpower (1 * 0.8) 1) + (0 + 1 * 0)]);
   ("firm_1"%string,
    [1 * 0.8; 60 - 1 * (1 * Rpower (1 * 0.8) 1) + (0 + 1 * 0);
     60 - 1 * (1 * Rpower (1 * 0.9) 1) + (0 + 1 * 0)])].

Definition example_state (rental : bool) : Env :=
  set_state (with_n_firms (example rental) 1) 0 example_obs example_global.

(** Firm 0 plays [a], firm 1 plays [0]. *)
Definition example_actions (a : R) : dict string (list R) :=
  [("firm_0"%string, [a]); ("firm_1"%string, [0])].

(** What firm 0's action adds to its depreciated stock in the first step
    of the example. *)
Definition example_investment (a : R) : R :=
  match locals (example_state false) zeros 1 example_global
               (example_actions a) with
  | Ok v => nth 0 (k_new v) 0
            - nth 0 (g_k example_global) 0
              * (1 - delta (example_config false))
  | Raise _ => 0
  end.

(** [self.observation_space[f"firm_{i}"]]: the shape
    [n_obs_stock + n_obs_price] of a [Box] whose lower bound is 0 and whose
    upper bound is infinite. *)
Definition n_obs_stock : nat := 1.
Definition n_obs_price (c : Config) : nat := n_industries c.

Definition observation_space (c : Config) : dict string nat :=
  map (fun i => (fstr "firm_" i, (n_obs_stock + n_obs_price c)%nat))
      (range (n_industries c)).

(** Membership of an observation in such a box. *)
Definition contains (shape : nat) (o : list R) : Prop :=
  List.length o = shape /\ Forall (fun x => 0 <= x) o.

End Townsend.

(** ** markets/diff_demand.py *)

Module DiffDemandDiscrete.

(** [mkt_config] with its [parameters] flattened, and the keys of
    [agents_dict].  [gridpoints] is an integer by its type, which is what
    the constructor's [isinstance] check asks for. *)
Record Config : Type := {
  agents : list string;
  gridpoints : Z;
  finite_periods : bool;
  n_periods : Z;
  cost : list R;
  values_ : list R;
  ext_demand : R;
  substitution : R;
  lower_price : list R;
  higher_price : list R
}.

(** [DiffDemandDiscrete()] *)
Definition default_config : Config := {|
  agents := ["agent_0"%string; "agent_1"%string];
  gridpoints := 16;
  finite_periods := false;
  n_periods := 1000;
  cost := [1; 1];
  values_ := [2; 2];
  ext_demand := 0;
  substitution := 0.25;
  lower_price := [1; 1];
  higher_price := [2; 2]
|}.

Record Env : Type := {
  cfg : Config;
  num_steps : Z;
  obs_ : dict string (list Z)
}.

Definition n_agents (c : Config) : nat := List.length (agents c).

(** [np.uint8(x)] *)
Definition uint8 (x : Z) : Z := (x mod 256)%Z.

Definition init (c : Config) : Env :=
  {| cfg := c; num_steps := 0; obs_ := [] |}.

Definition reset (self : Env) : Env * dict string (list Z) :=
  let c := cfg self in
  let o :=
    map (fun i => (fstr "agent_" i,
                   map (fun _ => uint8 (gridpoints c / 2)%Z)
                       (range (n_agents c))))
        (range (n_agents c)) in
  ({| cfg := c; num_steps := 0; obs_ := o |}, o).

Record Return : Type := {
  obs : dict string (list Z);
  rew : dict string R;
  done : dict string bool;
  info : dict string R
}.

(** "OUTPUT2": the prices on the grid. *)
Definition prices (c : Config) (actions : list Z) : result (list R) :=
  mapM (fun i =>
          lo <- index (lower_price c) i ;;
          hi <- index (higher_price c) i ;;
          a <- index actions i ;;
          q <- py_div (IZR a) (IZR (gridpoints c - 1)) ;;
          Ok (lo + (hi - lo) * q))
       (range (n_agents c)).

Definition rewards_notnorm (c : Config) (p : list R) : result (list R) :=
  mapM (fun i =>
          v <- index (values_ c) i ;;
          x <- py_div (v - nth i p 0) (substitution c) ;;
          Ok (exp x))
       (range (n_agents c)).

Definition rewards_denom (c : Config) (notnorm : list R) : result R :=
  x <- py_div (ext_demand c) (substitution c) ;;
  Ok (exp x + np_sum notnorm).

Definition rewards_list (c : Config) (p notnorm : list R) (denom : R)
  : result (list R) :=
  mapM (fun i =>
          k <- index (cost c) i ;;
          Ok ((nth i p 0 - k) * nth i notnorm 0 / denom))
       (range (n_agents c)).

Definition step (self : Env) (action_dict : dict string Z)
  : result (Env * Return) :=
  let c := cfg self in
  let n := n_agents c in
  let actions := values action_dict in
  (* OUTPUT1: obs_ - Next period obs *)
  o <- mapM (fun i =>
               row <- mapM (fun j => a <- index actions j ;; Ok (uint8 a))
                           (range n) ;;
               Ok (fstr "agent_" i, row))
            (range n) ;;
  (* OUTPUT2: rew: Reward Dictionary *)
  p <- prices c actions ;;
  notnorm <- rewards_notnorm c p ;;
  denom <- rewards_denom c notnorm ;;
  rl <- rewards_list c p notnorm denom ;;
  let r := map (fun i => (fstr "agent_" i, nth i rl 0)) (range n) in
  (* OUTPUT3: done *)
  let d :=
    if finite_periods c then
      merge String.eqb
        (map (fun i => (fstr "agent_" i, (n_periods c <=? num_steps self)%Z))
             (range n))
        [("__all__"%string, (n_periods c <=? num_steps self)%Z)]
    else [("__all__"%string, false)] in
  (* OUTPUT4: info - Info dictionary *)
  let inf := map (fun i => (fstr "agent_" i, nth i p 0)) (range n) in
  Ok ({| cfg := c; num_steps := (num_steps self + 1)%Z; obs_ := o |},
      {| obs := o; rew := r; done := d; info := inf |}).

(** The default market after [reset], and a joint action. *)
Definition example : Env := fst (reset (init default_config)).

Definition example_actions : dict string Z :=
  [("agent_0"%string, 3%Z); ("agent_1"%string, 7%Z)].

(** The default market with episodes of one period. *)
Definition example_finite : Env :=
  init {| agents := ["agent_0"%string; "agent_1"%string];
          gridpoints := 16;
          finite_periods := true;
          n_periods := 1;
          cost := [1; 1];
          values_ := [2; 2];
          ext_demand := 0;
          substitution := 0.25;
          lower_price := [1; 1];
          higher_price := [2; 2] |}.

End DiffDemandDiscrete.

(** ** markets/durable_sgm.py *)

Module Durable_sgm.

(** [utility_function] defaults to [CRRA(coeff=2)] of
    marketsai/functions/functions.py, which is not part of the sources; it
    is an option of the configuration here, without a default. *)
Record Config : Type := {
  depreciation : R;
  alpha : R;
  tfp : R;
  max_saving : R;
  utility_function : R -> R
}.

(** [obs_] exists only after [reset]. *)
Record Env : Type := {
  cfg : Config;
  obs_ : option (list R)
}.

Definition init (c : Config) : Env := {| cfg := c; obs_ := None |}.

(** [observation_space.high]: [None] stands for [float("inf")]. *)
Definition high : option R := None.

(** [min(x, h)] where [h] may be infinite. *)
Definition min_high (x : R) (h : option R) : R :=
  match h with
  | Some b => py_min x b
  | None => x
  end.

Definition reset (self : Env) (w : Oracle) : result (Env * list R) :=
  i <- choices (range 6) (Some [0.3; 0.15; 0.15; 0.15; 0.15; 0.1])
               (pick w 0) ;;
  k_init <- index [0.01; 5; 7; 9; 11; 15] i ;;
  Ok ({| cfg := cfg self; obs_ := Some [k_init] |}, [k_init]).

Record Return : Type := {
  obs : list R;
  rew : R;
  done : bool;
  info : dict string R
}.

(** The argument [utility_function] is called with in [step]. *)
Definition consumption (y s : R) : R := py_max (y * (1 - s)) 0.00001.

Definition step (self : Env) (action : list R) : result (Env * Return) :=
  let c := cfg self in
  (* UPDATE recursive structure *)
  o <- match obs_ self with
       | Some o => Ok o
       | None => Raise (AttributeError "obs_")
       end ;;
  k_old <- index o 0 ;;
  (* PREPROCESS action and state *)
  a0 <- index action 0 ;;
  let s := (a0 + 1) / 2 * max_saving c in
  p <- py_pow k_old (alpha c) ;;
  let y := py_max (tfp c * p) 0.00001 in
  let k := min_high (k_old * (1 - depreciation c) + s) high in
  (* REWARD *)
  let r := py_max (utility_function c (consumption y s) + 1) (-1000) in
  (* DONE FLAGS *)
  let d := false in
  (* ADDITION INFO *)
  let inf := [("savings_rate"%string, s);
              ("rewards"%string, r);
              ("income"%string, y);
              ("capital_old"%string, k_old);
              ("capital_new"%string, k)] in
  Ok ({| cfg := c; obs_ := Some [k] |},
      {| obs := [k]; rew := r; done := d; info := inf |}).

(** The same instance with another [utility_function]. *)
Definition with_utility (self : Env) (u : R -> R) : Env :=
  {| cfg := {| depreciation := depreciation (cfg self);
               alpha := alpha (cfg self);
               tfp := tfp (cfg self);
               max_saving := max_saving (cfg self);
               utility_function := u |};
     obs_ := obs_ self |}.

(** An instance after [reset]: the parameters of the class's defaults, a
    utility with constant relative risk aversion 2, capital 5. *)
Definition example : Env :=
  {| cfg := {| depreciation := 0.04;
               alpha := 0.33;
               tfp := 1;
               max_saving := 0.2;
               utility_function := fun c => 1 - / c |};
     obs_ := Some [5] |}.

End Durable_sgm.

(** ** experiments/run_capital_SA.py *)

Module Run_capital_SA.

(** The module-level discount factor [beta]. *)
Definition beta : R := 0.98.

(** [a[t] = x] on an array. *)
Fixpoint setitem (a : list R) (t : nat) (x : R) : result (list R) :=
  match a, t with
  | [], _ => Raise IndexError
  | _ :: a', O => Ok (x :: a')
  | y :: a', S t' => a'' <- setitem a' t' x ;; Ok (y :: a'')
  end.

(** The body of the loop of [process_rewards], on the pair of
    [running_add] and [discounted_r]. *)
Definition discount (r : list R) (st : R * list R) (t : nat)
  : result (R * list R) :=
  let '(running_add, discounted_r) := st in
  r_t <- index r t ;;
  let running_add := running_add * beta + r_t in
  discounted_r <- setitem discounted_r t running_add ;;
  Ok (running_add, discounted_r).

(** "Compute discounted reward from a vector of rewards." *)
Definition process_rewards (r : list R) : result R :=
  let discounted_r := map (fun _ => 0) r in
  ' (_, discounted_r) <-
    foldM (discount r) (rev (range (List.length r))) (0, discounted_r) ;;
  index discounted_r 0.

(** What the callbacks read and write of an episode: [episode.length],
    the values of [episode.prev_reward_for()] and
    [episode.last_info_for()], and the two dictionaries [user_data] and
    [custom_metrics]. *)
Record Episode : Type := {
  length_ : Z;
  prev_reward_for : R;
  last_info_for : dict string R;
  user_data : dict string (list R);
  custom_metrics : dict string R
}.

(** How a callback ends: it returns, an [assert] of its own fails, or an
    exception of the operations it uses is raised. *)
Inductive outcome (A : Type) : Type :=
| Returns (a : A)
| AssertionError (msg : string)
| Raises (e : exn).

Arguments Returns {A} a.
Arguments AssertionError {A} msg.
Arguments Raises {A} e.

Definition set_user_data (ep : Episode) (ud : dict string (list R))
  : Episode :=
  {| length_ := length_ ep;
     prev_reward_for := prev_reward_for ep;
     last_info_for := last_info_for ep;
     user_data := ud;
     custom_metrics := custom_metrics ep |}.

Definition set_custom_metrics (ep : Episode) (cm : dict string R)
  : Episode :=
  {| length_ := length_ ep;
     prev_reward_for := prev_reward_for ep;
     last_info_for := last_info_for ep;
     user_data := user_data ep;
     custom_metrics := cm |}.

Definition on_episode_start (ep : Episode) : outcome Episode :=
  if (length_ ep =? 0)%Z then
    let ud := set String.eqb "rewards"%string [] (user_data ep) in
    Returns (set_user_data ep (set String.eqb "bgt_penalty"%string [] ud))
  else
    AssertionError
      "ERROR: `on_episode_start()` callback should be called right after env reset!".

Definition on_episode_step (ep : Episode) : result Episode :=
  if (1 <? length_ ep)%Z then
    let rewards := prev_reward_for ep in
    bgt_penalty <- sget "bgt_penalty" (last_info_for ep) ;;
    rs <- sget "rewards" (user_data ep) ;;
    let ud :=
      set String.eqb "rewards"%string (rs ++ [rewards]) (user_data ep) in
    bs <- sget "bgt_penalty" ud ;;
    Ok (set_user_data ep
          (set String.eqb "bgt_penalty"%string (bs ++ [bgt_penalty]) ud))
  else Ok ep.

(** [np.mean] of a list that may be empty: the mean of no number is not a
    number. *)
Definition np_mean_checked (l : list R) : result R :=
  match l with
  | [] => Raise NotReal
  | _ => Ok (np_mean l)
  end.

Definition on_episode_end (ep : Episode) : result Episode :=
  rs <- sget "rewards" (user_data ep) ;;
  discounted_rewards <- process_rewards rs ;;
  let cm :=
    set String.eqb "discounted_rewards"%string discounted_rewards
        (custom_metrics ep) in
  bs <- sget "bgt_penalty" (user_data ep) ;;
  m <- np_mean_checked bs ;;
  Ok (set_custom_metrics ep (set String.eqb "bgt_penalty"%string m cm)).

(** The episode as it is handed to a later callback: the length, the last
    reward and the last info are the rollout worker's, the two dictionaries
    are what the earlier callbacks left. *)
Definition handed (ep : Episode) (len : Z) (r : R) (inf : dict string R)
  : Episode :=
  {| length_ := len;
     prev_reward_for := r;
     last_info_for := inf;
     user_data := user_data ep;
     custom_metrics := custom_metrics ep |}.

(** [on_episode_step] called once for each entry of [calls], which gives
    the length, reward and info the episode has at that call. *)
Definition on_episode_steps (ep : Episode)
           (calls : list (Z * R * dict string R)) : result Episode :=
  foldM (fun e c => let '(len, r, inf) := c in
                    on_episode_step (handed e len r inf))
        calls ep.

(** A fresh episode, and the three calls of [on_episode_step] of an
    episode of three steps, the last two with a budget flag in the info. *)
Definition example_episode : Episode :=
  {| length_ := 0;
     prev_reward_for := 0;
     last_info_for := [];
     user_data := [];
     custom_metrics := [] |}.

Definition example_started : Episode :=
  set_user_data example_episode
    [("rewards"%string, []); ("bgt_penalty"%string, [])].

Definition example_calls : list (Z * R * dict string R) :=
  [(1%Z, 5, []);
   (2%Z, 1, [("bgt_penalty"%string, 0)]);
   (3%Z, 2, [("bgt_penalty"%string, 1)])].

End Run_capital_SA.

(** ** Episodes and reference orderings *)

(** The list [l] without its [i]-th entry, order kept. *)
Definition drop_nth {A} (i : nat) (l : list A) : list A :=
  firstn i l ++ skipn (S i) l.

(** The self-first view of [l] for agent [i]: entry [i], then the others in
    their original order. *)
Definition self_first_view {A} (i : nat) (l view : list A) : Prop :=
  exists x, nth_error l i = Some x /\ view = x :: drop_nth i l.

(** The options of the capital planner under which an episode in the
    learning mode can run: at least one household and one capital good, a
    positive adjustment cost, a savings ceiling and shock values that are
    not negative, depreciation below 1, and transition matrices with one
    row of weights per shock state, of the right length and with a
    positive total. *)
Definition capital_options_ok (self : Capital_planner_ma.Env) : Prop :=
  let c := Capital_planner_ma.cfg self in
  let Li := List.length (Capital_planner_ma.shock_idtc_values c) in
  let La := List.length (Capital_planner_ma.shock_agg_values c) in
  Capital_planner_ma.eval_mode c = false /\
  Capital_planner_ma.analysis_mode c = false /\
  (1 <= Capital_planner_ma.n_hh c)%nat /\
  (1 <= Capital_planner_ma.n_capital c)%nat /\
  0 < Capital_planner_ma.phi c /\
  0 <= Capital_planner_ma.max_s_ij self /\
  Capital_planner_ma.delta c < 1 /\
  Forall (fun x => 0 <= x) (Capital_planner_ma.shock_idtc_values c) /\
  Forall (fun x => 0 <= x) (Capital_planner_ma.shock_agg_values c) /\
  (forall id, (id < Li)%nat ->
     exists row,
       index (Capital_planner_ma.shock_idtc_transition c) id = Ok row /\
       List.length row = Li /\ 0 < np_sum row) /\
  (forall id, (id < La)%nat ->
     exists row,
       index (Capital_planner_ma.shock_agg_transition c) id = Ok row /\
       List.length row = La /\ 0 < np_sum row).

(** A state of the capital planner from which [step] can go on: a
    timestep, and an observation of household 0 that holds
    [n_hh * n_capital] positive stocks, one shock state per household and
    an aggregate shock state, each with a shock value. *)
Definition capital_state_ok (self : Capital_planner_ma.Env) : Prop :=
  let c := Capital_planner_ma.cfg self in
  exists t o k ids aid,
    Capital_planner_ma.timestep self = Some t /\
    Capital_planner_ma.obs_ self = Some o /\
    sget "hh_0" o = Ok (k, ids, aid) /\
    List.length k
    = (Capital_planner_ma.n_hh c * Capital_planner_ma.n_capital c)%nat /\
    Forall (fun x => 0 < x) k /\
    List.length ids = Capital_planner_ma.n_hh c /\
    Forall (fun id =>
              (id < List.length (Capital_planner_ma.shock_idtc_values c))%nat)
           ids /\
    (aid < List.length (Capital_planner_ma.shock_agg_values c))%nat.

(** An action dictionary with, for every household, an action of at least
    [n_capital] components, none below [-1]. *)
Definition capital_actions_ok (c : Capital_planner_ma.Config)
           (ad : dict string (list R)) : Prop :=
  forall i, (i < Capital_planner_ma.n_hh c)%nat ->
  exists a,
    sget (fstr "hh_" i) ad = Ok a /\
    (Capital_planner_ma.n_capital c <= List.length a)%nat /\
    forall x, In x a -> -1 <= x.

(** Horner's rule for the rewards [r] discounted by [b], on top of [acc]:
    [r_0 + b * (r_1 + b * (... + b * acc))]. *)
Definition horner (b acc : R) (r : list R) : R :=
  fold_right (fun x a => a * b + x) acc r.

(** [f] is a quadratic function on [[-1, 1]], with a non-zero leading
    coefficient. *)
Definition quadratic_on_actions (f : R -> R) : Prop :=
  exists a b c, a <> 0 /\
    forall x, -1 <= x <= 1 -> f x = a * x ^ 2 + b * x + c.

Module Episode.

(** An episode of the capital planner: [step] applied to each action
    dictionary in turn, every call with its own oracle. *)
Fixpoint run_capital (self : Capital_planner_ma.Env)
         (inputs : list (Oracle * dict string (list R)))
  : result (Capital_planner_ma.Env * list Capital_planner_ma.Return) :=
  match inputs with
  | [] => Ok (self, [])
  | (w, a) :: rest =>
      ' (self1, r) <- Capital_planner_ma.step self w a ;;
      ' (self2, rs) <- run_capital self1 rest ;;
      Ok (self2, r :: rs)
  end.

Fixpoint run_townsend (self : Townsend.Env)
         (inputs : list (Oracle * dict string (list R)))
  : result (Townsend.Env * list Townsend.Return) :=
  match inputs with
  | [] => Ok (self, [])
  | (w, a) :: rest =>
      ' (self1, r) <- Townsend.step self w a ;;
      ' (self2, rs) <- run_townsend self1 rest ;;
      Ok (self2, r :: rs)
  end.

Fixpoint run_durable (self : Durable_sgm.Env) (inputs : list (list R))
  : result (Durable_sgm.Env * list Durable_sgm.Return) :=
  match inputs with
  | [] => Ok (self, [])
  | a :: rest =>
      ' (self1, r) <- Durable_sgm.step self a ;;
      ' (self2, rs) <- run_durable self1 rest ;;
      Ok (self2, r :: rs)
  end.

Fixpoint run_diff (self : DiffDemandDiscrete.Env)
         (inputs : list (dict string Z))
  : result (DiffDemandDiscrete.Env * list DiffDemandDiscrete.Return) :=
  match inputs with
  | [] => Ok (self, [])
  | a :: rest =>
      ' (self1, r) <- DiffDemandDiscrete.step self a ;;
      ' (self2, rs) <- run_diff self1 rest ;;
      Ok (self2, r :: rs)
  end.

End Episode.

(** * Properties *)

(** ** Containers *)

Section ContainerFacts.

Context {A B : Type}.

Lemma bind_Ok_inv (m : result A) (k : A -> result B) (b : B) :
  bind m k = Ok b -> exists a, m = Ok a /\ k a = Ok b.
Proof.
  destruct m as [a|e]; simpl; intros H; [eauto | discriminate].
Qed.

Lemma mapM_length (f : A -> result B) (xs : list A) (ys : list B) :
  mapM f xs = Ok ys -> List.length ys = List.length xs.
Proof.
  revert ys; induction xs as [|x xs IH]; simpl; intros ys H.
  - now inversion H.
  - destruct (f x) as [y|]; simpl in H; [|discriminate].
    destruct (mapM f xs) as [ys'|]; simpl in H; [|discriminate].
    inversion H; subst; simpl; f_equal; auto.
Qed.

Lemma mapM_nth_error (f : A -> result B) (xs : list A) (ys : list B) :
  mapM f xs = Ok ys ->
  forall i x, nth_error xs i = Some x ->
  exists y, nth_error ys i = Some y /\ f x = Ok y.
Proof.
  revert ys; induction xs as [|x0 xs IH]; simpl; intros ys H i x Hi.
  - destruct i; discriminate.
  - destruct (f x0) as [y0|] eqn:E0; simpl in H; [|discriminate].
    destruct (mapM f xs) as [ys'|]; simpl in H; [|discriminate].
    inversion H; subst.
    destruct i as [|i]; simpl in *.
    + inversion Hi; subst; eauto.
    + eauto.
Qed.

Lemma mapM_pure (f : A -> B) (xs : list A) :
  mapM (fun x => Ok (f x)) xs = Ok (map f xs).
Proof.
  induction xs as [|x xs IH]; simpl; [reflexivity|].
  now rewrite IH.
Qed.

Lemma mapM_ext (f g : A -> result B) (xs : list A) :
  (forall x, In x xs -> f x = g x) -> mapM f xs = mapM g xs.
Proof.
  induction xs as [|x xs IH]; simpl; intros H; [reflexivity|].
  rewrite (H x) by auto.
  rewrite IH by auto.
  reflexivity.
Qed.

Lemma mapM_Raise (f : A -> result B) (xs : list A) (e : exn) :
  mapM f xs = Raise e -> exists x, In x xs /\ f x = Raise e.
Proof.
  induction xs as [|x xs IH]; simpl; intros H; [discriminate|].
  destruct (f x) as [y|e'] eqn:E; simpl in H.
  - destruct (mapM f xs) as [ys|e'']; simpl in H; [discriminate|].
    destruct (IH H) as [x' [Hin Hx']]; eauto.
  - injection H as <-; eauto.
Qed.

Lemma mapM_total (f : A -> result B) (xs : list A) :
  (forall x, In x xs -> exists y, f x = Ok y) ->
  exists ys, mapM f xs = Ok ys.
Proof.
  induction xs as [|x xs IH]; simpl; intros H; [eauto|].
  destruct (H x) as [y Hy]; auto.
  destruct IH as [ys Hys]; auto.
  rewrite Hy, Hys; simpl; eauto.
Qed.

End ContainerFacts.

Lemma nth_error_range (n i : nat) :
  (i < n)%nat -> nth_error (range n) i = Some i.
Proof.
  intros H; unfold range.
  rewrite nth_error_nth' with (d := O) by now rewrite length_seq.
  now rewrite seq_nth.
Qed.

Lemma length_range (n : nat) : List.length (range n) = n.
Proof. apply length_seq. Qed.

Lemma In_firstn {A} (n : nat) (l : list A) (x : A) :
  In x (firstn n l) -> In x l.
Proof.
  intros H; rewrite <- (firstn_skipn n l); apply in_or_app; now left.
Qed.

Lemma In_skipn {A} (n : nat) (l : list A) (x : A) :
  In x (skipn n l) -> In x l.
Proof.
  intros H; rewrite <- (firstn_skipn n l); apply in_or_app; now right.
Qed.

Lemma mapM_range_nth {B} (f : nat -> result B) (n : nat) (ys : list B) :
  mapM f (range n) = Ok ys ->
  List.length ys = n /\
  forall i, (i < n)%nat -> exists y, nth_error ys i = Some y /\ f i = Ok y.
Proof.
  intros H; split.
  - apply mapM_length in H; unfold range in H; now rewrite length_seq in H.
  - intros i Hi.
    eapply mapM_nth_error; eauto using nth_error_range.
Qed.

Lemma mapM_range_total {B} (f : nat -> result B) (n : nat) :
  (forall i, (i < n)%nat -> exists y, f i = Ok y) ->
  exists ys, mapM f (range n) = Ok ys.
Proof.
  intros H; apply mapM_total; intros i Hi.
  apply in_seq in Hi; apply H; lia.
Qed.

Lemma index_total {A} (l : list A) (i : nat) :
  (i < List.length l)%nat -> exists x, index l i = Ok x.
Proof.
  intros H; unfold index.
  destruct (nth_error l i) eqn:E; [eauto|].
  apply nth_error_None in E; lia.
Qed.

Lemma index_Ok {A} (l : list A) (i : nat) (x : A) :
  index l i = Ok x <-> nth_error l i = Some x.
Proof.
  unfold index; destruct (nth_error l i); split; intros H;
    inversion H; reflexivity.
Qed.

Lemma map_nth_range {A} (l : list A) (d : A) :
  map (fun j => nth j l d) (range (List.length l)) = l.
Proof.
  unfold range; apply nth_ext with (d := d) (d' := d).
  - now rewrite length_map, length_seq.
  - intros i Hi; rewrite length_map, length_seq in Hi.
    rewrite (nth_indep _ d (nth O l d))
      by now rewrite length_map, length_seq.
    rewrite map_nth with (f := fun j => nth j l d) (d := O).
    now rewrite seq_nth.
Qed.

Lemma nth_map_range {B} (f : nat -> B) (n i : nat) (d : B) :
  (i < n)%nat -> nth i (map f (range n)) d = f i.
Proof.
  intros H; unfold range.
  rewrite (nth_indep _ d (f O)) by now rewrite length_map, length_seq.
  rewrite map_nth; now rewrite seq_nth.
Qed.

(** *** Formatted keys *)

Lemma string_app_inv_head (p s1 s2 : string) :
  (p ++ s1 = p ++ s2)%string -> s1 = s2.
Proof.
  induction p as [|c p IH]; simpl; intros H; [exact H|].
  inversion H; auto.
Qed.

Lemma fstr_inj (p : string) (i j : nat) : fstr p i = fstr p j -> i = j.
Proof.
  unfold fstr; intros H.
  apply string_app_inv_head in H.
  apply (f_equal NilEmpty.uint_of_string) in H.
  rewrite !NilEmpty.usu in H.
  inversion H as [H'].
  apply (f_equal Nat.of_uint) in H'.
  now rewrite !Unsigned.of_to in H'.
Qed.

Lemma fstr_eqb (p : string) (i j : nat) :
  String.eqb (fstr p i) (fstr p j) = Nat.eqb i j.
Proof.
  destruct (Nat.eqb_spec i j) as [->|Hne].
  - apply String.eqb_refl.
  - apply String.eqb_neq; intros H; apply Hne; eauto using fstr_inj.
Qed.

(** A dictionary whose [i]-th entry is keyed [fstr p i] returns its [i]-th
    value under that key. *)
Lemma get_keyed {V} (p : string) (o : dict string V) :
  forall (off : nat),
  (forall i kv, nth_error o i = Some kv -> fst kv = fstr p (off + i)) ->
  forall i v, nth_error o i = Some (fstr p (off + i), v) ->
  get String.eqb (fstr p (off + i)) o = Some v.
Proof.
  induction o as [|[k0 v0] o IH]; intros off Hk i v Hi.
  - destruct i; discriminate.
  - simpl.
    pose proof (Hk O (k0, v0) eq_refl) as H0; simpl in H0.
    rewrite Nat.add_0_r in H0; subst k0.
    rewrite fstr_eqb.
    destruct i as [|i]; simpl in Hi.
    + rewrite Nat.add_0_r, Nat.eqb_refl; inversion Hi; reflexivity.
    + replace (Nat.eqb (off + S i) off) with false
        by (symmetry; apply Nat.eqb_neq; lia).
      replace (off + S i)%nat with (S off + i)%nat by lia.
      apply IH.
      * intros j kv Hj.
        replace (S off + j)%nat with (off + S j)%nat by lia.
        apply Hk; exact Hj.
      * replace (S off + i)%nat with (off + S i)%nat by lia; exact Hi.
Qed.

Lemma sget_keyed {V} (p : string) (o : dict string V) (i : nat) (v : V) :
  (forall j kv, nth_error o j = Some kv -> fst kv = fstr p j) ->
  nth_error o i = Some (fstr p i, v) ->
  sget (fstr p i) o = Ok v.
Proof.
  intros Hk Hi; unfold sget.
  pose proof (get_keyed p o O Hk i v Hi) as H; simpl in H.
  now rewrite H.
Qed.

Lemma sget_map_range {V} (p : string) (f : nat -> V) (n i : nat) :
  (i < n)%nat ->
  sget (fstr p i) (map (fun j => (fstr p j, f j)) (range n)) = Ok (f i).
Proof.
  intros Hi; apply sget_keyed.
  - intros j kv Hj.
    rewrite nth_error_map in Hj.
    destruct (nth_error (range n) j) as [x|] eqn:E; [|discriminate].
    assert (Hlt : (j < n)%nat).
    { assert (Hs : nth_error (range n) j <> None) by congruence.
      apply nth_error_Some in Hs; unfold range in Hs.
      now rewrite length_seq in Hs. }
    rewrite nth_error_range in E by exact Hlt.
    inversion E; subst; inversion Hj; reflexivity.
  - rewrite nth_error_map, nth_error_range by exact Hi; reflexivity.
Qed.

(** The same for a dictionary built entry by entry by a comprehension that
    may raise. *)
Lemma sget_mapM_range {V} (p : string) (f : nat -> result V) (n : nat)
      (o : dict string V) :
  mapM (fun i => v <- f i ;; Ok (fstr p i, v)) (range n) = Ok o ->
  forall i, (i < n)%nat -> exists v, f i = Ok v /\ sget (fstr p i) o = Ok v.
Proof.
  intros H i Hi.
  destruct (mapM_range_nth _ _ _ H) as [Hlen Hnth].
  destruct (Hnth i Hi) as [[k v] [Hy Hf]].
  destruct (f i) as [v'|] eqn:E; simpl in Hf; [|discriminate].
  injection Hf as Hk Hv; subst k v.
  exists v'; split; [reflexivity|].
  apply sget_keyed; [|exact Hy].
  intros j kv Hj.
  assert (Hlt : (j < n)%nat).
  { assert (Hs : nth_error o j <> None) by congruence.
    apply nth_error_Some in Hs; lia. }
  destruct (Hnth j Hlt) as [kv' [Hy' Hf']].
  rewrite Hj in Hy'; inversion Hy'; subst kv'.
  destruct (f j); simpl in Hf'; [|discriminate].
  inversion Hf'; reflexivity.
Qed.

(** *** Own state first *)

Lemma enumerate_filter_shift {A} (l : list A) (i off : nat) :
  map snd (filter (fun zx => negb (Nat.eqb (fst zx) (off + i)))
                  (combine (seq off (List.length l)) l))
  = drop_nth i l.
Proof.
  revert i off; induction l as [|x l IH]; intros i off; simpl.
  - unfold drop_nth; now rewrite firstn_nil, skipn_nil.
  - destruct i as [|i].
    + rewrite Nat.add_0_r, Nat.eqb_refl; simpl.
      unfold drop_nth; simpl.
      clear IH.
      assert (H : forall (l : list A) o,
                 (off < o)%nat ->
                 map snd (filter (fun zx => negb (Nat.eqb (fst zx) off))
                                 (combine (seq o (List.length l)) l)) = l).
      { clear; induction l as [|y l IH]; intros o Ho; simpl; [reflexivity|].
        replace (Nat.eqb o off) with false
          by (symmetry; apply Nat.eqb_neq; lia).
        simpl; f_equal; apply IH; lia. }
      apply H; lia.
    + replace (Nat.eqb off (off + S i)) with false
        by (symmetry; apply Nat.eqb_neq; lia).
      simpl.
      replace (off + S i)%nat with (S off + i)%nat by lia.
      rewrite IH.
      reflexivity.
Qed.

(** The comprehension [[x for z, x in enumerate(l) if z != i]] is [l]
    without its entry [i], in the original order. *)
Lemma others_drop_nth {A} (i : nat) (l : list A) : others i l = drop_nth i l.
Proof.
  unfold others, enumerate.
  exact (enumerate_filter_shift l i O).
Qed.

Lemma self_first_Ok {A} (i : nat) (l view : list A) :
  self_first i l = Ok view <-> self_first_view i l view.
Proof.
  unfold self_first, self_first_view, index.
  rewrite others_drop_nth.
  destruct (nth_error l i) as [x|]; simpl; split.
  - intros H; inversion H; eauto.
  - intros [y [Hy ->]]; inversion Hy; reflexivity.
  - discriminate.
  - intros [y [Hy _]]; discriminate.
Qed.

(** *** Integer keys *)

Lemma get_In_keys {V} (t : Z) (d : dict Z V) :
  In t (map fst d) -> exists v, get Z.eqb t d = Some v.
Proof.
  induction d as [|[k v] d IH]; simpl; intros H; [contradiction|].
  destruct (Z.eqb_spec t k) as [_|Hne]; [eauto|].
  destruct H as [H|H]; [congruence|auto].
Qed.

Lemma mapM_keys {V} (f : Z -> result V) (xs : list Z) (ys : dict Z V) :
  mapM (fun t => v <- f t ;; Ok (t, v)) xs = Ok ys -> map fst ys = xs.
Proof.
  revert ys; induction xs as [|x xs IH]; simpl; intros ys H.
  - now injection H as <-.
  - apply bind_Ok_inv in H; destruct H as [[k v] [Hx H]].
    apply bind_Ok_inv in H; destruct H as [ys' [Hys H]].
    injection H as <-.
    destruct (f x); simpl in Hx; [|discriminate].
    injection Hx as <- _.
    simpl; f_equal; auto.
Qed.

Lemma In_zrange (a b t : Z) : In t (zrange a b) <-> (a <= t < b)%Z.
Proof.
  unfold zrange; rewrite in_map_iff; split.
  - intros [i [<- Hi]]; apply in_seq in Hi; lia.
  - intros H; exists (Z.to_nat (t - a)); split; [lia|].
    apply in_seq; lia.
Qed.

(** *** Merged dictionaries *)

Lemma get_None_notin {V} (k : string) (d : dict string V) :
  (forall kv, In kv d -> fst kv <> k) -> get String.eqb k d = None.
Proof.
  induction d as [|[k' v'] d IH]; simpl; intros H; [reflexivity|].
  destruct (String.eqb_spec k k') as [->|_].
  - exfalso; exact (H (k', v') (or_introl eq_refl) eq_refl).
  - apply IH; intros kv Hin; apply H; now right.
Qed.

Lemma set_append {V} (k : string) (v : V) (d : dict string V) :
  get String.eqb k d = None -> set String.eqb k v d = d ++ [(k, v)].
Proof.
  induction d as [|[k' v'] d IH]; simpl; intros H; [reflexivity|].
  destruct (String.eqb k k'); [discriminate|].
  now rewrite IH.
Qed.

(** [keyed p d]: the [j]-th entry of [d] has key [fstr p j]. *)
Lemma keyed_get_None {V} (p : string) (d : dict string V) :
  (forall j kv, nth_error d j = Some kv -> fst kv = fstr p j) ->
  get String.eqb (fstr p (List.length d)) d = None.
Proof.
  intros Hk; apply get_None_notin; intros kv Hin Heq.
  destruct (In_nth_error _ _ Hin) as [j Hj].
  assert (Hlt : (j < List.length d)%nat)
    by (apply nth_error_Some; congruence).
  rewrite (Hk j kv Hj) in Heq.
  apply fstr_inj in Heq; lia.
Qed.

Lemma keyed_snoc {V} (p : string) (d : dict string V) (v : V) :
  (forall j kv, nth_error d j = Some kv -> fst kv = fstr p j) ->
  forall j kv, nth_error (d ++ [(fstr p (List.length d), v)]) j = Some kv ->
               fst kv = fstr p j.
Proof.
  intros Hk j kv Hj.
  destruct (Nat.lt_ge_cases j (List.length d)) as [Hlt|Hge].
  - rewrite nth_error_app1 in Hj by exact Hlt; eauto.
  - rewrite nth_error_app2 in Hj by exact Hge.
    destruct (j - List.length d)%nat as [|x] eqn:E; simpl in Hj.
    + injection Hj as <-; simpl; f_equal; lia.
    + destruct x; discriminate.
Qed.

(** Merging entries with the next keys appends them. *)
Lemma merge_keyed {V} (p : string) (f : nat -> V) (n : nat) :
  forall d : dict string V,
  (forall j kv, nth_error d j = Some kv -> fst kv = fstr p j) ->
  merge String.eqb d
        (map (fun i => (fstr p i, f i)) (seq (List.length d) n))
  = d ++ map (fun i => (fstr p i, f i)) (seq (List.length d) n) /\
  forall j kv,
    nth_error (d ++ map (fun i => (fstr p i, f i)) (seq (List.length d) n)) j
    = Some kv -> fst kv = fstr p j.
Proof.
  unfold merge; induction n as [|n IH]; intros d Hk; cbn [seq map].
  - rewrite app_nil_r; split; [reflexivity|exact Hk].
  - cbn [fold_left fst snd].
    rewrite set_append by now apply keyed_get_None.
    pose proof (keyed_snoc p d (f (List.length d)) Hk) as Hk'.
    specialize (IH _ Hk').
    rewrite length_app in IH; cbn [List.length] in IH.
    rewrite Nat.add_1_r in IH.
    rewrite <- app_assoc in IH; exact IH.
Qed.

(** The info dictionary [{**{p0: g}, **{pi: f(i) for i in range(1, n)}}]. *)
Lemma sget_info {V} (p : string) (g : V) (f : nat -> V) (n : nat) :
  let d := merge String.eqb [(fstr p 0, g)]
                 (map (fun i => (fstr p i, f i)) (seq 1 (n - 1))) in
  d = (fstr p 0, g) :: map (fun i => (fstr p i, f i)) (seq 1 (n - 1)) /\
  sget (fstr p 0) d = Ok g /\
  forall i, (1 <= i < n)%nat -> sget (fstr p i) d = Ok (f i).
Proof.
  intros d.
  assert (Hk0 : forall j kv, nth_error [(fstr p 0, g)] j = Some kv ->
                             fst kv = fstr p j).
  { intros [|[|j]] kv Hj; try discriminate; now injection Hj as <-. }
  destruct (merge_keyed p f (n - 1) [(fstr p 0, g)] Hk0) as [Hm Hk].
  cbn [List.length app] in Hm, Hk.
  split; [exact Hm|].
  subst d; rewrite Hm; split.
  - apply sget_keyed; [exact Hk|reflexivity].
  - intros i Hi; apply sget_keyed; [exact Hk|].
    destruct i as [|i]; [lia|]; cbn [nth_error].
    rewrite nth_error_map.
    rewrite (nth_error_nth' _ O) by (rewrite length_seq; lia).
    rewrite seq_nth by lia; reflexivity.
Qed.

(** *** Tactics for evaluating on concrete inputs *)

Ltac pos :=
  first [ lra | assumption | apply exp_pos
        | apply Rmult_lt_0_compat; pos ].

Ltac eval_fstr :=
  repeat match goal with
  | |- context [fstr ?p ?i] =>
      let v := eval vm_compute in (fstr p i) in change (fstr p i) with v
  end.

(** ** Real-number primitives *)

Lemma py_max_l (a b : R) : a <= py_max a b.
Proof. unfold py_max; destruct (Rlt_dec a b); lra. Qed.

Lemma py_max_r (a b : R) : b <= py_max a b.
Proof. unfold py_max; destruct (Rlt_dec a b); lra. Qed.

Lemma py_min_r (a b : R) : py_min a b <= b.
Proof. unfold py_min; destruct (Rlt_dec b a); lra. Qed.

Lemma py_min_l (a b : R) : py_min a b <= a.
Proof. unfold py_min; destruct (Rlt_dec b a); lra. Qed.

Lemma py_div_Ok (a b : R) : b <> 0 -> py_div a b = Ok (a / b).
Proof. intros H; unfold py_div; destruct (Req_dec_T b 0); tauto. Qed.

Lemma py_div_inv (a b q : R) : py_div a b = Ok q -> b <> 0 /\ q = a / b.
Proof.
  unfold py_div; destruct (Req_dec_T b 0); intros H; inversion H; auto.
Qed.

Lemma np_sqrt_Ok (x : R) : 0 <= x -> np_sqrt x = Ok (sqrt x).
Proof. intros H; unfold np_sqrt; destruct (Rlt_dec x 0); [lra|reflexivity]. Qed.

Lemma np_sqrt_inv (x y : R) : np_sqrt x = Ok y -> 0 <= x /\ y = sqrt x.
Proof.
  unfold np_sqrt; destruct (Rlt_dec x 0); intros H; inversion H.
  split; [lra|reflexivity].
Qed.

Lemma normal_Ok (s g : R) : 0 <= s -> normal s g = Ok (s * g).
Proof. intros H; unfold normal; destruct (Rlt_dec s 0); [lra|reflexivity]. Qed.

Lemma normal_inv (s g x : R) : normal s g = Ok x -> 0 <= s /\ x = s * g.
Proof.
  unfold normal; destruct (Rlt_dec s 0); intros H; inversion H.
  split; [lra|reflexivity].
Qed.

Lemma py_pow_pos (x a : R) : 0 < x -> py_pow x a = Ok (Rpower x a).
Proof. intros H; unfold py_pow; destruct (Rlt_dec 0 x); tauto. Qed.

Lemma Rpower_pos (x a : R) : 0 < Rpower x a.
Proof. unfold Rpower; apply exp_pos. Qed.

(** The power is a real number on the non-negative reals unless the base
    is zero and the exponent negative. *)
Lemma py_pow_defined (x a : R) :
  0 <= x -> (0 < x \/ 0 <= a) -> exists p, py_pow x a = Ok p /\ 0 <= p.
Proof.
  intros Hx Hd; unfold py_pow.
  destruct (Rlt_dec 0 x) as [Hpos|Hnpos].
  - eexists; split; [reflexivity|]; left; apply Rpower_pos.
  - destruct (Req_dec_T x 0) as [_|Hne]; [|exfalso; lra].
    destruct (Req_dec_T a 0); [eexists; split; [reflexivity|lra]|].
    destruct (Rlt_dec 0 a); [eexists; split; [reflexivity|lra]|].
    exfalso; lra.
Qed.

(** ** Durable_sgm *)

Module DurableProps.
Import Durable_sgm.

Lemma consumption_pos (y s : R) : 0 < consumption y s.
Proof.
  unfold consumption.
  pose proof (py_max_r (y * (1 - s)) 0.00001); lra.
Qed.

(** C10.  From an observation with non-negative capital, [step] returns
    for every action (the power being a real number: positive capital or a
    non-negative exponent).  The income it reports is at least 1e-5, the
    argument handed to the utility function is [max(y * (1 - s), 1e-5)] and
    is positive, the reward is the utility plus one clamped below at -1000,
    hence at least -1000; and the reward is the same for any other utility
    function that agrees with the configured one on the positive reals. *)
Theorem durable_step_total_reward_floor
        (self : Env) (k_old a0 : R) (rest action_rest : list R) :
  obs_ self = Some (k_old :: rest) ->
  -1 <= a0 <= 1 ->
  0 <= k_old ->
  (0 < k_old \/ 0 <= alpha (cfg self)) ->
  exists self' ret y,
    let s := (a0 + 1) / 2 * max_saving (cfg self) in
    step self (a0 :: action_rest) = Ok (self', ret) /\
    sget "income" (info ret) = Ok y /\
    0.00001 <= y /\
    consumption y s = py_max (y * (1 - s)) 0.00001 /\
    0 < consumption y s /\
    rew ret
    = py_max (utility_function (cfg self) (consumption y s) + 1) (-1000) /\
    -1000 <= rew ret /\
    forall u, (forall x, 0 < x -> u x = utility_function (cfg self) x) ->
      exists self'' ret',
        step (with_utility self u) (a0 :: action_rest) = Ok (self'', ret') /\
        rew ret' = rew ret.
Proof.
  intros Hobs Ha Hk Hdom.
  destruct (py_pow_defined k_old (alpha (cfg self)) Hk Hdom) as [p [Hp Hp0]].
  unfold step; rewrite Hobs; simpl.
  rewrite Hp; simpl.
  do 3 eexists; split; [reflexivity|]; simpl.
  split; [reflexivity|].
  split; [apply py_max_r|].
  split; [reflexivity|].
  split; [apply consumption_pos|].
  split; [reflexivity|].
  split; [apply py_max_r|].
  intros u Hu.
  unfold step, with_utility; simpl; rewrite Hobs; simpl.
  rewrite Hp; simpl.
  do 2 eexists; split; [reflexivity|]; simpl.
  now rewrite Hu by apply consumption_pos.
Qed.

Lemma durable_step_total_reward_floor_witness :
  obs_ example = Some [5] /\
  -1 <= 0 <= 1 /\
  0 <= 5 /\
  exists self' ret y,
    let s := (0 + 1) / 2 * max_saving (cfg example) in
    step example [0] = Ok (self', ret) /\
    sget "income" (info ret) = Ok y /\
    0.00001 <= y /\
    consumption y s = py_max (y * (1 - s)) 0.00001 /\
    0 < consumption y s /\
    rew ret
    = py_max (utility_function (cfg example) (consumption y s) + 1) (-1000) /\
    -1000 <= rew ret /\
    forall u, (forall x, 0 < x -> u x = utility_function (cfg example) x) ->
      exists self'' ret',
        step (with_utility example u) [0] = Ok (self'', ret') /\
        rew ret' = rew ret.
Proof.
  split; [reflexivity|].
  split; [lra|].
  split; [lra|].
  apply (durable_step_total_reward_floor example 5 0 [] []);
    [reflexivity | lra | lra | left; lra].
Defined.

(** [step] never ends the episode, and always fills the info dictionary:
    the class has no analysis switch. *)
Lemma durable_step_done_info (self self' : Env) (action : list R)
      (ret : Return) :
  step self action = Ok (self', ret) ->
  done ret = false /\
  exists s r y k_old k,
    info ret = [("savings_rate"%string, s);
                ("rewards"%string, r);
                ("income"%string, y);
                ("capital_old"%string, k_old);
                ("capital_new"%string, k)] /\
    k = k_old * (1 - depreciation (cfg self)) + s /\
    obs ret = [k].
Proof.
  unfold step; intros H.
  apply bind_Ok_inv in H; destruct H as [o [_ H]].
  apply bind_Ok_inv in H; destruct H as [k_old [_ H]].
  apply bind_Ok_inv in H; destruct H as [a0 [_ H]].
  apply bind_Ok_inv in H; destruct H as [p [_ H]].
  injection H as _ <-; cbn [done info obs].
  split; [reflexivity|].
  do 5 eexists; split; [reflexivity|]; split; reflexivity.
Qed.

Lemma durable_run_done (inputs : list (list R)) :
  forall (self selfN : Env) (rets : list Return),
  Episode.run_durable self inputs = Ok (selfN, rets) ->
  List.length rets = List.length inputs /\
  forall r, In r rets -> done r = false.
Proof.
  induction inputs as [|a rest IH]; intros self selfN rets H.
  - injection H as _ <-; split; [reflexivity|contradiction].
  - cbn [Episode.run_durable] in H.
    apply bind_Ok_inv in H; destruct H as [[self1 r1] [Hstep H]].
    apply bind_Ok_inv in H; destruct H as [[self2 rs] [Hrun H]].
    injection H as _ <-.
    destruct (IH _ _ _ Hrun) as [Hlen Hall].
    split; [simpl; now rewrite Hlen|].
    intros r [<-|Hin]; [|auto].
    now destruct (durable_step_done_info _ _ _ _ Hstep).
Qed.

Lemma durable_example_step (a : R) :
  exists self' ret, step example [a] = Ok (self', ret).
Proof.
  unfold step; cbn [example obs_ bind index nth_error cfg alpha].
  rewrite py_pow_pos by lra; cbn [bind].
  do 2 eexists; reflexivity.
Qed.

(** C9 as stated fails: the durable-good environment has no analysis mode,
    and its info dictionary is never empty. *)
Lemma durable_info_counterexample :
  exists self' ret, step example [0] = Ok (self', ret) /\ info ret <> [].
Proof.
  destruct (durable_example_step 0) as (self' & ret & Hstep).
  exists self', ret; split; [exact Hstep|].
  destruct (durable_step_done_info _ _ _ _ Hstep)
    as (_ & s & r & y & k_old & k & -> & _).
  discriminate.
Qed.

End DurableProps.

(** ** Capital_planner_ma *)

Module CapitalProps.
Import Capital_planner_ma.

Lemma np_sum_scale (l : list R) (c : R) :
  np_sum (map (fun x => x / c) l) = np_sum l / c.
Proof.
  induction l as [|x l IH]; simpl; [unfold Rdiv; ring|].
  rewrite IH; unfold Rdiv; ring.
Qed.

Lemma map_nth_range_fun {A B} (g : A -> B) (l : list A) (d : A) :
  map (fun j => g (nth j l d)) (range (List.length l)) = map g l.
Proof.
  rewrite <- (map_nth_range l d) at 2.
  now rewrite map_map.
Qed.

(** What [unsquash] returns: one row per household, one entry per capital
    good, each the unsquashed component of that household's action. *)
Lemma unsquash_inv (self : Env) (ad : dict string (list R))
      (s0 : list (list R)) :
  unsquash self ad = Ok s0 ->
  List.length s0 = n_hh (cfg self) /\
  forall i, (i < n_hh (cfg self))%nat ->
  exists d, nth_error s0 i = Some d /\
    List.length d = n_capital (cfg self) /\
    forall j, (j < n_capital (cfg self))%nat ->
    exists a a_j, sget (fstr "hh_" i) ad = Ok a /\ index a j = Ok a_j /\
      nth_error d j = Some ((a_j + 1) / 2 * max_s_ij self).
Proof.
  unfold unsquash; intros H.
  destruct (mapM_range_nth _ _ _ H) as [Hlen Hrow].
  split; [exact Hlen|].
  intros i Hi.
  destruct (Hrow i Hi) as [d [Hd Hf]].
  exists d; split; [exact Hd|].
  destruct (mapM_range_nth _ _ _ Hf) as [Hlen' Hent].
  split; [exact Hlen'|].
  intros j Hj.
  destruct (Hent j Hj) as [x [Hx Hg]].
  apply bind_Ok_inv in Hg; destruct Hg as [a [Ha Hg]].
  apply bind_Ok_inv in Hg; destruct Hg as [a_j [Haj Hg]].
  inversion Hg; subst x.
  exists a, a_j; auto.
Qed.

(** The feasibility projection of one row. *)
Lemma correct_row_spec (d : list R) :
  (1 < np_sum d ->
   correct_row (List.length d) d = (map (fun x => x / np_sum d) d, 1%Z) /\
   np_sum (fst (correct_row (List.length d) d)) = 1) /\
  (np_sum d <= 1 -> correct_row (List.length d) d = (d, 0%Z)).
Proof.
  unfold correct_row; split; intros H.
  - destruct (Rlt_dec 1 (np_sum d)) as [_|Hn]; [|exfalso; lra].
    rewrite (map_nth_range_fun (fun x => x / np_sum d) d 0).
    split; [reflexivity|]; simpl.
    rewrite np_sum_scale; field; lra.
  - destruct (Rlt_dec 1 (np_sum d)) as [Hlt|_]; [exfalso; lra|reflexivity].
Qed.

Lemma nth_correct_bgt (m : nat) (s0 : list (list R)) (i : nat)
      (d : list R) :
  nth_error s0 i = Some d ->
  nth i (fst (correct_bgt m s0)) [] = fst (correct_row m d) /\
  nth i (snd (correct_bgt m s0)) 0%Z = snd (correct_row m d).
Proof.
  intros Hd; unfold correct_bgt; simpl.
  split.
  - apply nth_error_nth; rewrite nth_error_map, Hd; reflexivity.
  - apply nth_error_nth; rewrite nth_error_map, Hd; reflexivity.
Qed.

(** The locals of a successful [step], field by field. *)
Lemma locals_inv (self : Env) (k sh : list R) (agg : R)
      (ad : dict string (list R)) (v : Locals) :
  locals self k sh agg ad = Ok v ->
  let c := cfg self in
  let n := n_hh c in
  let m := n_capital c in
  exists s0 bundle q,
    unsquash self ad = Ok s0 /\
    s_ij v = fst (correct_bgt m s0) /\
    bgt_penalty_ind v = snd (correct_bgt m s0) /\
    k_ij v = per_household c k /\
    mapM (fun i => p <- py_pow (nth i bundle 0) (alpha c) ;;
                   Ok (nth i sh 0 * agg * p)) (range n) = Ok (y_i v) /\
    c_i v = map (fun i => nth i (y_i v) 0 * (1 - np_sum (nth i (s_ij v) [])))
                (range n) /\
    utility_i v = utility c (c_i v) /\
    inv_exp_ij v
    = map (fun i => map (fun j => nth2 i j (s_ij v) * nth i (y_i v) 0)
                        (range m)) (range n) /\
    inv_exp_j v
    = map (fun j => np_sum (map (fun i => nth2 i j (inv_exp_ij v)) (range n)))
          (range m) /\
    (m <> O -> py_div 2 (phi c) = Ok q) /\
    (forall j, (j < m)%nat ->
       0 <= q * nth j (inv_exp_j v) 0 /\
       nth j (inv_j v) 0 = sqrt (q * nth j (inv_exp_j v) 0)) /\
    inv_ij v
    = map (fun i =>
             map (fun j => nth2 i j (inv_exp_ij v)
                           / py_max (nth j (inv_exp_j v) 0) 0.0001
                           * nth j (inv_j v) 0) (range m)) (range n) /\
    k_ij_new v
    = map (fun i =>
             map (fun j => nth2 i j (k_ij v) * (1 - delta c)
                           + nth2 i j (inv_ij v)) (range m)) (range n).
Proof.
  unfold locals; intros H.
  apply bind_Ok_inv in H; destruct H as [s0 [Hs0 H]].
  simpl in H.
  apply bind_Ok_inv in H; destruct H as [bundle [Hb H]].
  apply bind_Ok_inv in H; destruct H as [y [Hy H]].
  apply bind_Ok_inv in H; destruct H as [ij [Hij H]].
  inversion H; subst v; clear H; simpl.
  exists s0, bundle.
  destruct (py_div 2 (phi (cfg self))) as [q|e] eqn:Eq.
  - exists q.
    cbn [bind] in Hij.
    destruct (mapM_range_nth _ _ _ Hij) as [_ Hnth].
    repeat (split; [first [assumption | reflexivity]|]).
    split; [|split; reflexivity].
    intros j Hj.
    destruct (Hnth j Hj) as [x [Hx Hf]].
    rewrite (nth_error_nth _ _ 0 Hx).
    now apply np_sqrt_inv.
  - exists 0.
    destruct (n_capital (cfg self)) as [|m'] eqn:Em.
    + repeat (split; [first [assumption | reflexivity | congruence]|]).
      split; [intros j Hj; lia|split; reflexivity].
    + unfold range in Hij; simpl in Hij; discriminate.
Qed.

(** The projection applied to decoded savings. *)
Lemma capital_projection_of
        (self : Env) (ad : dict string (list R)) (s0 : list (list R)) :
  unsquash self ad = Ok s0 ->
  let m := n_capital (cfg self) in
  (forall k sh agg v,
      locals self k sh agg ad = Ok v ->
      s_ij v = fst (correct_bgt m s0) /\
      bgt_penalty_ind v = snd (correct_bgt m s0)) /\
  forall i, (i < n_hh (cfg self))%nat ->
  exists d,
    nth_error s0 i = Some d /\
    List.length d = m /\
    (forall j, (j < m)%nat ->
       exists a a_j, sget (fstr "hh_" i) ad = Ok a /\ index a j = Ok a_j /\
         nth_error d j = Some ((a_j + 1) / 2 * max_s_ij self) /\
         (-1 <= a_j <= 1 -> 0 <= max_s_ij self ->
          0 <= (a_j + 1) / 2 * max_s_ij self <= max_s_ij self)) /\
    (1 < np_sum d ->
       nth i (fst (correct_bgt m s0)) [] = map (fun x => x / np_sum d) d /\
       np_sum (nth i (fst (correct_bgt m s0)) []) = 1 /\
       nth i (snd (correct_bgt m s0)) 0%Z = 1%Z) /\
    (np_sum d <= 1 ->
       nth i (fst (correct_bgt m s0)) [] = d /\
       nth i (snd (correct_bgt m s0)) 0%Z = 0%Z).
Proof.
  intros Hs0 m; split.
  - intros k sh agg v Hv.
    destruct (locals_inv _ _ _ _ _ _ Hv) as (s0' & b & q & Hu & Hs & Hf & _).
    rewrite Hs0 in Hu; inversion Hu; subst s0'; auto.
  - intros i Hi.
    destruct (unsquash_inv _ _ _ Hs0) as [_ Hrows].
    destruct (Hrows i Hi) as (d & Hd & Hlen & Hent).
    exists d; split; [exact Hd|]; split; [exact Hlen|]; split.
    { intros j Hj.
      destruct (Hent j Hj) as (a & a_j & Ha & Haj & Hdj).
      exists a, a_j; repeat split; auto; nra. }
    repeat split.
    + destruct (nth_correct_bgt m s0 i d Hd) as [-> _].
      subst m; rewrite <- Hlen.
      now destruct (correct_row_spec d) as [Hgt _]; destruct (Hgt H) as [-> _].
    + destruct (nth_correct_bgt m s0 i d Hd) as [-> _].
      subst m; rewrite <- Hlen.
      now destruct (correct_row_spec d) as [Hgt _]; destruct (Hgt H) as [_ ?].
    + destruct (nth_correct_bgt m s0 i d Hd) as [_ ->].
      subst m; rewrite <- Hlen.
      now destruct (correct_row_spec d) as [Hgt _]; destruct (Hgt H) as [-> _].
    + destruct (nth_correct_bgt m s0 i d Hd) as [-> _].
      subst m; rewrite <- Hlen.
      now destruct (correct_row_spec d) as [_ Hle]; rewrite (Hle H).
    + destruct (nth_correct_bgt m s0 i d Hd) as [_ ->].
      subst m; rewrite <- Hlen.
      now destruct (correct_row_spec d) as [_ Hle]; rewrite (Hle H).
Qed.

(** The actions decode whenever every household has an action with a
    component for every capital good. *)
Lemma unsquash_total (self : Env) (ad : dict string (list R)) :
  (forall i, (i < n_hh (cfg self))%nat ->
     exists a, sget (fstr "hh_" i) ad = Ok a /\
               (n_capital (cfg self) <= List.length a)%nat) ->
  exists s0, unsquash self ad = Ok s0.
Proof.
  intros H; unfold unsquash.
  apply mapM_range_total; intros i Hi.
  destruct (H i Hi) as (a & Ha & Hlen).
  apply mapM_range_total; intros j Hj.
  rewrite Ha; cbn [bind].
  destruct (index_total a j ltac:(lia)) as [a_j ->].
  cbn [bind]; eauto.
Qed.

(** C1.  In [step], every household's decoded savings vector (one entry
    per capital good, each an action component unsquashed to
    [(a + 1) / 2 * max_s_ij], which lies in [[0, max_s_ij]] for [a] in
    [[-1, 1]]) is projected on the budget: when its sum
    exceeds 1, every entry is divided by that sum, the new entries sum to
    exactly 1 and the household's penalty flag is 1; when its sum is at most
    1 the vector is unchanged and the flag is 0.  No error is raised: the
    decoding returns whenever every household has an action with a
    component for every capital good, and the projection is a total
    function; its result is what the locals of [step] hold. *)
Theorem capital_budget_projection
        (self : Env) (ad : dict string (list R)) :
  (forall i, (i < n_hh (cfg self))%nat ->
     exists a, sget (fstr "hh_" i) ad = Ok a /\
               (n_capital (cfg self) <= List.length a)%nat) ->
  let m := n_capital (cfg self) in
  exists s0,
    unsquash self ad = Ok s0 /\
    (forall k sh agg v,
        locals self k sh agg ad = Ok v ->
        s_ij v = fst (correct_bgt m s0) /\
        bgt_penalty_ind v = snd (correct_bgt m s0)) /\
    forall i, (i < n_hh (cfg self))%nat ->
    exists d,
      nth_error s0 i = Some d /\
      List.length d = m /\
      (forall j, (j < m)%nat ->
         exists a a_j, sget (fstr "hh_" i) ad = Ok a /\ index a j = Ok a_j /\
           nth_error d j = Some ((a_j + 1) / 2 * max_s_ij self) /\
           (-1 <= a_j <= 1 -> 0 <= max_s_ij self ->
            0 <= (a_j + 1) / 2 * max_s_ij self <= max_s_ij self)) /\
      (1 < np_sum d ->
         nth i (fst (correct_bgt m s0)) [] = map (fun x => x / np_sum d) d /\
         np_sum (nth i (fst (correct_bgt m s0)) []) = 1 /\
         nth i (snd (correct_bgt m s0)) 0%Z = 1%Z) /\
      (np_sum d <= 1 ->
         nth i (fst (correct_bgt m s0)) [] = d /\
         nth i (snd (correct_bgt m s0)) 0%Z = 0%Z).
Proof.
  intros Hwf m.
  destruct (unsquash_total self ad Hwf) as [s0 Hs0].
  exists s0; split; [exact Hs0|].
  exact (capital_projection_of self ad s0 Hs0).
Qed.

(** *** The example instance, evaluated *)

Ltac red_struct :=
  cbn [bind mapM foldM range seq index nth_error nth nth2 sget get zget
       String.eqb Ascii.eqb Bool.eqb Z.eqb Pos.eqb fst snd map
       self_first others enumerate combine filter negb Nat.eqb
       flatten concat app slice firstn skipn Nat.sub Nat.mul Nat.add
       per_household List.length attr reorganize unsquash Z.add Pos.add
       Pos.succ Z.ltb Z.compare Pos.compare Pos.compare_cont
       cfg n_hh n_capital eval_mode analysis_mode example_config example
       example_obs example_obs_of example_actions set_state
       shock_idtc_values shock_agg_values obs_ timestep
       shocks_analysis_agg shocks_analysis_idtc alpha phi delta
       shock_idtc_transition shock_agg_transition beta max_savings
       max_s_ij k_ss horizon bgt_penalty].

Lemma example_k_ss_pos : 0 < example_k_ss.
Proof. apply Rpower_pos. Qed.

(** [flip] at a timestep before the first period ends. *)
Lemma flip_false (p x : R) (rr : list R) (rest : list (list R)) (t : Z) :
  0 < p -> 0 <= IZR t * p < 1 ->
  flip ((x :: p :: rr) :: rest) t = Ok false.
Proof.
  intros Hp Ht; unfold flip; cbn [index nth_error bind].
  rewrite py_div_Ok by lra; cbn [bind].
  unfold floor_div.
  destruct (Req_dec_T (1 / p) 0) as [E|_].
  { exfalso.
    assert (0 < 1 / p) by (apply Rdiv_lt_0_compat; lra).
    lra. }
  cbn [bind].
  rewrite (Zfloor_eq 0).
  - reflexivity.
  - replace (IZR t / (1 / p)) with (IZR t * p) by (field; lra).
    simpl; lra.
Qed.

Lemma example_init : init example_config = Ok example.
Proof.
  unfold init; red_struct.
  rewrite (py_div_Ok (1 - _)) by lra; red_struct.
  rewrite (py_div_Ok (0.04 * _)) by (simpl; lra); red_struct.
  rewrite (py_div_Ok 1 (0.3 - 2)) by lra; red_struct.
  rewrite py_pow_pos by (simpl; pos); red_struct.
  rewrite (py_div_Ok 1) by (simpl; lra); red_struct.
  unfold schedule.
  change (zrange 1 (2 + 1)) with [1%Z; 2%Z].
  red_struct.
  rewrite !flip_false by (simpl; lra).
  reflexivity.
Qed.

Lemma example_reset_Ok (w : Oracle) :
  reset example w = Ok (set_state example 0 example_obs, example_obs).
Proof.
  unfold reset; red_struct; eval_fstr; red_struct.
  reflexivity.
Qed.

Lemma example_unsquash :
  unsquash example example_actions
  = Ok [[(1 + 1) / 2 * (1 / INR 1 * 1.5)]; [(0 + 1) / 2 * (1 / INR 1 * 1.5)]].
Proof.
  unfold unsquash; red_struct; eval_fstr; red_struct.
  reflexivity.
Qed.

(** [locals] returns on any state of the example whose stocks are
    positive. *)
Lemma example_locals (self : Env) (k0 k1 : R) (rest sh : list R) (agg : R) :
  cfg self = example_config -> max_s_ij self = 1 / INR 1 * 1.5 ->
  0 < k0 -> 0 < k1 -> 0 <= nth 0 sh 0 -> 0 <= nth 1 sh 0 -> 0 <= agg ->
  exists v, locals self (k0 :: k1 :: rest) sh agg example_actions = Ok v.
Proof.
  intros Hc Hm H0 H1 Hs0 Hs1 Hagg.
  unfold locals, unsquash; rewrite Hc, Hm; red_struct; eval_fstr; red_struct.
  rewrite !(py_div_Ok 1) by (simpl; lra); red_struct.
  rewrite !py_pow_pos by pos; red_struct.
  rewrite !py_pow_pos by pos; red_struct.
  rewrite (py_div_Ok 2) by lra; red_struct.
  unfold correct_bgt, correct_row; red_struct.
  destruct (Rlt_dec 1 _) as [_|Hn]; [|exfalso; apply Hn; simpl; lra].
  destruct (Rlt_dec 1 _) as [Hn|_]; [exfalso; simpl in Hn; lra|].
  red_struct.
  rewrite np_sqrt_Ok; [red_struct; eexists; reflexivity|].
  cbn [np_sum fold_right].
  assert (Hy0 : 0 <= nth 0 sh 0 * agg * Rpower (1 * Rpower k0 (1 / INR 1)) 0.3)
    by (repeat apply Rmult_le_pos; try assumption; left; apply exp_pos).
  assert (Hy1 : 0 <= nth 1 sh 0 * agg * Rpower (1 * Rpower k1 (1 / INR 1)) 0.3)
    by (repeat apply Rmult_le_pos; try assumption; left; apply exp_pos).
  apply Rmult_le_pos; [lra|].
  apply Rplus_le_le_0_compat;
    [|apply Rplus_le_le_0_compat; [|lra]];
    (apply Rmult_le_pos; [simpl; lra|assumption]).
Qed.

Lemma example_actions_wf (i : nat) :
  (i < 2)%nat ->
  exists a, sget (fstr "hh_" i) example_actions = Ok a /\
            (1 <= List.length a)%nat.
Proof.
  intros Hi.
  destruct i as [|[|i]]; [exists [1] | exists [0] | lia];
    split; (reflexivity || (simpl; lia)).
Qed.

Lemma capital_budget_projection_witness :
  (forall i, (i < 2)%nat ->
     exists a, sget (fstr "hh_" i) example_actions = Ok a /\
               (1 <= List.length a)%nat) /\
  exists s0,
    unsquash example example_actions = Ok s0 /\
    np_sum (nth 0 (fst (correct_bgt 1 s0)) []) = 1 /\
    nth 0 (snd (correct_bgt 1 s0)) 0%Z = 1%Z /\
    nth 1 (fst (correct_bgt 1 s0)) [] = nth 1 s0 [] /\
    nth 1 (snd (correct_bgt 1 s0)) 0%Z = 0%Z.
Proof.
  split; [exact example_actions_wf|].
  destruct (capital_budget_projection example example_actions
              example_actions_wf) as (s0 & Hs0 & _ & H).
  exists s0; split; [exact Hs0|].
  rewrite example_unsquash in Hs0; injection Hs0 as <-.
  destruct (H 0%nat ltac:(simpl; lia)) as (d0 & Hd0 & _ & _ & Hgt & _).
  destruct (H 1%nat ltac:(simpl; lia)) as (d1 & Hd1 & _ & _ & _ & Hle).
  simpl in Hd0, Hd1.
  injection Hd0 as <-; injection Hd1 as <-.
  destruct Hgt as (_ & Hsum & Hflag); [simpl; lra|].
  destruct Hle as (Hrow & Hflag'); [simpl; lra|].
  repeat split; assumption.
Defined.

(** *** The structure of a successful [step] *)

Lemma step_inv (self self' : Env) (w : Oracle) (ad : dict string (list R))
      (ret : Return) :
  step self w ad = Ok (self', ret) ->
  let c := cfg self in
  exists t0 o k ids aid sh agg v ids' aid' o',
    timestep self = Some t0 /\
    obs_ self = Some o /\
    sget "hh_0" o = Ok (k, ids, aid) /\
    mapM (fun i => id <- index ids i ;; index (shock_idtc_values c) id)
         (range (n_hh c)) = Ok sh /\
    index (shock_agg_values c) aid = Ok agg /\
    locals self k sh agg ad = Ok v /\
    update_shock self w (t0 + 1) ids aid = Ok (ids', aid') /\
    reorganize (n_hh c) (k_ij_new v) ids' aid' = Ok o' /\
    self' = set_state self (t0 + 1) o' /\
    ret = {| obs := o';
             rew := map (fun i => (fstr "hh_" i, np_mean (utility_i v)))
                        (range (n_hh c));
             done := if (t0 + 1 <? horizon c)%Z
                     then [("__all__"%string, false)]
                     else [("__all__"%string, true)];
             info := create_info self v |}.
Proof.
  unfold step; intros H.
  destruct (timestep self) as [t0|]; [|discriminate]; cbn [bind] in H.
  apply bind_Ok_inv in H; destruct H as [o [Ho H]].
  destruct (obs_ self) as [o1|]; [|discriminate].
  injection Ho as ->.
  apply bind_Ok_inv in H; destruct H as [[[k ids] aid] [H0 H]].
  apply bind_Ok_inv in H; destruct H as [sh [Hsh H]].
  apply bind_Ok_inv in H; destruct H as [agg [Hagg H]].
  apply bind_Ok_inv in H; destruct H as [v [Hv H]].
  apply bind_Ok_inv in H; destruct H as [[ids' aid'] [Hu H]].
  apply bind_Ok_inv in H; destruct H as [o' [Ho' H]].
  injection H as <- <-.
  exists t0, o, k, ids, aid, sh, agg, v, ids', aid', o'.
  repeat (split; [first [assumption | reflexivity]|]).
  reflexivity.
Qed.

Lemma utility_nth (c : Config) (cons : list R) (i : nat) :
  (i < n_hh c)%nat ->
  nth i (utility c cons) 0
  = if Rlt_dec 0 (nth i cons 0) then ln (nth i cons 0) else - bgt_penalty c.
Proof.
  intros Hi; unfold utility.
  now rewrite nth_map_range by exact Hi.
Qed.

(** C3 (as amended).  In a [step] that returns, every household's
    consumption is its income times the share it does not save.  Where that
    consumption is not positive the household's utility is the negation
    [- bgt_penalty] of the configured constant, no logarithm being taken;
    where it is positive the utility is its logarithm; and the reward paid
    to every household is the mean of these utilities. *)
Theorem capital_utility_penalty
        (self self' : Env) (w : Oracle) (ad : dict string (list R))
        (ret : Return) :
  step self w ad = Ok (self', ret) ->
  exists k sh agg v,
    locals self k sh agg ad = Ok v /\
    forall i, (i < n_hh (cfg self))%nat ->
      nth i (c_i v) 0
      = nth i (y_i v) 0 * (1 - np_sum (nth i (s_ij v) [])) /\
      (nth i (c_i v) 0 <= 0 ->
       nth i (utility_i v) 0 = - bgt_penalty (cfg self)) /\
      (0 < nth i (c_i v) 0 ->
       nth i (utility_i v) 0 = ln (nth i (c_i v) 0)) /\
      sget (fstr "hh_" i) (rew ret) = Ok (np_mean (utility_i v)).
Proof.
  intros Hstep.
  destruct (step_inv _ _ _ _ _ Hstep)
    as (t0 & o & k & ids & aid & sh & agg & v & ids' & aid' & o'
        & _ & _ & _ & _ & _ & Hv & _ & _ & _ & ->).
  exists k, sh, agg, v; split; [exact Hv|].
  intros i Hi.
  destruct (locals_inv _ _ _ _ _ _ Hv)
    as (s0 & b & q & _ & _ & _ & _ & _ & Hc & Hu & _).
  rewrite Hu, utility_nth by exact Hi.
  split; [rewrite Hc at 1; now rewrite nth_map_range by exact Hi|].
  split; [|split].
  - intros H.
    destruct (Rlt_dec 0 (nth i (c_i v) 0)); [exfalso; lra|reflexivity].
  - intros H.
    destruct (Rlt_dec 0 (nth i (c_i v) 0)); [reflexivity|exfalso; lra].
  - cbn [rew]; now rewrite sget_map_range by exact Hi.
Qed.

(** The example's first step returns. *)
Lemma example_step (w : Oracle) :
  exists self' ret,
    step (set_state example 0 example_obs) w example_actions
    = Ok (self', ret).
Proof.
  pose proof example_k_ss_pos as Hk.
  destruct (example_locals (set_state example 0 example_obs)
              (example_k_ss * 0.9) (example_k_ss * 0.8) [] [0.9; 0.9] 0.8
              eq_refl eq_refl ltac:(lra) ltac:(lra)
              ltac:(simpl; lra) ltac:(simpl; lra) ltac:(lra)) as [v Hv].
  destruct (locals_inv _ _ _ _ _ _ Hv)
    as (_ & _ & _ & _ & _ & _ & _ & _ & _ & _ & _ & _ & _ & _ & _ & Hn).
  unfold step, update_shock; red_struct.
  rewrite Hv; red_struct.
  rewrite Hn; red_struct; eval_fstr.
  do 2 eexists; reflexivity.
Qed.

Lemma capital_utility_penalty_witness :
  exists self' ret k sh agg v,
    step (set_state example 0 example_obs) zeros example_actions
    = Ok (self', ret) /\
    locals (set_state example 0 example_obs) k sh agg example_actions
    = Ok v /\
    sget "hh_0" (rew ret) = Ok (np_mean (utility_i v)).
Proof.
  destruct (example_step zeros) as (self' & ret & Hstep).
  destruct (capital_utility_penalty _ _ _ _ _ Hstep)
    as (k & sh & agg & v & Hv & H).
  exists self', ret, k, sh, agg, v.
  split; [exact Hstep|].
  split; [exact Hv|].
  destruct (H 0%nat ltac:(simpl; lia)) as (_ & _ & _ & Hr).
  exact Hr.
Defined.

(** C3 as stated fails: in the example household 0 saves its whole income,
    its consumption is zero, and its utility is [-1] while the configured
    [bgt_penalty] is [1]. *)
Lemma capital_utility_penalty_counterexample :
  exists v,
    locals (set_state example 0 example_obs)
           [example_k_ss * 0.9; example_k_ss * 0.8] [0.9; 0.9] 0.8
           example_actions = Ok v /\
    nth 0 (c_i v) 0 <= 0 /\
    nth 0 (utility_i v) 0 <> bgt_penalty example_config.
Proof.
  pose proof example_k_ss_pos as Hk.
  destruct (example_locals (set_state example 0 example_obs)
              (example_k_ss * 0.9) (example_k_ss * 0.8) [] [0.9; 0.9] 0.8
              eq_refl eq_refl ltac:(lra) ltac:(lra)
              ltac:(simpl; lra) ltac:(simpl; lra) ltac:(lra)) as [v Hv].
  exists v; split; [exact Hv|].
  destruct (locals_inv _ _ _ _ _ _ Hv)
    as (s0 & b & q & Hu & Hs & _ & _ & _ & Hc & Hut & _).
  assert (Hs0 : s0 = [[(1 + 1) / 2 * (1 / INR 1 * 1.5)];
                      [(0 + 1) / 2 * (1 / INR 1 * 1.5)]]).
  { pose proof example_unsquash as E.
    unfold unsquash in E, Hu; cbn [cfg set_state max_s_ij] in E, Hu.
    rewrite E in Hu; now injection Hu. }
  assert (Hsum : np_sum (nth 0 (s_ij v) []) = 1).
  { rewrite Hs, Hs0; cbn [cfg set_state example n_capital example_config].
    destruct (nth_correct_bgt 1 [[(1 + 1) / 2 * (1 / INR 1 * 1.5)];
                                 [(0 + 1) / 2 * (1 / INR 1 * 1.5)]]
                0 _ eq_refl) as [-> _].
    destruct (correct_row_spec [(1 + 1) / 2 * (1 / INR 1 * 1.5)])
      as [Hgt _].
    destruct Hgt as [_ H1]; [simpl; lra|exact H1]. }
  assert (Hc0 : nth 0 (c_i v) 0 = 0).
  { rewrite Hc; cbn [cfg set_state example n_hh example_config].
    rewrite nth_map_range by lia.
    rewrite Hsum; ring. }
  split; [lra|].
  rewrite Hut, utility_nth by (simpl; lia).
  rewrite Hc0.
  destruct (Rlt_dec 0 0) as [H|_]; [exfalso; lra|].
  simpl; lra.
Qed.

(** *** Transition of the stocks *)

Lemma nth2_map_range (f : nat -> nat -> R) (n m i j : nat) :
  (i < n)%nat -> (j < m)%nat ->
  nth2 i j (map (fun i => map (fun j => f i j) (range m)) (range n)) = f i j.
Proof.
  intros Hi Hj; unfold nth2.
  rewrite (nth_map_range (fun i => map (fun j => f i j) (range m))) by exact Hi.
  now rewrite nth_map_range by exact Hj.
Qed.

(** The capital planner's transition: the stock depreciates and receives
    the household's share of the investment good, which is the square root
    of the (scaled) total expenditure on that good. *)
Lemma capital_transition
      (self : Env) (k sh : list R) (agg : R) (ad : dict string (list R))
      (v : Locals) :
  locals self k sh agg ad = Ok v ->
  let c := cfg self in
  forall i j, (i < n_hh c)%nat -> (j < n_capital c)%nat ->
    nth2 i j (k_ij_new v)
    = nth2 i j (k_ij v) * (1 - delta c) + nth2 i j (inv_ij v) /\
    nth2 i j (inv_ij v)
    = nth2 i j (inv_exp_ij v) / py_max (nth j (inv_exp_j v) 0) 0.0001
      * sqrt (2 / phi c * nth j (inv_exp_j v) 0) /\
    nth2 i j (inv_exp_ij v) = nth2 i j (s_ij v) * nth i (y_i v) 0 /\
    nth j (inv_exp_j v) 0
    = np_sum (map (fun i' => nth2 i' j (s_ij v) * nth i' (y_i v) 0)
                  (range (n_hh c))).
Proof.
  intros Hv c i j Hi Hj.
  destruct (locals_inv _ _ _ _ _ _ Hv)
    as (s0 & b & q & _ & _ & _ & _ & _ & _ & _ & He & Hej & Hq & Hij & Hiij
        & Hn).
  fold c in He, Hej, Hq, Hij, Hiij, Hn.
  assert (Hm : n_capital c <> O) by lia.
  destruct (py_div_inv _ _ _ (Hq Hm)) as [_ ->].
  split; [rewrite Hn at 1; now rewrite nth2_map_range|].
  split.
  - rewrite Hiij at 1; rewrite nth2_map_range by assumption.
    now destruct (Hij j Hj) as [_ ->].
  - split.
    + rewrite He at 1; now rewrite nth2_map_range.
    + rewrite Hej at 1; rewrite nth_map_range by assumption.
      f_equal; apply map_ext_in; intros i' Hi'.
      apply in_seq in Hi'.
      rewrite He; rewrite nth2_map_range by (assumption || lia).
      reflexivity.
Qed.

(** *** Shape of the matrices of stocks *)

Lemma per_household_length (c : Config) (k : list R) :
  List.length (per_household c k) = n_hh c.
Proof. unfold per_household; now rewrite length_map, length_range. Qed.

(** The rows [per_household] cuts out of a vector of [n_hh * n_capital]
    stocks. *)
Lemma per_household_rows (c : Config) (k : list R) (row : list R) :
  List.length k = (n_hh c * n_capital c)%nat ->
  In row (per_household c k) ->
  List.length row = n_capital c /\ forall x, In x row -> In x k.
Proof.
  intros Hlen Hrow; unfold per_household, slice in Hrow.
  apply in_map_iff in Hrow; destruct Hrow as (i & <- & Hi).
  apply in_seq in Hi.
  replace (i * n_capital c + n_capital c - i * n_capital c)%nat
    with (n_capital c) by lia.
  split.
  - rewrite length_firstn, length_skipn, Hlen.
    assert (i * n_capital c + n_capital c <= n_hh c * n_capital c)%nat
      by nia.
    lia.
  - intros x Hx; eapply In_skipn, In_firstn; exact Hx.
Qed.

Lemma k_ij_new_shape (self : Env) (k sh : list R) (agg : R)
      (ad : dict string (list R)) (v : Locals) :
  locals self k sh agg ad = Ok v ->
  List.length (k_ij_new v) = n_hh (cfg self) /\
  forall row, In row (k_ij_new v) ->
              List.length row = n_capital (cfg self).
Proof.
  intros Hv.
  destruct (locals_inv _ _ _ _ _ _ Hv)
    as (_ & _ & _ & _ & _ & _ & _ & _ & _ & _ & _ & _ & _ & _ & _ & ->).
  unfold range; split; [now rewrite length_map, length_seq|].
  intros row Hrow; apply in_map_iff in Hrow.
  destruct Hrow as (i & <- & _); now rewrite length_map, length_seq.
Qed.

(** *** Own state first *)

Lemma reorganize_views (n : nat) (kij : list (list R)) (shocks : list nat)
      (agg : nat) (o : dict string observation) :
  reorganize n kij shocks agg = Ok o ->
  forall i, (i < n)%nat ->
  exists kv sv,
    self_first_view i kij kv /\ self_first_view i shocks sv /\
    sget (fstr "hh_" i) o = Ok (flatten kv, sv, agg).
Proof.
  unfold reorganize; intros H i Hi.
  rewrite (mapM_ext _
             (fun i => v <- (kp <- self_first i kij ;;
                             sp <- self_first i shocks ;;
                             Ok (flatten kp, sp, agg)) ;;
                       Ok (fstr "hh_" i, v))) in H.
  2:{ intros x _.
      destruct (self_first x kij); simpl; [|reflexivity].
      destruct (self_first x shocks); reflexivity. }
  destruct (sget_mapM_range _ _ _ _ H i Hi) as [[[kv sv] a] [Hf Hg]].
  apply bind_Ok_inv in Hf; destruct Hf as [kp [Hkp Hf]].
  apply bind_Ok_inv in Hf; destruct Hf as [sp [Hsp Hf]].
  injection Hf as <- <- <-.
  exists kp, sp; repeat split; try (now apply self_first_Ok).
  exact Hg.
Qed.

(** The view of agent [i] written out: entry [i], then the entries before
    it and the entries after it. *)
Lemma self_first_view_flatten (i : nat) (kij kv : list (list R)) :
  self_first_view i kij kv ->
  flatten kv = nth i kij [] ++ flatten (drop_nth i kij).
Proof.
  intros (x & Hx & ->).
  now rewrite (nth_error_nth _ _ [] Hx).
Qed.

(** What [step] returns to household [i]: row [i] of the new matrix of
    stocks [k_ij_new], then the other rows in index order, every row with
    one stock per capital good; the new shock state of the household, then
    those of the others in index order; and the new aggregate state.  The
    same dictionary is kept in [self.obs_]. *)
Lemma capital_step_views
      (self self' : Env) (w : Oracle) (ad : dict string (list R))
      (ret : Return) :
  step self w ad = Ok (self', ret) ->
  let c := cfg self in
  exists t0 o k ids aid sh agg v ids' aid',
    timestep self = Some t0 /\
    obs_ self = Some o /\
    sget "hh_0" o = Ok (k, ids, aid) /\
    mapM (fun i => id <- index ids i ;; index (shock_idtc_values c) id)
         (range (n_hh c)) = Ok sh /\
    index (shock_agg_values c) aid = Ok agg /\
    locals self k sh agg ad = Ok v /\
    update_shock self w (t0 + 1) ids aid = Ok (ids', aid') /\
    obs_ self' = Some (obs ret) /\
    List.length (k_ij_new v) = n_hh c /\
    (forall row, In row (k_ij_new v) -> List.length row = n_capital c) /\
    forall i, (i < n_hh c)%nat ->
    exists own_shock,
      nth_error ids' i = Some own_shock /\
      sget (fstr "hh_" i) (obs ret)
      = Ok (nth i (k_ij_new v) [] ++ flatten (drop_nth i (k_ij_new v)),
            own_shock :: drop_nth i ids', aid').
Proof.
  intros Hstep c.
  destruct (step_inv _ _ _ _ _ Hstep)
    as (t0 & o & k & ids & aid & sh & agg & v & ids' & aid' & o'
        & Ht & Ho & Hget & Hsh & Hagg & Hv & Hu & Ho' & -> & ->).
  fold c in Hsh, Hagg, Ho'.
  exists t0, o, k, ids, aid, sh, agg, v, ids', aid'.
  repeat (split; [first [assumption | reflexivity]|]).
  destruct (k_ij_new_shape _ _ _ _ _ _ Hv) as [Hlen Hrows].
  split; [exact Hlen|]; split; [exact Hrows|].
  intros i Hi; cbn [obs].
  destruct (reorganize_views _ _ _ _ _ Ho' i Hi)
    as (kv & sv & Hkv & (x & Hx & ->) & Hobs).
  exists x; split; [exact Hx|].
  now rewrite <- (self_first_view_flatten _ _ _ Hkv).
Qed.

(** What [reset] returns to household [i].  The initial stocks [k_init]
    are nine and eight tenths of the steady state in turn in evaluation and
    analysis mode and uniform draws otherwise; household [i] owns the slice
    [k_init[i * n_capital : i * n_capital + n_capital]] and observes it
    first, then the slices of the others in index order; its own shock
    state, then those of the others; and the aggregate state. *)
Lemma capital_reset_views
      (self self' : Env) (w : Oracle) (o : dict string observation) :
  reset self w = Ok (self', o) ->
  let c := cfg self in
  let k_init :=
    if eval_mode c || analysis_mode c
    then map (fun i => if Nat.even i then k_ss self * 0.9
                       else k_ss self * 0.8)
             (range (n_hh c * n_capital c))
    else map (fun i => uniform (k_ss self * 0.5) (k_ss self * 1.25)
                               (unit01 w i))
             (range (n_hh c * n_capital c)) in
  let k_ij_init := per_household c k_init in
  exists ids aid,
    (if eval_mode c then
       exists sched_idtc sched_agg,
         shocks_eval_idtc self = Some sched_idtc /\
         zget 0 sched_idtc = Ok ids /\
         shocks_eval_agg self = Some sched_agg /\
         zget 0 sched_agg = Ok aid
     else if analysis_mode c then
       exists sched_idtc sched_agg,
         shocks_analysis_idtc self = Some sched_idtc /\
         zget 0 sched_idtc = Ok ids /\
         shocks_analysis_agg self = Some sched_agg /\
         zget 0 sched_agg = Ok aid
     else
       mapM (fun i => choices (range (List.length (shock_idtc_values c)))
                              None (pick w i))
            (range (n_hh c)) = Ok ids /\
       choices (range (List.length (shock_idtc_values c))) None
               (pick w (n_hh c)) = Ok aid) /\
    obs_ self' = Some o /\
    List.length k_ij_init = n_hh c /\
    (forall row, In row k_ij_init -> List.length row = n_capital c) /\
    forall i, (i < n_hh c)%nat ->
    nth i k_ij_init []
    = slice k_init (i * n_capital c) (i * n_capital c + n_capital c) /\
    exists own_shock,
      nth_error ids i = Some own_shock /\
      sget (fstr "hh_" i) o
      = Ok (nth i k_ij_init [] ++ flatten (drop_nth i k_ij_init),
            own_shock :: drop_nth i ids, aid).
Proof.
  intros H c k_init k_ij_init; unfold reset in H; fold c in H.
  apply bind_Ok_inv in H; destruct H as [[[k ids] aid] [Hinit H]].
  apply bind_Ok_inv in H; destruct H as [o' [Ho' H]].
  injection H as <- <-.
  assert (Hk : k = k_init /\
               (if eval_mode c then
                  exists sched_idtc sched_agg,
                    shocks_eval_idtc self = Some sched_idtc /\
                    zget 0 sched_idtc = Ok ids /\
                    shocks_eval_agg self = Some sched_agg /\
                    zget 0 sched_agg = Ok aid
                else if analysis_mode c then
                  exists sched_idtc sched_agg,
                    shocks_analysis_idtc self = Some sched_idtc /\
                    zget 0 sched_idtc = Ok ids /\
                    shocks_analysis_agg self = Some sched_agg /\
                    zget 0 sched_agg = Ok aid
                else
                  mapM (fun i =>
                          choices (range (List.length (shock_idtc_values c)))
                                  None (pick w i))
                       (range (n_hh c)) = Ok ids /\
                  choices (range (List.length (shock_idtc_values c))) None
                          (pick w (n_hh c)) = Ok aid)).
  { unfold k_init.
    destruct (eval_mode c); [|destruct (analysis_mode c)]; cbn [orb].
    - apply bind_Ok_inv in Hinit; destruct Hinit as [si [Hsi Hinit]].
      apply bind_Ok_inv in Hinit; destruct Hinit as [i0 [Hi0 Hinit]].
      apply bind_Ok_inv in Hinit; destruct Hinit as [sa [Hsa Hinit]].
      apply bind_Ok_inv in Hinit; destruct Hinit as [a0 [Ha0 Hinit]].
      injection Hinit as <- <- <-.
      split; [reflexivity|]; exists si, sa.
      destruct (shocks_eval_idtc self); [|discriminate].
      destruct (shocks_eval_agg self); [|discriminate].
      injection Hsi as ->; injection Hsa as ->; auto.
    - apply bind_Ok_inv in Hinit; destruct Hinit as [si [Hsi Hinit]].
      apply bind_Ok_inv in Hinit; destruct Hinit as [i0 [Hi0 Hinit]].
      apply bind_Ok_inv in Hinit; destruct Hinit as [sa [Hsa Hinit]].
      apply bind_Ok_inv in Hinit; destruct Hinit as [a0 [Ha0 Hinit]].
      injection Hinit as <- <- <-.
      split; [reflexivity|]; exists si, sa.
      destruct (shocks_analysis_idtc self); [|discriminate].
      destruct (shocks_analysis_agg self); [|discriminate].
      injection Hsi as ->; injection Hsa as ->; auto.
    - apply bind_Ok_inv in Hinit; destruct Hinit as [i0 [Hi0 Hinit]].
      apply bind_Ok_inv in Hinit; destruct Hinit as [a0 [Ha0 Hinit]].
      injection Hinit as <- <- <-; auto. }
  destruct Hk as [-> Hmode]; fold k_ij_init in Ho'.
  assert (Hklen : List.length k_init = (n_hh c * n_capital c)%nat).
  { unfold k_init; destruct (eval_mode c || analysis_mode c);
      now rewrite length_map, length_range. }
  exists ids, aid.
  split; [exact Hmode|]; split; [reflexivity|].
  split; [apply per_household_length|].
  split; [intros row Hrow;
          now destruct (per_household_rows c k_init row Hklen Hrow)|].
  intros i Hi; split.
  - unfold k_ij_init, per_household; now rewrite nth_map_range.
  - destruct (reorganize_views _ _ _ _ _ Ho' i Hi)
      as (kv & sv & Hkv & (x & Hx & ->) & Hobs).
    exists x; split; [exact Hx|].
    now rewrite <- (self_first_view_flatten _ _ _ Hkv).
Qed.

(** *** The done flag *)

Lemma capital_step_done
      (self self' : Env) (w : Oracle) (ad : dict string (list R))
      (ret : Return) :
  step self w ad = Ok (self', ret) ->
  exists t0,
    timestep self = Some t0 /\
    timestep self' = Some (t0 + 1)%Z /\
    cfg self' = cfg self /\
    done ret = [("__all__"%string, (horizon (cfg self) <=? t0 + 1)%Z)].
Proof.
  intros Hstep.
  destruct (step_inv _ _ _ _ _ Hstep)
    as (t0 & o & k & ids & aid & sh & agg & v & ids' & aid' & o'
        & Ht & _ & _ & _ & _ & _ & _ & _ & -> & ->).
  exists t0; repeat split; [exact Ht|]; cbn [done].
  rewrite Z.leb_antisym.
  now destruct (t0 + 1 <? horizon (cfg self))%Z.
Qed.

Lemma capital_reset_timestep
      (self self' : Env) (w : Oracle) (o : dict string observation) :
  reset self w = Ok (self', o) ->
  timestep self' = Some 0%Z /\ cfg self' = cfg self.
Proof.
  unfold reset; intros H.
  apply bind_Ok_inv in H; destruct H as [[[k ids] aid] [_ H]].
  apply bind_Ok_inv in H; destruct H as [o' [_ H]].
  injection H as <- _; split; reflexivity.
Qed.

(** After [n] further steps of an episode the flag is set exactly when the
    timestep has reached the horizon. *)
Lemma capital_run_done
      (inputs : list (Oracle * dict string (list R))) :
  forall (self selfN : Env) (rets : list Return) (t0 : Z),
  Episode.run_capital self inputs = Ok (selfN, rets) ->
  timestep self = Some t0 ->
  List.length rets = List.length inputs /\
  forall n r, nth_error rets n = Some r ->
    done r
    = [("__all__"%string,
        (horizon (cfg self) <=? t0 + Z.of_nat n + 1)%Z)].
Proof.
  induction inputs as [|[w a] rest IH]; intros self selfN rets t0 H Ht.
  - injection H as _ <-; split; [reflexivity|].
    intros [|n] r Hr; discriminate.
  - cbn [Episode.run_capital] in H.
    apply bind_Ok_inv in H; destruct H as [[self1 r1] [Hstep H]].
    apply bind_Ok_inv in H; destruct H as [[self2 rs] [Hrun H]].
    injection H as _ <-.
    destruct (capital_step_done _ _ _ _ _ Hstep) as (t & Ht' & Ht1 & Hc & Hd).
    rewrite Ht in Ht'; injection Ht' as <-.
    destruct (IH _ _ _ _ Hrun Ht1) as [Hlen Hn].
    split; [simpl; now rewrite Hlen|].
    intros [|n] r Hr; simpl in Hr.
    + injection Hr as <-; rewrite Hd.
      now replace (t0 + Z.of_nat 0 + 1)%Z with (t0 + 1)%Z by lia.
    + rewrite (Hn n r Hr), Hc.
      now replace (t0 + 1 + Z.of_nat n + 1)%Z
        with (t0 + Z.of_nat (S n) + 1)%Z by lia.
Qed.

(** *** Scheduled shocks *)

(** A schedule built by the constructor has an entry for every timestep
    from 0 through the horizon. *)
Lemma schedule_covers {V} (hor : Z) (v0 : V) (f : Z -> result V)
      (d : dict Z V) :
  schedule hor v0 f = Ok d ->
  forall t, (0 <= t <= hor)%Z -> exists v, zget t d = Ok v.
Proof.
  unfold schedule; intros H t Ht.
  apply bind_Ok_inv in H; destruct H as [rest [Hrest H]].
  injection H as <-.
  apply mapM_keys in Hrest.
  destruct (get_In_keys t ((0%Z, v0) :: rest)) as [v Hv].
  - simpl; rewrite Hrest.
    destruct (Z.eq_dec t 0) as [->|Hne]; [now left|right].
    apply In_zrange; lia.
  - exists v; unfold zget; now rewrite Hv.
Qed.

(** What the constructor leaves in the schedules of the mode that is on. *)
Lemma init_schedules (c : Config) (self : Env) :
  init c = Ok self ->
  cfg self = c /\
  (eval_mode c = true ->
   exists da di,
     shocks_eval_agg self = Some da /\ shocks_eval_idtc self = Some di /\
     forall t, (0 <= t <= horizon c)%Z ->
       (exists a, zget t da = Ok a) /\ (exists l, zget t di = Ok l)) /\
  (analysis_mode c = true ->
   exists da di,
     shocks_analysis_agg self = Some da /\
     shocks_analysis_idtc self = Some di /\
     forall t, (0 <= t <= horizon c)%Z ->
       (exists a, zget t da = Ok a) /\ (exists l, zget t di = Ok l)).
Proof.
  unfold init; intros H.
  apply bind_Ok_inv in H; destruct H as [a [_ H]].
  apply bind_Ok_inv in H; destruct H as [b [_ H]].
  apply bind_Ok_inv in H; destruct H as [e [_ H]].
  apply bind_Ok_inv in H; destruct H as [kss [_ H]].
  apply bind_Ok_inv in H; destruct H as [m [_ H]].
  apply bind_Ok_inv in H; destruct H as [ev [Hev H]].
  apply bind_Ok_inv in H; destruct H as [an [Han H]].
  injection H as <-; cbn [cfg shocks_eval_agg shocks_eval_idtc
                          shocks_analysis_agg shocks_analysis_idtc].
  split; [reflexivity|]; split; intros Hmode.
  - rewrite Hmode in Hev.
    apply bind_Ok_inv in Hev; destruct Hev as [da [Hda Hev]].
    apply bind_Ok_inv in Hev; destruct Hev as [di [Hdi Hev]].
    injection Hev as <-; exists da, di; repeat split; try reflexivity;
      eauto using schedule_covers.
  - rewrite Hmode in Han.
    apply bind_Ok_inv in Han; destruct Han as [da [Hda Han]].
    apply bind_Ok_inv in Han; destruct Han as [di [Hdi Han]].
    injection Han as <-; exists da, di; repeat split; try reflexivity;
      eauto using schedule_covers.
Qed.





(** *** Stocks stay positive *)

Lemma py_pow_nonneg (x a p : R) : py_pow x a = Ok p -> 0 <= p.
Proof.
  unfold py_pow.
  destruct (Rlt_dec 0 x).
  - intros H; injection H as <-; left; apply exp_pos.
  - destruct (Req_dec_T x 0); [|discriminate].
    destruct (Req_dec_T a 0); [intros H; injection H as <-; lra|].
    destruct (Rlt_dec 0 a); [intros H; injection H as <-; lra|discriminate].
Qed.

Lemma np_sum_nonneg (l : list R) :
  (forall x, In x l -> 0 <= x) -> 0 <= np_sum l.
Proof.
  induction l as [|x l IH]; simpl; intros H; [lra|].
  pose proof (H x (or_introl eq_refl)).
  assert (0 <= np_sum l) by (apply IH; intros; apply H; now right).
  lra.
Qed.

(** The projection keeps non-negative savings non-negative. *)
Lemma correct_row_nonneg (d : list R) (j : nat) :
  (forall x, In x d -> 0 <= x) ->
  0 <= nth j (fst (correct_row (List.length d) d)) 0.
Proof.
  intros Hd.
  assert (Hnth : forall l, (forall x : R, In x l -> 0 <= x) ->
                           0 <= nth j l 0).
  { intros l Hl.
    destruct (Nat.lt_ge_cases j (List.length l)) as [Hlt|Hge].
    - apply Hl, nth_In; exact Hlt.
    - rewrite nth_overflow by exact Hge; lra. }
  destruct (Rle_lt_dec (np_sum d) 1) as [Hle|Hgt].
  - destruct (correct_row_spec d) as [_ H]; rewrite (H Hle); auto.
  - destruct (correct_row_spec d) as [H _].
    destruct (H Hgt) as [-> _]; cbn [fst].
    apply Hnth; intros x Hx.
    apply in_map_iff in Hx; destruct Hx as [z [<- Hz]].
    apply Rle_mult_inv_pos; [auto|lra].
Qed.

(** With savings ceilings, shocks and depreciation in their economic
    ranges and actions in the action space, positive stocks stay positive:
    the new stock is at least the depreciated old one. *)
Lemma capital_stocks_positive
      (self : Env) (k sh : list R) (agg : R) (ad : dict string (list R))
      (v : Locals) :
  locals self k sh agg ad = Ok v ->
  let c := cfg self in
  0 <= max_s_ij self -> delta c < 1 -> 0 <= agg ->
  (forall i, 0 <= nth i sh 0) ->
  (forall i a x, sget (fstr "hh_" i) ad = Ok a -> In x a -> -1 <= x) ->
  forall i j, (i < n_hh c)%nat -> (j < n_capital c)%nat ->
    0 < nth2 i j (k_ij v) -> 0 < nth2 i j (k_ij_new v).
Proof.
  intros Hv c Hmax Hdelta Hagg Hsh Hact i j Hi Hj Hk.
  destruct (capital_transition _ _ _ _ _ _ Hv i j Hi Hj)
    as (-> & -> & -> & _).
  destruct (locals_inv _ _ _ _ _ _ Hv)
    as (s0 & b & q & Hu & Hs & _ & _ & Hy & _).
  fold c in Hs, Hy.
  assert (Hsnn : 0 <= nth2 i j (s_ij v)).
  { destruct (unsquash_inv _ _ _ Hu) as [_ Hrows].
    destruct (Hrows i Hi) as (d & Hd & Hlen & Hent).
    unfold nth2; rewrite Hs.
    destruct (nth_correct_bgt (n_capital c) s0 i d Hd) as [-> _].
    fold c in Hlen; rewrite <- Hlen.
    apply correct_row_nonneg; intros x Hx.
    destruct (In_nth_error _ _ Hx) as [j' Hj'].
    assert (Hlt : (j' < n_capital c)%nat).
    { rewrite <- Hlen; apply nth_error_Some; congruence. }
    destruct (Hent j' Hlt) as (a & a_j & Ha & Haj & Hdj).
    rewrite Hj' in Hdj; injection Hdj as ->.
    apply index_Ok in Haj.
    pose proof (Hact i a a_j Ha (nth_error_In _ _ Haj)).
    apply Rmult_le_pos; [lra|exact Hmax]. }
  assert (Hynn : 0 <= nth i (y_i v) 0).
  { destruct (mapM_range_nth _ _ _ Hy) as [_ Hyn].
    destruct (Hyn i Hi) as [y [Hyi Hf]].
    apply bind_Ok_inv in Hf; destruct Hf as [p [Hp Hf]].
    injection Hf as <-.
    rewrite (nth_error_nth _ _ 0 Hyi).
    apply py_pow_nonneg in Hp.
    apply Rmult_le_pos; [apply Rmult_le_pos; auto|exact Hp]. }
  assert (Hinv : 0 <= nth2 i j (s_ij v) * nth i (y_i v) 0
                      / py_max (nth j (inv_exp_j v) 0) 0.0001
                      * sqrt (2 / phi c * nth j (inv_exp_j v) 0)).
  { apply Rmult_le_pos; [|apply sqrt_pos].
    apply Rle_mult_inv_pos; [now apply Rmult_le_pos|].
    pose proof (py_max_r (nth j (inv_exp_j v) 0) 0.0001); lra. }
  assert (0 < nth2 i j (k_ij v) * (1 - delta c))
    by (apply Rmult_lt_0_compat; lra).
  subst c; lra.
Qed.

Lemma example_actions_lookup (i : nat) (a : list R) :
  sget (fstr "hh_" i) example_actions = Ok a -> a = [1] \/ a = [0].
Proof.
  change example_actions
    with [(fstr "hh_" 0, [1]); (fstr "hh_" 1, [0])].
  unfold sget; cbn [get]; rewrite !fstr_eqb.
  destruct i as [|[|i]]; cbn [Nat.eqb]; intros H;
    try discriminate; injection H as <-; auto.
Qed.

(** The example's episode: from positive stocks a step leads to positive
    stocks, at both of its timesteps. *)
Lemma example_step_next (w : Oracle) (t : Z) (k0 k1 : R) :
  0 < k0 -> 0 < k1 -> (t = 0 \/ t = 1)%Z ->
  exists k0' k1' ret,
    0 < k0' /\ 0 < k1' /\
    step (set_state example t (example_obs_of k0 k1)) w example_actions
    = Ok (set_state example (t + 1) (example_obs_of k0' k1'), ret).
Proof.
  intros H0 H1 Ht.
  set (self := set_state example t (example_obs_of k0 k1)).
  destruct (example_locals self k0 k1 [] [0.9; 0.9] 0.8
              eq_refl eq_refl H0 H1
              ltac:(simpl; lra) ltac:(simpl; lra) ltac:(lra)) as [v Hv].
  assert (Hpos : forall i, (i < 2)%nat -> 0 < nth2 i 0 (k_ij_new v)).
  { intros i Hi.
    apply (capital_stocks_positive _ _ _ _ _ _ Hv); cbn; try lra; try lia.
    - intros [|[|[|n]]]; cbn; lra.
    - intros i' a x Ha Hx.
      destruct (example_actions_lookup i' a Ha) as [-> | ->];
        destruct Hx as [<-|[]]; lra.
    - destruct (locals_inv _ _ _ _ _ _ Hv) as (_ & _ & _ & _ & _ & _ & Hk & _).
      rewrite Hk.
      destruct i as [|[|i]]; cbn; try lra; lia. }
  destruct (locals_inv _ _ _ _ _ _ Hv)
    as (_ & _ & _ & _ & _ & _ & _ & _ & _ & _ & _ & _ & _ & _ & _ & Hn).
  exists (nth2 0 0 (k_ij_new v)), (nth2 1 0 (k_ij_new v)).
  unfold step, update_shock; subst self; red_struct.
  rewrite Hv; red_struct.
  pose proof (Hpos 0%nat ltac:(lia)) as Hp0.
  pose proof (Hpos 1%nat ltac:(lia)) as Hp1.
  revert Hp0 Hp1; rewrite Hn; red_struct; intros Hp0 Hp1.
  destruct Ht as [-> | ->]; red_struct; eval_fstr;
    (eexists; split; [exact Hp0|]; split; [exact Hp1|]; reflexivity).
Qed.

(** The example's whole episode returns. *)
Lemma example_run (w1 w2 : Oracle) :
  exists selfN r1 r2,
    Episode.run_capital (set_state example 0 example_obs)
                        [(w1, example_actions); (w2, example_actions)]
    = Ok (selfN, [r1; r2]).
Proof.
  pose proof example_k_ss_pos as Hk.
  destruct (example_step_next w1 0 (example_k_ss * 0.9) (example_k_ss * 0.8)
              ltac:(lra) ltac:(lra) ltac:(now left))
    as (k0 & k1 & r1 & Hk0 & Hk1 & Hs1).
  destruct (example_step_next w2 1 k0 k1 Hk0 Hk1 ltac:(now right))
    as (k0' & k1' & r2 & _ & _ & Hs2).
  cbn [Episode.run_capital].
  fold example_obs in Hs1; rewrite Hs1; cbn [bind].
  change (0 + 1)%Z with 1%Z; rewrite Hs2; cbn [bind].
  do 3 eexists; reflexivity.
Qed.

(** *** The info dictionary *)

(** Outside analysis mode the info dictionary is empty.  In analysis mode
    [hh_0] holds the quantities of all households and every other
    household its own. *)
Lemma capital_info
      (self self' : Env) (w : Oracle) (ad : dict string (list R))
      (ret : Return) :
  step self w ad = Ok (self', ret) ->
  (analysis_mode (cfg self) = false -> info ret = []) /\
  (analysis_mode (cfg self) = true ->
   exists k sh agg v,
     locals self k sh agg ad = Ok v /\
     sget "hh_0" (info ret)
     = Ok [("savings"%string, VMatrix (s_ij v));
           ("reward"%string, VFloat (np_mean (utility_i v)));
           ("income"%string, VFloats (y_i v));
           ("consumption"%string, VFloats (c_i v));
           ("bgt_penalty"%string, VInts (bgt_penalty_ind v));
           ("capital"%string, VMatrix (k_ij v));
           ("capital_new"%string, VMatrix (k_ij_new v))] /\
     forall i, (1 <= i < n_hh (cfg self))%nat ->
       sget (fstr "hh_" i) (info ret)
       = Ok [("savings"%string, VFloats (nth i (s_ij v) []));
             ("reward"%string, VFloat (np_mean (utility_i v)));
             ("income"%string, VFloat (nth i (y_i v) 0));
             ("consumption"%string, VFloat (nth i (c_i v) 0));
             ("bgt_penalty"%string, VInt (nth i (bgt_penalty_ind v) 0%Z));
             ("capital"%string, VFloats (nth i (k_ij v) []));
             ("capital_new"%string, VFloats (nth i (k_ij_new v) []))]).
Proof.
  intros Hstep.
  destruct (step_inv _ _ _ _ _ Hstep)
    as (t0 & o & k & ids & aid & sh & agg & v & ids' & aid' & o'
        & _ & _ & _ & _ & _ & Hv & _ & _ & _ & ->).
  cbn [info]; unfold create_info; split; intros Hmode; rewrite Hmode;
    cbn [negb]; [reflexivity|].
  exists k, sh, agg, v; split; [exact Hv|].
  change "hh_0"%string with (fstr "hh_" 0).
  match goal with
  | |- context [merge String.eqb [(fstr "hh_" 0, ?g)]
                      (map (fun i => (fstr "hh_" i, @?f i)) _)] =>
      destruct (sget_info "hh_" g f (n_hh (cfg self))) as (_ & H0 & Hi)
  end.
  split; [exact H0|exact Hi].
Qed.

End CapitalProps.

(** ** Townsend *)

Module TownsendProps.
Import Townsend.

Ltac red_townsend :=
  cbn [bind mapM foldM range seq index nth_error nth sget get zget
       String.eqb Ascii.eqb Bool.eqb Z.eqb Pos.eqb fst snd map
       self_first others enumerate combine filter negb Nat.eqb orb andb
       app List.length attr perindustry Z.add Pos.add Pos.succ Nat.mul
       Nat.add Nat.even Z.ltb Z.compare Pos.compare Pos.compare_cont
       cfg n_industries rental_shock eval_mode analysis_mode example_config
       example example_state example_global example_obs example_actions
       set_state with_n_firms n_firms norm_ind horizon
       shocks_agg_seeded shocks_idtc_seeded cur_rew_mean cur_rew_std
       cur_simul_mode timestep obs_ obs_global draw_shocks
       g_k g_prices g_theta g_shock_agg g_shock_idtc g_shock_rent
       max_savings k_ss max_price max_cap delta alpha phi A tfp rho theta_0
       var_w var_epsilon var_theta gauss zeros ones].

Lemma townsend_example_init (rental : bool) (ws : nat -> Oracle) :
  init example_rng (example_config rental) ws = Ok (example rental).
Proof.
  unfold init; red_townsend.
  change (zrange 0 3) with [0%Z; 1%Z; 2%Z]; red_townsend.
  unfold example_rng; rewrite !normal_Ok by lra; red_townsend.
  reflexivity.
Qed.

Lemma townsend_example_reset (rental : bool) (w : Oracle) :
  reset (with_n_firms (example rental) 1) w
  = Ok (example_state rental, example_obs).
Proof.
  unfold reset; red_townsend.
  rewrite !py_pow_pos by lra; red_townsend; eval_fstr.
  reflexivity.
Qed.

(** *** The structure of a successful [step] *)

Lemma townsend_locals_inv
      (self : Env) (w : Oracle) (t : Z) (g : Global)
      (ad : dict string (list R)) (v : Locals) :
  locals self w t g ad = Ok v ->
  let c := cfg self in
  let n := n_industries c in
  let k := g_k g in
  draw_shocks self w t = Ok (shock_idtc v, shock_agg v, shock_rent v) /\
  theta v = rho c * g_theta g + shock_agg v /\
  mapM (fun i => a <- sget (fstr "firm_" i) ad ;;
                 a0 <- index a 0 ;;
                 Ok ((a0 + 1) / 2 * max_savings c)) (range n) = Ok (s v) /\
  mapM (fun i => k_i <- index k i ;;
                 p <- py_pow k_i (alpha c) ;;
                 Ok (tfp c * p)) (range n) = Ok (y v) /\
  (forall i, (i < n)%nat ->
     exists cap,
       (if norm_ind self then max_cap_norm self = Some cap
        else cap = max_cap c) /\
       nth i (k_new v) 0
       = py_min (nth i k 0 * (1 - delta c) + nth i (s v) 0 * nth i (y v) 0)
                cap) /\
  utility v
  = map (fun i => nth i (prices v) 0 * (1 - nth i (s v) 0) * nth i (y v) 0
                  - nth i (shock_rent v) 0 * nth i k 0
                  - phi c * (nth i (k_new v) 0 - nth i k 0) ^ 2)
        (range n).
Proof.
  unfold locals; intros H.
  apply bind_Ok_inv in H; destruct H as [[[idtc agg] rent] [Hd H]].
  apply bind_Ok_inv in H; destruct H as [u [Hu H]].
  apply bind_Ok_inv in H; destruct H as [sv [Hs H]].
  apply bind_Ok_inv in H; destruct H as [yv [Hy H]].
  apply bind_Ok_inv in H; destruct H as [[pr kn] [Hpk H]].
  injection H as <-; cbn [shock_idtc shock_agg shock_rent theta s y prices
                          k_new utility].
  repeat (split; [first [assumption | reflexivity]|]).
  split; [|reflexivity].
  intros i Hi.
  destruct (norm_ind self).
  - apply bind_Ok_inv in Hpk; destruct Hpk as [pr' [_ Hpk]].
    apply bind_Ok_inv in Hpk; destruct Hpk as [kn' [Hkn Hpk]].
    injection Hpk as _ <-.
    destruct (mapM_range_nth _ _ _ Hkn) as [_ Hnth].
    destruct (Hnth i Hi) as [x [Hx Hf]].
    apply bind_Ok_inv in Hf; destruct Hf as [cap [Hcap Hf]].
    injection Hf as <-.
    exists cap; split.
    + destruct (max_cap_norm self); [now injection Hcap as ->|discriminate].
    + now apply nth_error_nth.
  - injection Hpk as _ <-.
    exists (max_cap (cfg self)); split; [reflexivity|].
    now rewrite nth_map_range by exact Hi.
Qed.

Lemma townsend_step_inv
      (self self' : Env) (w : Oracle) (ad : dict string (list R))
      (ret : Return) :
  step self w ad = Ok (self', ret) ->
  let c := cfg self in
  let n := n_industries c in
  exists t0 g v pp r,
    timestep self = Some t0 /\
    obs_global self = Some g /\
    locals self w (t0 + 1) g ad = Ok v /\
    perindustry n (prices v) = Ok pp /\
    mapM (fun i => q <- py_div (nth i (utility v) 0 - cur_rew_mean self)
                               (cur_rew_std self) ;;
                   Ok (fstr "firm_" i, q)) (range n) = Ok r /\
    timestep self' = Some (t0 + 1)%Z /\
    cfg self' = cfg self /\
    obs_global self'
    = Some {| g_k := k_new v;
              g_prices := prices v;
              g_theta := theta v;
              g_shock_agg := shock_agg v;
              g_shock_idtc := shock_idtc v;
              g_shock_rent := VFloats (shock_rent v) |} /\
    ret = {| obs := map (fun i => (fstr "firm_" i,
                                   nth i (k_new v) 0 :: nth i pp []))
                        (range n);
             rew := r;
             done := if (t0 + 1 <? horizon c)%Z
                     then [("__all__"%string, false)]
                     else [("__all__"%string, true)];
             info := create_info self (g_k g) v |}.
Proof.
  unfold step; intros H.
  destruct (timestep self) as [t0|]; [|discriminate]; cbn [bind] in H.
  apply bind_Ok_inv in H; destruct H as [g [Hg H]].
  destruct (obs_global self) as [g1|]; [|discriminate].
  injection Hg as ->.
  apply bind_Ok_inv in H; destruct H as [v [Hv H]].
  apply bind_Ok_inv in H; destruct H as [pp [Hpp H]].
  apply bind_Ok_inv in H; destruct H as [r [Hr H]].
  injection H as <- <-.
  exists t0, g, v, pp, r.
  repeat (split; [first [assumption | reflexivity]|]).
  reflexivity.
Qed.

(** *** Transition of the stocks *)

(** Townsend's transition: the stock depreciates, receives the saved share
    of output as it is, and is capped; the quadratic adjustment cost is
    charged to the firm's utility. *)
Lemma townsend_transition
      (self : Env) (w : Oracle) (t : Z) (g : Global)
      (ad : dict string (list R)) (v : Locals) :
  locals self w t g ad = Ok v ->
  let c := cfg self in
  forall i, (i < n_industries c)%nat ->
  exists a a0 k_i p cap,
    sget (fstr "firm_" i) ad = Ok a /\ index a 0 = Ok a0 /\
    nth i (s v) 0 = (a0 + 1) / 2 * max_savings c /\
    index (g_k g) i = Ok k_i /\ py_pow k_i (alpha c) = Ok p /\
    nth i (y v) 0 = tfp c * p /\
    (if norm_ind self then max_cap_norm self = Some cap
     else cap = max_cap c) /\
    nth i (k_new v) 0
    = py_min (k_i * (1 - delta c) + nth i (s v) 0 * nth i (y v) 0) cap /\
    nth i (utility v) 0
    = nth i (prices v) 0 * (1 - nth i (s v) 0) * nth i (y v) 0
      - nth i (shock_rent v) 0 * k_i
      - phi c * (nth i (k_new v) 0 - k_i) ^ 2.
Proof.
  intros Hv c i Hi.
  destruct (townsend_locals_inv _ _ _ _ _ _ Hv)
    as (_ & _ & Hs & Hy & Hk & Hu).
  destruct (mapM_range_nth _ _ _ Hs) as [_ Hsn].
  destruct (Hsn i Hi) as [si [Hsi Hf]].
  apply bind_Ok_inv in Hf; destruct Hf as [a [Ha Hf]].
  apply bind_Ok_inv in Hf; destruct Hf as [a0 [Ha0 Hf]].
  injection Hf as <-.
  destruct (mapM_range_nth _ _ _ Hy) as [_ Hyn].
  destruct (Hyn i Hi) as [yi [Hyi Hf]].
  apply bind_Ok_inv in Hf; destruct Hf as [k_i [Hki Hf]].
  apply bind_Ok_inv in Hf; destruct Hf as [p [Hp Hf]].
  injection Hf as <-.
  destruct (Hk i Hi) as [cap [Hcap Hkn]].
  assert (Hnk : nth i (g_k g) 0 = k_i)
    by (apply nth_error_nth; now apply index_Ok).
  rewrite Hnk in Hkn.
  exists a, a0, k_i, p, cap.
  rewrite (nth_error_nth _ _ 0 Hsi), (nth_error_nth _ _ 0 Hyi).
  repeat (split; [first [assumption | reflexivity]|]).
  split.
  - rewrite Hkn, (nth_error_nth _ _ 0 Hsi), (nth_error_nth _ _ 0 Hyi).
    reflexivity.
  - rewrite Hu, nth_map_range by exact Hi.
    now rewrite Hnk, (nth_error_nth _ _ 0 Hsi), (nth_error_nth _ _ 0 Hyi).
Qed.

(** *** The example, evaluated *)

Lemma townsend_example_locals (rental : bool) (w : Oracle) (a : R) :
  exists v,
    locals (example_state rental) w 1 example_global (example_actions a)
    = Ok v.
Proof.
  unfold locals; red_townsend.
  destruct rental; red_townsend; rewrite ?normal_Ok by lra; red_townsend;
    eval_fstr; red_townsend;
    rewrite !py_pow_pos by lra; red_townsend;
    eexists; reflexivity.
Qed.

(** In the example the investment is linear in the action. *)
Lemma townsend_example_investment (a : R) :
  -1 <= a <= 1 -> example_investment a = 0.27 * a + 0.27.
Proof.
  intros Ha; unfold example_investment, locals.
  red_townsend; eval_fstr; red_townsend.
  rewrite !py_pow_pos by lra; red_townsend.
  cbn [k_new nth].
  rewrite Rpower_1 by lra.
  unfold py_min.
  destruct (Rlt_dec 100 _) as [H|_]; [exfalso; lra|].
  lra.
Qed.

(** C2 as stated fails for Townsend: what the action adds to the
    depreciated stock is not a quadratic function of the action. *)
Lemma townsend_investment_counterexample :
  ~ quadratic_on_actions example_investment.
Proof.
  intros (a & b & c & Ha & H).
  pose proof (H (-1) ltac:(lra)) as H1.
  pose proof (H 0 ltac:(lra)) as H2.
  pose proof (H 1 ltac:(lra)) as H3.
  rewrite townsend_example_investment in H1, H2, H3 by lra.
  apply Ha; lra.
Qed.

(** The example's episode: from positive stocks a step leads to positive
    stocks, at both of its timesteps. *)
Lemma townsend_example_step_next
      (rental : bool) (w : Oracle) (a : R) (t : Z)
      (o : dict string (list R)) (g : Global) (k0 k1 : R) :
  g_k g = [k0; k1] -> 0 < k0 -> 0 < k1 -> -1 <= a <= 1 ->
  (t = 0 \/ t = 1)%Z ->
  exists o' g' ret k0' k1',
    g_k g' = [k0'; k1'] /\ 0 < k0' /\ 0 < k1' /\
    step (set_state (with_n_firms (example rental) 1) t o g) w
         (example_actions a)
    = Ok (set_state (with_n_firms (example rental) 1) (t + 1) o' g', ret).
Proof.
  intros Hg H0 H1 Ha Ht.
  assert (Hmin : forall x, 0 < x -> 0 < py_min x 100).
  { intros x Hx; unfold py_min; destruct (Rlt_dec 100 x); lra. }
  unfold step, locals; red_townsend; rewrite Hg.
  destruct rental, Ht as [-> | ->]; red_townsend;
    rewrite ?normal_Ok by lra; red_townsend; eval_fstr; red_townsend;
    rewrite !py_pow_pos by lra; red_townsend;
    cbn [prices utility k_new s y]; red_townsend;
    rewrite !py_div_Ok by lra; red_townsend;
    rewrite !Rpower_1 by lra;
    (do 5 eexists; split; [|split; [|split]];
     [ | | | reflexivity ]; [ reflexivity | | ]; apply Hmin; nra).
Qed.

Lemma townsend_example_step (rental : bool) (w : Oracle) (a : R) :
  -1 <= a <= 1 ->
  exists self' ret,
    step (example_state rental) w (example_actions a) = Ok (self', ret).
Proof.
  intros Ha.
  destruct (townsend_example_step_next rental w a 0 example_obs
              example_global (1 * 0.9) (1 * 0.8) eq_refl
              ltac:(lra) ltac:(lra) Ha ltac:(now left))
    as (o1 & g1 & r1 & k0 & k1 & _ & _ & _ & Hs1).
  unfold example_state; rewrite Hs1; eauto.
Qed.

Lemma townsend_example_run (rental : bool) (w1 w2 : Oracle) (a : R) :
  -1 <= a <= 1 ->
  exists selfN r1 r2,
    Episode.run_townsend (example_state rental)
                         [(w1, example_actions a); (w2, example_actions a)]
    = Ok (selfN, [r1; r2]).
Proof.
  intros Ha.
  destruct (townsend_example_step_next rental w1 a 0 example_obs
              example_global (1 * 0.9) (1 * 0.8) eq_refl
              ltac:(lra) ltac:(lra) Ha ltac:(now left))
    as (o1 & g1 & r1 & k0 & k1 & Hg1 & Hk0 & Hk1 & Hs1).
  destruct (townsend_example_step_next rental w2 a 1 o1 g1 k0 k1 Hg1
              Hk0 Hk1 Ha ltac:(now right))
    as (o2 & g2 & r2 & _ & _ & _ & _ & _ & Hs2).
  cbn [Episode.run_townsend]; unfold example_state.
  rewrite Hs1; cbn [bind].
  change (0 + 1)%Z with 1%Z; rewrite Hs2; cbn [bind].
  do 3 eexists; reflexivity.
Qed.

Lemma townsend_k_new_length
      (self : Env) (w : Oracle) (t : Z) (g : Global)
      (ad : dict string (list R)) (v : Locals) :
  locals self w t g ad = Ok v ->
  List.length (k_new v) = n_industries (cfg self).
Proof.
  intros H; unfold locals in H.
  apply bind_Ok_inv in H; destruct H as [[[idtc agg] rent] [Hd H]].
  apply bind_Ok_inv in H; destruct H as [u [Hu H]].
  apply bind_Ok_inv in H; destruct H as [sv [Hs H]].
  apply bind_Ok_inv in H; destruct H as [yv [Hy H]].
  apply bind_Ok_inv in H; destruct H as [[pr kn] [Hpk H]].
  injection H as <-; cbn [k_new].
  destruct (norm_ind self).
  - apply bind_Ok_inv in Hpk; destruct Hpk as [pr' [_ Hpk]].
    apply bind_Ok_inv in Hpk; destruct Hpk as [kn' [Hkn Hpk]].
    injection Hpk as _ <-.
    now destruct (mapM_range_nth _ _ _ Hkn).
  - injection Hpk as _ <-.
    unfold range; now rewrite length_map, length_seq.
Qed.

(** *** Own state first *)

Lemma perindustry_views (n : nat) (p : list R) (pp : list (list R)) :
  perindustry n p = Ok pp ->
  forall i, (i < n)%nat -> self_first_view i p (nth i pp []).
Proof.
  unfold perindustry; intros H i Hi.
  destruct (mapM_range_nth _ _ _ H) as [_ Hn].
  destruct (Hn i Hi) as [view [Hview Hf]].
  rewrite (nth_error_nth _ _ [] Hview).
  now apply self_first_Ok.
Qed.

(** What [step] returns to firm [i]: entry [i] of the new stocks, entry
    [i] of the new prices, then the other prices in index order; the stocks
    and the prices are the ones [step] keeps in [self.obs_global]. *)
Lemma townsend_step_views
      (self self' : Env) (w : Oracle) (ad : dict string (list R))
      (ret : Return) :
  step self w ad = Ok (self', ret) ->
  exists t0 g v g',
    timestep self = Some t0 /\
    obs_global self = Some g /\
    locals self w (t0 + 1) g ad = Ok v /\
    obs_global self' = Some g' /\
    g_k g' = k_new v /\
    g_prices g' = prices v /\
    forall i, (i < n_industries (cfg self))%nat ->
    exists own_k own_p,
      nth_error (g_k g') i = Some own_k /\
      nth_error (g_prices g') i = Some own_p /\
      sget (fstr "firm_" i) (obs ret)
      = Ok (own_k :: own_p :: drop_nth i (g_prices g')).
Proof.
  intros Hstep.
  destruct (townsend_step_inv _ _ _ _ _ Hstep)
    as (t0 & g & v & pp & r & Ht & Hg & Hv & Hpp & _ & _ & _ & Hg' & ->).
  eexists t0, g, v, _.
  split; [exact Ht|]; split; [exact Hg|]; split; [exact Hv|].
  split; [exact Hg'|]; cbn [g_k g_prices obs].
  split; [reflexivity|]; split; [reflexivity|].
  intros i Hi.
  destruct (perindustry_views _ _ _ Hpp i Hi) as (p_i & Hp_i & Hview).
  pose proof (townsend_k_new_length _ _ _ _ _ _ Hv) as Hlen.
  destruct (nth_error (k_new v) i) as [k_i|] eqn:Hk_i;
    [|apply nth_error_None in Hk_i; lia].
  exists k_i, p_i; split; [reflexivity|]; split; [exact Hp_i|].
  rewrite (sget_map_range "firm_"
             (fun i => nth i (k_new v) 0 :: nth i pp [])) by exact Hi.
  now rewrite Hview, (nth_error_nth _ _ 0 Hk_i).
Qed.

(** What [reset] returns to firm [i]: entry [i] of the initial stocks,
    entry [i] of the initial prices, then the other prices in index order.
    The initial stocks, [n_industries * n_firms] of them, are nine and eight
    tenths of the steady state in turn in evaluation and analysis mode and
    uniform draws otherwise; stocks and prices are the ones [reset] keeps
    in [self.obs_global]. *)
Lemma townsend_reset_views
      (self self' : Env) (w : Oracle) (o : dict string (list R)) :
  reset self w = Ok (self', o) ->
  let c := cfg self in
  exists nf g',
    n_firms self = Some nf /\
    obs_global self' = Some g' /\
    g_k g'
    = (if eval_mode c || analysis_mode c
       then map (fun i => if Nat.even i then k_ss c * 0.9 else k_ss c * 0.8)
                (range (n_industries c * nf))
       else map (fun i => uniform (k_ss c * 0.5) (k_ss c * 30) (unit01 w i))
                (range (n_industries c * nf))) /\
    forall i, (i < n_industries c)%nat ->
    exists own_k own_p,
      nth_error (g_k g') i = Some own_k /\
      nth_error (g_prices g') i = Some own_p /\
      sget (fstr "firm_" i) o
      = Ok (own_k :: own_p :: drop_nth i (g_prices g')).
Proof.
  intros H c; unfold reset in H; fold c in H.
  apply bind_Ok_inv in H; destruct H as [[[k idtc] agg] [Hinit H]].
  apply bind_Ok_inv in H; destruct H as [u [_ H]].
  apply bind_Ok_inv in H; destruct H as [yv [_ H]].
  apply bind_Ok_inv in H; destruct H as [p [_ H]].
  apply bind_Ok_inv in H; destruct H as [pp [Hpp H]].
  apply bind_Ok_inv in H; destruct H as [o' [Ho H]].
  injection H as <- <-.
  assert (Hk : exists nf,
             n_firms self = Some nf /\
             k = (if eval_mode c || analysis_mode c
                  then map (fun i => if Nat.even i then k_ss c * 0.9
                                     else k_ss c * 0.8)
                           (range (n_industries c * nf))
                  else map (fun i => uniform (k_ss c * 0.5) (k_ss c * 30)
                                             (unit01 w i))
                           (range (n_industries c * nf)))).
  { destruct (n_firms self) as [nf|];
      [|destruct (eval_mode c); [|destruct (analysis_mode c)];
        discriminate].
    exists nf; split; [reflexivity|].
    destruct (eval_mode c); [|destruct (analysis_mode c)]; cbn [orb];
      cbn [attr bind] in Hinit;
      apply bind_Ok_inv in Hinit; destruct Hinit as [i0 [_ Hinit]];
      apply bind_Ok_inv in Hinit; destruct Hinit as [a0 [_ Hinit]];
      now injection Hinit as <- _ _. }
  destruct Hk as (nf & Hnf & Hk).
  eexists nf, _; split; [exact Hnf|].
  split; [reflexivity|]; cbn [g_k g_prices].
  split; [exact Hk|].
  intros i Hi.
  rewrite (mapM_ext _
             (fun i => v <- (k_i <- index k i ;; Ok (k_i :: nth i pp [])) ;;
                       Ok (fstr "firm_" i, v))) in Ho
    by (intros x _; destruct (index k x); reflexivity).
  destruct (sget_mapM_range _ _ _ _ Ho i Hi) as [view [Hf Hg]].
  apply bind_Ok_inv in Hf; destruct Hf as [k_i [Hki Hf]].
  injection Hf as <-.
  destruct (perindustry_views _ _ _ Hpp i Hi) as (p_i & Hp_i & Hview).
  exists k_i, p_i; split; [now apply index_Ok|].
  split; [exact Hp_i|].
  now rewrite <- Hview.
Qed.

(** *** [reset] reads an attribute the class never sets *)

Lemma townsend_reset_needs_n_firms (self : Env) (w : Oracle) :
  n_firms self = None -> reset self w = Raise (AttributeError "n_firms").
Proof.
  intros H; unfold reset; rewrite H.
  destruct (eval_mode (cfg self)); [reflexivity|].
  destruct (analysis_mode (cfg self)); reflexivity.
Qed.

Lemma townsend_random_sample_raises
      (self : Env) (n : nat) (ws : nat -> Oracle) :
  n_firms self = None -> n <> O ->
  random_sample self n ws = Raise (AttributeError "n_firms").
Proof.
  intros H Hn; unfold random_sample.
  destruct n as [|n]; [contradiction|].
  unfold range; cbn [seq sample_loop Nat.modulo Nat.divmod fst snd
                     Nat.sub Nat.eqb].
  rewrite townsend_reset_needs_n_firms by exact H.
  reflexivity.
Qed.

Lemma townsend_init_inv (rng : Z -> nat -> R) (c : Config)
      (ws : nat -> Oracle) (self : Env) :
  init rng c ws = Ok self ->
  normalize c = false /\
  cfg self = c /\
  n_firms self = None /\
  norm_ind self = false /\
  map fst (shocks_agg_seeded self) = zrange 0 (horizon c + 1) /\
  map fst (shocks_idtc_seeded self) = zrange 0 (horizon c + 1).
Proof.
  unfold init; intros H.
  apply bind_Ok_inv in H; destruct H as [agg [Hagg H]].
  apply bind_Ok_inv in H; destruct H as [idtc [Hidtc H]].
  destruct (normalize c).
  - rewrite townsend_random_sample_raises in H; [discriminate|reflexivity|].
    lia.
  - injection H as <-; cbn [cfg n_firms norm_ind shocks_agg_seeded
                            shocks_idtc_seeded].
    apply mapM_keys in Hagg, Hidtc.
    repeat split; assumption.
Qed.

Lemma normal_Raise (s g : R) (e : exn) :
  normal s g = Raise e -> e = ValueError.
Proof.
  unfold normal; destruct (Rlt_dec s 0); intros H; inversion H; reflexivity.
Qed.

(** The constructor raises nothing but [ValueError] (a negative variance)
    before it normalises. *)
Lemma townsend_seeding_Raise (rng : Z -> nat -> R) (c : Config)
      (ws : nat -> Oracle) (e : exn) :
  init rng c ws = Raise e ->
  e = ValueError \/ e = AttributeError "n_firms".
Proof.
  unfold init; intros H.
  match type of H with
  | bind ?m _ = _ => destruct m as [agg|e1] eqn:Hagg
  end; cbn [bind] in H.
  - match type of H with
    | bind ?m _ = _ => destruct m as [idtc|e2] eqn:Hidtc
    end; cbn [bind] in H.
    + destruct (normalize c); [|discriminate].
      rewrite townsend_random_sample_raises in H by (reflexivity || lia).
      cbn [bind] in H; injection H as <-; now right.
    + injection H as <-; left.
      apply mapM_Raise in Hidtc; destruct Hidtc as (t & _ & Ht).
      match type of Ht with
      | bind ?m _ = _ => destruct m as [l|e3] eqn:Hl
      end; cbn [bind] in Ht; [discriminate|].
      injection Ht as <-.
      apply mapM_Raise in Hl; destruct Hl as (i & _ & Hi).
      exact (normal_Raise _ _ _ Hi).
  - injection H as <-; left.
    apply mapM_Raise in Hagg; destruct Hagg as (t & _ & Ht).
    match type of Ht with
    | bind ?m _ = _ => destruct m as [x|e3] eqn:Hx
    end; cbn [bind] in Ht; [discriminate|].
    injection Ht as <-.
    exact (normal_Raise _ _ _ Hx).
Qed.

(** With non-negative variances the seeding succeeds. *)
Lemma townsend_seeding_Ok (rng : Z -> nat -> R) (c : Config)
      (ws : nat -> Oracle) (e : exn) :
  0 <= var_theta c -> 0 <= var_epsilon c ->
  init rng c ws = Raise e -> e = AttributeError "n_firms".
Proof.
  intros Ht He H.
  destruct (townsend_seeding_Raise _ _ _ _ H) as [->|]; [|assumption].
  exfalso; revert H; unfold init.
  rewrite (mapM_ext _ (fun t => Ok (t, var_theta c
                                      * rng (if eval_mode c then seed_eval c
                                             else seed_analysis c)
                                            (Z.to_nat t))))
    by (intros t _; now rewrite normal_Ok).
  rewrite mapM_pure; cbn [bind].
  rewrite (mapM_ext _
             (fun t => Ok (t, map (fun i =>
                                     var_epsilon c
                                     * rng (if eval_mode c then seed_eval c
                                            else seed_analysis c)
                                           (List.length
                                              (zrange 0 (horizon c + 1))
                                            + Z.to_nat t * n_industries c
                                            + i)%nat)
                                  (range (n_industries c))))).
  2:{ intros t _.
      rewrite (mapM_ext _ (fun i => Ok (var_epsilon c
                                        * rng (if eval_mode c then seed_eval c
                                               else seed_analysis c)
                                              (List.length
                                                 (zrange 0 (horizon c + 1))
                                               + Z.to_nat t * n_industries c
                                               + i)%nat)))
        by (intros i _; now rewrite normal_Ok).
      now rewrite mapM_pure. }
  rewrite mapM_pure; cbn [bind].
  destruct (normalize c); [|discriminate].
  rewrite townsend_random_sample_raises by (reflexivity || lia).
  discriminate.
Qed.

(** C5.  The claim that [reset] returns an initial observation in every
    mode fails for Townsend.  Whatever the configuration and the mode,
    constructing the environment and calling [reset] raises: [ValueError]
    when a variance is negative, and otherwise [AttributeError], because
    [reset] reads [self.n_firms], which the class never sets.  With the
    default configuration it is the [AttributeError]. *)
Theorem townsend_reset_raises :
  (forall (rng : Z -> nat -> R) (c : Config) (ws : nat -> Oracle)
          (w : Oracle),
      (self <- init rng c ws ;; reset self w)
      = Raise (AttributeError "n_firms") \/
      (self <- init rng c ws ;; reset self w) = Raise ValueError) /\
  (forall (rng : Z -> nat -> R) (ws : nat -> Oracle) (w : Oracle),
      (self <- init rng default_config ws ;; reset self w)
      = Raise (AttributeError "n_firms")).
Proof.
  split.
  - intros rng c ws w.
    destruct (init rng c ws) as [self|e] eqn:Hinit; cbn [bind].
    + destruct (townsend_init_inv _ _ _ _ Hinit) as (_ & _ & Hn & _).
      left; now apply townsend_reset_needs_n_firms.
    + destruct (townsend_seeding_Raise _ _ _ _ Hinit) as [-> | ->]; auto.
  - intros rng ws w.
    destruct (init rng default_config ws) as [self|e] eqn:Hinit; cbn [bind].
    + destruct (townsend_init_inv _ _ _ _ Hinit) as (_ & _ & Hn & _).
      now apply townsend_reset_needs_n_firms.
    + rewrite (townsend_seeding_Ok rng default_config ws e); auto;
        simpl; lra.
Qed.

(** *** The done flag *)

Lemma townsend_step_done
      (self self' : Env) (w : Oracle) (ad : dict string (list R))
      (ret : Return) :
  step self w ad = Ok (self', ret) ->
  exists t0,
    timestep self = Some t0 /\
    timestep self' = Some (t0 + 1)%Z /\
    cfg self' = cfg self /\
    done ret = [("__all__"%string, (horizon (cfg self) <=? t0 + 1)%Z)].
Proof.
  intros Hstep.
  destruct (townsend_step_inv _ _ _ _ _ Hstep)
    as (t0 & g & v & pp & r & Ht & _ & _ & _ & _ & Ht' & Hc & _ & ->).
  exists t0; repeat split; try assumption; cbn [done].
  rewrite Z.leb_antisym.
  now destruct (t0 + 1 <? horizon (cfg self))%Z.
Qed.

Lemma townsend_reset_timestep
      (self self' : Env) (w : Oracle) (o : dict string (list R)) :
  reset self w = Ok (self', o) ->
  timestep self' = Some 0%Z /\ cfg self' = cfg self.
Proof.
  unfold reset; intros H.
  apply bind_Ok_inv in H; destruct H as [[[k idtc] agg] [_ H]].
  apply bind_Ok_inv in H; destruct H as [u [_ H]].
  apply bind_Ok_inv in H; destruct H as [yv [_ H]].
  apply bind_Ok_inv in H; destruct H as [p [_ H]].
  apply bind_Ok_inv in H; destruct H as [pp [_ H]].
  apply bind_Ok_inv in H; destruct H as [o' [_ H]].
  injection H as <- _; split; reflexivity.
Qed.

Lemma townsend_run_done
      (inputs : list (Oracle * dict string (list R))) :
  forall (self selfN : Env) (rets : list Return) (t0 : Z),
  Episode.run_townsend self inputs = Ok (selfN, rets) ->
  timestep self = Some t0 ->
  List.length rets = List.length inputs /\
  forall n r, nth_error rets n = Some r ->
    done r
    = [("__all__"%string,
        (horizon (cfg self) <=? t0 + Z.of_nat n + 1)%Z)].
Proof.
  induction inputs as [|[w a] rest IH]; intros self selfN rets t0 H Ht.
  - injection H as _ <-; split; [reflexivity|].
    intros [|n] r Hr; discriminate.
  - cbn [Episode.run_townsend] in H.
    apply bind_Ok_inv in H; destruct H as [[self1 r1] [Hstep H]].
    apply bind_Ok_inv in H; destruct H as [[self2 rs] [Hrun H]].
    injection H as _ <-.
    destruct (townsend_step_done _ _ _ _ _ Hstep)
      as (t & Ht' & Ht1 & Hc & Hd).
    rewrite Ht in Ht'; injection Ht' as <-.
    destruct (IH _ _ _ _ Hrun Ht1) as [Hlen Hn].
    split; [simpl; now rewrite Hlen|].
    intros [|n] r Hr; simpl in Hr.
    + injection Hr as <-; rewrite Hd.
      now replace (t0 + Z.of_nat 0 + 1)%Z with (t0 + 1)%Z by lia.
    + rewrite (Hn n r Hr), Hc.
      now replace (t0 + 1 + Z.of_nat n + 1)%Z
        with (t0 + Z.of_nat (S n) + 1)%Z by lia.
Qed.

(** *** Seeded shocks *)







(** *** The info dictionary *)

(** With neither analysis nor simulation mode on, the info dictionary is
    empty; otherwise [firm_0] holds the quantities of all firms and every
    other firm its own. *)
Lemma townsend_info
      (self self' : Env) (w : Oracle) (ad : dict string (list R))
      (ret : Return) :
  step self w ad = Ok (self', ret) ->
  (analysis_mode (cfg self) = false -> cur_simul_mode self = false ->
   info ret = []) /\
  (analysis_mode (cfg self) || cur_simul_mode self = true ->
   exists t g v,
     obs_global self = Some g /\ locals self w t g ad = Ok v /\
     sget "firm_0" (info ret)
     = Ok [("savings"%string, VFloats (s v));
           ("reward"%string, VFloats (utility v));
           ("income"%string, VFloats (y v));
           ("capital"%string, VFloats (g_k g));
           ("capital_new"%string, VFloats (k_new v));
           ("prices"%string, VFloats (prices v))] /\
     forall i, (1 <= i < n_industries (cfg self))%nat ->
       sget (fstr "firm_" i) (info ret)
       = Ok [("savings"%string, VFloat (nth i (s v) 0));
             ("reward"%string, VFloat (nth i (utility v) 0));
             ("income"%string, VFloat (nth i (y v) 0));
             ("capital"%string, VFloat (nth i (g_k g) 0));
             ("capital_new"%string, VFloat (nth i (k_new v) 0));
             ("prices"%string, VFloat (nth i (prices v) 0))]).
Proof.
  intros Hstep.
  destruct (townsend_step_inv _ _ _ _ _ Hstep)
    as (t0 & g & v & pp & r & _ & Hg & Hv & _ & _ & _ & _ & _ & ->).
  cbn [info]; unfold create_info; split.
  - intros Ha Hs; rewrite Ha, Hs; reflexivity.
  - intros Hmode.
    replace (negb (analysis_mode (cfg self)) && negb (cur_simul_mode self))
      with false
      by (destruct (analysis_mode (cfg self)), (cur_simul_mode self);
          simpl in *; congruence).
    exists (t0 + 1)%Z, g, v; split; [exact Hg|]; split; [exact Hv|].
    change "firm_0"%string with (fstr "firm_" 0).
    match goal with
    | |- context [merge String.eqb [(fstr "firm_" 0, ?g0)]
                        (map (fun i => (fstr "firm_" i, @?f i)) _)] =>
        destruct (sget_info "firm_" g0 f (n_industries (cfg self)))
          as (_ & H0 & Hi)
    end.
    split; [exact H0|exact Hi].
Qed.

End TownsendProps.

(** ** DiffDemandDiscrete *)

Module DiffDemandProps.
Import DiffDemandDiscrete.

Lemma diff_step_inv (self self' : Env) (ad : dict string Z) (ret : Return) :
  step self ad = Ok (self', ret) ->
  let c := cfg self in
  let n := n_agents c in
  let actions := values ad in
  exists o p notnorm denom rl,
    mapM (fun i =>
            row <- mapM (fun j => a <- index actions j ;; Ok (uint8 a))
                        (range n) ;;
            Ok (fstr "agent_" i, row)) (range n) = Ok o /\
    prices c actions = Ok p /\
    rewards_notnorm c p = Ok notnorm /\
    rewards_denom c notnorm = Ok denom /\
    rewards_list c p notnorm denom = Ok rl /\
    self' = {| cfg := c; num_steps := (num_steps self + 1)%Z; obs_ := o |} /\
    ret = {| obs := o;
             rew := map (fun i => (fstr "agent_" i, nth i rl 0)) (range n);
             done :=
               if finite_periods c then
                 merge String.eqb
                   (map (fun i => (fstr "agent_" i,
                                   (n_periods c <=? num_steps self)%Z))
                        (range n))
                   [("__all__"%string, (n_periods c <=? num_steps self)%Z)]
               else [("__all__"%string, false)];
             info := map (fun i => (fstr "agent_" i, nth i p 0)) (range n) |}.
Proof.
  unfold step; intros H.
  apply bind_Ok_inv in H; destruct H as [o [Ho H]].
  apply bind_Ok_inv in H; destruct H as [p [Hp H]].
  apply bind_Ok_inv in H; destruct H as [notnorm [Hn H]].
  apply bind_Ok_inv in H; destruct H as [denom [Hd H]].
  apply bind_Ok_inv in H; destruct H as [rl [Hrl H]].
  injection H as <- <-.
  exists o, p, notnorm, denom, rl.
  repeat (split; [first [assumption | reflexivity]|]).
  reflexivity.
Qed.

(** Every agent is shown the same vector: the actions of all agents in the
    order of the action dictionary. *)
Lemma diff_step_obs (self self' : Env) (ad : dict string Z) (ret : Return) :
  step self ad = Ok (self', ret) ->
  let n := n_agents (cfg self) in
  forall i, (i < n)%nat ->
    sget (fstr "agent_" i) (obs ret)
    = Ok (map uint8 (firstn n (values ad))) /\
    List.length (firstn n (values ad)) = n.
Proof.
  intros Hstep n i Hi.
  destruct (diff_step_inv _ _ _ _ Hstep)
    as (o & p & nn & d & rl & Ho & _ & _ & _ & _ & _ & ->).
  fold n in Ho; cbn [obs].
  destruct (sget_mapM_range _ _ _ _ Ho i Hi) as [row [Hrow Hg]].
  rewrite Hg.
  destruct (mapM_range_nth _ _ _ Hrow) as [Hlen Hn].
  assert (Hlong : (n <= List.length (values ad))%nat).
  { destruct n as [|n']; [lia|].
    destruct (Hn n' ltac:(lia)) as [x [_ Hx]].
    apply bind_Ok_inv in Hx; destruct Hx as [a [Ha _]].
    apply index_Ok in Ha.
    assert (nth_error (values ad) n' <> None) by congruence.
    apply nth_error_Some in H; lia. }
  split; [|now rewrite length_firstn, Nat.min_l].
  f_equal; apply nth_ext with (d := 0%Z) (d' := uint8 0%Z).
  - now rewrite length_map, length_firstn, Nat.min_l.
  - intros j Hj; rewrite Hlen in Hj.
    destruct (Hn j Hj) as [x [Hx Hf]].
    apply bind_Ok_inv in Hf; destruct Hf as [a [Ha Hf]].
    injection Hf as <-.
    rewrite (nth_error_nth _ _ 0%Z Hx).
    rewrite map_nth; f_equal.
    apply index_Ok in Ha.
    symmetry; apply nth_error_nth.
    now rewrite nth_error_firstn, (proj2 (Nat.ltb_lt j n) Hj).
Qed.

Lemma np_sum_map_ext (f g : nat -> R) (l : list nat) :
  (forall i, In i l -> f i = g i) -> np_sum (map f l) = np_sum (map g l).
Proof.
  intros H; f_equal; now apply map_ext_in.
Qed.

(** What a [step] that returns computes. *)
Lemma diff_step_reward
      (self self' : Env) (ad : dict string Z) (ret : Return) :
  step self ad = Ok (self', ret) ->
  let c := cfg self in
  let price j :=
    nth j (lower_price c) 0
    + (nth j (higher_price c) 0 - nth j (lower_price c) 0)
      * IZR (nth j (values ad) 0%Z) / IZR (gridpoints c - 1) in
  let weight j := exp ((nth j (values_ c) 0 - price j) / substitution c) in
  let share i :=
    weight i / (exp (ext_demand c / substitution c)
                + np_sum (map weight (range (n_agents c)))) in
  (forall i, (i < n_agents c)%nat ->
     sget (fstr "agent_" i) (rew ret)
     = Ok ((price i - nth i (cost c) 0) * share i) /\
     sget (fstr "agent_" i) (info ret) = Ok (price i)) /\
  num_steps self' = (num_steps self + 1)%Z /\
  forall other, cfg other = cfg self ->
    exists other' ret', step other ad = Ok (other', ret') /\
                        rew ret' = rew ret.
Proof.
  intros Hstep c price weight share.
  destruct (diff_step_inv _ _ _ _ Hstep)
    as (o & p & nn & d & rl & Ho & Hp & Hn & Hd & Hrl & -> & ->).
  fold c in Ho, Hp, Hn, Hd, Hrl.
  assert (Hprice : forall j, (j < n_agents c)%nat -> nth j p 0 = price j).
  { intros j Hj; unfold prices in Hp.
    destruct (mapM_range_nth _ _ _ Hp) as [_ Hnth].
    destruct (Hnth j Hj) as [x [Hx Hf]].
    apply bind_Ok_inv in Hf; destruct Hf as [lo [Hlo Hf]].
    apply bind_Ok_inv in Hf; destruct Hf as [hi [Hhi Hf]].
    apply bind_Ok_inv in Hf; destruct Hf as [a [Ha Hf]].
    apply bind_Ok_inv in Hf; destruct Hf as [q [Hq Hf]].
    injection Hf as <-.
    destruct (py_div_inv _ _ _ Hq) as [_ ->].
    apply index_Ok in Hlo, Hhi, Ha.
    rewrite (nth_error_nth _ _ 0 Hx); unfold price.
    rewrite (nth_error_nth _ _ 0 Hlo), (nth_error_nth _ _ 0 Hhi),
      (nth_error_nth _ _ 0%Z Ha).
    unfold Rdiv; ring. }
  assert (Hweight : forall j, (j < n_agents c)%nat -> nth j nn 0 = weight j).
  { intros j Hj; unfold rewards_notnorm in Hn.
    destruct (mapM_range_nth _ _ _ Hn) as [_ Hnth].
    destruct (Hnth j Hj) as [x [Hx Hf]].
    apply bind_Ok_inv in Hf; destruct Hf as [v [Hv Hf]].
    apply bind_Ok_inv in Hf; destruct Hf as [q [Hq Hf]].
    injection Hf as <-.
    destruct (py_div_inv _ _ _ Hq) as [_ ->].
    apply index_Ok in Hv.
    rewrite (nth_error_nth _ _ 0 Hx); unfold weight.
    now rewrite (nth_error_nth _ _ 0 Hv), Hprice by exact Hj. }
  assert (Hsum : np_sum nn = np_sum (map weight (range (n_agents c)))).
  { unfold rewards_notnorm in Hn.
    destruct (mapM_range_nth _ _ _ Hn) as [Hlen _].
    rewrite <- (map_nth_range nn 0), Hlen.
    apply np_sum_map_ext; intros j Hj.
    apply in_seq in Hj; apply Hweight; lia. }
  assert (Hdenom : d = exp (ext_demand c / substitution c)
                       + np_sum (map weight (range (n_agents c)))).
  { unfold rewards_denom in Hd.
    apply bind_Ok_inv in Hd; destruct Hd as [q [Hq Hd]].
    injection Hd as <-.
    destruct (py_div_inv _ _ _ Hq) as [_ ->].
    now rewrite Hsum. }
  split; [|split; [reflexivity|]].
  - intros i Hi; cbn [rew info].
    rewrite (sget_map_range "agent_" (fun i => nth i rl 0)) by exact Hi.
    rewrite (sget_map_range "agent_" (fun i => nth i p 0)) by exact Hi.
    rewrite Hprice by exact Hi; split; [|reflexivity].
    unfold rewards_list in Hrl.
    destruct (mapM_range_nth _ _ _ Hrl) as [_ Hnth].
    destruct (Hnth i Hi) as [x [Hx Hf]].
    apply bind_Ok_inv in Hf; destruct Hf as [k [Hk Hf]].
    injection Hf as <-.
    apply index_Ok in Hk.
    rewrite (nth_error_nth _ _ 0 Hx), (nth_error_nth _ _ 0 Hk).
    rewrite Hprice, Hweight by exact Hi.
    unfold share; rewrite <- Hdenom.
    f_equal; unfold Rdiv; ring.
  - intros other Hcfg; unfold step; rewrite Hcfg; fold c.
    rewrite Ho; cbn [bind].
    rewrite Hp; cbn [bind].
    rewrite Hn; cbn [bind].
    rewrite Hd; cbn [bind].
    rewrite Hrl; cbn [bind].
    do 2 eexists; split; reflexivity.
Qed.

(** [step] returns whenever the grid has more than one point, the
    substitution parameter is not zero, and the parameter lists and the
    action dictionary have an entry for every agent. *)
Lemma diff_step_total (self : Env) (ad : dict string Z) :
  let c := cfg self in
  let n := n_agents c in
  gridpoints c <> 1%Z -> substitution c <> 0 ->
  (n <= List.length (lower_price c))%nat ->
  (n <= List.length (higher_price c))%nat ->
  (n <= List.length (values_ c))%nat ->
  (n <= List.length (cost c))%nat ->
  (n <= List.length (values ad))%nat ->
  exists self' ret, step self ad = Ok (self', ret).
Proof.
  intros c n Hg Hs Hlo Hhi Hv Hc Ha.
  assert (Hgrid : IZR (gridpoints c - 1) <> 0)
    by (apply not_0_IZR; lia).
  unfold step; fold c; fold n.
  destruct (mapM_range_total
              (fun i => row <- mapM (fun j => a <- index (values ad) j ;;
                                              Ok (uint8 a)) (range n) ;;
                        Ok (fstr "agent_" i, row)) n) as [o Ho].
  { intros i Hi.
    destruct (mapM_range_total
                (fun j => a <- index (values ad) j ;; Ok (uint8 a)) n)
      as [row Hrow].
    - intros j Hj.
      destruct (index_total (values ad) j ltac:(lia)) as [a Hidx].
      rewrite Hidx; cbn [bind]; eauto.
    - rewrite Hrow; cbn [bind]; eauto. }
  rewrite Ho; cbn [bind].
  destruct (mapM_range_total
              (fun i => lo <- index (lower_price c) i ;;
                        hi <- index (higher_price c) i ;;
                        a <- index (values ad) i ;;
                        q <- py_div (IZR a) (IZR (gridpoints c - 1)) ;;
                        Ok (lo + (hi - lo) * q)) n) as [p Hp].
  { intros i Hi.
    destruct (index_total (lower_price c) i ltac:(lia)) as [lo ->].
    destruct (index_total (higher_price c) i ltac:(lia)) as [hi ->].
    destruct (index_total (values ad) i ltac:(lia)) as [a ->].
    cbn [bind]; rewrite py_div_Ok by exact Hgrid; cbn [bind]; eauto. }
  unfold prices; fold n; rewrite Hp; cbn [bind].
  destruct (mapM_range_total
              (fun i => v <- index (values_ c) i ;;
                        x <- py_div (v - nth i p 0) (substitution c) ;;
                        Ok (exp x)) n) as [nn Hnn].
  { intros i Hi.
    destruct (index_total (values_ c) i ltac:(lia)) as [v ->].
    cbn [bind]; rewrite py_div_Ok by exact Hs; cbn [bind]; eauto. }
  unfold rewards_notnorm; fold n; rewrite Hnn; cbn [bind].
  unfold rewards_denom; rewrite py_div_Ok by exact Hs; cbn [bind].
  destruct (mapM_range_total
              (fun i => k <- index (cost c) i ;;
                        Ok ((nth i p 0 - k) * nth i nn 0
                            / (exp (ext_demand c / substitution c)
                               + np_sum nn))) n) as [rl Hrl].
  { intros i Hi.
    destruct (index_total (cost c) i ltac:(lia)) as [k ->].
    cbn [bind]; eauto. }
  unfold rewards_list; fold n; rewrite Hrl; cbn [bind].
  eauto.
Qed.

(** C8.  [step] returns for every joint action (on a grid of more than one
    point, with a non-zero substitution parameter and an entry for every
    agent in the parameter lists and in the action dictionary).  Agent
    [i]'s price is
    [lower_i + (higher_i - lower_i) * action_i / (gridpoints - 1)], its
    market share is the logit share with the outside option, and its reward
    is [(price_i - cost_i)] times that share; the price is what the info
    dictionary reports.  The step counter advances by one, and the rewards
    do not depend on the state: any instance with the same configuration
    returns the same rewards for the same actions.  [action_i] is the
    [i]-th value of the action dictionary. *)
Theorem diff_demand_reward (self : Env) (ad : dict string Z) :
  let c := cfg self in
  let n := n_agents c in
  gridpoints c <> 1%Z -> substitution c <> 0 ->
  (n <= List.length (lower_price c))%nat ->
  (n <= List.length (higher_price c))%nat ->
  (n <= List.length (values_ c))%nat ->
  (n <= List.length (cost c))%nat ->
  (n <= List.length (values ad))%nat ->
  let price j :=
    nth j (lower_price c) 0
    + (nth j (higher_price c) 0 - nth j (lower_price c) 0)
      * IZR (nth j (values ad) 0%Z) / IZR (gridpoints c - 1) in
  let weight j := exp ((nth j (values_ c) 0 - price j) / substitution c) in
  let share i :=
    weight i / (exp (ext_demand c / substitution c)
                + np_sum (map weight (range n))) in
  exists self' ret,
    step self ad = Ok (self', ret) /\
    (forall i, (i < n)%nat ->
       sget (fstr "agent_" i) (rew ret)
       = Ok ((price i - nth i (cost c) 0) * share i) /\
       sget (fstr "agent_" i) (info ret) = Ok (price i)) /\
    num_steps self' = (num_steps self + 1)%Z /\
    forall other, cfg other = cfg self ->
      exists other' ret', step other ad = Ok (other', ret') /\
                          rew ret' = rew ret.
Proof.
  intros c n Hg Hs Hlo Hhi Hv Hc Ha price weight share.
  destruct (diff_step_total self ad Hg Hs Hlo Hhi Hv Hc Ha)
    as (self' & ret & Hstep).
  exists self', ret; split; [exact Hstep|].
  exact (diff_step_reward _ _ _ _ Hstep).
Qed.

(** The example step returns. *)
Lemma diff_example_step :
  exists self' ret, step example example_actions = Ok (self', ret).
Proof.
  apply diff_step_total; cbn; try lia; try lra; discriminate.
Qed.

Lemma diff_demand_reward_witness :
  (16 <> 1)%Z /\ 0.25 <> 0 /\
  exists self' ret,
    step example example_actions = Ok (self', ret) /\
    sget "agent_0" (info ret) = Ok (1 + (2 - 1) * IZR 3 / IZR (16 - 1)) /\
    num_steps self' = 1%Z.
Proof.
  split; [discriminate|]; split; [lra|].
  destruct (diff_demand_reward example example_actions)
    as (self' & ret & Hstep & Hrew & Hn & _);
    try (cbn; lia); try (cbn; lra); try discriminate.
  exists self', ret; split; [exact Hstep|].
  destruct (Hrew 0%nat ltac:(vm_compute; lia)) as [_ Hinfo].
  split; [exact Hinfo|exact Hn].
Defined.

(** C4 as stated fails for DiffDemandDiscrete: in the example agent 1 is
    shown [[3; 7]], which starts with agent 0's action, not with its own. *)
Lemma diff_obs_counterexample :
  exists self' ret view,
    step example example_actions = Ok (self', ret) /\
    sget "agent_1" (obs ret) = Ok view /\
    ~ self_first_view 1 (map uint8 (values example_actions)) view.
Proof.
  destruct diff_example_step as (self' & ret & Hstep).
  destruct (diff_step_obs _ _ _ _ Hstep 1%nat ltac:(vm_compute; lia)) as [Hobs _].
  exists self', ret; eexists; split; [exact Hstep|].
  split; [exact Hobs|].
  intros (x & Hx & Hview).
  cbn in Hx; injection Hx as <-.
  cbn in Hview; discriminate.
Qed.

(** The info dictionary holds every agent's price, whatever the
    configuration. *)
Lemma diff_info (self self' : Env) (ad : dict string Z) (ret : Return) :
  step self ad = Ok (self', ret) ->
  exists p,
    prices (cfg self) (values ad) = Ok p /\
    info ret = map (fun i => (fstr "agent_" i, nth i p 0))
                   (range (n_agents (cfg self))) /\
    (n_agents (cfg self) <> O -> info ret <> []).
Proof.
  intros Hstep.
  destruct (diff_step_inv _ _ _ _ Hstep)
    as (o & p & nn & d & rl & _ & Hp & _ & _ & _ & _ & ->).
  exists p; split; [exact Hp|]; split; [reflexivity|].
  cbn [info]; intros Hn.
  destruct (n_agents (cfg self)); [contradiction|discriminate].
Qed.

End DiffDemandProps.

(** ** The family of environments *)

Module FamilyProps.

(** C2 (as amended).  In both environments the next stock is the old
    stock times [1 - delta] plus an investment.  In the capital planner the
    investment of household [i] in good [j] is its share of the expenditure
    on [j] times the square root of [2 / phi] times that expenditure, the
    expenditure being the savings rate times income, and no ceiling
    applies.  In Townsend the investment is the saved share of output
    [s_i * y_i] as it is, the sum is capped by the minimum with [max_cap]
    ([max_cap_norm] once normalised), and the quadratic adjustment cost
    [phi * (k_new - k) ^ 2] is subtracted from the firm's utility. *)
Theorem next_capital_stock :
  (forall (self : Capital_planner_ma.Env) (k sh : list R) (agg : R)
          (ad : dict string (list R)) (v : Capital_planner_ma.Locals),
      Capital_planner_ma.locals self k sh agg ad = Ok v ->
      let c := Capital_planner_ma.cfg self in
      forall i j,
        (i < Capital_planner_ma.n_hh c)%nat ->
        (j < Capital_planner_ma.n_capital c)%nat ->
        nth2 i j (Capital_planner_ma.k_ij_new v)
        = nth2 i j (Capital_planner_ma.k_ij v)
          * (1 - Capital_planner_ma.delta c)
          + nth2 i j (Capital_planner_ma.inv_ij v) /\
        nth2 i j (Capital_planner_ma.inv_ij v)
        = nth2 i j (Capital_planner_ma.inv_exp_ij v)
          / py_max (nth j (Capital_planner_ma.inv_exp_j v) 0) 0.0001
          * sqrt (2 / Capital_planner_ma.phi c
                  * nth j (Capital_planner_ma.inv_exp_j v) 0) /\
        nth2 i j (Capital_planner_ma.inv_exp_ij v)
        = nth2 i j (Capital_planner_ma.s_ij v)
          * nth i (Capital_planner_ma.y_i v) 0 /\
        nth j (Capital_planner_ma.inv_exp_j v) 0
        = np_sum (map (fun i' => nth2 i' j (Capital_planner_ma.s_ij v)
                                 * nth i' (Capital_planner_ma.y_i v) 0)
                      (range (Capital_planner_ma.n_hh c)))) /\
  (forall (self : Townsend.Env) (w : Oracle) (t : Z) (g : Townsend.Global)
          (ad : dict string (list R)) (v : Townsend.Locals),
      Townsend.locals self w t g ad = Ok v ->
      let c := Townsend.cfg self in
      forall i, (i < Townsend.n_industries c)%nat ->
      exists a a0 k_i p cap,
        sget (fstr "firm_" i) ad = Ok a /\ index a 0 = Ok a0 /\
        nth i (Townsend.s v) 0 = (a0 + 1) / 2 * Townsend.max_savings c /\
        index (Townsend.g_k g) i = Ok k_i /\
        py_pow k_i (Townsend.alpha c) = Ok p /\
        nth i (Townsend.y v) 0 = Townsend.tfp c * p /\
        (if Townsend.norm_ind self
         then Townsend.max_cap_norm self = Some cap
         else cap = Townsend.max_cap c) /\
        nth i (Townsend.k_new v) 0
        = py_min (k_i * (1 - Townsend.delta c)
                  + nth i (Townsend.s v) 0 * nth i (Townsend.y v) 0) cap /\
        nth i (Townsend.utility v) 0
        = nth i (Townsend.prices v) 0 * (1 - nth i (Townsend.s v) 0)
          * nth i (Townsend.y v) 0
          - nth i (Townsend.shock_rent v) 0 * k_i
          - Townsend.phi c * (nth i (Townsend.k_new v) 0 - k_i) ^ 2).
Proof.
  split.
  - exact CapitalProps.capital_transition.
  - exact TownsendProps.townsend_transition.
Qed.

Lemma next_capital_stock_witness :
  (exists v,
     Capital_planner_ma.locals
       (Capital_planner_ma.set_state Capital_planner_ma.example 0
                                     Capital_planner_ma.example_obs)
       [Capital_planner_ma.example_k_ss * 0.9;
        Capital_planner_ma.example_k_ss * 0.8]
       [0.9; 0.9] 0.8 Capital_planner_ma.example_actions = Ok v /\
     nth2 1 0 (Capital_planner_ma.k_ij_new v)
     = nth2 1 0 (Capital_planner_ma.k_ij v) * (1 - 0.04)
       + nth2 1 0 (Capital_planner_ma.inv_ij v)) /\
  (exists v cap,
     Townsend.locals (Townsend.example_state false) zeros 1
                     Townsend.example_global (Townsend.example_actions 0)
     = Ok v /\
     cap = 100 /\
     nth 1 (Townsend.k_new v) 0
     = py_min (1 * 0.8 * (1 - 0)
               + nth 1 (Townsend.s v) 0 * nth 1 (Townsend.y v) 0) cap).
Proof.
  destruct next_capital_stock as [Hc Ht].
  split.
  - pose proof CapitalProps.example_k_ss_pos as Hk.
    destruct (CapitalProps.example_locals
                (Capital_planner_ma.set_state Capital_planner_ma.example 0
                                              Capital_planner_ma.example_obs)
                (Capital_planner_ma.example_k_ss * 0.9)
                (Capital_planner_ma.example_k_ss * 0.8) [] [0.9; 0.9] 0.8
                eq_refl eq_refl ltac:(lra) ltac:(lra)
              ltac:(simpl; lra) ltac:(simpl; lra) ltac:(lra)) as [v Hv].
    exists v; split; [exact Hv|].
    destruct (Hc _ _ _ _ _ _ Hv 1%nat 0%nat ltac:(simpl; lia)
                ltac:(simpl; lia)) as [H _].
    exact H.
  - destruct (TownsendProps.townsend_example_locals false zeros 0) as [v Hv].
    destruct (Ht _ _ _ _ _ _ Hv 1%nat ltac:(simpl; lia))
      as (a & a0 & k_i & p & cap & _ & _ & _ & Hk & _ & _ & Hcap & Hn & _).
    cbn in Hk; injection Hk as <-.
    cbn in Hcap.
    exists v, cap; split; [exact Hv|]; split; [exact Hcap|exact Hn].
Defined.

(** C4 (as amended).  In the capital planner and in Townsend, the
    observation [reset] and [step] return for agent [i] begins with agent
    [i]'s own sub-state, followed by the others' in index order with [i]
    left out, followed by the shared component.  Household [i] sees row [i]
    of the matrix of stocks (the [k_ij_new] of [step], the slices of the
    initial stocks in [reset]; every row has [n_capital] stocks), then the
    other rows in index order, its own shock state, then the others' shock
    states in index order, and the aggregate state.  Firm [i] sees entry
    [i] of the stocks kept in [obs_global], entry [i] of the prices kept
    there, then the other prices in index order.  DiffDemandDiscrete shows
    every agent the same vector, the actions of all agents in the order of
    the action dictionary. *)
Theorem observation_order :
  (forall (self self' : Capital_planner_ma.Env) (w : Oracle)
          (ad : dict string (list R)) (ret : Capital_planner_ma.Return),
      Capital_planner_ma.step self w ad = Ok (self', ret) ->
      let c := Capital_planner_ma.cfg self in
      exists t0 o k ids aid sh agg v ids' aid',
        Capital_planner_ma.timestep self = Some t0 /\
        Capital_planner_ma.obs_ self = Some o /\
        sget "hh_0" o = Ok (k, ids, aid) /\
        mapM (fun i =>
                id <- index ids i ;;
                index (Capital_planner_ma.shock_idtc_values c) id)
             (range (Capital_planner_ma.n_hh c)) = Ok sh /\
        index (Capital_planner_ma.shock_agg_values c) aid = Ok agg /\
        Capital_planner_ma.locals self k sh agg ad = Ok v /\
        Capital_planner_ma.update_shock self w (t0 + 1) ids aid
        = Ok (ids', aid') /\
        Capital_planner_ma.obs_ self' = Some (Capital_planner_ma.obs ret) /\
        List.length (Capital_planner_ma.k_ij_new v)
        = Capital_planner_ma.n_hh c /\
        (forall row, In row (Capital_planner_ma.k_ij_new v) ->
                     List.length row = Capital_planner_ma.n_capital c) /\
        forall i, (i < Capital_planner_ma.n_hh c)%nat ->
        exists own_shock,
          nth_error ids' i = Some own_shock /\
          sget (fstr "hh_" i) (Capital_planner_ma.obs ret)
          = Ok (nth i (Capital_planner_ma.k_ij_new v) []
                ++ flatten (drop_nth i (Capital_planner_ma.k_ij_new v)),
                own_shock :: drop_nth i ids', aid')) /\
  (forall (self self' : Capital_planner_ma.Env) (w : Oracle)
          (o : dict string Capital_planner_ma.observation),
      Capital_planner_ma.reset self w = Ok (self', o) ->
      let c := Capital_planner_ma.cfg self in
      let n := Capital_planner_ma.n_hh c in
      let m := Capital_planner_ma.n_capital c in
      let k_init :=
        if Capital_planner_ma.eval_mode c
           || Capital_planner_ma.analysis_mode c
        then map (fun i => if Nat.even i
                           then Capital_planner_ma.k_ss self * 0.9
                           else Capital_planner_ma.k_ss self * 0.8)
                 (range (n * m))
        else map (fun i => uniform (Capital_planner_ma.k_ss self * 0.5)
                                   (Capital_planner_ma.k_ss self * 1.25)
                                   (unit01 w i))
                 (range (n * m)) in
      let k_ij_init := Capital_planner_ma.per_household c k_init in
      exists ids aid,
        (if Capital_planner_ma.eval_mode c then
           exists sched_idtc sched_agg,
             Capital_planner_ma.shocks_eval_idtc self = Some sched_idtc /\
             zget 0 sched_idtc = Ok ids /\
             Capital_planner_ma.shocks_eval_agg self = Some sched_agg /\
             zget 0 sched_agg = Ok aid
         else if Capital_planner_ma.analysis_mode c then
           exists sched_idtc sched_agg,
             Capital_planner_ma.shocks_analysis_idtc self = Some sched_idtc /\
             zget 0 sched_idtc = Ok ids /\
             Capital_planner_ma.shocks_analysis_agg self = Some sched_agg /\
             zget 0 sched_agg = Ok aid
         else
           mapM (fun i =>
                   choices
                     (range (List.length
                               (Capital_planner_ma.shock_idtc_values c)))
                     None (pick w i))
                (range n) = Ok ids /\
           choices
             (range (List.length (Capital_planner_ma.shock_idtc_values c)))
             None (pick w n) = Ok aid) /\
        Capital_planner_ma.obs_ self' = Some o /\
        List.length k_ij_init = n /\
        (forall row, In row k_ij_init -> List.length row = m) /\
        forall i, (i < n)%nat ->
        nth i k_ij_init [] = slice k_init (i * m) (i * m + m) /\
        exists own_shock,
          nth_error ids i = Some own_shock /\
          sget (fstr "hh_" i) o
          = Ok (nth i k_ij_init [] ++ flatten (drop_nth i k_ij_init),
                own_shock :: drop_nth i ids, aid)) /\
  (forall (self self' : Townsend.Env) (w : Oracle)
          (ad : dict string (list R)) (ret : Townsend.Return),
      Townsend.step self w ad = Ok (self', ret) ->
      exists t0 g v g',
        Townsend.timestep self = Some t0 /\
        Townsend.obs_global self = Some g /\
        Townsend.locals self w (t0 + 1) g ad = Ok v /\
        Townsend.obs_global self' = Some g' /\
        Townsend.g_k g' = Townsend.k_new v /\
        Townsend.g_prices g' = Townsend.prices v /\
        forall i, (i < Townsend.n_industries (Townsend.cfg self))%nat ->
        exists own_k own_p,
          nth_error (Townsend.g_k g') i = Some own_k /\
          nth_error (Townsend.g_prices g') i = Some own_p /\
          sget (fstr "firm_" i) (Townsend.obs ret)
          = Ok (own_k :: own_p :: drop_nth i (Townsend.g_prices g'))) /\
  (forall (self self' : Townsend.Env) (w : Oracle)
          (o : dict string (list R)),
      Townsend.reset self w = Ok (self', o) ->
      let c := Townsend.cfg self in
      exists nf g',
        Townsend.n_firms self = Some nf /\
        Townsend.obs_global self' = Some g' /\
        Townsend.g_k g'
        = (if Townsend.eval_mode c || Townsend.analysis_mode c
           then map (fun i => if Nat.even i then Townsend.k_ss c * 0.9
                              else Townsend.k_ss c * 0.8)
                    (range (Townsend.n_industries c * nf))
           else map (fun i => uniform (Townsend.k_ss c * 0.5)
                                      (Townsend.k_ss c * 30) (unit01 w i))
                    (range (Townsend.n_industries c * nf))) /\
        forall i, (i < Townsend.n_industries c)%nat ->
        exists own_k own_p,
          nth_error (Townsend.g_k g') i = Some own_k /\
          nth_error (Townsend.g_prices g') i = Some own_p /\
          sget (fstr "firm_" i) o
          = Ok (own_k :: own_p :: drop_nth i (Townsend.g_prices g'))) /\
  (forall (self self' : DiffDemandDiscrete.Env) (ad : dict string Z)
          (ret : DiffDemandDiscrete.Return),
      DiffDemandDiscrete.step self ad = Ok (self', ret) ->
      let n := DiffDemandDiscrete.n_agents (DiffDemandDiscrete.cfg self) in
      forall i, (i < n)%nat ->
        sget (fstr "agent_" i) (DiffDemandDiscrete.obs ret)
        = Ok (map DiffDemandDiscrete.uint8 (firstn n (values ad))) /\
        List.length (firstn n (values ad)) = n).
Proof.
  split; [exact CapitalProps.capital_step_views|].
  split; [exact CapitalProps.capital_reset_views|].
  split; [exact TownsendProps.townsend_step_views|].
  split; [exact TownsendProps.townsend_reset_views|].
  exact DiffDemandProps.diff_step_obs.
Qed.

Lemma observation_order_witness :
  (exists self' ret v ids' aid' own_shock,
     Capital_planner_ma.step
       (Capital_planner_ma.set_state Capital_planner_ma.example 0
                                     Capital_planner_ma.example_obs)
       zeros Capital_planner_ma.example_actions = Ok (self', ret) /\
     List.length (Capital_planner_ma.k_ij_new v) = 2%nat /\
     nth_error ids' 1 = Some own_shock /\
     sget "hh_1" (Capital_planner_ma.obs ret)
     = Ok (nth 1 (Capital_planner_ma.k_ij_new v) []
           ++ flatten (drop_nth 1 (Capital_planner_ma.k_ij_new v)),
           own_shock :: drop_nth 1 ids', aid')) /\
  (exists ids aid own_shock,
     let k_ij_init :=
       Capital_planner_ma.per_household
         Capital_planner_ma.example_config
         [Capital_planner_ma.example_k_ss * 0.9;
          Capital_planner_ma.example_k_ss * 0.8] in
     nth_error ids 1 = Some own_shock /\
     sget "hh_1" Capital_planner_ma.example_obs
     = Ok (nth 1 k_ij_init [] ++ flatten (drop_nth 1 k_ij_init),
           own_shock :: drop_nth 1 ids, aid)) /\
  (exists self' ret g' own_k own_p,
     Townsend.step (Townsend.example_state false) zeros
                   (Townsend.example_actions 0) = Ok (self', ret) /\
     Townsend.obs_global self' = Some g' /\
     nth_error (Townsend.g_k g') 1 = Some own_k /\
     nth_error (Townsend.g_prices g') 1 = Some own_p /\
     sget "firm_1" (Townsend.obs ret)
     = Ok (own_k :: own_p :: drop_nth 1 (Townsend.g_prices g'))) /\
  (exists g' own_k own_p,
     Townsend.obs_global (Townsend.example_state false) = Some g' /\
     nth_error (Townsend.g_k g') 1 = Some own_k /\
     nth_error (Townsend.g_prices g') 1 = Some own_p /\
     sget "firm_1" Townsend.example_obs
     = Ok (own_k :: own_p :: drop_nth 1 (Townsend.g_prices g'))) /\
  (exists self' ret,
     DiffDemandDiscrete.step DiffDemandDiscrete.example
                             DiffDemandDiscrete.example_actions
     = Ok (self', ret) /\
     sget "agent_1" (DiffDemandDiscrete.obs ret)
     = Ok (map DiffDemandDiscrete.uint8 [3; 7]%Z)).
Proof.
  destruct observation_order as (Hcs & Hcr & Hts & Htr & Hd).
  split; [|split; [|split; [|split]]].
  - destruct (CapitalProps.example_step zeros) as (self' & ret & Hstep).
    destruct (Hcs _ _ _ _ _ Hstep)
      as (t0 & o & k & ids & aid & sh & agg & v & ids' & aid'
          & _ & _ & _ & _ & _ & _ & _ & _ & Hlen & _ & H).
    destruct (H 1%nat ltac:(simpl; lia)) as (own & Hown & Hget).
    exists self', ret, v, ids', aid', own.
    split; [exact Hstep|]; split; [exact Hlen|]; split; [exact Hown|].
    exact Hget.
  - destruct (Hcr _ _ _ _ (CapitalProps.example_reset_Ok zeros))
      as (ids & aid & _ & _ & _ & _ & H).
    destruct (H 1%nat ltac:(simpl; lia)) as (_ & own & Hown & Hget).
    exists ids, aid, own; split; [exact Hown|exact Hget].
  - destruct (TownsendProps.townsend_example_step false zeros 0
                ltac:(lra))
      as (self' & ret & Hstep).
    destruct (Hts _ _ _ _ _ Hstep)
      as (t0 & g & v & g' & _ & _ & _ & Hg' & _ & _ & H).
    destruct (H 1%nat ltac:(simpl; lia)) as (own_k & own_p & Hk & Hp & Hget).
    exists self', ret, g', own_k, own_p.
    split; [exact Hstep|]; split; [exact Hg'|]; split; [exact Hk|].
    split; [exact Hp|exact Hget].
  - destruct (Htr _ _ _ _ (TownsendProps.townsend_example_reset false zeros))
      as (nf & g' & _ & Hg' & _ & H).
    destruct (H 1%nat ltac:(simpl; lia)) as (own_k & own_p & Hk & Hp & Hget).
    exists g', own_k, own_p.
    split; [exact Hg'|]; split; [exact Hk|]; split; [exact Hp|exact Hget].
  - destruct DiffDemandProps.diff_example_step as (self' & ret & Hstep).
    destruct (Hd _ _ _ _ Hstep 1%nat ltac:(vm_compute; lia)) as [Hget _].
    exists self', ret; split; [exact Hstep|exact Hget].
Defined.

(** C6.  In an episode of the capital planner or of Townsend, started by
    [reset], the flag returned by the [n]-th step is all-false while [n] is
    below the horizon and all-true when [n] equals the horizon (it is
    [horizon <= n] in general); a step of the durable-good environment
    always returns [done = False]. *)
Theorem done_at_horizon :
  (forall (self self0 selfN : Capital_planner_ma.Env) (w0 : Oracle)
          (o0 : dict string Capital_planner_ma.observation)
          (inputs : list (Oracle * dict string (list R)))
          (rets : list Capital_planner_ma.Return),
      Capital_planner_ma.reset self w0 = Ok (self0, o0) ->
      Episode.run_capital self0 inputs = Ok (selfN, rets) ->
      let hor := Capital_planner_ma.horizon (Capital_planner_ma.cfg self) in
      List.length rets = List.length inputs /\
      forall n r, nth_error rets (n - 1) = Some r -> (1 <= n)%nat ->
        Capital_planner_ma.done r
        = [("__all__"%string, (hor <=? Z.of_nat n)%Z)] /\
        ((Z.of_nat n < hor)%Z ->
         Capital_planner_ma.done r = [("__all__"%string, false)]) /\
        (Z.of_nat n = hor ->
         Capital_planner_ma.done r = [("__all__"%string, true)])) /\
  (forall (self self0 selfN : Townsend.Env) (w0 : Oracle)
          (o0 : dict string (list R))
          (inputs : list (Oracle * dict string (list R)))
          (rets : list Townsend.Return),
      Townsend.reset self w0 = Ok (self0, o0) ->
      Episode.run_townsend self0 inputs = Ok (selfN, rets) ->
      let hor := Townsend.horizon (Townsend.cfg self) in
      List.length rets = List.length inputs /\
      forall n r, nth_error rets (n - 1) = Some r -> (1 <= n)%nat ->
        Townsend.done r = [("__all__"%string, (hor <=? Z.of_nat n)%Z)] /\
        ((Z.of_nat n < hor)%Z ->
         Townsend.done r = [("__all__"%string, false)]) /\
        (Z.of_nat n = hor ->
         Townsend.done r = [("__all__"%string, true)])) /\
  (forall (self selfN : Durable_sgm.Env) (inputs : list (list R))
          (rets : list Durable_sgm.Return),
      Episode.run_durable self inputs = Ok (selfN, rets) ->
      List.length rets = List.length inputs /\
      forall r, In r rets -> Durable_sgm.done r = false).
Proof.
  split; [|split].
  - intros self self0 selfN w0 o0 inputs rets Hreset Hrun hor.
    destruct (CapitalProps.capital_reset_timestep _ _ _ _ Hreset)
      as [Ht Hc].
    destruct (CapitalProps.capital_run_done _ _ _ _ _ Hrun Ht) as [Hlen Hn].
    split; [exact Hlen|].
    intros n r Hr Hpos.
    assert (Hd : Capital_planner_ma.done r
                 = [("__all__"%string, (hor <=? Z.of_nat n)%Z)]).
    { rewrite (Hn _ _ Hr), Hc; subst hor; repeat f_equal; lia. }
    split; [exact Hd|]; rewrite Hd; split; intros H.
    + now rewrite (proj2 (Z.leb_gt _ _) H).
    + now rewrite (proj2 (Z.leb_le _ _)) by lia.
  - intros self self0 selfN w0 o0 inputs rets Hreset Hrun hor.
    destruct (TownsendProps.townsend_reset_timestep _ _ _ _ Hreset)
      as [Ht Hc].
    destruct (TownsendProps.townsend_run_done _ _ _ _ _ Hrun Ht)
      as [Hlen Hn].
    split; [exact Hlen|].
    intros n r Hr Hpos.
    assert (Hd : Townsend.done r
                 = [("__all__"%string, (hor <=? Z.of_nat n)%Z)]).
    { rewrite (Hn _ _ Hr), Hc; subst hor; repeat f_equal; lia. }
    split; [exact Hd|]; rewrite Hd; split; intros H.
    + now rewrite (proj2 (Z.leb_gt _ _) H).
    + now rewrite (proj2 (Z.leb_le _ _)) by lia.
  - intros self selfN inputs rets.
    exact (DurableProps.durable_run_done inputs self selfN rets).
Qed.

Lemma done_at_horizon_witness :
  (exists selfN r1 r2,
     Capital_planner_ma.reset Capital_planner_ma.example zeros
     = Ok (Capital_planner_ma.set_state Capital_planner_ma.example 0
                                        Capital_planner_ma.example_obs,
           Capital_planner_ma.example_obs) /\
     Episode.run_capital
       (Capital_planner_ma.set_state Capital_planner_ma.example 0
                                     Capital_planner_ma.example_obs)
       [(zeros, Capital_planner_ma.example_actions);
        (ones, Capital_planner_ma.example_actions)]
     = Ok (selfN, [r1; r2]) /\
     Capital_planner_ma.done r1 = [("__all__"%string, false)] /\
     Capital_planner_ma.done r2 = [("__all__"%string, true)]) /\
  (exists selfN r1 r2,
     Townsend.reset (Townsend.with_n_firms (Townsend.example false) 1) zeros
     = Ok (Townsend.example_state false, Townsend.example_obs) /\
     Episode.run_townsend
       (Townsend.example_state false)
       [(zeros, Townsend.example_actions 0);
        (ones, Townsend.example_actions 0)]
     = Ok (selfN, [r1; r2]) /\
     Townsend.done r1 = [("__all__"%string, false)] /\
     Townsend.done r2 = [("__all__"%string, true)]) /\
  (exists selfN r,
     Episode.run_durable Durable_sgm.example [[0]] = Ok (selfN, [r]) /\
     Durable_sgm.done r = false).
Proof.
  destruct done_at_horizon as (Hc & Ht & Hd).
  split; [|split].
  - destruct (CapitalProps.example_run zeros ones) as (selfN & r1 & r2 & Hrun).
    exists selfN, r1, r2.
    split; [apply CapitalProps.example_reset_Ok|].
    split; [exact Hrun|].
    destruct (Hc _ _ _ _ _ _ _ (CapitalProps.example_reset_Ok zeros) Hrun)
      as [_ H].
    destruct (H 1%nat r1 eq_refl ltac:(lia)) as (_ & H1 & _).
    destruct (H 2%nat r2 eq_refl ltac:(lia)) as (_ & _ & H2).
    split; [apply H1; simpl; lia|apply H2; reflexivity].
  - destruct (TownsendProps.townsend_example_run false zeros ones 0
                ltac:(lra)) as (selfN & r1 & r2 & Hrun).
    exists selfN, r1, r2.
    split; [apply TownsendProps.townsend_example_reset|].
    split; [exact Hrun|].
    destruct (Ht _ _ _ _ _ _ _
                (TownsendProps.townsend_example_reset false zeros) Hrun)
      as [_ H].
    destruct (H 1%nat r1 eq_refl ltac:(lia)) as (_ & H1 & _).
    destruct (H 2%nat r2 eq_refl ltac:(lia)) as (_ & _ & H2).
    split; [apply H1; simpl; lia|apply H2; reflexivity].
  - destruct (DurableProps.durable_example_step 0) as (self' & r & Hstep).
    exists self', r.
    assert (Hrun : Episode.run_durable Durable_sgm.example [[0]]
                   = Ok (self', [r]))
      by (cbn [Episode.run_durable]; rewrite Hstep; reflexivity).
    split; [exact Hrun|].
    destruct (Hd _ _ _ _ Hrun) as [_ H].
    apply H; now left.
Defined.



(** C9 (as amended).  The capital planner's info dictionary is empty
    unless analysis mode is on, and Townsend's unless analysis or
    simulation mode is on; when it is filled, [hh_0] ([firm_0]) holds the
    savings, reward, income, consumption, penalty flags and capital before
    and after of all agents, and every other agent's entry holds its own.
    DiffDemandDiscrete and Durable_sgm have no such switch: the first always
    reports every agent's price, the second always reports the savings
    rate, reward, income and capital before and after. *)
Theorem info_dictionary :
  (forall (self self' : Capital_planner_ma.Env) (w : Oracle)
          (ad : dict string (list R)) (ret : Capital_planner_ma.Return),
      Capital_planner_ma.step self w ad = Ok (self', ret) ->
      let c := Capital_planner_ma.cfg self in
      (Capital_planner_ma.analysis_mode c = false ->
       Capital_planner_ma.info ret = []) /\
      (Capital_planner_ma.analysis_mode c = true ->
       exists k sh agg v,
         Capital_planner_ma.locals self k sh agg ad = Ok v /\
         sget "hh_0" (Capital_planner_ma.info ret)
         = Ok [("savings"%string, VMatrix (Capital_planner_ma.s_ij v));
               ("reward"%string,
                VFloat (np_mean (Capital_planner_ma.utility_i v)));
               ("income"%string, VFloats (Capital_planner_ma.y_i v));
               ("consumption"%string, VFloats (Capital_planner_ma.c_i v));
               ("bgt_penalty"%string,
                VInts (Capital_planner_ma.bgt_penalty_ind v));
               ("capital"%string, VMatrix (Capital_planner_ma.k_ij v));
               ("capital_new"%string,
                VMatrix (Capital_planner_ma.k_ij_new v))] /\
         forall i, (1 <= i < Capital_planner_ma.n_hh c)%nat ->
           sget (fstr "hh_" i) (Capital_planner_ma.info ret)
           = Ok [("savings"%string,
                  VFloats (nth i (Capital_planner_ma.s_ij v) []));
                 ("reward"%string,
                  VFloat (np_mean (Capital_planner_ma.utility_i v)));
                 ("income"%string,
                  VFloat (nth i (Capital_planner_ma.y_i v) 0));
                 ("consumption"%string,
                  VFloat (nth i (Capital_planner_ma.c_i v) 0));
                 ("bgt_penalty"%string,
                  VInt (nth i (Capital_planner_ma.bgt_penalty_ind v) 0%Z));
                 ("capital"%string,
                  VFloats (nth i (Capital_planner_ma.k_ij v) []));
                 ("capital_new"%string,
                  VFloats (nth i (Capital_planner_ma.k_ij_new v) []))])) /\
  (forall (self self' : Townsend.Env) (w : Oracle)
          (ad : dict string (list R)) (ret : Townsend.Return),
      Townsend.step self w ad = Ok (self', ret) ->
      let c := Townsend.cfg self in
      (Townsend.analysis_mode c = false ->
       Townsend.cur_simul_mode self = false ->
       Townsend.info ret = []) /\
      (Townsend.analysis_mode c || Townsend.cur_simul_mode self = true ->
       exists t g v,
         Townsend.obs_global self = Some g /\
         Townsend.locals self w t g ad = Ok v /\
         sget "firm_0" (Townsend.info ret)
         = Ok [("savings"%string, VFloats (Townsend.s v));
               ("reward"%string, VFloats (Townsend.utility v));
               ("income"%string, VFloats (Townsend.y v));
               ("capital"%string, VFloats (Townsend.g_k g));
               ("capital_new"%string, VFloats (Townsend.k_new v));
               ("prices"%string, VFloats (Townsend.prices v))] /\
         forall i, (1 <= i < Townsend.n_industries c)%nat ->
           sget (fstr "firm_" i) (Townsend.info ret)
           = Ok [("savings"%string, VFloat (nth i (Townsend.s v) 0));
                 ("reward"%string, VFloat (nth i (Townsend.utility v) 0));
                 ("income"%string, VFloat (nth i (Townsend.y v) 0));
                 ("capital"%string, VFloat (nth i (Townsend.g_k g) 0));
                 ("capital_new"%string,
                  VFloat (nth i (Townsend.k_new v) 0));
                 ("prices"%string,
                  VFloat (nth i (Townsend.prices v) 0))])) /\
  (forall (self self' : DiffDemandDiscrete.Env) (ad : dict string Z)
          (ret : DiffDemandDiscrete.Return),
      DiffDemandDiscrete.step self ad = Ok (self', ret) ->
      let c := DiffDemandDiscrete.cfg self in
      exists p,
        DiffDemandDiscrete.prices c (values ad) = Ok p /\
        DiffDemandDiscrete.info ret
        = map (fun i => (fstr "agent_" i, nth i p 0))
              (range (DiffDemandDiscrete.n_agents c)) /\
        (DiffDemandDiscrete.n_agents c <> O ->
         DiffDemandDiscrete.info ret <> [])) /\
  (forall (self self' : Durable_sgm.Env) (action : list R)
          (ret : Durable_sgm.Return),
      Durable_sgm.step self action = Ok (self', ret) ->
      exists s r y k_old k,
        Durable_sgm.info ret
        = [("savings_rate"%string, s);
           ("rewards"%string, r);
           ("income"%string, y);
           ("capital_old"%string, k_old);
           ("capital_new"%string, k)]).
Proof.
  split; [exact CapitalProps.capital_info|].
  split; [exact TownsendProps.townsend_info|].
  split; [exact DiffDemandProps.diff_info|].
  intros self self' action ret Hstep.
  destruct (DurableProps.durable_step_done_info _ _ _ _ Hstep)
    as (_ & s & r & y & k_old & k & H & _).
  now exists s, r, y, k_old, k.
Qed.

Lemma info_dictionary_witness :
  (exists self' ret d,
     Capital_planner_ma.step
       (Capital_planner_ma.set_state Capital_planner_ma.example 0
                                     Capital_planner_ma.example_obs)
       zeros Capital_planner_ma.example_actions = Ok (self', ret) /\
     sget "hh_1" (Capital_planner_ma.info ret) = Ok d) /\
  (exists self' ret,
     Townsend.step (Townsend.example_state false) zeros
                   (Townsend.example_actions 0) = Ok (self', ret) /\
     Townsend.info ret = []) /\
  (exists self' ret,
     DiffDemandDiscrete.step DiffDemandDiscrete.example
                             DiffDemandDiscrete.example_actions
     = Ok (self', ret) /\
     DiffDemandDiscrete.info ret <> []) /\
  (exists self' ret s r y k_old k,
     Durable_sgm.step Durable_sgm.example [0] = Ok (self', ret) /\
     Durable_sgm.info ret
     = [("savings_rate"%string, s); ("rewards"%string, r);
        ("income"%string, y); ("capital_old"%string, k_old);
        ("capital_new"%string, k)]).
Proof.
  destruct info_dictionary as (Hc & Ht & Hd & Hs).
  split; [|split; [|split]].
  - destruct (CapitalProps.example_step zeros) as (self' & ret & Hstep).
    destruct (Hc _ _ _ _ _ Hstep) as [_ H].
    destruct (H eq_refl) as (k & sh & agg & v & _ & _ & Hi).
    exists self', ret; eexists; split; [exact Hstep|].
    exact (Hi 1%nat ltac:(simpl; lia)).
  - destruct (TownsendProps.townsend_example_step false zeros 0
                ltac:(lra))
      as (self' & ret & Hstep).
    destruct (Ht _ _ _ _ _ Hstep) as [H _].
    exists self', ret; split; [exact Hstep|].
    apply H; reflexivity.
  - destruct DiffDemandProps.diff_example_step as (self' & ret & Hstep).
    destruct (Hd _ _ _ _ Hstep) as (p & _ & _ & H).
    exists self', ret; split; [exact Hstep|].
    apply H; vm_compute; discriminate.
  - destruct (DurableProps.durable_example_step 0) as (self' & ret & Hstep).
    destruct (Hs _ _ _ _ Hstep) as (s & r & y & k_old & k & H).
    exists self', ret, s, r, y, k_old, k; split; [exact Hstep|exact H].
Defined.

End FamilyProps.

(** ** The training callbacks (experiments/run_capital_SA.py) *)

Module CallbackProps.
Import Run_capital_SA.

(** *** Dictionary updates *)

Lemma sget_set_same {V} (k : string) (v : V) (d : dict string V) :
  sget k (set String.eqb k v d) = Ok v.
Proof.
  unfold sget; induction d as [|[k' v'] d IH]; simpl.
  - now rewrite String.eqb_refl.
  - destruct (String.eqb k k') eqn:E; simpl; rewrite E; [reflexivity|].
    exact IH.
Qed.

Lemma sget_set_other {V} (k k' : string) (v : V) (d : dict string V) :
  k <> k' -> sget k (set String.eqb k' v d) = sget k d.
Proof.
  intros Hne; unfold sget.
  assert (Hk : String.eqb k k' = false) by now apply String.eqb_neq.
  induction d as [|[k1 v1] d IH]; simpl.
  - now rewrite Hk.
  - destruct (String.eqb k' k1) eqn:E; simpl.
    + apply String.eqb_eq in E; subst k1; now rewrite Hk.
    + destruct (String.eqb k k1); [reflexivity|exact IH].
Qed.

(** *** The discounted sum *)

Lemma setitem_Ok (a : list R) (t : nat) (x : R) :
  (t < List.length a)%nat ->
  exists a', setitem a t x = Ok a' /\ List.length a' = List.length a /\
             nth t a' 0 = x.
Proof.
  revert t; induction a as [|y a IH]; intros t Ht; simpl in Ht; [lia|].
  destruct t as [|t]; simpl.
  - eexists; repeat split.
  - destruct (IH t ltac:(lia)) as (a' & -> & Hlen & Hnth); simpl.
    eexists; repeat split; simpl; congruence.
Qed.

Lemma horner_snoc (b acc x : R) (r : list R) :
  horner b acc (r ++ [x]) = horner b (acc * b + x) r.
Proof. unfold horner; now rewrite fold_right_app. Qed.

Lemma firstn_S_nth (r : list R) (n : nat) (x : R) :
  nth_error r n = Some x -> firstn (S n) r = firstn n r ++ [x].
Proof.
  revert n; induction r as [|y r IH]; intros [|n] H; simpl in *;
    try discriminate.
  - now injection H as ->.
  - now rewrite (IH n H).
Qed.

Lemma process_rewards_loop (r : list R) (n : nat) :
  (n <= List.length r)%nat ->
  forall acc d, List.length d = List.length r ->
  exists d',
    foldM (discount r) (rev (range n)) (acc, d)
    = Ok (horner beta acc (firstn n r), d') /\
    List.length d' = List.length r /\
    (n <> O -> nth 0 d' 0 = horner beta acc (firstn n r)).
Proof.
  unfold range; induction n as [|n IH]; intros Hn acc d Hd.
  - exists d; simpl; repeat split; [assumption|congruence].
  - replace (rev (seq 0 (S n))) with (n :: rev (seq 0 n))
      by (rewrite seq_S, rev_app_distr; reflexivity).
    cbn [foldM]; unfold discount at 1.
    destruct (nth_error r n) as [x|] eqn:Hx.
    2:{ apply nth_error_None in Hx; lia. }
    unfold index at 1; rewrite Hx; cbn [bind].
    destruct (setitem_Ok d n (acc * beta + x) ltac:(lia))
      as (d1 & -> & Hlen1 & Hnth1); cbn [bind].
    destruct (IH ltac:(lia) (acc * beta + x) d1 ltac:(congruence))
      as (d' & Hloop & Hlen' & H0).
    exists d'; rewrite Hloop.
    rewrite (firstn_S_nth r n x Hx), horner_snoc.
    repeat split; [assumption|].
    intros _; destruct n as [|n]; [|apply H0; lia].
    simpl in Hloop; injection Hloop as <-; exact Hnth1.
Qed.

Lemma process_rewards_horner (r : list R) :
  r <> [] -> process_rewards r = Ok (horner beta 0 r).
Proof.
  intros Hr; unfold process_rewards; cbv zeta.
  destruct (process_rewards_loop r (List.length r) (le_n _) 0
              (map (fun _ => 0) r) (length_map _ _))
    as (d' & -> & Hlen & H0); cbn [bind].
  rewrite firstn_all in *.
  assert (Hn : List.length r <> O) by (destruct r; simpl; congruence).
  rewrite <- (H0 Hn).
  unfold index; destruct d' as [|y d']; [simpl in Hlen; lia|reflexivity].
Qed.

Lemma horner_sum (r : list R) :
  horner beta 0 r
  = np_sum (map (fun t => beta ^ t * nth t r 0) (range (List.length r))).
Proof.
  unfold range; induction r as [|x r IH]; simpl; [reflexivity|].
  rewrite <- seq_shift, map_map; simpl.
  rewrite IH.
  assert (H : forall l : list nat,
             np_sum (map (fun t => beta ^ t * nth t r 0) l) * beta
             = np_sum (map (fun t => beta * beta ^ t * nth t r 0) l)).
  { induction l as [|t l IHl]; simpl; [ring|rewrite <- IHl; ring]. }
  rewrite H; ring.
Qed.

(** X1.  [process_rewards] returns the discounted sum of its rewards,
    [r_0 + beta * r_1 + beta^2 * r_2 + ...] with [beta = 0.98], and it
    raises [IndexError] on the empty list, whose array of discounted
    rewards has no entry [0]. *)
Theorem process_rewards_discounted_sum (r : list R) :
  process_rewards r
  = match r with
    | [] => Raise IndexError
    | _ => Ok (np_sum (map (fun t => beta ^ t * nth t r 0)
                           (range (List.length r))))
    end.
Proof.
  destruct r as [|x r]; [reflexivity|].
  rewrite process_rewards_horner by discriminate.
  now rewrite horner_sum.
Qed.

Lemma horner_bound (M : R) (r : list R) :
  0 <= M -> (forall x, In x r -> Rabs x <= M) ->
  Rabs (horner beta 0 r) <= 50 * M.
Proof.
  intros HM; induction r as [|x r IH]; intros Hr; simpl.
  - rewrite Rabs_R0; lra.
  - pose proof (Hr x (or_introl eq_refl)) as Hx.
    assert (Ha : Rabs (horner beta 0 r) <= 50 * M)
      by (apply IH; intros y Hy; apply Hr; now right).
    eapply Rle_trans; [apply Rabs_triang|].
    rewrite Rabs_mult.
    replace (Rabs beta) with 0.98
      by (unfold beta; rewrite Rabs_right; lra).
    lra.
Qed.

(** X2.  When every reward is at most [M] in absolute value, the discounted
    reward of a non-empty episode is at most [50 * M] in absolute value,
    [50] being [1 / (1 - beta)], however long the episode. *)
Theorem process_rewards_bounded (M : R) (r : list R) :
  r <> [] ->
  (forall x, In x r -> Rabs x <= M) ->
  exists v, process_rewards r = Ok v /\ Rabs v <= 50 * M.
Proof.
  intros Hne Hr.
  exists (horner beta 0 r); split; [now apply process_rewards_horner|].
  apply horner_bound; [|exact Hr].
  destruct r as [|x r]; [congruence|].
  eapply Rle_trans; [apply Rabs_pos|apply (Hr x); now left].
Qed.

Lemma process_rewards_bounded_witness :
  [1; -1; 1] <> [] /\
  exists v, process_rewards [1; -1; 1] = Ok v /\ Rabs v <= 50 * 1.
Proof.
  split; [discriminate|].
  apply process_rewards_bounded; [discriminate|].
  intros x [<-|[<-|[<-|[]]]]; unfold Rabs; destruct (Rcase_abs _); lra.
Defined.

(** *** What the callbacks record *)

Lemma on_episode_start_data (ep ep0 : Episode) :
  on_episode_start ep = Returns ep0 ->
  sget "rewards" (user_data ep0) = Ok [] /\
  sget "bgt_penalty" (user_data ep0) = Ok [] /\
  custom_metrics ep0 = custom_metrics ep.
Proof.
  unfold on_episode_start.
  destruct (length_ ep =? 0)%Z; [|discriminate].
  intros H; injection H as <-; cbn [user_data set_user_data custom_metrics].
  rewrite sget_set_other by discriminate.
  now rewrite !sget_set_same.
Qed.

(** The rewards and the budget flags of the calls that are recorded: those
    made at a length above one. *)
Lemma on_episode_steps_data (calls : list (Z * R * dict string R)) :
  (forall c, In c calls -> (1 < fst (fst c))%Z ->
             exists b, sget "bgt_penalty" (snd c) = Ok b) ->
  forall (ep : Episode) (rs bs : list R),
  sget "rewards" (user_data ep) = Ok rs ->
  sget "bgt_penalty" (user_data ep) = Ok bs ->
  let recorded := filter (fun c => (1 <? fst (fst c))%Z) calls in
  exists ep1,
    on_episode_steps ep calls = Ok ep1 /\
    sget "rewards" (user_data ep1)
    = Ok (rs ++ map (fun c => snd (fst c)) recorded) /\
    sget "bgt_penalty" (user_data ep1)
    = Ok (bs ++ map (fun c => match get String.eqb "bgt_penalty"%string (snd c) with
                              | Some b => b
                              | None => 0
                              end) recorded) /\
    custom_metrics ep1 = custom_metrics ep.
Proof.
  unfold on_episode_steps.
  induction calls as [|[[len r] inf] calls IH]; intros Hinf ep rs bs Hrs Hbs;
    cbn [filter map foldM].
  - exists ep; rewrite !app_nil_r; auto.
  - assert (Hrest : forall c, In c calls -> (1 < fst (fst c))%Z ->
                              exists b, sget "bgt_penalty" (snd c) = Ok b)
      by (intros c Hc; apply Hinf; now right).
    unfold on_episode_step at 1; cbn [length_ handed fst snd].
    destruct (1 <? len)%Z eqn:Hlen.
    + destruct (Hinf (len, r, inf) (or_introl eq_refl)) as [b Hb];
        [now apply Z.ltb_lt|].
      cbn [fst snd last_info_for prev_reward_for user_data handed] in *.
      rewrite Hb, Hrs; cbn [bind].
      rewrite sget_set_other, Hbs by discriminate; cbn [bind].
      match goal with
      | |- context [foldM _ calls ?e] =>
          destruct (IH Hrest e (rs ++ [r]) (bs ++ [b])) as (ep1 & H1 & H2 & H3 & H4)
      end.
      * cbn [user_data set_user_data].
        rewrite sget_set_other by discriminate; apply sget_set_same.
      * cbn [user_data set_user_data]; apply sget_set_same.
      * exists ep1; split; [exact H1|].
        unfold sget in Hb.
        destruct (get String.eqb "bgt_penalty"%string inf) as [b'|] eqn:Hb';
          [|discriminate].
        injection Hb as ->.
        rewrite <- !app_assoc in H2, H3.
        cbn [map fst snd app custom_metrics set_user_data handed] in *.
        rewrite Hb'.
        repeat split; assumption.
    + cbn [bind].
      destruct (IH Hrest (handed ep len r inf) rs bs Hrs Hbs)
        as (ep1 & H1 & H2 & H3 & H4).
      exists ep1; repeat split; assumption.
Qed.

(** X3.  Between [on_episode_start] and [on_episode_end] the callbacks record
    the reward and the budget flag of exactly the calls made at an episode
    length above one.  With nothing recorded [on_episode_end] raises
    [IndexError]; otherwise it stores the discounted sum of the recorded
    rewards under [discounted_rewards] and the mean of the recorded flags
    under [bgt_penalty]. *)
Theorem callbacks_metrics
        (ep ep0 : Episode) (calls : list (Z * R * dict string R)) :
  on_episode_start ep = Returns ep0 ->
  (forall c, In c calls -> (1 < fst (fst c))%Z ->
             exists b, sget "bgt_penalty" (snd c) = Ok b) ->
  let recorded := filter (fun c => (1 <? fst (fst c))%Z) calls in
  let rs := map (fun c => snd (fst c)) recorded in
  let bs := map (fun c => match get String.eqb "bgt_penalty"%string (snd c) with
                          | Some b => b
                          | None => 0
                          end) recorded in
  exists ep1,
    on_episode_steps ep0 calls = Ok ep1 /\
    sget "rewards" (user_data ep1) = Ok rs /\
    sget "bgt_penalty" (user_data ep1) = Ok bs /\
    forall len r inf,
      (recorded = [] ->
       on_episode_end (handed ep1 len r inf) = Raise IndexError) /\
      (recorded <> [] ->
       exists ep2,
         on_episode_end (handed ep1 len r inf) = Ok ep2 /\
         sget "discounted_rewards" (custom_metrics ep2)
         = Ok (np_sum (map (fun t => beta ^ t * nth t rs 0)
                           (range (List.length rs)))) /\
         sget "bgt_penalty" (custom_metrics ep2) = Ok (np_mean bs)).
Proof.
  intros Hstart Hinf recorded rs bs.
  destruct (on_episode_start_data _ _ Hstart) as (Hrs0 & Hbs0 & _).
  destruct (on_episode_steps_data calls Hinf ep0 [] [] Hrs0 Hbs0)
    as (ep1 & Hsteps & Hrs & Hbs & _).
  cbn [app] in Hrs, Hbs; fold recorded in Hrs, Hbs; fold rs in Hrs;
    fold bs in Hbs.
  exists ep1; repeat split; try assumption.
  - intros Hrec; unfold on_episode_end; cbn [user_data handed].
    rewrite Hrs; cbn [bind].
    unfold rs; rewrite Hrec; reflexivity.
  - intros Hrec; unfold on_episode_end; cbn [user_data handed].
    rewrite Hrs, Hbs; cbn [bind].
    assert (Hne : rs <> []) by (unfold rs; destruct recorded; simpl; congruence).
    rewrite (process_rewards_horner rs Hne), horner_sum; cbn [bind].
    assert (Hbne : bs <> []) by (unfold bs; destruct recorded; simpl; congruence).
    unfold np_mean_checked.
    destruct bs as [|y bs'] eqn:Ebs; [congruence|]; cbn [bind].
    eexists; split; [reflexivity|].
    cbn [custom_metrics set_custom_metrics handed].
    rewrite sget_set_other by discriminate.
    now rewrite !sget_set_same.
Qed.

Lemma callbacks_metrics_witness :
  exists ep1,
    on_episode_steps example_started example_calls = Ok ep1 /\
    sget "rewards" (user_data ep1) = Ok [1; 2] /\
    sget "bgt_penalty" (user_data ep1) = Ok [0; 1].
Proof.
  destruct (callbacks_metrics example_episode example_started example_calls)
    as (ep1 & H1 & H2 & H3 & _).
  - reflexivity.
  - intros c [<-|[<-|[<-|[]]]] Hlt; simpl in *;
      [lia|eexists; reflexivity|eexists; reflexivity].
  - exists ep1; repeat split; assumption.
Defined.

End CallbackProps.

(** ** More on the capital planner *)

Module CapitalMore.
Import Capital_planner_ma CapitalProps.

(** *** The household's budget *)

Lemma correct_row_length (d : list R) :
  List.length (fst (correct_row (List.length d) d)) = List.length d.
Proof.
  destruct (Rle_lt_dec (np_sum d) 1) as [Hle|Hgt].
  - destruct (correct_row_spec d) as [_ H]; now rewrite (H Hle).
  - destruct (correct_row_spec d) as [H _].
    destruct (H Hgt) as [-> _]; cbn [fst]; apply length_map.
Qed.

Lemma correct_row_sum (d : list R) :
  np_sum (fst (correct_row (List.length d) d)) <= 1.
Proof.
  destruct (Rle_lt_dec (np_sum d) 1) as [Hle|Hgt].
  - destruct (correct_row_spec d) as [_ H]; now rewrite (H Hle).
  - destruct (correct_row_spec d) as [H _].
    destruct (H Hgt) as [_ ->]; lra.
Qed.

Lemma np_sum_map_mult (f : nat -> R) (c : R) (l : list nat) :
  np_sum (map (fun j => f j * c) l) = np_sum (map f l) * c.
Proof.
  induction l as [|x l IH]; simpl; [ring|rewrite IH; ring].
Qed.

(** The savings row of household [i] in a successful [step]. *)
Lemma savings_row (self : Env) (k sh : list R) (agg : R)
      (ad : dict string (list R)) (v : Locals) (i : nat) :
  locals self k sh agg ad = Ok v ->
  (i < n_hh (cfg self))%nat ->
  exists s0 d,
    unsquash self ad = Ok s0 /\
    nth_error s0 i = Some d /\
    List.length d = n_capital (cfg self) /\
    nth i (s_ij v) [] = fst (correct_row (List.length d) d) /\
    nth i (bgt_penalty_ind v) 0%Z = snd (correct_row (List.length d) d).
Proof.
  intros Hv Hi.
  destruct (locals_inv _ _ _ _ _ _ Hv) as (s0 & b & q & Hu & Hs & Hf & _).
  destruct (unsquash_inv _ _ _ Hu) as [_ Hrows].
  destruct (Hrows i Hi) as (d & Hd & Hlen & _).
  exists s0, d; repeat split; try assumption.
  - rewrite Hs, Hlen.
    now destruct (nth_correct_bgt (n_capital (cfg self)) s0 i d Hd).
  - rewrite Hf, Hlen.
    now destruct (nth_correct_bgt (n_capital (cfg self)) s0 i d Hd).
Qed.

(** The budget of a household in a successful [step]. *)
Lemma resource_constraint
        (self : Env) (k sh : list R) (agg : R) (ad : dict string (list R))
        (v : Locals) :
  locals self k sh agg ad = Ok v ->
  forall i, (i < n_hh (cfg self))%nat ->
    np_sum (nth i (s_ij v) []) <= 1 /\
    nth i (c_i v) 0 + np_sum (nth i (inv_exp_ij v) []) = nth i (y_i v) 0 /\
    (0 <= nth i (y_i v) 0 -> 0 <= nth i (c_i v) 0).
Proof.
  intros Hv i Hi.
  destruct (savings_row _ _ _ _ _ _ i Hv Hi)
    as (s0 & d & _ & _ & Hlen & Hrow & _).
  destruct (locals_inv _ _ _ _ _ _ Hv)
    as (_ & _ & _ & _ & _ & _ & _ & _ & Hc & _ & He & _).
  assert (Hsum : np_sum (nth i (s_ij v) []) <= 1)
    by (rewrite Hrow; apply correct_row_sum).
  assert (Hci : nth i (c_i v) 0
                = nth i (y_i v) 0 * (1 - np_sum (nth i (s_ij v) [])))
    by (rewrite Hc at 1; now rewrite nth_map_range by exact Hi).
  assert (Hexp : np_sum (nth i (inv_exp_ij v) [])
                 = np_sum (nth i (s_ij v) []) * nth i (y_i v) 0).
  { rewrite He at 1.
    rewrite (nth_map_range
               (fun i => map (fun j => nth2 i j (s_ij v) * nth i (y_i v) 0)
                             (range (n_capital (cfg self))))) by exact Hi.
    rewrite (np_sum_map_mult (fun j => nth2 i j (s_ij v))).
    f_equal; unfold nth2.
    rewrite <- Hlen, <- (correct_row_length d), <- Hrow.
    now rewrite map_nth_range. }
  repeat split; [exact Hsum|rewrite Hci, Hexp; ring|].
  intros Hy; rewrite Hci; apply Rmult_le_pos; lra.
Qed.

(** X4.  In a successful [step] every household's income is split between
    consumption and its investment expenditures: the savings rates that
    are used sum to at most 1, consumption plus the expenditures on all
    capital goods equals income, and consumption is not negative when
    income is not. *)
Theorem capital_resource_constraint
        (self : Env) (k sh : list R) (agg : R) (ad : dict string (list R))
        (v : Locals) :
  locals self k sh agg ad = Ok v ->
  forall i, (i < n_hh (cfg self))%nat ->
    np_sum (nth i (s_ij v) []) <= 1 /\
    nth i (c_i v) 0 + np_sum (nth i (inv_exp_ij v) []) = nth i (y_i v) 0 /\
    (0 <= nth i (y_i v) 0 -> 0 <= nth i (c_i v) 0).
Proof. apply resource_constraint. Qed.

Lemma capital_resource_constraint_witness :
  exists v,
    locals (set_state example 0 example_obs) [1; 1] [0.9; 0.9] 0.8
           example_actions = Ok v /\
    nth 0 (c_i v) 0 + np_sum (nth 0 (inv_exp_ij v) []) = nth 0 (y_i v) 0.
Proof.
  destruct (example_locals (set_state example 0 example_obs) 1 1 []
              [0.9; 0.9] 0.8 eq_refl eq_refl)
    as [v Hv]; try (simpl; lra).
  exists v; split; [exact Hv|].
  now destruct (capital_resource_constraint _ _ _ _ _ _ Hv 0%nat
                  ltac:(simpl; lia)) as (_ & H & _).
Defined.



(** *** Investment adds up *)

Lemma np_sum_map_share (f : nat -> R) (c s : R) (l : list nat) :
  np_sum (map (fun i => f i / c * s) l) = np_sum (map f l) / c * s.
Proof.
  induction l as [|x l IH]; simpl; [unfold Rdiv; ring|].
  rewrite IH; unfold Rdiv; ring.
Qed.

(** X6.  In a successful [step] the new units of capital good [j] that the
    households receive add up to the share
    [inv_exp_j / max(inv_exp_j, 0.0001)] of the square root of the scaled
    total expenditure on [j]: to all of it as soon as that expenditure is
    at least [0.0001]. *)
Theorem capital_investment_adds_up
        (self : Env) (k sh : list R) (agg : R) (ad : dict string (list R))
        (v : Locals) :
  locals self k sh agg ad = Ok v ->
  let c := cfg self in
  forall j, (j < n_capital c)%nat ->
    let total := nth j (inv_exp_j v) 0 in
    np_sum (map (fun i => nth2 i j (inv_ij v)) (range (n_hh c)))
    = total / py_max total 0.0001 * sqrt (2 / phi c * total) /\
    (0.0001 <= total ->
     np_sum (map (fun i => nth2 i j (inv_ij v)) (range (n_hh c)))
     = sqrt (2 / phi c * total) /\
     nth j (inv_j v) 0 = sqrt (2 / phi c * total)).
Proof.
  intros Hv c j Hj total.
  assert (Hsum : np_sum (map (fun i => nth2 i j (inv_ij v)) (range (n_hh c)))
                 = total / py_max total 0.0001 * sqrt (2 / phi c * total)).
  { rewrite (map_ext_in _
               (fun i => nth2 i j (inv_exp_ij v) / py_max total 0.0001
                         * sqrt (2 / phi c * total))).
    2:{ intros i Hi; apply in_seq in Hi.
        assert (Hi' : (i < n_hh (cfg self))%nat) by (unfold c in Hi; lia).
        now destruct (capital_transition _ _ _ _ _ _ Hv i j Hi' Hj)
          as (_ & -> & _). }
    rewrite np_sum_map_share; f_equal; f_equal.
    destruct (locals_inv _ _ _ _ _ _ Hv)
      as (_ & _ & _ & _ & _ & _ & _ & _ & _ & _ & _ & Hej & _).
    unfold total; rewrite Hej.
    now rewrite nth_map_range by exact Hj. }
  split; [exact Hsum|].
  intros Htot.
  assert (Hmax : py_max total 0.0001 = total)
    by (unfold py_max; destruct (Rlt_dec total 0.0001); lra).
  split.
  - rewrite Hsum, Hmax; field; lra.
  - destruct (locals_inv _ _ _ _ _ _ Hv)
      as (_ & _ & q & _ & _ & _ & _ & _ & _ & _ & _ & _ & Hq & Hij & _).
    destruct (py_div_inv _ _ _ (Hq ltac:(fold c; lia))) as [_ ->].
    now destruct (Hij j Hj) as [_ ->].
Qed.

Lemma capital_investment_adds_up_witness :
  exists v,
    locals (set_state example 0 example_obs) [1; 1] [0.9; 0.9] 0.8
           example_actions = Ok v /\
    np_sum (map (fun i => nth2 i 0 (inv_ij v)) (range 2))
    = nth 0 (inv_exp_j v) 0 / py_max (nth 0 (inv_exp_j v) 0) 0.0001
      * sqrt (2 / 0.5 * nth 0 (inv_exp_j v) 0).
Proof.
  destruct (example_locals (set_state example 0 example_obs) 1 1 []
              [0.9; 0.9] 0.8 eq_refl eq_refl)
    as [v Hv]; try (simpl; lra).
  exists v; split; [exact Hv|].
  now destruct (capital_investment_adds_up _ _ _ _ _ _ Hv 0%nat
                  ltac:(simpl; lia)) as [H _].
Defined.

(** *** The state travels through household 0's observation *)

Lemma slice_concat (m : nat) (kij : list (list R)) :
  (forall row, In row kij -> List.length row = m) ->
  forall i, (i < List.length kij)%nat ->
    firstn m (skipn (i * m) (concat kij)) = nth i kij [].
Proof.
  induction kij as [|row rest IH]; intros Hrows i Hi; simpl in Hi; [lia|].
  assert (Hrow : List.length row = m) by (apply Hrows; now left).
  assert (Hrest : forall r, In r rest -> List.length r = m)
    by (intros r Hr; apply Hrows; now right).
  destruct i as [|i]; cbn [concat nth Nat.mul].
  - cbn [skipn]; rewrite firstn_app, Hrow, Nat.sub_diag, firstn_O, app_nil_r.
    rewrite <- Hrow; apply firstn_all.
  - rewrite skipn_app, Hrow.
    rewrite skipn_all2 by lia; cbn [app].
    replace (m + i * m - m)%nat with (i * m)%nat by lia.
    apply IH; [exact Hrest|lia].
Qed.

Lemma per_household_flatten (c : Config) (kij : list (list R)) :
  List.length kij = n_hh c ->
  (forall row, In row kij -> List.length row = n_capital c) ->
  per_household c (flatten kij) = kij.
Proof.
  intros Hlen Hrows; unfold per_household, slice, flatten.
  transitivity (map (fun j => nth j kij []) (range (List.length kij)));
    [|apply map_nth_range].
  rewrite Hlen.
  apply map_ext_in; intros i Hi; apply in_seq in Hi.
  replace (i * n_capital c + n_capital c - i * n_capital c)%nat
    with (n_capital c) by lia.
  apply slice_concat; [exact Hrows|lia].
Qed.

Lemma self_first_view_0 {A} (l view : list A) :
  self_first_view 0 l view -> view = l.
Proof.
  intros (x & Hx & ->).
  destruct l as [|y l]; [discriminate|].
  injection Hx as ->; reflexivity.
Qed.

(** What [reorganize] stores under [hh_0] decodes to the matrix of stocks
    and the shocks it was built from. *)
Lemma reorganize_round_trip
      (c : Config) (kij : list (list R)) (ids : list nat) (agg : nat)
      (o : dict string observation) (k : list R) (ids' : list nat)
      (agg' : nat) :
  List.length kij = n_hh c ->
  (forall row, In row kij -> List.length row = n_capital c) ->
  reorganize (n_hh c) kij ids agg = Ok o ->
  sget "hh_0" o = Ok (k, ids', agg') ->
  k = flatten kij /\ per_household c k = kij /\ ids' = ids /\ agg' = agg.
Proof.
  intros Hlen Hrows Ho H0.
  destruct (n_hh c) as [|n] eqn:En.
  { unfold reorganize, range in Ho; simpl in Ho; injection Ho as <-.
    discriminate. }
  destruct (reorganize_views _ _ _ _ _ Ho 0%nat ltac:(lia))
    as (kv & sv & Hkv & Hsv & Hget).
  change (fstr "hh_" 0) with "hh_0"%string in Hget.
  rewrite Hget in H0; injection H0 as <- <- <-.
  apply self_first_view_0 in Hkv, Hsv; subst kv sv.
  repeat split.
  apply per_household_flatten; [congruence|exact Hrows].
Qed.

(** X7.  Of two successive [step]s, the second starts from the stocks the
    first computed: it reads household 0's observation, whose stocks are
    the rows of [k_ij_new] one after the other, and cuts it back into
    exactly these rows. *)
Theorem capital_state_round_trip
        (self self1 self2 : Env) (w w' : Oracle)
        (ad ad' : dict string (list R)) (r1 r2 : Return) :
  step self w ad = Ok (self1, r1) ->
  step self1 w' ad' = Ok (self2, r2) ->
  exists k sh agg v1 k' ids sh' agg' v2,
    locals self k sh agg ad = Ok v1 /\
    sget "hh_0" (obs r1) = Ok (k', ids, agg') /\
    k' = flatten (k_ij_new v1) /\
    locals self1 k' sh' (nth agg' (shock_agg_values (cfg self)) 0) ad'
    = Ok v2 /\
    k_ij v2 = k_ij_new v1.
Proof.
  intros H1 H2.
  destruct (step_inv _ _ _ _ _ H1)
    as (t0 & o & k & ids & aid & sh & agg & v1 & ids1 & aid1 & o1
        & _ & _ & _ & _ & _ & Hv1 & _ & Ho1 & -> & ->).
  destruct (step_inv _ _ _ _ _ H2)
    as (t1 & o' & k' & ids' & aid' & sh' & agg' & v2 & ids2 & aid2 & o2
        & _ & Hobs & H0 & _ & Hagg & Hv2 & _).
  cbn [obs_ set_state cfg] in *.
  injection Hobs as <-.
  destruct (k_ij_new_shape _ _ _ _ _ _ Hv1) as [Hlen Hrows].
  destruct (reorganize_round_trip _ _ _ _ _ _ _ _ Hlen Hrows Ho1 H0)
    as (Hk & Hper & -> & ->).
  exists k, sh, agg, v1, k', ids1, sh', aid1, v2.
  apply index_Ok in Hagg; rewrite (nth_error_nth _ _ 0 Hagg).
  repeat split; try assumption.
  destruct (locals_inv _ _ _ _ _ _ Hv2) as (_ & _ & _ & _ & _ & _ & -> & _).
  exact Hper.
Qed.

Lemma capital_state_round_trip_witness :
  exists self1 self2 r1 r2 k sh agg v1 k' sh' agg' v2,
    step (set_state example 0 example_obs) zeros example_actions
    = Ok (self1, r1) /\
    step self1 zeros example_actions = Ok (self2, r2) /\
    locals (set_state example 0 example_obs) k sh agg example_actions
    = Ok v1 /\
    locals self1 k' sh' agg' example_actions = Ok v2 /\
    k_ij v2 = k_ij_new v1.
Proof.
  pose proof example_k_ss_pos as Hk.
  destruct (example_step_next zeros 0 (example_k_ss * 0.9)
              (example_k_ss * 0.8))
    as (k0 & k1 & r1 & Hk0 & Hk1 & H1); [lra|lra|now left|].
  destruct (example_step_next zeros (0 + 1) k0 k1 Hk0 Hk1)
    as (k0' & k1' & r2 & _ & _ & H2); [now right|].
  destruct (capital_state_round_trip _ _ _ _ _ _ _ _ _ H1 H2)
    as (k & sh & agg & v1 & k' & ids & sh' & agg' & v2
        & Hv1 & _ & _ & Hv2 & Heq).
  do 12 eexists.
  split; [exact H1|]; split; [exact H2|].
  split; [exact Hv1|]; split; [exact Hv2|exact Heq].
Defined.

(** *** Positive stocks *)

Lemma self_first_view_In {A} (i : nat) (l view : list A) (y : A) :
  self_first_view i l view -> In y view -> In y l.
Proof.
  intros (x & Hx & ->) Hy.
  rewrite <- (firstn_skipn_middle _ _ Hx).
  unfold drop_nth in Hy; simpl in Hy.
  rewrite in_app_iff in *; simpl.
  tauto.
Qed.

Lemma self_first_view_concat_length {A} (i : nat) (l view : list (list A)) :
  self_first_view i l view ->
  List.length (concat view) = List.length (concat l).
Proof.
  intros (x & Hx & ->).
  rewrite <- (firstn_skipn_middle _ _ Hx) at 2.
  unfold drop_nth; cbn [concat].
  rewrite !concat_app; cbn [concat].
  rewrite !length_app; lia.
Qed.

Lemma concat_length_rows {A} (m : nat) (ll : list (list A)) :
  (forall row, In row ll -> List.length row = m) ->
  List.length (concat ll) = (List.length ll * m)%nat.
Proof.
  induction ll as [|row ll IH]; intros H; simpl; [reflexivity|].
  rewrite length_app, (H row) by now left.
  rewrite IH by (intros r Hr; apply H; now right); lia.
Qed.

Lemma nth2_per_household (c : Config) (k : list R) (i j : nat) :
  (i < n_hh c)%nat -> (j < n_capital c)%nat ->
  nth2 i j (per_household c k) = nth (i * n_capital c + j) k 0.
Proof.
  intros Hi Hj; unfold nth2, per_household, slice.
  rewrite (nth_map_range
             (fun i => firstn (i * n_capital c + n_capital c
                               - i * n_capital c)
                              (skipn (i * n_capital c) k))) by exact Hi.
  replace (i * n_capital c + n_capital c - i * n_capital c)%nat
    with (n_capital c) by lia.
  rewrite nth_firstn.
  replace (j <? n_capital c)%nat with true
    by (symmetry; now apply Nat.ltb_lt).
  apply nth_skipn.
Qed.

(** The shock values [step] looks up are entries of the configured lists. *)
Lemma shock_values_nonneg (c : Config) (ids : list nat) (sh : list R) :
  Forall (fun x => 0 <= x) (shock_idtc_values c) ->
  mapM (fun i => id <- index ids i ;; index (shock_idtc_values c) id)
       (range (n_hh c)) = Ok sh ->
  forall i, 0 <= nth i sh 0.
Proof.
  intros Hval Hsh i.
  destruct (mapM_range_nth _ _ _ Hsh) as [Hlen Hnth].
  destruct (Nat.lt_ge_cases i (n_hh c)) as [Hi|Hi].
  - destruct (Hnth i Hi) as (y & Hy & Hf).
    rewrite (nth_error_nth _ _ 0 Hy).
    apply bind_Ok_inv in Hf; destruct Hf as (id & _ & Hf).
    apply index_Ok in Hf.
    rewrite Forall_forall in Hval; apply Hval.
    eapply nth_error_In; exact Hf.
  - rewrite nth_overflow by lia; lra.
Qed.

(** The new stock is positive when the old one is: what is added to the
    depreciated stock is not negative. *)
Lemma locals_stocks_positive
      (self : Env) (k sh : list R) (agg : R) (ad : dict string (list R))
      (v : Locals) :
  locals self k sh agg ad = Ok v ->
  let c := cfg self in
  0 <= max_s_ij self -> delta c < 1 -> 0 <= agg ->
  (forall i, 0 <= nth i sh 0) ->
  (forall i, (i < n_hh c)%nat ->
     forall a x, sget (fstr "hh_" i) ad = Ok a -> In x a -> -1 <= x) ->
  forall i j, (i < n_hh c)%nat -> (j < n_capital c)%nat ->
    0 < nth2 i j (k_ij v) -> 0 < nth2 i j (k_ij_new v).
Proof.
  intros Hv c Hmax Hdelta Hagg Hsh Hact i j Hi Hj Hk.
  destruct (capital_transition _ _ _ _ _ _ Hv i j Hi Hj)
    as (-> & -> & -> & _).
  destruct (locals_inv _ _ _ _ _ _ Hv)
    as (s0 & b & q & Hu & Hs & _ & _ & Hy & _).
  fold c in Hs, Hy.
  assert (Hsnn : 0 <= nth2 i j (s_ij v)).
  { destruct (unsquash_inv _ _ _ Hu) as [_ Hrows].
    destruct (Hrows i Hi) as (d & Hd & Hlen & Hent).
    unfold nth2; rewrite Hs.
    destruct (nth_correct_bgt (n_capital c) s0 i d Hd) as [-> _].
    fold c in Hlen; rewrite <- Hlen.
    apply correct_row_nonneg; intros x Hx.
    destruct (In_nth_error _ _ Hx) as [j' Hj'].
    assert (Hlt : (j' < n_capital c)%nat).
    { rewrite <- Hlen; apply nth_error_Some; congruence. }
    destruct (Hent j' Hlt) as (a & a_j & Ha & Haj & Hdj).
    rewrite Hj' in Hdj; injection Hdj as ->.
    apply index_Ok in Haj.
    pose proof (Hact i Hi a a_j Ha (nth_error_In _ _ Haj)).
    apply Rmult_le_pos; [lra|exact Hmax]. }
  assert (Hynn : 0 <= nth i (y_i v) 0).
  { destruct (mapM_range_nth _ _ _ Hy) as [_ Hyn].
    destruct (Hyn i Hi) as [y [Hyi Hf]].
    apply bind_Ok_inv in Hf; destruct Hf as [p [Hp Hf]].
    injection Hf as <-.
    rewrite (nth_error_nth _ _ 0 Hyi).
    apply py_pow_nonneg in Hp.
    apply Rmult_le_pos; [apply Rmult_le_pos; auto|exact Hp]. }
  assert (Hinv : 0 <= nth2 i j (s_ij v) * nth i (y_i v) 0
                      / py_max (nth j (inv_exp_j v) 0) 0.0001
                      * sqrt (2 / phi c * nth j (inv_exp_j v) 0)).
  { apply Rmult_le_pos; [|apply sqrt_pos].
    apply Rle_mult_inv_pos; [now apply Rmult_le_pos|].
    pose proof (py_max_r (nth j (inv_exp_j v) 0) 0.0001); lra. }
  assert (0 < nth2 i j (k_ij v) * (1 - delta c))
    by (apply Rmult_lt_0_compat; lra).
  subst c; lra.
Qed.

(** Positive stocks stay positive through [step]. *)
Lemma stocks_stay_positive
        (self self' : Env) (w : Oracle) (ad : dict string (list R))
        (ret : Return) (o : dict string observation) (k : list R)
        (ids : list nat) (aid : nat) :
  step self w ad = Ok (self', ret) ->
  let c := cfg self in
  obs_ self = Some o ->
  sget "hh_0" o = Ok (k, ids, aid) ->
  List.length k = (n_hh c * n_capital c)%nat ->
  Forall (fun x => 0 < x) k ->
  0 <= max_s_ij self -> delta c < 1 ->
  Forall (fun x => 0 <= x) (shock_idtc_values c) ->
  Forall (fun x => 0 <= x) (shock_agg_values c) ->
  (forall i, (i < n_hh c)%nat ->
     forall a x, sget (fstr "hh_" i) ad = Ok a -> In x a -> -1 <= x) ->
  forall i, (i < n_hh c)%nat ->
  exists k' ids' aid',
    sget (fstr "hh_" i) (obs ret) = Ok (k', ids', aid') /\
    List.length k' = (n_hh c * n_capital c)%nat /\
    Forall (fun x => 0 < x) k'.
Proof.
  intros Hstep c Hobs H0 Hlen Hpos Hmax Hdelta Hidtc Hagg Hact i Hi.
  destruct (step_inv _ _ _ _ _ Hstep)
    as (t0 & o1 & k1 & ids1 & aid1 & sh & agg & v & ids' & aid' & o'
        & _ & Hobs1 & H01 & Hsh & Hag & Hv & _ & Ho' & _ & ->).
  fold c in Hsh, Hag, Ho'.
  rewrite Hobs in Hobs1; injection Hobs1 as <-.
  rewrite H0 in H01; injection H01 as <- <- <-.
  assert (Hnew : forall a b, (a < n_hh c)%nat -> (b < n_capital c)%nat ->
                             0 < nth2 a b (k_ij_new v)).
  { intros a b Ha Hb.
    apply (locals_stocks_positive _ _ _ _ _ _ Hv); try assumption.
    - apply index_Ok in Hag.
      rewrite Forall_forall in Hagg; apply Hagg.
      eapply nth_error_In; exact Hag.
    - exact (shock_values_nonneg c ids sh Hidtc Hsh).
    - destruct (locals_inv _ _ _ _ _ _ Hv) as (_ & _ & _ & _ & _ & _ & -> & _).
      rewrite nth2_per_household by assumption.
      rewrite Forall_forall in Hpos; apply Hpos, nth_In.
      rewrite Hlen; fold c; nia. }
  destruct (k_ij_new_shape _ _ _ _ _ _ Hv) as [Hrows Hcols].
  fold c in Hrows, Hcols.
  destruct (reorganize_views _ _ _ _ _ Ho' i Hi)
    as (kv & sv & Hkv & _ & Hget).
  exists (flatten kv), sv, aid'; split; [exact Hget|]; split.
  - unfold flatten; rewrite (self_first_view_concat_length _ _ _ Hkv).
    now rewrite (concat_length_rows (n_capital c)), Hrows.
  - apply Forall_forall; intros x Hx.
    apply in_concat in Hx; destruct Hx as (row & Hrow & Hx).
    apply (self_first_view_In _ _ _ _ Hkv) in Hrow.
    destruct (In_nth _ _ [] Hrow) as (a & Ha & <-).
    destruct (In_nth _ _ 0 Hx) as (b & Hb & <-).
    apply (Hnew a b); [lia|].
    rewrite <- (Hcols (nth a (k_ij_new v) [])); [exact Hb|].
    apply nth_In; lia.
Qed.

(** X8.  Positive stocks stay positive.  When the stocks [step] starts
    from are positive, the savings ceiling, the shock values and
    [1 - delta] are not negative and no action component is below [-1],
    every household's next observation holds [n_hh * n_capital] stocks, all
    of them positive. *)
Theorem capital_stocks_stay_positive
        (self self' : Env) (w : Oracle) (ad : dict string (list R))
        (ret : Return) (o : dict string observation) (k : list R)
        (ids : list nat) (aid : nat) :
  step self w ad = Ok (self', ret) ->
  let c := cfg self in
  obs_ self = Some o ->
  sget "hh_0" o = Ok (k, ids, aid) ->
  List.length k = (n_hh c * n_capital c)%nat ->
  Forall (fun x => 0 < x) k ->
  0 <= max_s_ij self -> delta c < 1 ->
  Forall (fun x => 0 <= x) (shock_idtc_values c) ->
  Forall (fun x => 0 <= x) (shock_agg_values c) ->
  (forall i, (i < n_hh c)%nat ->
     forall a x, sget (fstr "hh_" i) ad = Ok a -> In x a -> -1 <= x) ->
  forall i, (i < n_hh c)%nat ->
  exists k' ids' aid',
    sget (fstr "hh_" i) (obs ret) = Ok (k', ids', aid') /\
    List.length k' = (n_hh c * n_capital c)%nat /\
    Forall (fun x => 0 < x) k'.
Proof. apply stocks_stay_positive. Qed.

Lemma capital_stocks_stay_positive_witness :
  exists self' ret k' ids' aid',
    step (set_state example 0 example_obs) zeros example_actions
    = Ok (self', ret) /\
    sget (fstr "hh_" 1) (obs ret) = Ok (k', ids', aid') /\
    List.length k' = 2%nat /\
    Forall (fun x => 0 < x) k'.
Proof.
  pose proof example_k_ss_pos as Hk.
  destruct (example_step zeros) as (self' & ret & Hstep).
  destruct (capital_stocks_stay_positive _ _ _ _ _ example_obs
              [example_k_ss * 0.9; example_k_ss * 0.8] [0; 0]%nat 0%nat
              Hstep eq_refl eq_refl eq_refl) with (i := 1%nat)
    as (k' & ids' & aid' & Hget & Hlen & Hpos).
  - repeat constructor; lra.
  - simpl; lra.
  - simpl; lra.
  - repeat constructor; lra.
  - repeat constructor; lra.
  - intros i _ a x Ha Hx.
    destruct (example_actions_lookup i a Ha) as [-> | ->];
      destruct Hx as [<- | Hf]; (lra || contradiction).
  - simpl; lia.
  - exists self', ret, k', ids', aid'; repeat split; assumption.
Defined.

(** *** The constructor *)

(** X9.  The constructor divides by [alpha * beta], by [n_capital] and by
    [alpha - 2] when it computes the steady state: it raises
    [ZeroDivisionError] when one of them is zero, whatever the other
    options. *)
Theorem capital_init_zero_division (c : Config) :
  alpha c * beta c = 0 \/ n_capital c = 0%nat \/ alpha c = 2 ->
  init c = Raise ZeroDivisionError.
Proof.
  intros H; unfold init, py_div.
  destruct (Req_dec_T (alpha c * beta c) 0) as [|Hab]; [reflexivity|].
  cbn [bind].
  destruct (Req_dec_T (INR (n_capital c)) 0) as [|Hn]; [reflexivity|].
  cbn [bind].
  destruct (Req_dec_T (alpha c - 2) 0) as [|Ha]; [reflexivity|].
  exfalso; destruct H as [H|[H|H]]; [lra| |lra].
  rewrite H in Hn; simpl in Hn; lra.
Qed.

Lemma capital_init_zero_division_witness :
  (alpha no_capital_config * beta no_capital_config = 0 \/
   n_capital no_capital_config = 0%nat \/ alpha no_capital_config = 2) /\
  init no_capital_config = Raise ZeroDivisionError.
Proof.
  assert (H : alpha no_capital_config * beta no_capital_config = 0 \/
              n_capital no_capital_config = 0%nat \/
              alpha no_capital_config = 2)
    by (right; left; reflexivity).
  split; [exact H|exact (capital_init_zero_division no_capital_config H)].
Defined.

Lemma flip_Ok (x p : R) (rr : list R) (rest : list (list R)) (t : Z) :
  p <> 0 ->
  flip ((x :: p :: rr) :: rest) t
  = Ok (Z.even (Zfloor (IZR t / (1 / p)) + 1)).
Proof.
  intros Hp; unfold flip; cbn [index nth_error bind].
  rewrite py_div_Ok by exact Hp; cbn [bind].
  unfold floor_div.
  destruct (Req_dec_T (1 / p) 0) as [E|_]; [|reflexivity].
  exfalso; apply (Rmult_eq_compat_r p) in E.
  unfold Rdiv in E; rewrite Rmult_assoc, Rinv_l in E by exact Hp; lra.
Qed.

Lemma schedule_total {V} (hor : Z) (v0 : V) (f : Z -> result V) :
  (forall t, exists v, f t = Ok v) ->
  exists d, schedule hor v0 f = Ok d.
Proof.
  intros Hf; unfold schedule.
  destruct (mapM_total (fun t => v <- f t ;; Ok (t, v))
                       (zrange 1 (hor + 1))) as [rest ->].
  - intros t _; destruct (Hf t) as [v ->]; simpl; eauto.
  - simpl; eauto.
Qed.

(** The entries of a schedule: the given value at 0, [f t] at every later
    timestep through the horizon. *)
Lemma schedule_values {V} (hor : Z) (v0 : V) (f : Z -> result V)
      (d : dict Z V) :
  schedule hor v0 f = Ok d ->
  zget 0 d = Ok v0 /\
  forall t, (1 <= t <= hor)%Z -> exists v, f t = Ok v /\ zget t d = Ok v.
Proof.
  unfold schedule; intros H.
  apply bind_Ok_inv in H; destruct H as [rest [Hrest H]].
  injection H as <-.
  split; [reflexivity|].
  intros t Ht.
  assert (Hin : In t (zrange 1 (hor + 1))) by (apply In_zrange; lia).
  unfold zget; cbn [get].
  replace (t =? 0)%Z with false by (symmetry; apply Z.eqb_neq; lia).
  clear Ht; revert rest Hrest Hin.
  induction (zrange 1 (hor + 1)) as [|x xs IH]; intros rest Hrest Hin;
    [contradiction|].
  cbn [mapM] in Hrest.
  apply bind_Ok_inv in Hrest; destruct Hrest as [[k v] [Hx Hrest]].
  apply bind_Ok_inv in Hrest; destruct Hrest as [ys [Hys Hrest]].
  injection Hrest as <-.
  destruct (f x) as [vx|] eqn:Efx; simpl in Hx; [|discriminate].
  injection Hx as <- <-; cbn [get].
  destruct (Z.eqb_spec t x) as [->|Hne].
  - exists vx; auto.
  - destruct Hin as [Hin|Hin]; [congruence|].
    exact (IH ys Hys Hin).
Qed.

(** The steady state the constructor computes. *)
Lemma init_steady_state_base (c : Config) :
  0 < alpha c -> 0 < beta c -> 0 < delta c ->
  beta c * (1 - delta c) < 1 -> 0 < phi c ->
  (1 <= n_hh c)%nat -> (1 <= n_capital c)%nat ->
  0 < phi c * delta c * INR (n_hh c) * INR (n_capital c)
      * ((1 - beta c * (1 - delta c)) / (alpha c * beta c)
         + delta c * (INR (n_capital c) - 1) / INR (n_capital c)).
Proof.
  intros Ha Hb Hd Hbd Hp Hn Hm.
  assert (Hn' : 1 <= INR (n_hh c)) by (apply (le_INR 1); exact Hn).
  assert (Hm' : 1 <= INR (n_capital c)) by (apply (le_INR 1); exact Hm).
  assert (0 < alpha c * beta c) by (apply Rmult_lt_0_compat; lra).
  assert (0 < (1 - beta c * (1 - delta c)) / (alpha c * beta c))
    by (apply Rdiv_lt_0_compat; lra).
  assert (0 <= delta c * (INR (n_capital c) - 1) / INR (n_capital c)).
  { apply Rle_mult_inv_pos; [|lra].
    apply Rmult_le_pos; lra. }
  repeat apply Rmult_lt_0_compat; lra.
Qed.

Lemma init_total (c : Config) :
  0 < alpha c < 2 -> 0 < beta c -> 0 < delta c ->
  beta c * (1 - delta c) < 1 -> 0 < phi c ->
  (1 <= n_hh c)%nat -> (1 <= n_capital c)%nat ->
  (eval_mode c || analysis_mode c = true ->
   exists xa pa ra resta xi pi ri resti,
     shock_agg_transition c = (xa :: pa :: ra) :: resta /\ pa <> 0 /\
     shock_idtc_transition c = (xi :: pi :: ri) :: resti /\ pi <> 0) ->
  exists self,
    init c = Ok self /\
    cfg self = c /\
    k_ss self
    = Rpower (phi c * delta c * INR (n_hh c) * INR (n_capital c)
              * ((1 - beta c * (1 - delta c)) / (alpha c * beta c)
                 + delta c * (INR (n_capital c) - 1) / INR (n_capital c)))
             (1 / (alpha c - 2)) /\
    0 < k_ss self /\
    max_s_ij self = max_savings c / INR (n_capital c) * 1.5 /\
    timestep self = None /\
    obs_ self = None.
Proof.
  intros Ha Hb Hd Hbd Hp Hn Hm Htr.
  pose proof (init_steady_state_base c ltac:(lra) Hb Hd Hbd Hp Hn Hm) as Hbase.
  assert (Hm' : 1 <= INR (n_capital c)) by (apply (le_INR 1); exact Hm).
  assert (Hab : 0 < alpha c * beta c) by (apply Rmult_lt_0_compat; lra).
  unfold init.
  rewrite (py_div_Ok (1 - _)) by lra; cbn [bind].
  rewrite (py_div_Ok (delta c * _)) by lra; cbn [bind].
  rewrite (py_div_Ok 1 (alpha c - 2)) by lra; cbn [bind].
  rewrite py_pow_pos by exact Hbase; cbn [bind].
  rewrite (py_div_Ok (max_savings c)) by lra; cbn [bind].
  assert (Hsched :
            eval_mode c || analysis_mode c = true ->
            forall (V : Type) (v0 : V) (g : bool -> V) (tr : list (list R)),
              tr = shock_agg_transition c \/ tr = shock_idtc_transition c ->
              exists d, schedule (horizon c) v0
                                 (fun t => f <- flip tr t ;; Ok (g f))
                        = Ok d).
  { intros Hmode V v0 g tr Htrs.
    destruct (Htr Hmode)
      as (xa & pa & ra & resta & xi & pi & ri & resti & Ea & Hpa & Ei & Hpi).
    apply schedule_total; intros t.
    destruct Htrs as [-> | ->]; [rewrite Ea|rewrite Ei];
      rewrite flip_Ok by assumption; simpl; eauto. }
  destruct (eval_mode c) eqn:Eev.
  - destruct (Hsched eq_refl nat 0%nat (fun f : bool => if f then 1%nat else 0%nat)
                     (shock_agg_transition c) (or_introl eq_refl)) as [da Hda].
    rewrite Hda; cbn [bind].
    match goal with
    | |- context [schedule (horizon c) ?v0
                           (fun t => f <- flip (shock_idtc_transition c) t ;;
                                     Ok (@?g f))] =>
        destruct (Hsched eq_refl _ v0 g (shock_idtc_transition c)
                         (or_intror eq_refl)) as [di Hdi]
    end.
    rewrite Hdi; cbn [bind].
    destruct (analysis_mode c) eqn:Ean.
    + cbn [bind].
      match goal with
      | |- context [schedule (horizon c) ?v0
                             (fun t => f <- flip (shock_idtc_transition c) t ;;
                                       Ok (@?g f))] =>
          destruct (Hsched eq_refl _ v0 g (shock_idtc_transition c)
                           (or_intror eq_refl)) as [di' Hdi']
      end.
      rewrite Hdi'; cbn [bind].
      eexists; split; [reflexivity|].
      cbn; repeat split; try reflexivity; apply exp_pos.
    + cbn [bind].
      eexists; split; [reflexivity|].
      cbn; repeat split; try reflexivity; apply exp_pos.
  - cbn [bind].
    destruct (analysis_mode c) eqn:Ean.
    + destruct (Hsched eq_refl nat 0%nat
                       (fun f : bool => if f then 1%nat else 0%nat)
                       (shock_agg_transition c) (or_introl eq_refl))
        as [da Hda].
      rewrite Hda; cbn [bind].
      match goal with
      | |- context [schedule (horizon c) ?v0
                             (fun t => f <- flip (shock_idtc_transition c) t ;;
                                       Ok (@?g f))] =>
          destruct (Hsched eq_refl _ v0 g (shock_idtc_transition c)
                           (or_intror eq_refl)) as [di Hdi]
      end.
      rewrite Hdi; cbn [bind].
      eexists; split; [reflexivity|].
      cbn; repeat split; try reflexivity; apply exp_pos.
    + cbn [bind].
      eexists; split; [reflexivity|].
      cbn; repeat split; try reflexivity; apply exp_pos.
Qed.

(** X10.  With the parameters in their economic ranges, at least one
    household and one capital good and, when a schedule is built, non-zero
    switching probabilities, the constructor returns: the instance holds
    the configuration, a positive steady state given by the closed form,
    the savings ceiling [max_savings / n_capital * 1.5], and no timestep
    or observation yet. *)
Theorem capital_init_returns (c : Config) :
  0 < alpha c < 2 -> 0 < beta c -> 0 < delta c ->
  beta c * (1 - delta c) < 1 -> 0 < phi c ->
  (1 <= n_hh c)%nat -> (1 <= n_capital c)%nat ->
  (eval_mode c || analysis_mode c = true ->
   exists xa pa ra resta xi pi ri resti,
     shock_agg_transition c = (xa :: pa :: ra) :: resta /\ pa <> 0 /\
     shock_idtc_transition c = (xi :: pi :: ri) :: resti /\ pi <> 0) ->
  exists self,
    init c = Ok self /\
    cfg self = c /\
    k_ss self
    = Rpower (phi c * delta c * INR (n_hh c) * INR (n_capital c)
              * ((1 - beta c * (1 - delta c)) / (alpha c * beta c)
                 + delta c * (INR (n_capital c) - 1) / INR (n_capital c)))
             (1 / (alpha c - 2)) /\
    0 < k_ss self /\
    max_s_ij self = max_savings c / INR (n_capital c) * 1.5 /\
    timestep self = None /\
    obs_ self = None.
Proof. exact (init_total c). Qed.

Lemma example_eval_transitions :
  exists xa pa ra resta xi pi ri resti,
    shock_agg_transition example_eval_config = (xa :: pa :: ra) :: resta /\
    pa <> 0 /\
    shock_idtc_transition example_eval_config = (xi :: pi :: ri) :: resti /\
    pi <> 0.
Proof.
  exists 0.95, 0.05, [], [[0.05; 0.95]], 0.9, 0.1, [], [[0.1; 0.9]].
  repeat split; lra.
Qed.

Lemma capital_init_returns_witness :
  exists self,
    init example_eval_config = Ok self /\ cfg self = example_eval_config /\
    0 < k_ss self.
Proof.
  destruct (capital_init_returns example_eval_config)
    as (self & H & Hc & _ & Hk & _);
    try (simpl; lra); try (simpl; lia).
  - intros _; exact example_eval_transitions.
  - exists self; repeat split; assumption.
Defined.

(** *** The evaluation schedule *)

Lemma floor_div_period (t N : Z) :
  (0 < N)%Z -> Zfloor (IZR t / (1 / / IZR N)) = (t / N)%Z.
Proof.
  intros HN.
  assert (HN' : 0 < IZR N) by now apply IZR_lt.
  replace (IZR t / (1 / / IZR N)) with (IZR t / IZR N) by (field; lra).
  apply Zfloor_eq.
  pose proof (Z.div_mod t N ltac:(lia)) as Hdm.
  pose proof (Z.mod_pos_bound t N HN) as Hmod.
  assert (Ht : IZR t = IZR N * IZR (t / N) + IZR (t mod N))
    by (rewrite <- mult_IZR, <- plus_IZR; now f_equal).
  assert (H0 : 0 <= IZR (t mod N)) by (apply IZR_le; lia).
  assert (H1 : IZR (t mod N) < IZR N) by (apply IZR_lt; lia).
  rewrite Ht; split.
  - apply Rmult_le_reg_r with (IZR N); [exact HN'|].
    unfold Rdiv; rewrite Rmult_assoc, Rinv_l by lra; lra.
  - apply Rmult_lt_reg_r with (IZR N); [exact HN'|].
    unfold Rdiv; rewrite Rmult_assoc, Rinv_l by lra; lra.
Qed.

Lemma flip_period (x : R) (N : Z) (rr : list R) (rest : list (list R))
      (t : Z) :
  (0 < N)%Z ->
  flip ((x :: / IZR N :: rr) :: rest) t = Ok (Z.odd (t / N)).
Proof.
  intros HN.
  assert (HN' : 0 < IZR N) by now apply IZR_lt.
  rewrite flip_Ok by (apply Rinv_neq_0_compat; lra).
  rewrite floor_div_period by exact HN.
  now rewrite Z.add_1_r, Z.even_succ.
Qed.

(** The two schedules the constructor builds in evaluation mode, entry by
    entry. *)
Lemma eval_schedule
      (c : Config) (self : Env) (Na Ni : Z) (xa xi : R) (ra ri : list R)
      (resta resti : list (list R)) :
  init c = Ok self ->
  eval_mode c = true ->
  (0 < Na)%Z -> (0 < Ni)%Z ->
  shock_agg_transition c = (xa :: / IZR Na :: ra) :: resta ->
  shock_idtc_transition c = (xi :: / IZR Ni :: ri) :: resti ->
  exists da di,
    shocks_eval_agg self = Some da /\
    shocks_eval_idtc self = Some di /\
    forall t, (0 <= t <= horizon c)%Z ->
      zget t da = Ok (if Z.odd (t / Na) then 1%nat else 0%nat) /\
      zget t di
      = Ok (map (fun i => if Z.odd (t / Ni) then i mod 2 else 1 - i mod 2)%nat
                (range (n_hh c))).
Proof.
  intros Hinit Hmode HNa HNi Ea Ei.
  unfold init in Hinit.
  apply bind_Ok_inv in Hinit; destruct Hinit as [a [_ H]].
  apply bind_Ok_inv in H; destruct H as [b [_ H]].
  apply bind_Ok_inv in H; destruct H as [e [_ H]].
  apply bind_Ok_inv in H; destruct H as [kss [_ H]].
  apply bind_Ok_inv in H; destruct H as [m [_ H]].
  apply bind_Ok_inv in H; destruct H as [ev [Hev H]].
  apply bind_Ok_inv in H; destruct H as [an [_ H]].
  injection H as <-; cbn [shocks_eval_agg shocks_eval_idtc].
  rewrite Hmode in Hev.
  apply bind_Ok_inv in Hev; destruct Hev as [da [Hda Hev]].
  apply bind_Ok_inv in Hev; destruct Hev as [di [Hdi Hev]].
  injection Hev as <-; cbn [fst snd].
  exists da, di; split; [reflexivity|]; split; [reflexivity|].
  destruct (schedule_values _ _ _ _ Hda) as [Ha0 Hat].
  destruct (schedule_values _ _ _ _ Hdi) as [Hi0 Hit].
  intros t Ht.
  destruct (Z.eq_dec t 0) as [->|Hne].
  - rewrite !Z.div_0_l by lia; cbn [Z.odd].
    split; [exact Ha0|exact Hi0].
  - destruct (Hat t ltac:(lia)) as (va & Hfa & ->).
    destruct (Hit t ltac:(lia)) as (vi & Hfi & ->).
    rewrite Ea, flip_period in Hfa by exact HNa.
    rewrite Ei, flip_period in Hfi by exact HNi.
    cbn [bind] in Hfa, Hfi.
    injection Hfa as <-; injection Hfi as <-.
    split; [reflexivity|].
    destruct (Z.odd (t / Ni)); reflexivity.
Qed.

(** X11.  The evaluation schedule is a square wave.  When the switching
    probabilities [shock_agg_transition[0][1]] and
    [shock_idtc_transition[0][1]] are [1 / Na] and [1 / Ni] for positive
    integers, the aggregate shock scheduled for timestep [t] is state 1
    when [t // Na] is odd and state 0 when it is even, and the households
    alternate: household [i] is scheduled state [1 - i % 2] when [t // Ni]
    is even and [i % 2] when it is odd. *)
Theorem capital_eval_schedule_square_wave
        (c : Config) (self : Env) (Na Ni : Z) (xa xi : R) (ra ri : list R)
        (resta resti : list (list R)) :
  init c = Ok self ->
  eval_mode c = true ->
  (0 < Na)%Z -> (0 < Ni)%Z ->
  shock_agg_transition c = (xa :: / IZR Na :: ra) :: resta ->
  shock_idtc_transition c = (xi :: / IZR Ni :: ri) :: resti ->
  exists da di,
    shocks_eval_agg self = Some da /\
    shocks_eval_idtc self = Some di /\
    forall t, (0 <= t <= horizon c)%Z ->
      zget t da = Ok (if Z.odd (t / Na) then 1%nat else 0%nat) /\
      zget t di
      = Ok (map (fun i => if Z.odd (t / Ni) then i mod 2 else 1 - i mod 2)%nat
                (range (n_hh c))).
Proof. exact (eval_schedule c self Na Ni xa xi ra ri resta resti). Qed.

Lemma capital_eval_schedule_square_wave_witness :
  exists self da di,
    init example_eval_config = Ok self /\
    shocks_eval_agg self = Some da /\
    shocks_eval_idtc self = Some di /\
    zget 19 da = Ok 0%nat /\ zget 20 da = Ok 1%nat /\
    zget 40 da = Ok 0%nat /\
    zget 9 di = Ok [1; 0]%nat /\ zget 10 di = Ok [0; 1]%nat.
Proof.
  destruct (init_total example_eval_config)
    as (self & Hinit & _); try (simpl; lra); try (simpl; lia).
  { intros _; exact example_eval_transitions. }
  destruct (capital_eval_schedule_square_wave example_eval_config self
              20 10 0.95 0.9 [] [] [[0.05; 0.95]] [[0.1; 0.9]] Hinit
              eq_refl eq_refl eq_refl)
    as (da & di & Hda & Hdi & H).
  - simpl; repeat f_equal; lra.
  - simpl; repeat f_equal; lra.
  - exists self, da, di.
    split; [exact Hinit|]; split; [exact Hda|]; split; [exact Hdi|].
    destruct (H 19%Z ltac:(simpl; lia)) as [H19 H19'].
    destruct (H 20%Z ltac:(simpl; lia)) as [H20 _].
    destruct (H 40%Z ltac:(simpl; lia)) as [H40 _].
    destruct (H 9%Z ltac:(simpl; lia)) as [_ H9].
    destruct (H 10%Z ltac:(simpl; lia)) as [_ H10].
    repeat split; assumption.
Defined.

(** *** [reset] in the learning mode *)

Lemma choices_uniform (L u : nat) :
  L <> O -> choices (range L) None u = Ok (u mod L)%nat.
Proof.
  intros HL; unfold choices.
  rewrite length_range.
  assert (H : index (range L) (u mod L) = Ok (u mod L)%nat).
  { unfold index; rewrite nth_error_range; [reflexivity|].
    now apply Nat.mod_upper_bound. }
  destruct L as [|L]; [congruence|exact H].
Qed.

Lemma reorganize_total (n : nat) (kij : list (list R)) (shocks : list nat)
      (agg : nat) :
  List.length kij = n -> List.length shocks = n ->
  exists o, reorganize n kij shocks agg = Ok o.
Proof.
  intros Hk Hs; unfold reorganize.
  apply mapM_range_total; intros i Hi.
  unfold self_first.
  destruct (index_total kij i ltac:(lia)) as [x ->].
  destruct (index_total shocks i ltac:(lia)) as [y ->].
  simpl; eauto.
Qed.

(** In the learning mode [reset] returns: the stocks are drawn between
    half and five quarters of the steady state, the shock states from the
    states of the idiosyncratic shock. *)
Lemma reset_learning (self : Env) (w : Oracle) :
  let c := cfg self in
  eval_mode c = false -> analysis_mode c = false ->
  shock_idtc_values c <> [] ->
  exists o,
    reset self w = Ok (set_state self 0 o, o) /\
    reorganize (n_hh c)
      (per_household c
         (map (fun i => uniform (k_ss self * 0.5) (k_ss self * 1.25)
                                (unit01 w i))
              (range (n_hh c * n_capital c))))
      (map (fun i => pick w i mod List.length (shock_idtc_values c))%nat
           (range (n_hh c)))
      (pick w (n_hh c) mod List.length (shock_idtc_values c))%nat
    = Ok o.
Proof.
  intros c Hev Han Hval.
  assert (HL : List.length (shock_idtc_values c) <> O)
    by (destruct (shock_idtc_values c); simpl; congruence).
  destruct (reorganize_total (n_hh c)
              (per_household c
                 (map (fun i => uniform (k_ss self * 0.5) (k_ss self * 1.25)
                                        (unit01 w i))
                      (range (n_hh c * n_capital c))))
              (map (fun i => pick w i mod List.length (shock_idtc_values c))%nat
                   (range (n_hh c)))
              (pick w (n_hh c) mod List.length (shock_idtc_values c))%nat)
    as [o Ho].
  { apply per_household_length. }
  { now rewrite length_map, length_range. }
  exists o; split; [|exact Ho].
  unfold reset; fold c; rewrite Hev, Han.
  rewrite (mapM_ext _ (fun i => Ok (pick w i
                                    mod List.length (shock_idtc_values c))%nat))
    by (intros i _; now apply choices_uniform).
  rewrite mapM_pure; cbn [bind].
  rewrite choices_uniform by exact HL; cbn [bind].
  rewrite Ho; reflexivity.
Qed.

(** X12.  In the learning mode the first aggregate shock state is drawn from
    the states of the idiosyncratic shock.  With fewer aggregate than
    idiosyncratic shock values, [reset] can therefore return an
    observation whose aggregate state has no shock value, and then every
    [step] raises [IndexError]. *)
Theorem capital_reset_aggregate_state (self : Env) :
  let c := cfg self in
  eval_mode c = false -> analysis_mode c = false ->
  (1 <= n_hh c)%nat ->
  (List.length (shock_agg_values c) < List.length (shock_idtc_values c))%nat ->
  exists w self1 o,
    reset self w = Ok (self1, o) /\
    forall w' ad, step self1 w' ad = Raise IndexError.
Proof.
  intros c Hev Han Hn Hlen.
  set (La := List.length (shock_agg_values c)) in *.
  set (L := List.length (shock_idtc_values c)) in *.
  set (w := {| pick := fun _ => La; unit01 := fun _ => 0;
               gauss := fun _ => 0; act := fun _ => 0 |}).
  assert (Hval : shock_idtc_values c <> [])
    by (intros E; unfold L in Hlen; rewrite E in Hlen; simpl in Hlen; lia).
  destruct (reset_learning self w Hev Han Hval) as (o & Hreset & Ho).
  fold c L in Ho; cbn [pick w] in Ho.
  rewrite Nat.mod_small in Ho by exact Hlen.
  exists w, (set_state self 0 o), o; split; [exact Hreset|].
  intros w' ad.
  destruct (reorganize_views _ _ _ _ _ Ho 0%nat ltac:(lia))
    as (kv & sv & _ & Hsv & Hget).
  apply self_first_view_0 in Hsv; subst sv.
  change (fstr "hh_" 0) with "hh_0"%string in Hget.
  unfold step; cbn [timestep obs_ set_state cfg attr bind]; fold c.
  rewrite Hget; cbn [bind].
  destruct (mapM_range_total
              (fun i => id <- index (map (fun _ : nat => La) (range (n_hh c))) i ;;
                        index (shock_idtc_values c) id) (n_hh c))
    as [sh ->].
  { intros i Hi.
    unfold index at 1.
    rewrite nth_error_map, nth_error_range by exact Hi; cbn [option_map bind].
    apply index_total; exact Hlen. }
  cbn [bind].
  unfold index.
  replace (nth_error (shock_agg_values c) La) with (@None R)
    by (symmetry; apply nth_error_None; unfold La; lia).
  reflexivity.
Qed.

Lemma capital_reset_aggregate_state_witness :
  exists w self1 o,
    reset example_learning w = Ok (self1, o) /\
    forall w' ad, step self1 w' ad = Raise IndexError.
Proof.
  apply (capital_reset_aggregate_state example_learning);
    try reflexivity; simpl; lia.
Defined.

Lemma self_first_view_length {A} (i : nat) (l view : list A) :
  self_first_view i l view -> List.length view = List.length l.
Proof.
  intros (x & Hx & ->).
  rewrite <- (firstn_skipn_middle _ _ Hx) at 2.
  unfold drop_nth; cbn [List.length].
  rewrite !length_app; cbn [List.length]; lia.
Qed.

Lemma Forall2_below (L : nat) (l : list nat) (a : nat) :
  Forall (fun id => (id < L)%nat) l ->
  Forall2 (fun id n => (id < n)%nat) l
          (map (fun _ => L) (seq a (List.length l))).
Proof.
  revert a; induction l as [|x l IH]; intros a H; simpl; constructor.
  - now inversion H.
  - apply IH; now inversion H.
Qed.

(** X13.  In the learning mode, with a steady state that is not negative,
    uniform draws in the unit interval and at least as many aggregate as
    idiosyncratic shock values, [reset] returns for every household an
    observation of its declared observation space, with every stock
    between half and five quarters of the steady state. *)
Theorem capital_reset_in_observation_space (self : Env) (w : Oracle) :
  let c := cfg self in
  eval_mode c = false -> analysis_mode c = false ->
  0 <= k_ss self ->
  (forall i, 0 <= unit01 w i <= 1) ->
  shock_idtc_values c <> [] ->
  (List.length (shock_idtc_values c) <= List.length (shock_agg_values c))%nat ->
  exists self' o,
    reset self w = Ok (self', o) /\
    forall i, (i < n_hh c)%nat ->
    exists sp k ids aid,
      sget (fstr "hh_" i) (observation_space c) = Ok sp /\
      sget (fstr "hh_" i) o = Ok (k, ids, aid) /\
      contains sp (k, ids, aid) /\
      Forall (fun x => k_ss self * 0.5 <= x <= k_ss self * 1.25) k.
Proof.
  intros c Hev Han Hk Hu Hval Hlen.
  destruct (reset_learning self w Hev Han Hval) as (o & Hreset & Ho).
  fold c in Ho.
  exists (set_state self 0 o), o; split; [exact Hreset|].
  intros i Hi.
  destruct (reorganize_views _ _ _ _ _ Ho i Hi)
    as (kv & sv & Hkv & Hsv & Hget).
  set (k_init := map (fun i => uniform (k_ss self * 0.5) (k_ss self * 1.25)
                                       (unit01 w i))
                     (range (n_hh c * n_capital c))) in *.
  set (L := List.length (shock_idtc_values c)) in *.
  assert (HL : L <> O)
    by (unfold L; destruct (shock_idtc_values c); simpl; congruence).
  assert (Hklen : List.length k_init = (n_hh c * n_capital c)%nat)
    by (unfold k_init; now rewrite length_map, length_range).
  assert (Hbound : Forall (fun x => k_ss self * 0.5 <= x <= k_ss self * 1.25)
                          (flatten kv)).
  { apply Forall_forall; intros x Hx.
    apply in_concat in Hx; destruct Hx as (row & Hrow & Hx).
    apply (self_first_view_In _ _ _ _ Hkv) in Hrow.
    destruct (per_household_rows c k_init row Hklen Hrow) as [_ Hin].
    apply Hin in Hx; unfold k_init in Hx.
    apply in_map_iff in Hx; destruct Hx as (j & <- & _).
    unfold uniform; pose proof (Hu j); nra. }
  eexists _, (flatten kv), sv, _; split;
    [unfold observation_space; now apply sget_map_range|].
  split; [exact Hget|]; split; [|exact Hbound].
  unfold contains; cbn [box_shape multi_discrete discrete].
  repeat split.
  - unfold flatten; rewrite (self_first_view_concat_length _ _ _ Hkv).
    rewrite (concat_length_rows (n_capital c)), per_household_length;
      [reflexivity|].
    intros row Hrow; now destruct (per_household_rows c k_init row Hklen Hrow).
  - eapply Forall_impl; [|exact Hbound].
    intros x Hx; cbv beta in Hx; lra.
  - assert (Hsvlen : List.length sv = n_hh c).
    { rewrite (self_first_view_length _ _ _ Hsv).
      now rewrite length_map, length_range. }
    unfold range; rewrite <- Hsvlen.
    apply Forall2_below, Forall_forall; intros y Hy.
    apply (self_first_view_In _ _ _ _ Hsv) in Hy.
    apply in_map_iff in Hy; destruct Hy as (j & <- & _).
    now apply Nat.mod_upper_bound.
  - pose proof (Nat.mod_upper_bound (pick w (n_hh c)) L HL); fold L; lia.
Qed.

Lemma capital_reset_in_observation_space_witness :
  exists self' o sp k ids aid,
    reset example_default ones = Ok (self', o) /\
    sget (fstr "hh_" 0) (observation_space default_config) = Ok sp /\
    sget (fstr "hh_" 0) o = Ok (k, ids, aid) /\
    contains sp (k, ids, aid).
Proof.
  destruct (capital_reset_in_observation_space example_default ones)
    as (self' & o & Hreset & H);
    try reflexivity; try (simpl; lra); try (simpl; lia);
    try discriminate.
  { intros i; simpl; lra. }
  destruct (H 0%nat ltac:(simpl; lia))
    as (sp & k & ids & aid & Hsp & Hget & Hin & _).
  exists self', o, sp, k, ids, aid.
  split; [exact Hreset|]; split; [exact Hsp|]; split; [exact Hget|exact Hin].
Defined.

(** *** Malformed actions *)

Lemma mapM_seq_first_Raise {B} (f : nat -> result B) (a n i : nat) (e : exn) :
  (forall i', (a <= i' < i)%nat -> exists y, f i' = Ok y) ->
  (a <= i < a + n)%nat -> f i = Raise e ->
  mapM f (seq a n) = Raise e.
Proof.
  revert a; induction n as [|n IH]; intros a Hpre Hi He; [lia|].
  cbn [seq mapM].
  destruct (Nat.eq_dec a i) as [->|Hne].
  - now rewrite He.
  - destruct (Hpre a ltac:(lia)) as [y ->]; cbn [bind].
    rewrite (IH (S a)); [reflexivity| |lia|exact He].
    intros i' Hi'; apply Hpre; lia.
Qed.

Lemma mapM_range_first_Raise {B} (f : nat -> result B) (n i : nat) (e : exn) :
  (forall i', (i' < i)%nat -> exists y, f i' = Ok y) ->
  (i < n)%nat -> f i = Raise e ->
  mapM f (range n) = Raise e.
Proof.
  intros Hpre Hi He; apply (mapM_seq_first_Raise f 0 n i e);
    [intros i' Hi'; apply Hpre; lia|lia|exact He].
Qed.

(** The first household whose action cannot be decoded stops [unsquash]. *)
Lemma unsquash_Raise (self : Env) (ad : dict string (list R)) (i : nat)
      (e : exn) :
  (i < n_hh (cfg self))%nat ->
  (forall i', (i' < i)%nat ->
     exists a, sget (fstr "hh_" i') ad = Ok a /\
               (n_capital (cfg self) <= List.length a)%nat) ->
  mapM (fun j => a <- sget (fstr "hh_" i) ad ;;
                 a_j <- index a j ;;
                 Ok ((a_j + 1) / 2 * max_s_ij self))
       (range (n_capital (cfg self))) = Raise e ->
  unsquash self ad = Raise e.
Proof.
  intros Hi Hpre He; unfold unsquash.
  apply (mapM_range_first_Raise _ _ i); [|exact Hi|exact He].
  intros i' Hi'.
  destruct (Hpre i' Hi') as (a & Ha & Hlen).
  apply mapM_range_total; intros j Hj.
  rewrite Ha; cbn [bind].
  destruct (index_total a j ltac:(lia)) as [a_j ->].
  cbn [bind]; eauto.
Qed.

(** X14.  In a state from which some action dictionary lets [step] return,
    an action dictionary that lacks the action of household [i] (the
    households before [i] having theirs) makes [step] raise
    [KeyError] for the key [hh_i], and one whose action for household [i]
    has fewer than [n_capital] components makes it raise [IndexError]. *)
Theorem capital_step_malformed_action
        (self self' : Env) (w : Oracle) (ad0 ad : dict string (list R))
        (ret : Return) (i : nat) :
  step self w ad0 = Ok (self', ret) ->
  let c := cfg self in
  (i < n_hh c)%nat ->
  (forall i', (i' < i)%nat ->
     exists a, sget (fstr "hh_" i') ad = Ok a /\
               (n_capital c <= List.length a)%nat) ->
  (get String.eqb (fstr "hh_" i) ad = None -> (1 <= n_capital c)%nat ->
   step self w ad = Raise (KeyError (fstr "hh_" i))) /\
  (forall a, sget (fstr "hh_" i) ad = Ok a ->
             (List.length a < n_capital c)%nat ->
             step self w ad = Raise IndexError).
Proof.
  intros Hstep c Hi Hpre.
  destruct (step_inv _ _ _ _ _ Hstep)
    as (t0 & o & k & ids & aid & sh & agg & v & ids' & aid' & o'
        & Ht & Hobs & H0 & Hsh & Hag & _).
  fold c in Hsh, Hag.
  assert (Hlocals : forall e, unsquash self ad = Raise e ->
                              step self w ad = Raise e).
  { intros e He; unfold step; fold c.
    rewrite Ht, Hobs; cbn [bind attr].
    rewrite H0; cbn [bind].
    rewrite Hsh, Hag; cbn [bind].
    unfold locals; rewrite He; reflexivity. }
  split.
  - intros Hnone Hm; apply Hlocals.
    apply (unsquash_Raise self ad i); [exact Hi|exact Hpre|].
    apply (mapM_range_first_Raise _ _ 0%nat); [lia|exact Hm|].
    unfold sget; rewrite Hnone; reflexivity.
  - intros a Ha Hlen; apply Hlocals.
    apply (unsquash_Raise self ad i); [exact Hi|exact Hpre|].
    apply (mapM_range_first_Raise _ _ (List.length a)); [|exact Hlen|].
    + intros j Hj; rewrite Ha; cbn [bind].
      destruct (index_total a j Hj) as [a_j ->]; cbn [bind]; eauto.
    + rewrite Ha; cbn [bind]; unfold index.
      replace (nth_error a (List.length a)) with (@None R)
        by (symmetry; apply nth_error_None; lia).
      reflexivity.
Qed.

Lemma capital_step_malformed_action_witness :
  step (set_state example 0 example_obs) zeros [("hh_0"%string, [1])]
  = Raise (KeyError "hh_1") /\
  step (set_state example 0 example_obs) zeros
       [("hh_0"%string, [1]); ("hh_1"%string, [])]
  = Raise IndexError.
Proof.
  destruct (example_step zeros) as (self' & ret & Hstep).
  split.
  - destruct (capital_step_malformed_action _ _ _ _
                [("hh_0"%string, [1])] _ 1%nat Hstep) as [H _].
    + simpl; lia.
    + intros i' Hi'; assert (i' = 0%nat) as -> by lia.
      exists [1]; split; [reflexivity|simpl; lia].
    + apply H; [reflexivity|simpl; lia].
  - destruct (capital_step_malformed_action _ _ _ _
                [("hh_0"%string, [1]); ("hh_1"%string, [])] _ 1%nat Hstep)
      as [_ H].
    + simpl; lia.
    + intros i' Hi'; assert (i' = 0%nat) as -> by lia.
      exists [1]; split; [reflexivity|simpl; lia].
    + apply (H []); [reflexivity|simpl; lia].
Defined.

(** *** Beyond the horizon *)

Lemma schedule_keys {V} (hor : Z) (v0 : V) (f : Z -> result V)
      (d : dict Z V) :
  schedule hor v0 f = Ok d -> map fst d = 0%Z :: zrange 1 (hor + 1).
Proof.
  unfold schedule; intros H.
  apply bind_Ok_inv in H; destruct H as [rest [Hrest H]].
  injection H as <-; cbn [map fst].
  now rewrite (mapM_keys _ _ _ Hrest).
Qed.

Lemma zget_missing {V} (t : Z) (d : dict Z V) :
  ~ In t (map fst d) -> zget t d = Raise (KeyError "<int>").
Proof.
  unfold zget; induction d as [|[k v] d IH]; intros H; [reflexivity|].
  cbn [get].
  destruct (Z.eqb_spec t k) as [->|Hne]; [exfalso; apply H; now left|].
  apply IH; intros Hin; apply H; now right.
Qed.

Lemma schedule_exhausted {V} (hor : Z) (v0 : V) (f : Z -> result V)
      (d : dict Z V) (t : Z) :
  schedule hor v0 f = Ok d -> (0 < t)%Z -> (hor < t)%Z ->
  zget t d = Raise (KeyError "<int>").
Proof.
  intros Hd H0 Hhor; apply zget_missing.
  rewrite (schedule_keys _ _ _ _ Hd); intros [E|Hin]; [lia|].
  apply In_zrange in Hin; lia.
Qed.

(** The next shocks cannot be read off an exhausted schedule. *)
Lemma update_shock_exhausted (c : Config) (self0 : Env) (t0 t : Z)
      (o : dict string observation) (w : Oracle) (ids : list nat)
      (aid : nat) :
  init c = Ok self0 ->
  eval_mode c || analysis_mode c = true ->
  (0 < t)%Z -> (horizon c < t)%Z ->
  update_shock (set_state self0 t0 o) w t ids aid
  = Raise (KeyError "<int>").
Proof.
  intros Hinit Hmode H0 Hhor.
  unfold init in Hinit.
  apply bind_Ok_inv in Hinit; destruct Hinit as [a [_ H]].
  apply bind_Ok_inv in H; destruct H as [b [_ H]].
  apply bind_Ok_inv in H; destruct H as [e [_ H]].
  apply bind_Ok_inv in H; destruct H as [kss [_ H]].
  apply bind_Ok_inv in H; destruct H as [m [_ H]].
  apply bind_Ok_inv in H; destruct H as [ev [Hev H]].
  apply bind_Ok_inv in H; destruct H as [an [Han H]].
  injection H as <-.
  unfold update_shock;
    cbn [cfg set_state shocks_eval_agg shocks_eval_idtc shocks_analysis_agg
         shocks_analysis_idtc].
  destruct (eval_mode c).
  - apply bind_Ok_inv in Hev; destruct Hev as [da [Hda Hev]].
    apply bind_Ok_inv in Hev; destruct Hev as [di [Hdi Hev]].
    injection Hev as <-; cbn [fst snd attr bind].
    now rewrite (schedule_exhausted _ _ _ _ t Hdi).
  - simpl in Hmode; rewrite Hmode in *.
    apply bind_Ok_inv in Han; destruct Han as [da [Hda Han]].
    apply bind_Ok_inv in Han; destruct Han as [di [Hdi Han]].
    injection Han as <-; cbn [fst snd attr bind].
    now rewrite (schedule_exhausted _ _ _ _ t Hdi).
Qed.

(** X15.  In evaluation and analysis mode the schedules end at the horizon.
    From an observation and an action with which [step] returns at some
    timestep, [step] raises [KeyError] at every timestep from the horizon
    on, that is, once the episode has been reported done. *)
Theorem capital_step_past_horizon
        (c : Config) (self0 self' : Env) (t1 t0 : Z)
        (o : dict string observation) (w : Oracle)
        (ad : dict string (list R)) (ret : Return) :
  init c = Ok self0 ->
  eval_mode c || analysis_mode c = true ->
  step (set_state self0 t1 o) w ad = Ok (self', ret) ->
  (0 <= t0)%Z -> (horizon c <= t0)%Z ->
  step (set_state self0 t0 o) w ad = Raise (KeyError "<int>").
Proof.
  intros Hinit Hmode Hstep H0 Hhor.
  destruct (step_inv _ _ _ _ _ Hstep)
    as (t & o1 & k & ids & aid & sh & agg & v & ids' & aid' & o'
        & _ & Hobs & Hget & Hsh & Hag & Hv & _).
  cbn [obs_ set_state cfg] in Hobs, Hsh, Hag.
  injection Hobs as <-.
  change (locals (set_state self0 t1 o) k sh agg ad)
    with (locals (set_state self0 t0 o) k sh agg ad) in Hv.
  unfold step; cbn [timestep obs_ set_state cfg attr bind].
  rewrite Hget; cbn [bind].
  rewrite Hsh, Hag; cbn [bind].
  rewrite Hv; cbn [bind].
  assert (Hc : cfg self0 = c)
    by now destruct (init_schedules c self0 Hinit).
  rewrite (update_shock_exhausted c self0 t0 (t0 + 1) o w ids aid Hinit Hmode)
    by lia.
  reflexivity.
Qed.

Lemma capital_step_past_horizon_witness :
  step (set_state example 2 example_obs) zeros example_actions
  = Raise (KeyError "<int>").
Proof.
  destruct (example_step zeros) as (self' & ret & Hstep).
  apply (capital_step_past_horizon example_config example self' 0 2
           example_obs zeros example_actions ret example_init eq_refl Hstep);
    simpl; lia.
Defined.

End CapitalMore.

(** ** More on Townsend *)

Module TownsendMore.
Import Townsend TownsendProps.

(** *** [random_sample] *)

(** No key of the info dictionary is [industry_0]. *)
Lemma info_no_industry (self : Env) (k : list R) (v : Locals) :
  sget "industry_0" (create_info self k v) = Raise (KeyError "industry_0").
Proof.
  unfold sget, create_info.
  destruct (negb (analysis_mode (cfg self)) && negb (cur_simul_mode self));
    [reflexivity|].
  change "firm_0"%string with (fstr "firm_" 0).
  match goal with
  | |- context [merge String.eqb [(fstr "firm_" 0, ?g)]
                      (map (fun i => (fstr "firm_" i, @?f i)) (seq 1 ?m))] =>
      destruct (sget_info "firm_" g f (S m)) as (Hm & _);
      replace (S m - 1)%nat with m in Hm by lia; rewrite Hm
  end.
  rewrite get_None_notin; [reflexivity|].
  intros kv [<-|Hin]; [discriminate|].
  apply in_map_iff in Hin; destruct Hin as (i & <- & _); discriminate.
Qed.

Lemma flatten_empties (n : nat) :
  flatten (map (fun _ => @nil R) (range n)) = [].
Proof.
  unfold flatten, range; induction (seq 0 n) as [|x l IH]; simpl; auto.
Qed.

(** Where the loop of [random_sample] returns it has appended nothing, and
    it returns only when it has no iteration to make or no industry to
    record. *)
Lemma sample_loop_lists (ts : list nat) (ws : nat -> Oracle) :
  forall (self self' : Env)
         (lists lists' : list (list R) * list (list R) * list (list R)),
  sample_loop ts ws self lists = Ok (self', lists') ->
  (ts = [] \/ n_industries (cfg self) = O) /\ lists' = lists.
Proof.
  induction ts as [|t ts IH]; intros self self' lists lists' H.
  - injection H as _ <-; auto.
  - cbn [sample_loop] in H.
    apply bind_Ok_inv in H; destruct H as [self1 [H1 H]].
    apply bind_Ok_inv in H; destruct H as [[self2 ret] [H2 H]].
    apply bind_Ok_inv in H; destruct H as [lists1 [Hf H]].
    assert (Hc1 : cfg self1 = cfg self).
    { destruct (t mod 1000 =? 0)%nat.
      - apply bind_Ok_inv in H1; destruct H1 as [[e o] [Hr H1]].
        injection H1 as <-.
        now destruct (townsend_reset_timestep _ _ _ _ Hr).
      - now injection H1 as <-. }
    destruct (townsend_step_inv _ _ _ _ _ H2)
      as (t0 & g & v & pp & r & _ & _ & _ & _ & _ & _ & Hc2 & _ & ->).
    cbn [info rew] in Hf.
    destruct (n_industries (cfg self)) as [|n] eqn:En.
    + cbn [range seq foldM] in Hf; injection Hf as <-.
      destruct (IH _ _ _ _ H) as [_ ->]; auto.
    + exfalso; unfold range in Hf; cbn [seq foldM] in Hf.
      destruct lists as [[kl pl] rl].
      rewrite info_no_industry in Hf; discriminate.
Qed.

(** X16.  [random_sample] never returns.  Where its first [reset] and
    [step] return, with at least one period to sample and one industry,
    it raises [KeyError]: it reads the sampled capital under the key
    [industry_0], and the keys of the info dictionary are [firm_0],
    [firm_1], ...  With no period to sample, the extrema of its empty lists
    raise [ValueError]. *)
Theorem townsend_random_sample_never_returns
        (self : Env) (N : nat) (ws : nat -> Oracle) :
  (forall r, random_sample self N ws <> Ok r) /\
  (forall self1 o self2 ret,
     (1 <= N)%nat -> (1 <= n_industries (cfg self))%nat ->
     reset (set_simul_mode self true) (ws 0%nat) = Ok (self1, o) ->
     step self1 (ws 1%nat)
          (map (fun i => (fstr "firm_" i, [act (ws 1%nat) i]))
               (range (n_industries (cfg self))))
     = Ok (self2, ret) ->
     random_sample self N ws = Raise (KeyError "industry_0")) /\
  (N = O -> random_sample self N ws = Raise ValueError).
Proof.
  split; [|split].
  - intros r H; unfold random_sample in H.
    apply bind_Ok_inv in H; destruct H as [[self' [[kl pl] rl]] [Hl H]].
    destruct (sample_loop_lists _ _ _ _ _ _ Hl) as [_ Heq].
    injection Heq as -> -> ->.
    unfold stats in H; rewrite flatten_empties in H; discriminate.
  - intros self1 o self2 ret HN Hn Hreset Hstep.
    unfold random_sample.
    destruct N as [|N]; [lia|].
    change (range (S N)) with (0%nat :: seq 1 N); cbn [sample_loop].
    change (0 mod 1000 =? 0)%nat with true.
    change (2 * 0 + 1)%nat with 1%nat; change (2 * 0)%nat with 0%nat.
    rewrite Hreset; cbn [bind].
    cbn [cfg set_simul_mode].
    rewrite Hstep; cbn [bind].
    destruct (townsend_step_inv _ _ _ _ _ Hstep)
      as (t0 & g & v & pp & r & _ & _ & _ & _ & _ & _ & _ & _ & ->).
    cbn [info rew].
    destruct (n_industries (cfg self)) as [|n]; [lia|].
    unfold range; cbn [seq foldM].
    now rewrite info_no_industry.
  - intros ->.
    unfold random_sample; change (range 0) with (@nil nat).
    cbn [sample_loop bind].
    unfold stats; now rewrite flatten_empties.
Qed.

Ltac red_simul :=
  cbn [bind mapM foldM range seq index nth_error nth sget get zget
       String.eqb Ascii.eqb Bool.eqb Z.eqb Pos.eqb fst snd map
       self_first others enumerate combine filter negb Nat.eqb orb andb
       app List.length attr perindustry Z.add Pos.add Pos.succ Nat.mul
       Nat.add Nat.even Z.ltb Z.compare Pos.compare Pos.compare_cont
       cfg n_industries rental_shock eval_mode analysis_mode example_config
       example example_state example_global example_obs example_actions
       set_state with_n_firms set_simul_mode n_firms norm_ind horizon
       shocks_agg_seeded shocks_idtc_seeded cur_rew_mean cur_rew_std
       cur_simul_mode timestep obs_ obs_global draw_shocks
       g_k g_prices g_theta g_shock_agg g_shock_idtc g_shock_rent
       max_savings k_ss max_price max_cap delta alpha phi A tfp rho theta_0
       var_w var_epsilon var_theta gauss act zeros ones].

Lemma simul_example_reset (w : Oracle) :
  reset (set_simul_mode (with_n_firms (example false) 1) true) w
  = Ok (set_state (set_simul_mode (with_n_firms (example false) 1) true) 0
                  example_obs example_global,
        example_obs).
Proof.
  unfold reset; red_simul.
  rewrite !py_pow_pos by lra; red_simul; eval_fstr.
  reflexivity.
Qed.

Lemma simul_example_step :
  exists self2 ret,
    step (set_state (set_simul_mode (with_n_firms (example false) 1) true) 0
                    example_obs example_global)
         zeros
         (map (fun i => (fstr "firm_" i, [act zeros i])) (range 2))
    = Ok (self2, ret).
Proof.
  unfold step, locals; red_simul.
  eval_fstr; red_simul.
  rewrite !py_pow_pos by lra; red_simul.
  cbn [prices utility k_new s y]; red_simul.
  rewrite !py_div_Ok by lra; red_simul.
  do 2 eexists; reflexivity.
Qed.

Lemma townsend_random_sample_never_returns_witness :
  random_sample (with_n_firms (example false) 1) 3 (fun _ => zeros)
  = Raise (KeyError "industry_0").
Proof.
  destruct simul_example_step as (self2 & ret & Hstep).
  destruct (townsend_random_sample_never_returns
              (with_n_firms (example false) 1) 3 (fun _ => zeros))
    as (_ & H & _).
  apply (H _ _ _ _ ltac:(lia) ltac:(simpl; lia) (simul_example_reset zeros)
           Hstep).
Defined.

(** *** The observations of [step] *)

(** The prices of a successful [step]: the inverse demand
    [max_price - A * y + u], floored at zero. *)
Lemma townsend_prices
      (self : Env) (w : Oracle) (t : Z) (g : Global)
      (ad : dict string (list R)) (v : Locals) :
  locals self w t g ad = Ok v ->
  let c := cfg self in
  List.length (prices v) = n_industries c /\
  forall i, (i < n_industries c)%nat ->
    exists top e,
      (if norm_ind self then max_price_norm self = Some top
       else top = max_price c) /\
      index (shock_idtc v) i = Ok e /\
      nth i (prices v) 0
      = py_max (top - A c * nth i (y v) 0 + (theta v + e)) 0.
Proof.
  intros H c; unfold locals in H.
  apply bind_Ok_inv in H; destruct H as [[[idtc agg] rent] [Hd H]].
  apply bind_Ok_inv in H; destruct H as [u [Hu H]].
  apply bind_Ok_inv in H; destruct H as [sv [Hs H]].
  apply bind_Ok_inv in H; destruct H as [yv [Hy H]].
  apply bind_Ok_inv in H; destruct H as [[pr kn] [Hpk H]].
  injection H as <-; cbn [shock_idtc theta y prices].
  fold c in Hu, Hpk.
  destruct (mapM_range_nth _ _ _ Hu) as [_ Hun].
  assert (Hui : forall i, (i < n_industries c)%nat ->
                  exists e, index idtc i = Ok e /\
                            nth i u 0 = rho c * g_theta g + agg + e).
  { intros i Hi; destruct (Hun i Hi) as (x & Hx & Hf).
    apply bind_Ok_inv in Hf; destruct Hf as (e & He & Hf).
    injection Hf as <-; exists e; split; [exact He|].
    now apply nth_error_nth. }
  destruct (norm_ind self).
  - apply bind_Ok_inv in Hpk; destruct Hpk as [pr' [Hpr Hpk]].
    apply bind_Ok_inv in Hpk; destruct Hpk as [kn' [_ Hpk]].
    injection Hpk as <- _.
    destruct (mapM_range_nth _ _ _ Hpr) as [Hlen Hnth].
    split; [exact Hlen|].
    intros i Hi.
    destruct (Hnth i Hi) as (x & Hx & Hf).
    apply bind_Ok_inv in Hf; destruct Hf as (top & Htop & Hf).
    injection Hf as <-.
    destruct (Hui i Hi) as (e & He & Hue).
    exists top, e; split; [|split; [exact He|]].
    + destruct (max_price_norm self); [now injection Htop as ->|discriminate].
    + rewrite (nth_error_nth _ _ 0 Hx), Hue; reflexivity.
  - injection Hpk as <- _.
    split; [unfold range; now rewrite length_map, length_seq|].
    intros i Hi.
    destruct (Hui i Hi) as (e & He & Hue).
    exists (max_price c), e; split; [reflexivity|split; [exact He|]].
    rewrite nth_map_range by exact Hi; now rewrite Hue.
Qed.

Lemma py_min_nonneg (a b : R) : 0 <= a -> 0 <= b -> 0 <= py_min a b.
Proof. intros; unfold py_min; destruct (Rlt_dec b a); assumption. Qed.

(** X17.  With a savings ceiling, a productivity and a capital ceiling that
    are not negative, depreciation at most 1, stocks that are not negative
    and no action below [-1], [step] returns for every firm an observation
    of its declared observation space: one stock and [n_industries]
    prices, none of them negative.  The stocks of the new state are again
    not negative, so that this holds along an episode. *)
Theorem townsend_step_in_observation_space
        (self self' : Env) (w : Oracle) (ad : dict string (list R))
        (ret : Return) (g : Global) :
  step self w ad = Ok (self', ret) ->
  obs_global self = Some g ->
  let c := cfg self in
  0 <= max_savings c -> delta c <= 1 -> 0 <= tfp c ->
  (forall cap, (if norm_ind self then max_cap_norm self = Some cap
                else cap = max_cap c) -> 0 <= cap) ->
  Forall (fun x => 0 <= x) (g_k g) ->
  (forall i a x, sget (fstr "firm_" i) ad = Ok a -> In x a -> -1 <= x) ->
  (exists g',
     obs_global self' = Some g' /\
     Forall (fun x => 0 <= x) (g_k g') /\
     Forall (fun x => 0 <= x) (g_prices g')) /\
  forall i, (i < n_industries c)%nat ->
  exists shape ob,
    sget (fstr "firm_" i) (observation_space c) = Ok shape /\
    sget (fstr "firm_" i) (obs ret) = Ok ob /\
    contains shape ob.
Proof.
  intros Hstep Hg c Hms Hdelta Htfp Hcap Hk Hact.
  destruct (townsend_step_inv _ _ _ _ _ Hstep)
    as (t0 & g1 & v & pp & r & _ & Hg1 & Hv & Hpp & _ & _ & _ & Hg' & ->).
  fold c in Hpp.
  rewrite Hg in Hg1; injection Hg1 as <-.
  destruct (townsend_prices _ _ _ _ _ _ Hv) as [Hplen Hprice].
  fold c in Hplen, Hprice.
  pose proof (townsend_k_new_length _ _ _ _ _ _ Hv) as Hklen.
  fold c in Hklen.
  assert (Hpr : Forall (fun x => 0 <= x) (prices v)).
  { apply Forall_forall; intros x Hx.
    destruct (In_nth _ _ 0 Hx) as (i & Hi & <-).
    destruct (Hprice i ltac:(lia)) as (top & e & _ & _ & ->).
    apply py_max_r. }
  assert (Hkn : Forall (fun x => 0 <= x) (k_new v)).
  { apply Forall_forall; intros x Hx.
    destruct (In_nth _ _ 0 Hx) as (i & Hi & <-).
    destruct (townsend_transition _ _ _ _ _ _ Hv i ltac:(fold c; lia))
      as (a & a0 & k_i & p & cap & Ha & Ha0 & Hs & Hki & Hp & Hy & Hc & -> & _).
    fold c in Hs, Hp, Hy, Hc.
    apply py_min_nonneg; [|now apply Hcap].
    apply index_Ok in Ha0, Hki.
    pose proof (Hact i a a0 Ha (nth_error_In _ _ Ha0)) as Ha0'.
    rewrite Forall_forall in Hk.
    pose proof (Hk k_i (nth_error_In _ _ Hki)) as Hki'.
    apply CapitalProps.py_pow_nonneg in Hp.
    assert (0 <= nth i (s v) 0) by (rewrite Hs; apply Rmult_le_pos; lra).
    assert (0 <= nth i (y v) 0) by (rewrite Hy; now apply Rmult_le_pos).
    assert (0 <= k_i * (1 - delta c)) by (apply Rmult_le_pos; lra).
    assert (0 <= nth i (s v) 0 * nth i (y v) 0) by now apply Rmult_le_pos.
    unfold c in *; lra. }
  split.
  - eexists; split; [exact Hg'|]; cbn [g_k g_prices]; split; assumption.
  - intros i Hi.
    pose proof (perindustry_views _ _ _ Hpp i Hi) as Hview.
    exists (n_obs_stock + n_obs_price c)%nat,
           (nth i (k_new v) 0 :: nth i pp []).
    split.
    { unfold observation_space.
      now apply (sget_map_range "firm_"
                   (fun _ => (n_obs_stock + n_obs_price c)%nat)). }
    split.
    { cbn [obs].
      now rewrite (sget_map_range "firm_"
                     (fun i => nth i (k_new v) 0 :: nth i pp []))
        by exact Hi. }
    split.
    + cbn [List.length]; unfold n_obs_stock, n_obs_price.
      rewrite (CapitalMore.self_first_view_length _ _ _ Hview), Hplen.
      reflexivity.
    + constructor.
      * rewrite Forall_forall in Hkn; apply Hkn, nth_In; lia.
      * apply Forall_forall; intros x Hx.
        apply (CapitalMore.self_first_view_In _ _ _ _ Hview) in Hx.
        rewrite Forall_forall in Hpr; now apply Hpr.
Qed.

Lemma townsend_step_in_observation_space_witness :
  exists self' ret shape ob,
    step (example_state false) zeros (example_actions 0) = Ok (self', ret) /\
    sget (fstr "firm_" 1) (observation_space (example_config false))
    = Ok shape /\
    sget (fstr "firm_" 1) (obs ret) = Ok ob /\
    contains shape ob.
Proof.
  destruct (townsend_example_step false zeros 0 ltac:(lra))
    as (self' & ret & Hstep).
  destruct (townsend_step_in_observation_space _ _ _ _ _ example_global
              Hstep eq_refl) as [_ H];
    try (simpl; lra).
  - intros cap ->; simpl; lra.
  - repeat constructor; lra.
  - intros i a x Ha Hx.
    assert (a = [0]) as ->.
    { change (example_actions 0)
        with [(fstr "firm_" 0, [0]); (fstr "firm_" 1, [0])] in Ha.
      unfold sget in Ha; cbn [get] in Ha; rewrite !fstr_eqb in Ha.
      destruct i as [|[|i]]; cbn [Nat.eqb] in Ha;
        try discriminate; now injection Ha as <-. }
    destruct Hx as [<- | Hf]; [lra|contradiction].
  - destruct (H 1%nat ltac:(simpl; lia)) as (shape & ob & H1 & H2 & H3).
    exists self', ret, shape, ob.
    split; [exact Hstep|]; split; [exact H1|]; split; [exact H2|exact H3].
Defined.

(** *** The seeded schedules *)

Lemma mapM_keyed_values {V} (f : Z -> result V) (xs : list Z)
      (d : dict Z V) (t : Z) :
  mapM (fun t => v <- f t ;; Ok (t, v)) xs = Ok d ->
  In t xs -> exists v, f t = Ok v /\ zget t d = Ok v.
Proof.
  unfold zget; revert d; induction xs as [|x xs IH]; intros d Hd Hin;
    [contradiction|].
  cbn [mapM] in Hd.
  apply bind_Ok_inv in Hd; destruct Hd as [[k v] [Hx Hd]].
  apply bind_Ok_inv in Hd; destruct Hd as [ys [Hys Hd]].
  injection Hd as <-.
  destruct (f x) as [vx|] eqn:Efx; simpl in Hx; [|discriminate].
  injection Hx as <- <-; cbn [get].
  destruct (Z.eqb_spec t x) as [->|Hne].
  - exists vx; auto.
  - destruct Hin as [Hin|Hin]; [congruence|].
    exact (IH ys Hys Hin).
Qed.

(** The contents of the seeded schedules, for every timestep from 0 through
    the horizon. *)
Lemma seeded_schedules
        (rng : Z -> nat -> R) (c : Config) (ws : nat -> Oracle)
        (self : Env) :
  init rng c ws = Ok self ->
  let seed := if eval_mode c then seed_eval c else seed_analysis c in
  let n := n_industries c in
  forall t, (0 <= t <= horizon c)%Z ->
    zget t (shocks_agg_seeded self)
    = Ok (var_theta c * rng seed (Z.to_nat t)) /\
    zget t (shocks_idtc_seeded self)
    = Ok (map (fun i => var_epsilon c
                        * rng seed (Z.to_nat (horizon c + 1)
                                    + Z.to_nat t * n + i)%nat)
              (range n)).
Proof.
  intros Hinit seed n t Ht.
  unfold init in Hinit.
  apply bind_Ok_inv in Hinit; destruct Hinit as [agg [Hagg H]].
  apply bind_Ok_inv in H; destruct H as [idtc [Hidtc H]].
  fold seed in Hagg, Hidtc; fold n in Hidtc.
  assert (Hself : shocks_agg_seeded self = agg /\
                  shocks_idtc_seeded self = idtc).
  { destruct (normalize c).
    - rewrite townsend_random_sample_raises in H;
        [discriminate|reflexivity|lia].
    - injection H as <-; split; reflexivity. }
  destruct Hself as [-> ->].
  assert (Hin : In t (zrange 0 (horizon c + 1))) by (apply In_zrange; lia).
  assert (Hlen : List.length (zrange 0 (horizon c + 1))
                 = Z.to_nat (horizon c + 1)).
  { unfold zrange; rewrite length_map, length_seq; f_equal; lia. }
  rewrite Hlen in Hidtc.
  split.
  - destruct (mapM_keyed_values _ _ _ t Hagg Hin) as (x & Hx & ->).
    now destruct (normal_inv _ _ _ Hx) as [_ ->].
  - destruct (mapM_keyed_values _ _ _ t Hidtc Hin) as (l & Hl & ->).
    f_equal.
    destruct (mapM_range_nth _ _ _ Hl) as [Hll Hnth].
    apply nth_ext with (d := 0) (d' := 0);
      [unfold range; now rewrite length_map, length_seq|].
    intros i Hi; rewrite Hll in Hi.
    destruct (Hnth i Hi) as (x & Hx & Hf).
    rewrite (nth_error_nth _ _ 0 Hx).
    rewrite (nth_map_range
               (fun i => var_epsilon c
                         * rng seed (Z.to_nat (horizon c + 1)
                                     + Z.to_nat t * n + i)%nat))
      by exact Hi.
    now destruct (normal_inv _ _ _ Hf) as [_ ->].
Qed.

(** *** [reset] once [n_firms] is set *)

Lemma perindustry_total (n : nat) (p : list R) :
  List.length p = n -> exists pp, perindustry n p = Ok pp.
Proof.
  intros Hlen; unfold perindustry, self_first.
  apply mapM_range_total; intros i Hi.
  destruct (index_total p i ltac:(lia)) as [x ->]; simpl; eauto.
Qed.

(** X19.  What [reset] does once a caller has set the attribute [n_firms]
    that the class leaves unset.  In evaluation and analysis mode, with a
    horizon that is not negative, at least one firm per industry and a
    positive [k_ss], it returns: the stock of industry [i] is [0.9 * k_ss]
    for even [i] and [0.8 * k_ss] for odd [i], its price is the inverse
    demand [max_price - A * tfp * k ** alpha + theta_0 + shock] at the
    seeded shock of timestep 0, not floored at zero, and every firm
    observes its stock, its price and the other prices in index order. *)
Theorem townsend_reset_with_n_firms
        (rng : Z -> nat -> R) (c : Config) (ws : nat -> Oracle)
        (self : Env) (nf : nat) (w : Oracle) :
  init rng c ws = Ok self ->
  eval_mode c || analysis_mode c = true ->
  (0 <= horizon c)%Z -> (1 <= nf)%nat -> 0 < k_ss c ->
  let n := n_industries c in
  let k := fun i => if Nat.even i then k_ss c * 0.9 else k_ss c * 0.8 in
  exists self' o p idtc,
    reset (with_n_firms self nf) w = Ok (self', o) /\
    timestep self' = Some 0%Z /\
    zget 0 (shocks_idtc_seeded self) = Ok idtc /\
    List.length p = n /\
    (forall i, (i < n)%nat ->
       nth i p 0
       = max_price c - A c * (tfp c * Rpower (k i) (alpha c))
         + (theta_0 c + nth i idtc 0)) /\
    forall i, (i < n)%nat ->
    exists view,
      self_first_view i p view /\
      sget (fstr "firm_" i) o = Ok (k i :: view).
Proof.
  intros Hinit Hmode Hhor Hnf Hkss n k.
  destruct (townsend_init_inv _ _ _ _ Hinit) as (_ & Hc & _ & Hnorm & _).
  destruct (seeded_schedules rng c ws self Hinit 0%Z ltac:(lia))
    as [Hagg Hidtc].
  set (idtc := map _ (range (n_industries c))) in Hidtc.
  assert (Hilen : List.length idtc = n)
    by (unfold idtc, range; now rewrite length_map, length_seq).
  set (k_init := map k (range (n * nf))).
  assert (Hklen : (n <= List.length k_init)%nat)
    by (unfold k_init, range; rewrite length_map, length_seq; nia).
  assert (Hki : forall i, (i < n)%nat -> index k_init i = Ok (k i)).
  { intros i Hi; unfold index, k_init.
    rewrite nth_error_map, nth_error_range by nia; reflexivity. }
  assert (Hkpos : forall i, 0 < k i)
    by (intros i; unfold k; destruct (Nat.even i); lra).
  set (u := map (fun i => theta_0 c + nth i idtc 0) (range n)).
  set (yv := map (fun i => tfp c * Rpower (k i) (alpha c)) (range n)).
  set (p := map (fun i => max_price c - A c * nth i yv 0 + nth i u 0)
                (range n)).
  assert (Hplen : List.length p = n)
    by (unfold p, range; now rewrite length_map, length_seq).
  destruct (perindustry_total n p Hplen) as [pp Hpp].
  assert (Hreset :
            reset (with_n_firms self nf) w
            = Ok (set_state (with_n_firms self nf) 0
                    (map (fun i => (fstr "firm_" i, k i :: nth i pp []))
                         (range n))
                    {| g_k := k_init; g_prices := p; g_theta := theta_0 c;
                       g_shock_agg := var_theta c * rng (if eval_mode c
                                                         then seed_eval c
                                                         else seed_analysis c)
                                                        (Z.to_nat 0);
                       g_shock_idtc := idtc; g_shock_rent := VInt 0 |},
                  map (fun i => (fstr "firm_" i, k i :: nth i pp []))
                      (range n))).
  { unfold reset.
    cbn [cfg with_n_firms n_firms shocks_idtc_seeded shocks_agg_seeded
         norm_ind max_price_norm attr bind].
    rewrite Hc, Hnorm, Hidtc, Hagg.
    assert (Hu : mapM (fun i => e <- index idtc i ;; Ok (theta_0 c + e))
                      (range (n_industries c)) = Ok u).
    { rewrite (mapM_ext _ (fun i => Ok (theta_0 c + nth i idtc 0))).
      - apply mapM_pure.
      - intros i Hi; apply in_seq in Hi.
        destruct (index_total idtc i ltac:(fold n in Hi; lia)) as [e He].
        rewrite He; cbn [bind]; apply index_Ok in He.
        now rewrite (nth_error_nth _ _ 0 He). }
    assert (Hy : mapM (fun i => k0 <- index k_init i ;;
                                p0 <- py_pow k0 (alpha c) ;;
                                Ok (tfp c * p0))
                      (range (n_industries c)) = Ok yv).
    { rewrite (mapM_ext _ (fun i => Ok (tfp c * Rpower (k i) (alpha c)))).
      - apply mapM_pure.
      - intros i Hi; apply in_seq in Hi.
        rewrite Hki by (fold n in Hi; lia); cbn [bind].
        now rewrite py_pow_pos by apply Hkpos. }
    assert (Ho : mapM (fun i => k0 <- index k_init i ;;
                                Ok (fstr "firm_" i, k0 :: nth i pp []))
                      (range (n_industries c))
                 = Ok (map (fun i => (fstr "firm_" i, k i :: nth i pp []))
                           (range n))).
    { rewrite (mapM_ext _ (fun i => Ok (fstr "firm_" i, k i :: nth i pp []))).
      - apply mapM_pure.
      - intros i Hi; apply in_seq in Hi.
        now rewrite Hki by (fold n in Hi; lia). }
    destruct (eval_mode c) eqn:Eev; [|destruct (analysis_mode c) eqn:Ean;
                                      [|discriminate]];
      cbn [bind];
      change (map (fun i : nat => if Nat.even i then k_ss c * 0.9
                                  else k_ss c * 0.8)
                  (range (n_industries c * nf))) with k_init;
      rewrite Hu, Hy; cbn [bind];
      change (map (fun i => max_price c - A c * nth i yv 0 + nth i u 0)
                  (range (n_industries c))) with p;
      unfold n in Hpp; rewrite Hpp; cbn [bind]; rewrite Ho; reflexivity. }
  eexists _, _, p, idtc; split; [exact Hreset|].
  split; [reflexivity|]; split; [exact Hidtc|]; split; [exact Hplen|].
  split.
  - intros i Hi; unfold p, yv, u.
    now rewrite !nth_map_range by exact Hi.
  - intros i Hi; exists (nth i pp []); split.
    + exact (perindustry_views _ _ _ Hpp i Hi).
    + now rewrite (sget_map_range "firm_"
                     (fun i => k i :: nth i pp [])) by exact Hi.
Qed.

Lemma townsend_reset_with_n_firms_witness :
  exists self' o view,
    reset (with_n_firms (example false) 1) zeros = Ok (self', o) /\
    timestep self' = Some 0%Z /\
    sget (fstr "firm_" 1) o = Ok (1 * 0.8 :: view).
Proof.
  destruct (townsend_reset_with_n_firms example_rng (example_config false)
              (fun _ => zeros) (example false) 1 zeros
              (townsend_example_init false _) eq_refl)
    as (self' & o & p & idtc & Hreset & Ht & _ & _ & _ & Hobs);
    try (simpl; lia); try (simpl; lra).
  destruct (Hobs 1%nat ltac:(simpl; lia)) as (view & _ & Hget).
  exists self', o, view; repeat split; assumption.
Defined.

End TownsendMore.

(** ** More on DiffDemandDiscrete *)

Module DiffDemandMore.
Import DiffDemandDiscrete DiffDemandProps.

(** *** The price grid *)

(** X20.  The price [step] reports for an agent lies on the agent's grid:
    with more than one gridpoint, an action between [0] and
    [gridpoints - 1] and a lower price that is at most the higher one, the
    price is between the two, action [0] gives the lower price and action
    [gridpoints - 1] the higher one. *)
Theorem diff_demand_price_grid
        (self self' : Env) (ad : dict string Z) (ret : Return) (i : nat) :
  step self ad = Ok (self', ret) ->
  let c := cfg self in
  let a := nth i (values ad) 0%Z in
  let lo := nth i (lower_price c) 0 in
  let hi := nth i (higher_price c) 0 in
  (i < n_agents c)%nat ->
  (1 < gridpoints c)%Z ->
  exists p,
    sget (fstr "agent_" i) (info ret) = Ok p /\
    (a = 0%Z -> p = lo) /\
    (a = (gridpoints c - 1)%Z -> p = hi) /\
    ((0 <= a <= gridpoints c - 1)%Z -> lo <= hi -> lo <= p <= hi).
Proof.
  intros Hstep c a lo hi Hi Hg.
  destruct (diff_step_reward _ _ _ _ Hstep) as (Hrew & _).
  destruct (Hrew i Hi) as [_ Hinfo]; fold c a lo hi in Hinfo.
  assert (Hg' : 0 < IZR (gridpoints c - 1)) by (apply IZR_lt; lia).
  eexists; split; [exact Hinfo|].
  split; [|split].
  - intros ->; unfold Rdiv; ring.
  - intros ->; field; lra.
  - intros Ha Hlh.
    assert (H0 : 0 <= IZR a) by (apply IZR_le; lia).
    assert (H1 : IZR a <= IZR (gridpoints c - 1)) by (apply IZR_le; lia).
    assert (Hq : 0 <= IZR a / IZR (gridpoints c - 1) <= 1).
    { split.
      - apply Rle_mult_inv_pos; assumption.
      - apply Rmult_le_reg_r with (IZR (gridpoints c - 1)); [exact Hg'|].
        unfold Rdiv; rewrite Rmult_assoc, Rinv_l by lra; lra. }
    replace (lo + (hi - lo) * IZR a / IZR (gridpoints c - 1))
      with (lo + (hi - lo) * (IZR a / IZR (gridpoints c - 1)))
      by (unfold Rdiv; ring).
    nra.
Qed.

Lemma diff_demand_price_grid_witness :
  exists self' ret p,
    step example example_actions = Ok (self', ret) /\
    sget (fstr "agent_" 0) (info ret) = Ok p /\
    1 <= p <= 2.
Proof.
  destruct diff_example_step as (self' & ret & Hstep).
  destruct (diff_demand_price_grid _ _ _ _ 0%nat Hstep)
    as (p & Hp & _ & _ & Hb); try (cbn; lia).
  exists self', ret, p; split; [exact Hstep|]; split; [exact Hp|].
  apply Hb; cbn; [lia|lra].
Defined.

(** *** Market shares *)

Lemma np_sum_map_div (f : nat -> R) (d : R) (l : list nat) :
  np_sum (map (fun i => f i / d) l) = np_sum (map f l) / d.
Proof.
  induction l as [|x l IH]; simpl; [unfold Rdiv; ring|].
  rewrite IH; unfold Rdiv; ring.
Qed.

Lemma np_sum_exp_pos (f : nat -> R) (l : list nat) :
  0 <= np_sum (map (fun i => exp (f i)) l).
Proof.
  induction l as [|x l IH]; simpl; [lra|].
  pose proof (exp_pos (f x)); lra.
Qed.

Lemma np_sum_exp_In (f : nat -> R) (l : list nat) (i : nat) :
  In i l -> exp (f i) <= np_sum (map (fun i => exp (f i)) l).
Proof.
  induction l as [|x l IH]; simpl; intros Hin; [contradiction|].
  destruct Hin as [->|Hin].
  - pose proof (np_sum_exp_pos f l); lra.
  - pose proof (exp_pos (f x)); specialize (IH Hin); lra.
Qed.

(** X21.  The reward of an agent is its margin [price - cost] times its
    market share, and the shares are those of a logit demand with an
    outside good: every share is strictly between 0 and 1 and all shares
    together are below 1.  So a reward is never larger in absolute value
    than the margin, and it is negative exactly when the price is below
    the cost. *)
Theorem diff_demand_shares
        (self self' : Env) (ad : dict string Z) (ret : Return) :
  step self ad = Ok (self', ret) ->
  let c := cfg self in
  exists share : nat -> R,
    np_sum (map share (range (n_agents c))) < 1 /\
    forall i, (i < n_agents c)%nat ->
    exists p r,
      sget (fstr "agent_" i) (info ret) = Ok p /\
      sget (fstr "agent_" i) (rew ret) = Ok r /\
      r = (p - nth i (cost c) 0) * share i /\
      0 < share i < 1 /\
      Rabs r <= Rabs (p - nth i (cost c) 0) /\
      (r < 0 <-> p < nth i (cost c) 0).
Proof.
  intros Hstep c.
  destruct (diff_step_reward _ _ _ _ Hstep) as (Hrew & _).
  fold c in Hrew.
  set (price := fun j =>
         nth j (lower_price c) 0
         + (nth j (higher_price c) 0 - nth j (lower_price c) 0)
           * IZR (nth j (values ad) 0%Z) / IZR (gridpoints c - 1)) in *.
  set (expo := fun j => (nth j (values_ c) 0 - price j) / substitution c)
    in *.
  set (D := exp (ext_demand c / substitution c)
            + np_sum (map (fun j => exp (expo j)) (range (n_agents c))))
    in *.
  assert (HD : 0 < D).
  { unfold D.
    pose proof (exp_pos (ext_demand c / substitution c)).
    pose proof (np_sum_exp_pos expo (range (n_agents c))); lra. }
  exists (fun i => exp (expo i) / D); split.
  - rewrite np_sum_map_div.
    apply Rmult_lt_reg_r with D; [exact HD|].
    unfold Rdiv; rewrite Rmult_assoc, Rinv_l by lra.
    unfold D.
    pose proof (exp_pos (ext_demand c / substitution c)); lra.
  - intros i Hi.
    destruct (Hrew i Hi) as [Hr Hp].
    assert (Hshare : 0 < exp (expo i) / D < 1).
    { split; [apply Rdiv_lt_0_compat; [apply exp_pos|exact HD]|].
      apply Rmult_lt_reg_r with D; [exact HD|].
      unfold Rdiv; rewrite Rmult_assoc, Rinv_l by lra.
      assert (exp (expo i)
              <= np_sum (map (fun j => exp (expo j)) (range (n_agents c))))
        by (apply np_sum_exp_In, in_seq; lia).
      unfold D.
      pose proof (exp_pos (ext_demand c / substitution c)); lra. }
    exists (price i), ((price i - nth i (cost c) 0) * (exp (expo i) / D)).
    split; [exact Hp|]; split; [exact Hr|].
    split; [reflexivity|]; split; [exact Hshare|].
    remember (price i - nth i (cost c) 0) as m eqn:Hm.
    remember (exp (expo i) / D) as sh eqn:Hsh.
    split.
    + rewrite Rabs_mult, (Rabs_right sh) by lra.
      pose proof (Rabs_pos m); nra.
    + split; intros H; nra.
Qed.

Lemma diff_demand_shares_witness :
  exists self' ret share,
    step example example_actions = Ok (self', ret) /\
    np_sum (map share (range 2)) < 1 /\ 0 < share 0%nat < 1.
Proof.
  destruct diff_example_step as (self' & ret & Hstep).
  destruct (diff_demand_shares _ _ _ _ Hstep) as (share & Hsum & H).
  destruct (H 0%nat ltac:(cbn; lia)) as (p & r & _ & _ & _ & Hs & _).
  exists self', ret, share; split; [exact Hstep|]; split; assumption.
Defined.

(** *** The done flags of an episode *)

Lemma diff_step_done
      (self self' : Env) (ad : dict string Z) (ret : Return) :
  step self ad = Ok (self', ret) ->
  let c := cfg self in
  let flag := if finite_periods c then (n_periods c <=? num_steps self)%Z
              else false in
  cfg self' = c /\
  num_steps self' = (num_steps self + 1)%Z /\
  sget "__all__" (done ret) = Ok flag /\
  (finite_periods c = true ->
   forall i, (i < n_agents c)%nat ->
             sget (fstr "agent_" i) (done ret) = Ok flag) /\
  (finite_periods c = false -> done ret = [("__all__"%string, false)]).
Proof.
  intros Hstep c flag.
  destruct (diff_step_inv _ _ _ _ Hstep)
    as (o & p & nn & d & rl & _ & _ & _ & _ & _ & -> & ->).
  fold c; cbn [cfg num_steps done].
  split; [reflexivity|]; split; [reflexivity|].
  unfold flag; destruct (finite_periods c).
  - unfold merge; cbn [fold_left fst snd].
    split; [apply CallbackProps.sget_set_same|].
    split; [|discriminate].
    intros _ i Hi.
    rewrite CallbackProps.sget_set_other by (unfold fstr; discriminate).
    now rewrite (sget_map_range "agent_"
                   (fun _ => (n_periods c <=? num_steps self)%Z)).
  - split; [reflexivity|]; split; [discriminate|reflexivity].
Qed.

Lemma run_diff_done (inputs : list (dict string Z)) :
  forall self : Env,
  let c := cfg self in
  let n := n_agents c in
  gridpoints c <> 1%Z -> substitution c <> 0 ->
  (n <= List.length (lower_price c))%nat ->
  (n <= List.length (higher_price c))%nat ->
  (n <= List.length (values_ c))%nat ->
  (n <= List.length (cost c))%nat ->
  (forall ad, In ad inputs -> (n <= List.length (values ad))%nat) ->
  exists selfN rets,
    Episode.run_diff self inputs = Ok (selfN, rets) /\
    List.length rets = List.length inputs /\
    num_steps selfN = (num_steps self + Z.of_nat (List.length inputs))%Z /\
    forall k ret, nth_error rets k = Some ret ->
      sget "__all__" (done ret)
      = Ok (if finite_periods c
            then (n_periods c <=? num_steps self + Z.of_nat k)%Z
            else false).
Proof.
  induction inputs as [|ad inputs IH]; intros self c n Hg Hs Hlo Hhi Hv Hc Hin.
  - exists self, []; cbn [Episode.run_diff List.length].
    repeat split; [simpl; lia|].
    intros [|k] ret Hk; discriminate.
  - destruct (diff_step_total self ad Hg Hs Hlo Hhi Hv Hc
                (Hin ad (or_introl eq_refl))) as (self1 & r1 & Hstep).
    destruct (diff_step_done _ _ _ _ Hstep) as (Hc1 & Hn1 & Hall & _).
    fold c in Hc1, Hall.
    destruct (IH self1) as (selfN & rets & Hrun & Hlen & HnN & Hk);
      try (rewrite Hc1; assumption).
    { rewrite Hc1; intros ad' Had'; apply Hin; now right. }
    exists selfN, (r1 :: rets).
    cbn [Episode.run_diff]; rewrite Hstep; cbn [bind].
    rewrite Hrun; cbn [bind List.length].
    repeat split; [lia|lia|].
    intros [|k] ret Hret; cbn [nth_error] in Hret.
    + injection Hret as <-.
      now rewrite Hall, Z.add_0_r.
    + rewrite (Hk k ret Hret), Hc1, Hn1.
      replace (num_steps self + 1 + Z.of_nat k)%Z
        with (num_steps self + Z.of_nat (S k))%Z by lia.
      reflexivity.
Qed.

(** X22.  In a market with [finite_periods] the done flag is computed from
    the number of steps taken before the current one.  Counting the steps
    of an episode after [reset] from 1, step [k] reports [__all__] done
    exactly when [k > n_periods]: the step number [n_periods] still
    reports the episode as running, and the first to report it done is
    step [n_periods + 1].  Without [finite_periods] no step reports
    done. *)
Theorem diff_demand_done_after_n_periods
        (self : Env) (inputs : list (dict string Z)) :
  let c := cfg self in
  let n := n_agents c in
  gridpoints c <> 1%Z -> substitution c <> 0 ->
  (n <= List.length (lower_price c))%nat ->
  (n <= List.length (higher_price c))%nat ->
  (n <= List.length (values_ c))%nat ->
  (n <= List.length (cost c))%nat ->
  (forall ad, In ad inputs -> (n <= List.length (values ad))%nat) ->
  exists selfN rets,
    Episode.run_diff (fst (reset self)) inputs = Ok (selfN, rets) /\
    List.length rets = List.length inputs /\
    forall k ret, (1 <= k)%nat -> nth_error rets (k - 1) = Some ret ->
      sget "__all__" (done ret)
      = Ok (if finite_periods c then (n_periods c <? Z.of_nat k)%Z
            else false).
Proof.
  intros c n Hg Hs Hlo Hhi Hv Hc Hin.
  destruct (run_diff_done inputs (fst (reset self)))
    as (selfN & rets & Hrun & Hlen & _ & Hk); try assumption.
  exists selfN, rets; split; [exact Hrun|]; split; [exact Hlen|].
  intros k ret Hk1 Hret.
  rewrite (Hk _ _ Hret); cbn [reset fst cfg num_steps]; fold c.
  destruct (finite_periods c); [|reflexivity].
  f_equal.
  destruct (Z.leb_spec (n_periods c) (0 + Z.of_nat (k - 1)));
    destruct (Z.ltb_spec (n_periods c) (Z.of_nat k)); try reflexivity; lia.
Qed.

Lemma diff_demand_done_after_n_periods_witness :
  exists selfN r1 r2,
    Episode.run_diff (fst (reset example_finite))
                     [example_actions; example_actions]
    = Ok (selfN, [r1; r2]) /\
    sget "__all__" (done r1) = Ok false /\
    sget "__all__" (done r2) = Ok true.
Proof.
  destruct (diff_demand_done_after_n_periods example_finite
              [example_actions; example_actions])
    as (selfN & rets & Hrun & Hlen & H);
    try (cbn; lia); try (cbn; lra); try discriminate.
  { intros ad [<- | [<- | Hf]]; [cbn; lia|cbn; lia|contradiction]. }
  destruct rets as [|r1 [|r2 [|r3 rets]]]; try discriminate.
  exists selfN, r1, r2; split; [exact Hrun|]; split.
  - exact (H 1%nat r1 ltac:(lia) eq_refl).
  - exact (H 2%nat r2 ltac:(lia) eq_refl).
Defined.

End DiffDemandMore.

(** ** More on Durable_sgm *)

Module DurableMore.
Import Durable_sgm DurableProps.

(** X23.  [reset] always returns: whatever the generator draws, the initial
    observation is a single stock, one of the six values [0.01], [5], [7],
    [9], [11] and [15], and it is positive. *)
Theorem durable_reset_returns (self : Env) (w : Oracle) :
  exists k,
    reset self w = Ok ({| cfg := cfg self; obs_ := Some [k] |}, [k]) /\
    In k [0.01; 5; 7; 9; 11; 15] /\ 0 < k.
Proof.
  unfold reset, choices.
  change (range 6) with [0; 1; 2; 3; 4; 5]%nat; cbn [List.length Nat.eqb negb].
  destruct (Rle_dec (np_sum [0.3; 0.15; 0.15; 0.15; 0.15; 0.1]) 0) as [H|_];
    [simpl in H; exfalso; lra|].
  pose proof (Nat.mod_upper_bound (pick w 0) 6 ltac:(lia)) as Hlt.
  destruct (pick w 0 mod 6)%nat as [|[|[|[|[|[|m]]]]]]; try lia;
    cbn [index nth_error bind]; eexists; (split; [reflexivity|]);
    (split; [simpl; tauto|lra]).
Qed.

(** The capital stock after one [step]. *)
Lemma durable_step_next (self : Env) (k a0 : R) (rest ar : list R) :
  obs_ self = Some (k :: rest) -> 0 < k ->
  exists ret,
    let s := (a0 + 1) / 2 * max_saving (cfg self) in
    step self (a0 :: ar)
    = Ok ({| cfg := cfg self;
             obs_ := Some [k * (1 - depreciation (cfg self)) + s] |}, ret) /\
    obs ret = [k * (1 - depreciation (cfg self)) + s] /\
    -1000 <= rew ret /\ done ret = false.
Proof.
  intros Hobs Hk; unfold step; rewrite Hobs; cbn [bind index nth_error].
  rewrite py_pow_pos by exact Hk; cbn [bind].
  eexists; split; [reflexivity|]; cbn [obs rew done min_high high].
  split; [reflexivity|]; split; [apply py_max_r|reflexivity].
Qed.

(** X24.  An episode never fails.  From a positive stock, with depreciation
    below 1, a savings ceiling that is not negative and actions whose
    first component is at least [-1], every [step] of an episode of any
    length returns, every stock it reports is positive (no ceiling
    applies to it), every reward is at least [-1000] and no step reports
    done. *)
Theorem durable_episode_never_fails
        (inputs : list (list R)) (self : Env) (k0 : R) (rest : list R) :
  obs_ self = Some (k0 :: rest) -> 0 < k0 ->
  depreciation (cfg self) < 1 -> 0 <= max_saving (cfg self) ->
  (forall a, In a inputs -> exists a0 ar, a = a0 :: ar /\ -1 <= a0) ->
  exists selfN rets kN,
    Episode.run_durable self inputs = Ok (selfN, rets) /\
    List.length rets = List.length inputs /\
    (inputs <> [] -> obs_ selfN = Some [kN]) /\ 0 < kN /\
    forall r, In r rets ->
      exists k, obs r = [k] /\ 0 < k /\ -1000 <= rew r /\ done r = false.
Proof.
  revert self k0 rest; induction inputs as [|a inputs IH];
    intros self k0 rest Hobs Hk Hd Hm Hin.
  - exists self, [], k0; cbn [Episode.run_durable].
    repeat split; [congruence|exact Hk|contradiction].
  - destruct (Hin a (or_introl eq_refl)) as (a0 & ar & -> & Ha0).
    destruct (durable_step_next self k0 a0 rest ar Hobs Hk)
      as (ret & Hstep & Hret & Hrew & Hdone).
    cbv zeta in Hstep, Hret.
    set (k1 := k0 * (1 - depreciation (cfg self))
               + (a0 + 1) / 2 * max_saving (cfg self)) in *.
    assert (Hk1 : 0 < k1).
    { unfold k1.
      assert (0 < k0 * (1 - depreciation (cfg self)))
        by (apply Rmult_lt_0_compat; lra).
      assert (0 <= (a0 + 1) / 2 * max_saving (cfg self))
        by (apply Rmult_le_pos; lra).
      lra. }
    destruct (IH {| cfg := cfg self; obs_ := Some [k1] |} k1 [] eq_refl Hk1
                 Hd Hm (fun a' H' => Hin a' (or_intror H')))
      as (selfN & rets & kN & Hrun & Hlen & HobsN & HkN & Hrets).
    cbn [Episode.run_durable]; rewrite Hstep; cbn [bind].
    rewrite Hrun; cbn [bind].
    destruct inputs as [|a' inputs'].
    + cbn [Episode.run_durable] in Hrun; injection Hrun as <- <-.
      exists {| cfg := cfg self; obs_ := Some [k1] |}, [ret], k1.
      repeat split; try assumption.
      intros r [<- | Hf]; [|contradiction].
      exists k1; repeat split; assumption.
    + exists selfN, (ret :: rets), kN.
      repeat split; [simpl in Hlen |- *; lia| |exact HkN|].
      * intros _; apply HobsN; discriminate.
      * intros r [<- | Hr]; [|now apply Hrets].
        exists k1; repeat split; assumption.
Qed.

Lemma durable_episode_never_fails_witness :
  exists selfN rets kN,
    Episode.run_durable example [[1]; [-1]; [0]] = Ok (selfN, rets) /\
    List.length rets = 3%nat /\ obs_ selfN = Some [kN] /\ 0 < kN.
Proof.
  destruct (durable_episode_never_fails [[1]; [-1]; [0]] example 5 []
              eq_refl)
    as (selfN & rets & kN & Hrun & Hlen & Hobs & HkN & _);
    try (simpl; lra).
  { intros a [<- | [<- | [<- | Hf]]]; [| | |contradiction];
      do 2 eexists; (split; [reflexivity|lra]). }
  exists selfN, rets, kN; repeat split; try assumption.
  apply Hobs; discriminate.
Defined.

Lemma durable_run_constant (n : nat) :
  forall (self : Env) (k0 a0 : R) (rest ar : list R),
  obs_ self = Some (k0 :: rest) -> 0 < k0 ->
  0 < depreciation (cfg self) < 1 -> 0 <= max_saving (cfg self) ->
  -1 <= a0 ->
  let d := depreciation (cfg self) in
  let s := (a0 + 1) / 2 * max_saving (cfg self) in
  exists selfN rets,
    Episode.run_durable self (repeat (a0 :: ar) n) = Ok (selfN, rets) /\
    List.length rets = n /\
    (n <> O ->
     obs_ selfN = Some [s / d + (1 - d) ^ n * (k0 - s / d)]).
Proof.
  induction n as [|n IH]; intros self k0 a0 rest ar Hobs Hk Hd Hm Ha d s.
  - exists self, []; cbn [repeat Episode.run_durable].
    repeat split; congruence.
  - destruct (durable_step_next self k0 a0 rest ar Hobs Hk)
      as (ret & Hstep & _).
    cbv zeta in Hstep; fold d s in Hstep.
    assert (Hs : 0 <= s) by (unfold s; apply Rmult_le_pos; lra).
    assert (Hk1 : 0 < k0 * (1 - d) + s).
    { assert (0 < k0 * (1 - d)) by (apply Rmult_lt_0_compat; unfold d; lra).
      lra. }
    destruct (IH {| cfg := cfg self; obs_ := Some [k0 * (1 - d) + s] |}
                 (k0 * (1 - d) + s) a0 [] ar eq_refl Hk1 Hd Hm Ha)
      as (selfN & rets & Hrun & Hlen & HobsN).
    cbn [cfg] in HobsN; fold d s in HobsN.
    cbn [repeat Episode.run_durable]; rewrite Hstep; cbn [bind].
    rewrite Hrun; cbn [bind].
    exists selfN, (ret :: rets); split; [reflexivity|].
    split; [cbn [List.length]; now rewrite Hlen|].
    intros _.
    destruct n as [|n].
    + cbn [repeat Episode.run_durable] in Hrun; injection Hrun as <- _.
      cbn [obs_]; do 2 f_equal.
      field; unfold d; lra.
    + rewrite HobsN by discriminate.
      do 2 f_equal.
      change ((1 - d) ^ S (S n)) with ((1 - d) * (1 - d) ^ S n).
      field; unfold d; lra.
Qed.

(** X25.  Under a constant action the stock converges geometrically.  With
    depreciation [d] strictly between 0 and 1 and the constant amount
    [s = (a + 1) / 2 * max_saving] added at every step, the stock after
    [n] steps is [s / d + (1 - d) ^ n * (k0 - s / d)]: its distance to
    [s / d] shrinks by the factor [1 - d] at every step, whatever the
    income. *)
Theorem durable_constant_action
        (n : nat) (self : Env) (k0 a0 : R) (rest ar : list R) :
  obs_ self = Some (k0 :: rest) -> 0 < k0 ->
  0 < depreciation (cfg self) < 1 -> 0 <= max_saving (cfg self) ->
  -1 <= a0 ->
  let d := depreciation (cfg self) in
  let s := (a0 + 1) / 2 * max_saving (cfg self) in
  exists selfN rets,
    Episode.run_durable self (repeat (a0 :: ar) n) = Ok (selfN, rets) /\
    List.length rets = n /\
    (n <> O ->
     obs_ selfN = Some [s / d + (1 - d) ^ n * (k0 - s / d)]).
Proof. exact (durable_run_constant n self k0 a0 rest ar). Qed.

Lemma durable_constant_action_witness :
  exists selfN rets,
    Episode.run_durable example (repeat [1] 4) = Ok (selfN, rets) /\
    obs_ selfN
    = Some [(1 + 1) / 2 * 0.2 / 0.04
            + (1 - 0.04) ^ 4 * (5 - (1 + 1) / 2 * 0.2 / 0.04)].
Proof.
  destruct (durable_constant_action 4 example 5 1 [] [] eq_refl)
    as (selfN & rets & Hrun & _ & Hobs); try (simpl; lra).
  exists selfN, rets; split; [exact Hrun|].
  apply Hobs; discriminate.
Defined.

End DurableMore.

(** ** Episodes of the capital planner *)

Module CapitalEpisodes.
Import Capital_planner_ma CapitalProps CapitalMore.

(** *** [step] returns *)

Lemma foldM_invariant {A B} (P : B -> Prop) (f : B -> A -> result B)
      (xs : list A) :
  (forall b x, In x xs -> P b -> exists b', f b x = Ok b' /\ P b') ->
  forall b, P b -> exists b', foldM f xs b = Ok b' /\ P b'.
Proof.
  induction xs as [|x xs IH]; intros Hf b Hb; cbn [foldM]; [eauto|].
  destruct (Hf b x (or_introl eq_refl) Hb) as (b1 & -> & Hb1); cbn [bind].
  apply IH; [|exact Hb1].
  intros b' x' Hx'; apply Hf; now right.
Qed.

(** The capital bundle of a household with positive stocks. *)
Lemma bundle_total (c : Config) (k : list R) (i : nat) :
  (1 <= n_capital c)%nat ->
  List.length k = (n_hh c * n_capital c)%nat ->
  Forall (fun x => 0 < x) k ->
  (i < n_hh c)%nat ->
  exists b,
    foldM (fun acc j =>
             row <- index (per_household c k) i ;;
             k_j <- index row j ;;
             e <- py_div 1 (INR (n_capital c)) ;;
             p <- py_pow k_j e ;;
             Ok (acc * p))
          (range (n_capital c)) 1 = Ok b /\ 0 < b.
Proof.
  intros Hm Hlen Hpos Hi.
  apply (foldM_invariant (fun b => 0 < b)); [|lra].
  intros b j Hj Hb; apply in_seq in Hj.
  destruct (index_total (per_household c k) i) as [row Hrow];
    [now rewrite per_household_length|].
  rewrite Hrow; cbn [bind].
  apply index_Ok in Hrow.
  destruct (per_household_rows c k row Hlen (nth_error_In _ _ Hrow))
    as [Hrlen Hrin].
  destruct (index_total row j ltac:(lia)) as [k_j Hkj].
  rewrite Hkj; cbn [bind].
  apply index_Ok in Hkj.
  assert (Hkpos : 0 < k_j).
  { rewrite Forall_forall in Hpos.
    apply Hpos, Hrin; eapply nth_error_In; exact Hkj. }
  assert (HINR : 1 <= INR (n_capital c)) by (apply (le_INR 1); exact Hm).
  rewrite py_div_Ok by lra; cbn [bind].
  rewrite py_pow_pos by exact Hkpos; cbn [bind].
  eexists; split; [reflexivity|].
  apply Rmult_lt_0_compat; [exact Hb|apply Rpower_pos].
Qed.

(** The savings rates after the feasibility projection are not
    negative. *)
Lemma savings_nonneg (self : Env) (ad : dict string (list R))
      (s0 : list (list R)) :
  unsquash self ad = Ok s0 ->
  0 <= max_s_ij self ->
  (forall i, (i < n_hh (cfg self))%nat ->
     exists a, sget (fstr "hh_" i) ad = Ok a /\
               forall x, In x a -> -1 <= x) ->
  forall i j, 0 <= nth2 i j (fst (correct_bgt (n_capital (cfg self)) s0)).
Proof.
  intros Hu Hmax Hact i j.
  destruct (unsquash_inv _ _ _ Hu) as [Hlen Hrows].
  destruct (Nat.lt_ge_cases i (n_hh (cfg self))) as [Hi|Hi].
  - destruct (Hrows i Hi) as (d & Hd & Hdlen & Hent).
    unfold nth2.
    destruct (nth_correct_bgt (n_capital (cfg self)) s0 i d Hd) as [-> _].
    rewrite <- Hdlen; apply correct_row_nonneg; intros x Hx.
    destruct (In_nth_error _ _ Hx) as [j' Hj'].
    assert (Hlt : (j' < n_capital (cfg self))%nat)
      by (rewrite <- Hdlen; apply nth_error_Some; congruence).
    destruct (Hent j' Hlt) as (a & a_j & Ha & Haj & Hdj).
    rewrite Hj' in Hdj; injection Hdj as ->.
    destruct (Hact i Hi) as (a' & Ha' & Hbound).
    rewrite Ha in Ha'; injection Ha' as <-.
    apply index_Ok in Haj.
    pose proof (Hbound a_j (nth_error_In _ _ Haj)).
    apply Rmult_le_pos; [lra|exact Hmax].
  - unfold nth2, correct_bgt; cbn [fst].
    rewrite (nth_overflow (map _ s0)) by (rewrite length_map; lia).
    destruct j; simpl; lra.
Qed.

(** With positive stocks, shocks that are not negative and well-formed
    actions, all the local variables of [step] are computed. *)
Lemma locals_total (self : Env) (k sh : list R) (agg : R)
      (ad : dict string (list R)) :
  let c := cfg self in
  (1 <= n_capital c)%nat -> 0 < phi c -> 0 <= max_s_ij self ->
  List.length k = (n_hh c * n_capital c)%nat ->
  Forall (fun x => 0 < x) k ->
  (forall i, 0 <= nth i sh 0) -> 0 <= agg ->
  (forall i, (i < n_hh c)%nat ->
     exists a, sget (fstr "hh_" i) ad = Ok a /\
               (n_capital c <= List.length a)%nat /\
               forall x, In x a -> -1 <= x) ->
  exists v, locals self k sh agg ad = Ok v.
Proof.
  intros c Hm Hphi Hmax Hlen Hpos Hsh Hagg Hact.
  destruct (unsquash_total self ad) as [s0 Hs0].
  { intros i Hi; destruct (Hact i Hi) as (a & Ha & Hl & _); eauto. }
  pose proof (savings_nonneg self ad s0 Hs0 Hmax) as Hs.
  specialize (Hs ltac:(intros i Hi; destruct (Hact i Hi) as (a & Ha & _ & Hb);
                       eauto)).
  fold c in Hs.
  unfold locals; fold c; rewrite Hs0; cbn [bind].
  unfold correct_bgt at 1; cbv iota beta.
  change (map (fun row => fst (correct_row (n_capital c) row)) s0)
    with (fst (correct_bgt (n_capital c) s0)).
  set (s := fst (correct_bgt (n_capital c) s0)) in *.
  (* the capital bundles *)
  match goal with
  | |- exists v, bind (mapM ?f (range (n_hh c))) _ = Ok v =>
      destruct (mapM_range_total f (n_hh c)) as [bundle Hb]
  end.
  { intros i Hi.
    destruct (bundle_total c k i Hm Hlen Hpos Hi) as (b & Hb & _); eauto. }
  rewrite Hb; cbn [bind].
  assert (Hbpos : forall i, (i < n_hh c)%nat -> 0 < nth i bundle 0).
  { intros i Hi.
    destruct (mapM_range_nth _ _ _ Hb) as [_ Hnth].
    destruct (Hnth i Hi) as (b & Hbi & Hf).
    destruct (bundle_total c k i Hm Hlen Hpos Hi) as (b' & Hb' & Hb'pos).
    rewrite Hb' in Hf; injection Hf as <-.
    now rewrite (nth_error_nth _ _ 0 Hbi). }
  (* incomes *)
  match goal with
  | |- exists v, bind (mapM ?f (range (n_hh c))) _ = Ok v =>
      destruct (mapM_range_total f (n_hh c)) as [y Hy]
  end.
  { intros i Hi; rewrite py_pow_pos by now apply Hbpos.
    cbn [bind]; eauto. }
  rewrite Hy; cbn [bind].
  assert (Hynn : forall i, 0 <= nth i y 0).
  { intros i.
    destruct (mapM_range_nth _ _ _ Hy) as [Hylen Hnth].
    destruct (Nat.lt_ge_cases i (n_hh c)) as [Hi|Hi].
    - destruct (Hnth i Hi) as (x & Hx & Hf).
      rewrite py_pow_pos in Hf by now apply Hbpos.
      cbn [bind] in Hf; injection Hf as <-.
      rewrite (nth_error_nth _ _ 0 Hx).
      apply Rmult_le_pos; [apply Rmult_le_pos; [apply Hsh|exact Hagg]|].
      left; apply Rpower_pos.
    - rewrite nth_overflow by lia; lra. }
  (* investment *)
  match goal with
  | |- exists v, bind (mapM ?f (range (n_capital c))) _ = Ok v =>
      destruct (mapM_range_total f (n_capital c)) as [ij Hij]
  end.
  { intros j Hj.
    rewrite py_div_Ok by lra; cbn [bind].
    rewrite np_sqrt_Ok; [eauto|].
    apply Rmult_le_pos; [apply Rlt_le, Rdiv_lt_0_compat; lra|].
    rewrite nth_map_range by exact Hj.
    apply np_sum_nonneg; intros x Hx.
    apply in_map_iff in Hx; destruct Hx as (i & <- & Hi).
    apply in_seq in Hi.
    rewrite nth2_map_range by (lia || exact Hj).
    apply Rmult_le_pos; [apply Hs|apply Hynn]. }
  rewrite Hij; cbn [bind].
  eexists; reflexivity.
Qed.

Lemma choices_weighted (L u : nat) (weights : list R) :
  L <> O -> List.length weights = L -> 0 < np_sum weights ->
  choices (range L) (Some weights) u = Ok (u mod L)%nat.
Proof.
  intros HL Hlen Hsum; unfold choices.
  rewrite length_range, Hlen, Nat.eqb_refl; cbn [negb].
  destruct (Rle_dec (np_sum weights) 0) as [H|_]; [exfalso; lra|].
  assert (H : index (range L) (u mod L) = Ok (u mod L)%nat).
  { unfold index; rewrite nth_error_range; [reflexivity|].
    now apply Nat.mod_upper_bound. }
  destruct L as [|L]; [congruence|exact H].
Qed.

(** In the learning mode the next shock states are drawn, each among the
    states of its shock. *)
Lemma update_shock_learning (self : Env) (w : Oracle) (t : Z)
      (ids : list nat) (aid : nat) :
  capital_options_ok self ->
  let c := cfg self in
  List.length ids = n_hh c ->
  Forall (fun id => (id < List.length (shock_idtc_values c))%nat) ids ->
  (aid < List.length (shock_agg_values c))%nat ->
  exists ids' aid',
    update_shock self w t ids aid = Ok (ids', aid') /\
    List.length ids' = n_hh c /\
    Forall (fun id => (id < List.length (shock_idtc_values c))%nat) ids' /\
    (aid' < List.length (shock_agg_values c))%nat.
Proof.
  intros (Hev & Han & Hn & _ & _ & _ & _ & _ & _ & Hti & Hta) c Hlen Hids Haid.
  fold c in Hev, Han, Hn, Hti, Hta.
  unfold update_shock; fold c; rewrite Hev, Han.
  set (Li := List.length (shock_idtc_values c)) in *.
  set (La := List.length (shock_agg_values c)) in *.
  assert (HLi : forall i, (i < n_hh c)%nat -> Li <> O).
  { intros i Hi.
    destruct (nth_error ids i) as [id|] eqn:E;
      [|apply nth_error_None in E; lia].
    rewrite Forall_forall in Hids.
    pose proof (Hids id (nth_error_In _ _ E)); lia. }
  assert (Hf : forall i, (i < n_hh c)%nat ->
                 (id <- index ids i ;;
                  weights <- index (shock_idtc_transition c) id ;;
                  choices (range Li) (Some weights) (pick w i))
                 = Ok (pick w i mod Li)%nat).
  { intros i Hi.
    destruct (index_total ids i ltac:(lia)) as [id Hid].
    rewrite Hid; cbn [bind]; apply index_Ok in Hid.
    rewrite Forall_forall in Hids.
    destruct (Hti id (Hids id (nth_error_In _ _ Hid)))
      as (row & -> & Hrl & Hrs); cbn [bind].
    apply choices_weighted; [now apply (HLi i)|exact Hrl|exact Hrs]. }
  rewrite (mapM_ext _ (fun i => Ok (pick w i mod Li)%nat))
    by (intros i Hi; apply in_seq in Hi; apply Hf; lia).
  rewrite mapM_pure; cbn [bind].
  destruct (Hta aid Haid) as (row & -> & Hrl & Hrs); cbn [bind].
  rewrite choices_weighted by (lia || assumption); cbn [bind].
  eexists _, _; split; [reflexivity|].
  split; [now rewrite length_map, length_range|].
  split; [|apply Nat.mod_upper_bound; lia].
  apply Forall_forall; intros x Hx.
  apply in_map_iff in Hx; destruct Hx as (i & <- & Hi).
  apply in_seq in Hi; apply Nat.mod_upper_bound, (HLi i); lia.
Qed.


(** One [step] of an episode in the learning mode. *)
Lemma learning_step (self : Env) (w : Oracle) (ad : dict string (list R)) :
  capital_options_ok self -> capital_state_ok self ->
  capital_actions_ok (cfg self) ad ->
  exists self' ret,
    step self w ad = Ok (self', ret) /\
    cfg self' = cfg self /\
    capital_options_ok self' /\ capital_state_ok self'.
Proof.
  intros Hopt (t & o & k & ids & aid & Ht & Hobs & H0 & Hklen & Hkpos
               & Hilen & Hids & Haid) Hact.
  pose proof Hopt as (Hev & Han & Hn & Hm & Hphi & Hmax & Hdelta & Hvi & Hva
                      & _ & _).
  (* the shock values *)
  destruct (mapM_range_total
              (fun i => id <- index ids i ;;
                        index (shock_idtc_values (cfg self)) id)
              (n_hh (cfg self))) as [sh Hsh].
  { intros i Hi.
    destruct (index_total ids i ltac:(lia)) as [id Hid].
    rewrite Hid; cbn [bind]; apply index_Ok in Hid.
    rewrite Forall_forall in Hids.
    apply index_total, Hids; eapply nth_error_In; exact Hid. }
  destruct (index_total (shock_agg_values (cfg self)) aid Haid)
    as [agg Hagg].
  assert (Hagg0 : 0 <= agg).
  { apply index_Ok in Hagg; rewrite Forall_forall in Hva.
    apply Hva; eapply nth_error_In; exact Hagg. }
  pose proof (shock_values_nonneg (cfg self) ids sh Hvi Hsh) as Hsh0.
  destruct (locals_total self k sh agg ad Hm Hphi Hmax Hklen Hkpos Hsh0
              Hagg0 Hact) as [v Hv].
  destruct (update_shock_learning self w (t + 1) ids aid Hopt Hilen Hids Haid)
    as (ids' & aid' & Hupd & Hilen' & Hids' & Haid').
  destruct (k_ij_new_shape _ _ _ _ _ _ Hv) as [Hrows Hcols].
  destruct (reorganize_total (n_hh (cfg self)) (k_ij_new v) ids' aid'
              Hrows Hilen') as [o' Ho'].
  assert (Hstep : step self w ad
                  = Ok (set_state self (t + 1) o',
                        {| obs := o';
                           rew := map (fun i => (fstr "hh_" i,
                                                 np_mean (utility_i v)))
                                      (range (n_hh (cfg self)));
                           done := if (t + 1 <? horizon (cfg self))%Z
                                   then [("__all__"%string, false)]
                                   else [("__all__"%string, true)];
                           info := create_info self v |})).
  { unfold step; rewrite Ht, Hobs; cbn [bind attr].
    rewrite H0; cbn [bind].
    rewrite Hsh, Hagg; cbn [bind].
    rewrite Hv; cbn [bind].
    rewrite Hupd; cbn [bind].
    rewrite Ho'; reflexivity. }
  eexists _, _; split; [exact Hstep|].
  split; [reflexivity|]; split; [exact Hopt|].
  destruct (reorganize_views _ _ _ _ _ Ho' 0%nat ltac:(lia))
    as (kv & sv & Hkv & Hsv & Hget).
  apply self_first_view_0 in Hkv, Hsv; subst kv sv.
  change (fstr "hh_" 0) with "hh_0"%string in Hget.
  exists (t + 1)%Z, o', (flatten (k_ij_new v)), ids', aid'.
  cbn [timestep obs_ set_state cfg].
  repeat split; try assumption.
  - unfold flatten.
    now rewrite (concat_length_rows (n_capital (cfg self))), Hrows.
  - destruct (stocks_stay_positive _ _ _ _ _ o k ids aid Hstep Hobs H0
                Hklen Hkpos Hmax Hdelta Hvi Hva) with (i := 0%nat)
      as (k' & ids'' & aid'' & Hget' & _ & Hpos'); [|lia|].
    + intros i Hi a x Ha Hx.
      destruct (Hact i Hi) as (a' & Ha' & _ & Hb).
      rewrite Ha in Ha'; injection Ha' as <-; now apply Hb.
    + cbn [obs] in Hget'.
      change (fstr "hh_" 0) with "hh_0"%string in Hget'.
      rewrite Hget in Hget'; now injection Hget' as <- _ _.
Qed.

(** An episode in the learning mode, from a state that is ready. *)
Lemma learning_run (inputs : list (Oracle * dict string (list R))) :
  forall self : Env,
  capital_options_ok self -> capital_state_ok self ->
  (forall w ad, In (w, ad) inputs -> capital_actions_ok (cfg self) ad) ->
  exists selfN rets,
    Episode.run_capital self inputs = Ok (selfN, rets) /\
    List.length rets = List.length inputs /\
    capital_state_ok selfN.
Proof.
  induction inputs as [|[w ad] inputs IH]; intros self Hopt Hst Hin.
  - exists self, []; cbn [Episode.run_capital]; auto.
  - destruct (learning_step self w ad Hopt Hst (Hin w ad (or_introl eq_refl)))
      as (self1 & r1 & Hstep & Hc1 & Hopt1 & Hst1).
    destruct (IH self1 Hopt1 Hst1) as (selfN & rets & Hrun & Hlen & HstN).
    { intros w' ad' H'; rewrite Hc1; apply (Hin w' ad'); now right. }
    exists selfN, (r1 :: rets).
    cbn [Episode.run_capital]; rewrite Hstep; cbn [bind].
    rewrite Hrun; cbn [bind List.length].
    repeat split; [lia|exact HstN].
Qed.

(** After [reset] in the learning mode the state is ready. *)
Lemma learning_reset (self : Env) (w : Oracle) :
  capital_options_ok self ->
  let c := cfg self in
  0 < k_ss self -> (forall i, 0 <= unit01 w i) ->
  shock_idtc_values c <> [] ->
  (List.length (shock_idtc_values c) <= List.length (shock_agg_values c))%nat ->
  exists self0 o,
    reset self w = Ok (self0, o) /\
    cfg self0 = c /\ capital_options_ok self0 /\ capital_state_ok self0.
Proof.
  intros Hopt c Hk Hu Hval Hlen.
  pose proof Hopt as (Hev & Han & Hn & _).
  destruct (reset_learning self w Hev Han Hval) as (o & Hreset & Ho).
  fold c in Ho.
  exists (set_state self 0 o), o; split; [exact Hreset|].
  split; [reflexivity|]; split; [exact Hopt|].
  destruct (reorganize_views _ _ _ _ _ Ho 0%nat Hn)
    as (kv & sv & Hkv & Hsv & Hget).
  apply self_first_view_0 in Hkv, Hsv; subst kv sv.
  change (fstr "hh_" 0) with "hh_0"%string in Hget.
  set (k_init := map (fun i => uniform (k_ss self * 0.5) (k_ss self * 1.25)
                                       (unit01 w i))
                     (range (n_hh c * n_capital c))) in *.
  assert (Hklen : List.length k_init = (n_hh c * n_capital c)%nat)
    by (unfold k_init; now rewrite length_map, length_range).
  assert (HL : List.length (shock_idtc_values c) <> O)
    by (destruct (shock_idtc_values c); simpl; congruence).
  eexists 0%Z, o, _, _, _.
  cbn [timestep obs_ set_state cfg]; fold c.
  split; [reflexivity|]; split; [reflexivity|]; split; [exact Hget|].
  repeat split.
  - unfold flatten.
    rewrite (concat_length_rows (n_capital c)), per_household_length;
      [reflexivity|].
    intros row Hrow; now destruct (per_household_rows c k_init row Hklen Hrow).
  - apply Forall_forall; intros x Hx.
    apply in_concat in Hx; destruct Hx as (row & Hrow & Hx).
    destruct (per_household_rows c k_init row Hklen Hrow) as [_ Hin].
    apply Hin in Hx; unfold k_init in Hx.
    apply in_map_iff in Hx; destruct Hx as (j & <- & _).
    unfold uniform; pose proof (Hu j); nra.
  - now rewrite length_map, length_range.
  - apply Forall_forall; intros x Hx.
    apply in_map_iff in Hx; destruct Hx as (j & <- & _).
    now apply Nat.mod_upper_bound.
  - pose proof (Nat.mod_upper_bound (pick w (n_hh c))
                  (List.length (shock_idtc_values c)) HL); lia.
Qed.

(** X26.  An episode in the learning mode never fails, however long.  With
    options as in [capital_options_ok], a positive steady state, at least
    as many aggregate as idiosyncratic shock values and uniform draws that
    are not negative, [reset] returns, and then every [step] returns as
    long as every household's action has [n_capital] components, none
    below [-1]: also beyond the horizon, where [step] goes on reporting the
    episode done. *)
Theorem capital_learning_episode_never_fails
        (self : Env) (w : Oracle)
        (inputs : list (Oracle * dict string (list R))) :
  capital_options_ok self ->
  let c := cfg self in
  0 < k_ss self -> (forall i, 0 <= unit01 w i) ->
  shock_idtc_values c <> [] ->
  (List.length (shock_idtc_values c) <= List.length (shock_agg_values c))%nat ->
  (forall w' ad, In (w', ad) inputs -> capital_actions_ok c ad) ->
  exists self0 o selfN rets,
    reset self w = Ok (self0, o) /\
    Episode.run_capital self0 inputs = Ok (selfN, rets) /\
    List.length rets = List.length inputs /\
    capital_state_ok selfN.
Proof.
  intros Hopt c Hk Hu Hval Hlen Hin.
  destruct (learning_reset self w Hopt Hk Hu Hval Hlen)
    as (self0 & o & Hreset & Hc0 & Hopt0 & Hst0).
  destruct (learning_run inputs self0 Hopt0 Hst0)
    as (selfN & rets & Hrun & Hl & HstN).
  { intros w' ad H'; rewrite Hc0; now apply (Hin w' ad). }
  exists self0, o, selfN, rets; repeat split; assumption.
Qed.

Lemma example_default_options : capital_options_ok example_default.
Proof.
  unfold capital_options_ok; cbn.
  repeat split; try reflexivity; try lia; try lra;
    try (repeat constructor; lra).
  - intros [|[|id]] Hid; [| |lia]; eexists; cbn;
      (split; [reflexivity|split; [reflexivity|]]);
      unfold np_sum; cbn [fold_right]; lra.
  - intros [|[|id]] Hid; [| |lia]; eexists; cbn;
      (split; [reflexivity|split; [reflexivity|]]);
      unfold np_sum; cbn [fold_right]; lra.
Qed.

Lemma capital_learning_episode_never_fails_witness :
  exists self0 o selfN rets,
    reset example_default zeros = Ok (self0, o) /\
    Episode.run_capital self0
      [(zeros, [("hh_0"%string, [0])]); (ones, [("hh_0"%string, [1])])]
    = Ok (selfN, rets) /\
    List.length rets = 2%nat.
Proof.
  destruct (capital_learning_episode_never_fails example_default zeros
              [(zeros, [("hh_0"%string, [0])]);
               (ones, [("hh_0"%string, [1])])] example_default_options)
    as (self0 & o & selfN & rets & Hreset & Hrun & Hlen & _);
    try (cbn; lra); try (cbn; lia); try discriminate.
  - intros i; cbn; lra.
  - intros w' ad Hin i Hi.
    assert (i = 0%nat) as -> by (cbn in Hi; lia).
    destruct Hin as [E | [E | Hf]]; [| |contradiction];
      injection E as _ <-; eexists; (split; [reflexivity|]);
      (split; [cbn; lia|]); intros x [<- | Hf]; (lra || contradiction).
  - exists self0, o, selfN, rets; repeat split; assumption.
Defined.

End CapitalEpisodes.

(** ** Calling [step] before [reset] *)

Module FamilyMore.

(** X27.  [step] before the first [reset].  The capital planner and
    Townsend leave their timestep at [None], so that a [step] on a freshly
    constructed instance raises [TypeError] when it increments it;
    [Durable_sgm] has no observation yet and raises [AttributeError];
    [DiffDemandDiscrete] needs no [reset]: its constructor already sets
    the step counter that [step] reads, and [step] does what it does
    after a [reset]. *)
Theorem step_before_reset :
  (forall c self w ad,
     Capital_planner_ma.init c = Ok self ->
     Capital_planner_ma.step self w ad = Raise TypeError) /\
  (forall rng c ws self w ad,
     Townsend.init rng c ws = Ok self ->
     Townsend.step self w ad = Raise TypeError) /\
  (forall c action,
     Durable_sgm.step (Durable_sgm.init c) action
     = Raise (AttributeError "obs_")) /\
  (forall c ad,
     DiffDemandDiscrete.step (DiffDemandDiscrete.init c) ad
     = DiffDemandDiscrete.step
         (fst (DiffDemandDiscrete.reset (DiffDemandDiscrete.init c))) ad).
Proof.
  split; [|split; [|split]].
  - intros c self w ad Hinit.
    assert (Ht : Capital_planner_ma.timestep self = None).
    { unfold Capital_planner_ma.init in Hinit.
      apply bind_Ok_inv in Hinit; destruct Hinit as [a [_ H]].
      apply bind_Ok_inv in H; destruct H as [b [_ H]].
      apply bind_Ok_inv in H; destruct H as [e [_ H]].
      apply bind_Ok_inv in H; destruct H as [kss [_ H]].
      apply bind_Ok_inv in H; destruct H as [m [_ H]].
      apply bind_Ok_inv in H; destruct H as [ev [_ H]].
      apply bind_Ok_inv in H; destruct H as [an [_ H]].
      now injection H as <-. }
    unfold Capital_planner_ma.step; now rewrite Ht.
  - intros rng c ws self w ad Hinit.
    assert (Ht : Townsend.timestep self = None).
    { unfold Townsend.init in Hinit.
      apply bind_Ok_inv in Hinit; destruct Hinit as [agg [_ H]].
      apply bind_Ok_inv in H; destruct H as [idtc [_ H]].
      destruct (Townsend.normalize c).
      - rewrite TownsendProps.townsend_random_sample_raises in H;
          [discriminate|reflexivity|lia].
      - now injection H as <-. }
    unfold Townsend.step; now rewrite Ht.
  - reflexivity.
  - reflexivity.
Qed.

Lemma step_before_reset_witness :
  Capital_planner_ma.step Capital_planner_ma.example zeros
                          Capital_planner_ma.example_actions
  = Raise TypeError.
Proof.
  destruct step_before_reset as [H _].
  exact (H _ _ zeros Capital_planner_ma.example_actions
           CapitalProps.example_init).
Defined.

End FamilyMore.
